(* ===== verification/_CoqProject ===== *)
-Q . S2P
Prelude.v
Word.v
NList.v
Stacks.v
StackSpec.v
UserPrograms.v
UserProgramsSpec.v
Bitmap.v
Machine.v
Mips.v
MipsTrap.v
MipsDemo.v
Execute.v
ExecuteSpec.v
Coro.v
Interrupt.v
Threads.v
Synch.v
Alone.v
Devices.v
ConsoleTest.v
ConsoleSpec.v
ThreadTest.v
Elevator.v
Network.v
NetworkSpec.v
PostSpec.v
DeliverSpec.v
Disk.v
SynchDisk.v
BlockDevice.v
SynchDiskSpec.v
FileHdr.v
OpenFile.v
Directory.v
FileSys.v
FsOps.v
FsSpec.v
FsTest.v
FsTestSpec.v
FsDemo.v
UserState.v
UnixFs.v
MemoryMgr.v
AddrSpace.v
Pcb.v
Coff.v
CoffSpec.v
Flat.v
Disasm.v
DisasmSpec.v
Out.v
OutSpec.v
CommandLine.v
CommandLineSpec.v
OldTests.v
Debugger.v
CondCodes.v
Exceptions.v
ExecSpec.v
Shell.v
Logic.v
KernelState.v
KernelLogic.v
ThreadTestLogic.v
ElevatorSpec.v
ThreadTestSpec.v
UserDemo.v
VmSpec.v
VmDemo.v
UserCopySpec.v
