(* ===== verification/Prelude.v ===== *)
(** * Nachos 3.4 (COP 5614): verification library

    Nachos is a teaching kernel that runs, with the machine it manages, as one
    UNIX process.  Its sources are under src/nachos-3.4/code/; the examples of
    the C++ course notes are under src/nachos-3.4/c++example/.  The library
    follows them file by file: one operation of the source is one definition
    with the same name.  The host is the one of the Makefiles: an i386, little
    endian, 32-bit [int]s that gcc wraps around; the symbol CHANGED is defined.

    ** The parts and how they interact

    - threads/: lists (NList), the scheduler and its threads (Threads),
      semaphores, locks, conditions and synchronized lists (Synch), the test
      programs and the start of a kernel of threads (ThreadTest, Elevator),
      three older tests (OldTests), and what the loops over argv of
      [Initialize] and [main] make of a command line, in the build of each
      Makefile (CommandLine).
    - machine/: the simulated hardware.  32-bit arithmetic is in Word,
      registers, memory and translation in Machine, the instructions in Mips,
      time and interrupts in Interrupt, timer and console in Devices, the disk
      in Disk, the network in Network.  Disasm has the trace of the
      instructions, and Debugger the debugger of [Machine::Run] with what it
      prints of the machine and of the pending interrupts.
    - filesys/: the disk behind a lock (SynchDisk), headers (FileHdr), open
      files (OpenFile), directories (Directory), the file system (FileSys)
      and its tests (FsTest).
    - userprog/: bit maps (Bitmap), the state for user programs (UserState),
      the host's files that stand for the file system there (UnixFs, because
      userprog/Makefile defines FILESYS_STUB), process numbers and frames
      (MemoryMgr), address spaces with demand paging and copy on write
      (AddrSpace), processes and their open files (Pcb), system calls,
      exceptions and the loop that runs user programs (Exceptions), and the
      test of the console (ConsoleTest).
    - network/: the post office and its test (Network).
    - bin/: the converters of object files, coff2noff.c (Coff) and
      coff2flat.c (Flat), the stand-alone interpreter of MIPS programs,
      execute.c with the system calls of system.c (Execute; its macros for
      condition codes in CondCodes), the disassembler, d.c and opstrings.c
      with the loop of disasm.c (Disasm), and all that out.c prints (Out).
    - test/: sort.c and matmult.c, what they compute (UserPrograms), and the
      shell, as the system calls it makes of what is typed (Shell).
    - c++example/: the stacks and the list (Stacks).

    Sequential code is in the monad [M S] of this file: state passing with
    [fault]s.  A pointer that is NULL or to a deleted object, an index out of
    its array and a failed ASSERT are faults, never silent.  Code that can
    lose the processor (it reaches [SetLevel], [Yield] or [Sleep]) is a [code]
    of file Coro: a tree of atomic actions, procedure calls, loops and
    switches to other threads; a configuration of threads makes steps, and
    [Interrupt] and [Threads] define the procedures over it.  The file system
    uses the disk through the class [BlockDevice]; the user programs' kernel
    uses files through the class [Files]; the rest of the kernel state is
    reached through small classes of accessors ([HasHardware], [HasDisk],
    [Userland], ...), so that each part is defined once for every build.

    ** What is shown

    - Interpreter: every instruction keeps the machine well-formed, completes
      or traps without a trace, and computes what the architecture says, but
      for OR, SRL and SRLV (Mips, MipsTrap; witnesses in MipsDemo).  The
      interpreter of bin/execute.c agrees with it (ExecuteSpec).
    - Memory: translation, isolation of frames, loads after stores (Machine).
    - Lists, bit maps and directories refine lists, sets and finite maps for
      every sequence of operations (NList, Bitmap, Directory).
    - Disk: one request, one sector, one interrupt, the exact time (Disk).
      Alone has the rules for a thread that waits for a device while no other
      can run, through the idle loop, the interrupt and its handlers, and the
      switch back; with them the synchronous disk refines the sequential
      device that the file system is proved against (BlockDevice,
      SynchDiskSpec), and the test of the console echoes what is typed
      (ConsoleSpec).
    - Network: a mail arrives with the bytes it was sent with (NetworkSpec),
      the post office of a thread that is alone sends it, through the lock,
      the end of the transmission and the polls in between (PostSpec), and the
      postal worker of the other machine puts it into its mail box; a packet
      that is shorter than the mail in it gets there with bytes of another one
      (DeliverSpec).
    - File system: [fs_repr] relates the disk to a finite map from names to
      contents; formatting, Create, Open, Remove, reads and writes are
      operations on this map (FileHdr, OpenFile, FileSys, FsOps, FsSpec;
      witnesses in FsDemo), and so are its own tests (FsTest, FsTestSpec).
    - Threads: Logic is a rely/guarantee program logic for [code], with a
      structural weakest precondition and a soundness theorem over all steps
      of all threads.  KernelState and KernelLogic give the kernel's own
      operations their specifications in it, for any client program (class
      [Client]).  ThreadTestLogic and ThreadTestSpec use it: the test programs
      have no races under any schedule.  The elevator goes on to the next stop
      of its round trip where it is needed (ElevatorSpec).  ThreadTestSpec also
      has runs without the timer, in which the programs end and the elevator
      delivers.
    - User programs: what a page holds survives paging and copy on write
      (VmSpec, VmDemo), copies between kernel and process are copies of one
      flat array (UserCopySpec), and Exec replaces its caller, to which it
      never returns (ExecSpec; inversion over [Coro.returns], the runs of a
      [code] that end).  UserDemo has runs of a few MIPS programs, from their
      executable to the halt.  coff2noff writes executables that hold the
      sections of their COFF files (CoffSpec), and coff2flat images that are
      the memory of the program where its sections lie in order (Flat).
      sort.c does not sort, matmult.c multiplies (UserProgramsSpec), and the
      shell ends with the first program that it starts (Shell).
    - What is printed: the disassembler and the trace of the machine agree on
      every instruction but for the exceptions of a table (DisasmSpec); out.c
      prints every word of a section, with the relocations in their column
      (OutSpec).
    - The command line: a list of options is read back from the arguments it
      is written as, and a build with the threads assignment performs no
      command (CommandLineSpec).
    - Examples: class [IsStack] says what a class derived from [Stack]
      promises; the array and the list keep it, and the self test is proved
      against it (StackSpec).

    ** Bounds and fuel

    A loop of a [code] needs no fuel: it is unrolled by the steps.  Counted
    loops of the source recurse on the number of rounds.  The remaining loops
    take a fuel that their theorems show to be enough ([OutOfFuel] is never
    reached): list traversals the number of cells, the search of the elevator
    the number of its indices, the loops of fstest.cc the length of the file.
    The runs of whole programs are stated as "some number of steps gives this
    end", so that they say that the end is reached.

    ** Not modelled

    What DEBUG and PrintPCB print; which messages are enabled is in
    CommandLine.  The context switch (threads/switch.s and switch.h), whose
    effect is the [Switch] of file Coro.  UNIX itself: sockets, select,
    signals, rand, the terminal; where the kernel uses their answers these are
    parameters.  Cleanup and the destructors that it calls, behind which the
    process ends.  How bin/out.c, bin/disasm.c and bin/main.c read an object
    file, which depends on headers of the system and on the ldopen library;
    the reports of bin/execute.c on its histograms.  The C programs of test/
    that only make a few system calls: a cross compiler that is not in the
    tree translates them.
*)
From Stdlib Require Export ZArith Lia.
From stdpp Require Export base numbers list gmap option.

#[export] Set Default Goal Selector "!".
#[export] Set Warnings "-clear-no-such-hyp".

Declare Scope nachos_scope.
Delimit Scope nachos_scope with nachos.
#[global] Open Scope Z_scope.
#[global] Open Scope nachos_scope.

(** ** Faults and results

    A C++ operation of the kernel either returns, or stops the whole
    simulation.  [Halted] is the regular end, [Exit(0)] in [Interrupt::Halt].
    [AssertFailed] is the [ASSERT] macro of threads/utility.h (print and
    [Abort()]) and [Abort()] itself; [NullDeref] (also of a pointer to an
    object that was deleted), [OutOfBounds] and [DivOverflow] are accesses and
    operations for which C++ gives no behaviour at all.
    [OutOfFuel] is not a behaviour of the program: it is what a loop of the
    model answers when its fuel is too small, and the theorems about such a
    loop show that it is never reached. *)

Inductive fault :=
  | AssertFailed
  | NullDeref
  | OutOfBounds
  | DivOverflow
  | OutOfFuel
  | Halted.

#[export] Instance fault_eq_dec : EqDecision fault.
Proof. solve_decision. Defined.

Inductive res (A : Type) :=
  | Ok (a : A)
  | Fault (f : fault).
Arguments Ok {A} a.
Arguments Fault {A} f.

#[export] Instance res_ret : MRet res := @Ok.
#[export] Instance res_bind : MBind res := λ A B k m,
  match m with Ok a => k a | Fault f => Fault f end.
#[export] Instance res_fmap : FMap res := λ A B k m,
  match m with Ok a => Ok (k a) | Fault f => Fault f end.

Definition is_ok {A} (m : res A) : bool :=
  match m with Ok _ => true | Fault _ => false end.

(** [ASSERT(condition)] of threads/utility.h. *)
Definition ASSERT (condition : bool) : res unit :=
  if condition then Ok tt else Fault AssertFailed.

(** Dereferencing a pointer: [None] is [NULL]. *)
Definition deref {A} (p : option A) : res A :=
  match p with Some a => Ok a | None => Fault NullDeref end.

(** ** C arrays: a list with a [Z] index, faulting outside its bounds *)

Definition aget {A} (l : list A) (i : Z) : option A :=
  if 0 <=? i then l !! Z.to_nat i else None.

Definition aread {A} (l : list A) (i : Z) : res A :=
  match aget l i with Some x => Ok x | None => Fault OutOfBounds end.

Definition awrite {A} (l : list A) (i : Z) (x : A) : res (list A) :=
  match aget l i with
  | Some _ => Ok (<[Z.to_nat i := x]> l)
  | None => Fault OutOfBounds
  end.

Definition zlen {A} (l : list A) : Z := Z.of_nat (length l).

(** Copies between buffers: the [n] elements from index [a] on, and the array
    with the elements from index [a] on replaced by [bs]. *)
Definition slice {A} (a n : nat) (l : list A) : list A := take n (drop a l).
Definition splice {A} (a : nat) (bs l : list A) : list A :=
  take a l ++ bs ++ drop (a + length bs) l.

(** [Forall] of a decided property on a concrete list. *)
Ltac forall_done :=
  repeat first [apply list.Forall_nil; exact I | apply list.Forall_cons; split; [done|]].

(** ** A state monad with faults *)

Definition M (S A : Type) : Type := S → res (A * S).

#[export] Instance M_ret S : MRet (M S) := λ A a s, Ok (a, s).
#[export] Instance M_bind S : MBind (M S) := λ A B k m s,
  match m s with
  | Ok (a, s') => k a s'
  | Fault f => Fault f
  end.
#[export] Instance M_fmap S : FMap (M S) := λ A B k m s,
  match m s with
  | Ok (a, s') => Ok (k a, s')
  | Fault f => Fault f
  end.

Definition get {S} : M S S := λ s, Ok (s, s).
Definition gets {S A} (f : S → A) : M S A := λ s, Ok (f s, s).
Definition put {S} (s' : S) : M S unit := λ _, Ok (tt, s').
Definition modify {S} (f : S → S) : M S unit := λ s, Ok (tt, f s).
Definition fail {S A} (f : fault) : M S A := λ _, Fault f.
Definition lift {S A} (r : res A) : M S A := λ s,
  match r with Ok a => Ok (a, s) | Fault f => Fault f end.
Definition when {S} (b : bool) (m : M S unit) : M S unit :=
  if b then m else mret tt.

(** [for (int i = lo; i < hi; i++) body] as [for_ n i body] with
    [n = hi - lo] rounds. *)
Fixpoint for_ {S} (n : nat) (i : Z) (body : Z → M S unit) : M S unit :=
  match n with
  | O => mret tt
  | Datatypes.S n' => body i ;; for_ n' (i + 1) body
  end.

Definition for_range {S} (lo hi : Z) (body : Z → M S unit) : M S unit :=
  for_ (Z.to_nat (hi - lo)) lo body.

(** A [for] loop whose body may [return]: [Some] is the returned value. *)
Fixpoint for_return {S R} (n : nat) (i : Z) (body : Z → M S (option R))
    : M S (option R) :=
  match n with
  | O => mret None
  | Datatypes.S n' =>
      r ← body i;
      match r with Some x => mret (Some x) | None => for_return n' (i + 1) body end
  end.

(** ** Weakest preconditions

    [wp m s Q]: running [m] from [s] does not fault, and the value and
    state it ends with satisfy [Q].  Total: a faulting run satisfies no
    [wp]. *)

Definition wp {S A} (m : M S A) (s : S) (Q : A → S → Prop) : Prop :=
  match m s with
  | Ok (a, s') => Q a s'
  | Fault _ => False
  end.

Section wp_rules.
Context {S : Type}.

Lemma wp_ret {A} (a : A) (s : S) Q : Q a s → wp (mret a) s Q.
Proof. done. Qed.

Lemma wp_bind {A B} (m : M S A) (k : A → M S B) s Q :
  wp m s (λ a s', wp (k a) s' Q) → wp (m ≫= k) s Q.
Proof. unfold wp, mbind, M_bind. by destruct (m s) as [[? ?]|]. Qed.

Lemma wp_mono {A} (m : M S A) s (Q Q' : A → S → Prop) :
  wp m s Q → (∀ a s', Q a s' → Q' a s') → wp m s Q'.
Proof. unfold wp. destruct (m s) as [[? ?]|]; auto. Qed.

Lemma wp_get (s : S) Q : Q s s → wp get s Q.
Proof. done. Qed.
Lemma wp_gets {A} (f : S → A) s Q : Q (f s) s → wp (gets f) s Q.
Proof. done. Qed.
Lemma wp_put (s s' : S) Q : Q tt s' → wp (put s') s Q.
Proof. done. Qed.
Lemma wp_modify (f : S → S) s Q : Q tt (f s) → wp (modify f) s Q.
Proof. done. Qed.

Lemma wp_lift {A} (r : res A) (s : S) Q a :
  r = Ok a → Q a s → wp (lift r) s Q.
Proof. by intros ->. Qed.

Lemma wp_assert (b : bool) (s : S) (Q : unit → S → Prop) :
  b = true → Q tt s → wp (lift (ASSERT b)) s Q.
Proof. by intros ->. Qed.

Lemma wp_when (b : bool) (m : M S unit) s Q :
  (b = true → wp m s Q) → (b = false → Q tt s) → wp (when b m) s Q.
Proof. unfold when. destruct b; [by auto|]. intros _ H. by apply wp_ret, H. Qed.

Lemma wp_elim {A} (m : M S A) s Q :
  wp m s Q ↔ ∃ a s', m s = Ok (a, s') ∧ Q a s'.
Proof.
  unfold wp. destruct (m s) as [[a s']|f]; split.
  - eauto.
  - by intros (? & ? & [= -> ->] & ?).
  - done.
  - by intros (? & ? & ? & ?).
Qed.

(** Counted loops: an invariant indexed by the loop counter. *)
Lemma wp_for (I : Z → S → Prop) (body : Z → M S unit) n lo s :
  I lo s →
  (∀ i s, lo ≤ i < lo + Z.of_nat n → I i s →
          wp (body i) s (λ _ s', I (i + 1) s')) →
  wp (for_ n lo body) s (λ _ s', I (lo + Z.of_nat n) s').
Proof.
  revert lo s. induction n as [|n IH]; intros lo s H0 Hstep; simpl for_.
  - apply wp_ret. by rewrite Z.add_0_r.
  - apply wp_bind. eapply wp_mono; [apply Hstep; [lia|done]|].
    intros [] s' H'. eapply wp_mono; [apply (IH (lo + 1))|].
    + done.
    + intros i s1 Hi. apply Hstep. lia.
    + intros [] s2. cbn beta.
      by replace (lo + 1 + Z.of_nat n) with (lo + Z.of_nat (Datatypes.S n)) by lia.
Qed.

Lemma wp_for_range (I : Z → S → Prop) (body : Z → M S unit) lo hi s :
  lo ≤ hi →
  I lo s →
  (∀ i s, lo ≤ i < hi → I i s → wp (body i) s (λ _ s', I (i + 1) s')) →
  wp (for_range lo hi body) s (λ _ s', I hi s').
Proof.
  intros Hle H0 Hstep. unfold for_range.
  eapply wp_mono; [apply (wp_for I)|].
  - done.
  - intros i s1 Hi. apply Hstep. lia.
  - intros [] s1. cbn beta. by replace (lo + Z.of_nat (Z.to_nat (hi - lo))) with hi by lia.
Qed.

(** The same for loops that may return; [Q] holds of what they return. *)
Lemma wp_for_return {R} (I : Z → S → Prop) (Q : Z → R → S → Prop)
    (body : Z → M S (option R)) n lo s :
  I lo s →
  (∀ i s, lo ≤ i < lo + Z.of_nat n → I i s →
          wp (body i) s (λ r s', match r with
                                 | Some x => Q i x s' | None => I (i + 1) s' end)) →
  wp (for_return n lo body) s
     (λ r s', match r with
              | Some x => ∃ i, lo ≤ i < lo + Z.of_nat n ∧ Q i x s'
              | None => I (lo + Z.of_nat n) s' end).
Proof.
  revert lo s. induction n as [|n IH]; intros lo s H0 Hstep; simpl for_return.
  - apply wp_ret. by rewrite Z.add_0_r.
  - apply wp_bind. eapply wp_mono; [apply Hstep; [lia|done]|].
    intros [x|] s' H'.
    + apply wp_ret. exists lo. split; [lia|done].
    + eapply wp_mono; [apply (IH (lo + 1))|].
      * done.
      * intros i s1 Hi. apply Hstep. lia.
      * intros [x|] s2; cbn beta iota.
        -- intros (i & Hi & HQ). exists i. split; [lia|done].
        -- by replace (lo + 1 + Z.of_nat n) with (lo + Z.of_nat (Datatypes.S n)) by lia.
Qed.
End wp_rules.

(** Running a composed computation to a known end, and inverting it. *)

Lemma M_bind_Ok {S A B} (m : M S A) (k : A → M S B) s b s' :
  (m ≫= k) s = Ok (b, s') ↔
  ∃ a s1, m s = Ok (a, s1) ∧ k a s1 = Ok (b, s').
Proof.
  unfold mbind, M_bind. destruct (m s) as [[a s1]|f]; split.
  - intros H. by exists a, s1.
  - by intros (? & ? & [= -> ->] & ?).
  - done.
  - by intros (? & ? & ? & ?).
Qed.

Lemma res_bind_Ok {A B} (m : res A) (k : A → res B) b :
  m ≫= k = Ok b ↔ ∃ a, m = Ok a ∧ k a = Ok b.
Proof.
  destruct m as [a|f]; simpl; split.
  - intros H. by exists a.
  - by intros (? & [= ->] & ?).
  - done.
  - by intros (? & ? & ?).
Qed.

Lemma M_bind_step {S A B} (m : M S A) (k : A → M S B) s a s1 :
  m s = Ok (a, s1) → (m ≫= k) s = k a s1.
Proof. unfold mbind, M_bind. by intros ->. Qed.

Lemma M_bind_fault {S A B} (m : M S A) (k : A → M S B) s f :
  m s = Fault f → (m ≫= k) s = Fault f.
Proof. unfold mbind, M_bind. by intros ->. Qed.

(** The monad laws, on runs. *)

Lemma M_bind_assoc {S A B C} (m : M S A) (k : A → M S B) (k' : B → M S C) s :
  ((m ≫= k) ≫= k') s = (m ≫= (λ x, k x ≫= k')) s.
Proof. unfold mbind, M_bind. by destruct (m s) as [[? ?]|]. Qed.

Lemma M_ret_bind {S A B} (a : A) (k : A → M S B) s : ((mret a : M S A) ≫= k) s = k a s.
Proof. done. Qed.

Lemma M_bind_if {S A B} (b : bool) (x y : M S A) (k : A → M S B) s :
  ((if b then x else y) ≫= k) s = (if b then x ≫= k else y ≫= k) s.
Proof. by destruct b. Qed.

(** ** Arrays *)

Section arrays.
Context {A : Type}.
Implicit Types (l : list A) (i j : Z) (x y : A).

Lemma aget_Some_lt l i x : aget l i = Some x → 0 ≤ i < zlen l.
Proof.
  unfold aget, zlen. case (Z.leb_spec 0 i); [|done].
  intros ? H%lookup_lt_Some. lia.
Qed.

Lemma aget_lt_is_Some l i : 0 ≤ i < zlen l → is_Some (aget l i).
Proof.
  unfold aget, zlen. intros Hi. case (Z.leb_spec 0 i); [|lia].
  intros _. apply lookup_lt_is_Some. lia.
Qed.

Lemma aget_None l i : aget l i = None ↔ ¬ (0 ≤ i < zlen l).
Proof.
  split.
  - intros H Hi. destruct (aget_lt_is_Some l i Hi) as [x Hx]. congruence.
  - intros H. destruct (aget l i) eqn:E; [|done].
    by apply aget_Some_lt in E.
Qed.

Lemma aread_Ok l i x : aread l i = Ok x ↔ aget l i = Some x.
Proof. unfold aread. destruct (aget l i); naive_solver. Qed.

Lemma aread_total l i : 0 ≤ i < zlen l → ∃ x, aread l i = Ok x ∧ aget l i = Some x.
Proof.
  intros [x Hx]%aget_lt_is_Some. exists x. unfold aread. by rewrite Hx.
Qed.

Lemma awrite_total l i x :
  0 ≤ i < zlen l → awrite l i x = Ok (<[Z.to_nat i := x]> l).
Proof.
  intros [y Hy]%aget_lt_is_Some. unfold awrite. by rewrite Hy.
Qed.

Lemma awrite_Ok l l' i x :
  awrite l i x = Ok l' → 0 ≤ i < zlen l ∧ l' = <[Z.to_nat i := x]> l.
Proof.
  unfold awrite. destruct (aget l i) eqn:E; [|done].
  intros [= <-]. split; [by eapply aget_Some_lt|done].
Qed.

Lemma zlen_insert l (n : nat) x : zlen (<[n := x]> l) = zlen l.
Proof. unfold zlen. by rewrite length_insert. Qed.

Lemma aget_insert_eq l i x :
  0 ≤ i < zlen l → aget (<[Z.to_nat i := x]> l) i = Some x.
Proof.
  unfold aget, zlen. intros Hi. case (Z.leb_spec 0 i); [|lia].
  intros _. apply list_lookup_insert_eq. lia.
Qed.

Lemma aget_insert_ne l i j x :
  0 ≤ i → i ≠ j → aget (<[Z.to_nat i := x]> l) j = aget l j.
Proof.
  unfold aget. intros Hi Hne. case (Z.leb_spec 0 j); [|done].
  intros Hj. apply list_lookup_insert_ne. lia.
Qed.

Lemma aget_insert l i j x :
  0 ≤ i < zlen l →
  aget (<[Z.to_nat i := x]> l) j = if decide (i = j) then Some x else aget l j.
Proof.
  intros Hi. case_decide as H.
  - subst. by apply aget_insert_eq.
  - apply aget_insert_ne; lia.
Qed.

Lemma aread_middle l l' x : aread (l ++ x :: l') (zlen l) = Ok x.
Proof.
  apply aread_Ok. unfold aget, zlen. rewrite (proj2 (Z.leb_le 0 _)) by lia.
  rewrite Nat2Z.id. by rewrite list_lookup_middle.
Qed.

Lemma awrite_middle l l' x y : awrite (l ++ x :: l') (zlen l) y = Ok (l ++ y :: l').
Proof.
  unfold awrite, aget, zlen. rewrite (proj2 (Z.leb_le 0 _)) by lia.
  rewrite Nat2Z.id, list_lookup_middle by done.
  by rewrite insert_app_r_alt, Nat.sub_diag by lia.
Qed.

Lemma aget_replicate (n : nat) x i :
  0 ≤ i < Z.of_nat n → aget (replicate n x) i = Some x.
Proof.
  intros Hi. unfold aget. case (Z.leb_spec 0 i); [|lia].
  intros _. apply lookup_replicate_2. lia.
Qed.

(** Two arrays of one length with the same entries are equal. *)
Lemma aget_ext l l' :
  zlen l = zlen l' → (∀ i, 0 ≤ i < zlen l → aget l i = aget l' i) → l = l'.
Proof.
  unfold zlen. intros Hlen H. apply list_eq. intros n.
  destruct (decide (n < length l)%nat) as [Hn|Hn].
  - specialize (H (Z.of_nat n) ltac:(lia)). unfold aget in H.
    case (Z.leb_spec 0 (Z.of_nat n)) in H; [|lia]. by rewrite Nat2Z.id in H.
  - rewrite !lookup_ge_None_2; [done|lia|lia].
Qed.
End arrays.

Section slices.
Context {A : Type}.
Implicit Types (l bs : list A) (a n i : nat).

Lemma length_slice a n l : (a + n ≤ length l)%nat → length (slice a n l) = n.
Proof. intros H. unfold slice. rewrite length_take, length_drop. lia. Qed.

Lemma lookup_slice a n l i : (i < n)%nat → slice a n l !! i = l !! (a + i)%nat.
Proof. intros H. unfold slice. by rewrite lookup_take_lt, lookup_drop. Qed.

Lemma length_splice a bs l : (a + length bs ≤ length l)%nat → length (splice a bs l) = length l.
Proof.
  intros H. unfold splice. rewrite !length_app, length_take, length_drop. lia.
Qed.

Lemma lookup_splice a bs l i :
  (a + length bs ≤ length l)%nat →
  splice a bs l !! i
  = if decide (a ≤ i < a + length bs)%nat then bs !! (i - a)%nat else l !! i.
Proof.
  intros H. unfold splice.
  assert (length (take a l) = a) as Ht by (rewrite length_take; lia).
  case_decide as Hi.
  - rewrite lookup_app_r, Ht by lia. rewrite lookup_app_l by lia. done.
  - destruct (decide (i < a)%nat).
    + rewrite lookup_app_l by lia. by rewrite lookup_take_lt.
    + rewrite lookup_app_r, Ht by lia. rewrite lookup_app_r by lia.
      rewrite lookup_drop. f_equal. lia.
Qed.

(** What was written is read back, and the rest is as before. *)
Lemma slice_splice_eq a bs l :
  (a + length bs ≤ length l)%nat → slice a (length bs) (splice a bs l) = bs.
Proof.
  intros H. unfold slice, splice.
  rewrite drop_app_length' by (rewrite length_take; lia).
  by rewrite take_app_length.
Qed.

Lemma slice_splice_ne a n b bs l :
  (b + length bs ≤ length l)%nat → (a + n ≤ length l)%nat →
  (a + n ≤ b)%nat ∨ (b + length bs ≤ a)%nat →
  slice a n (splice b bs l) = slice a n l.
Proof.
  intros Hb Ha Hd. apply list_eq. intros i.
  destruct (decide (i < n)%nat).
  - rewrite !lookup_slice, lookup_splice by done. case_decide; [lia|done].
  - rewrite !lookup_ge_None_2; [done| |]; rewrite length_slice; [lia| |lia|].
    + done.
    + by rewrite length_splice.
Qed.

Lemma slice_all l : slice 0 (length l) l = l.
Proof. unfold slice. by rewrite drop_0, firstn_all. Qed.

Lemma Forall_slice (P : A → Prop) a n l : Forall P l → Forall P (slice a n l).
Proof. intros H. by apply Forall_take, Forall_drop. Qed.

Lemma Forall_splice (P : A → Prop) a bs l :
  Forall P bs → Forall P l → Forall P (splice a bs l).
Proof.
  intros Hb Hl. unfold splice. apply list.Forall_app. split; [by apply Forall_take|].
  apply list.Forall_app. split; [done|by apply Forall_drop].
Qed.

Lemma splice_nil a l : splice a [] l = l.
Proof. unfold splice. simpl length. rewrite Nat.add_0_r. apply firstn_skipn. Qed.

(** Writing two adjacent pieces is writing both at once. *)
Lemma splice_splice_adj a bs cs l :
  (a + length bs + length cs ≤ length l)%nat →
  splice (a + length bs) cs (splice a bs l) = splice a (bs ++ cs) l.
Proof.
  intros H. apply list_eq. intros i.
  rewrite !lookup_splice by (rewrite ?length_splice, ?length_app; lia).
  rewrite length_app. repeat case_decide; try lia; try done.
  - rewrite lookup_app_r by lia. f_equal. lia.
  - by rewrite lookup_app_l by lia.
Qed.

Lemma slice_app a n m l : slice a n l ++ slice (a + n) m l = slice a (n + m) l.
Proof. unfold slice. by rewrite <- drop_drop, take_take_drop. Qed.

Lemma slice_app_le a n l k : (a + n ≤ length l)%nat → slice a n (l ++ k) = slice a n l.
Proof.
  intros H. unfold slice. rewrite drop_app_le by lia. apply take_app_le. rewrite length_drop. lia.
Qed.
Lemma slice_slice a n b m l :
  (a + n ≤ m)%nat → slice a n (slice b m l) = slice (b + a) n l.
Proof.
  intros H. unfold slice. rewrite skipn_firstn_comm, drop_drop.
  by rewrite take_take, Nat.min_l by lia.
Qed.

Lemma slice_take a n m l : (a + n ≤ m)%nat → slice a n (take m l) = slice a n l.
Proof. intros H. by apply (slice_slice a n 0 m l). Qed.

(** Arrays of records of [c] elements, one after the other. *)
Definition uniform (c : nat) (ls : list (list A)) : Prop := Forall (λ r, length r = c) ls.

Lemma length_concat_uniform c (ls : list (list A)) :
  uniform c ls → length (concat ls) = (c * length ls)%nat.
Proof. induction 1; simpl; [lia|]. rewrite length_app. lia. Qed.

Lemma slice_concat_uniform c (ls : list (list A)) i r :
  uniform c ls → ls !! i = Some r → slice (c * i) c (concat ls) = r.
Proof.
  intros Hu. revert i. induction Hu as [|r' ls Hr Hu IH]; intros i Hi; [done|].
  destruct i as [|i]; simpl in *.
  - injection Hi as ->. unfold slice. rewrite Nat.mul_0_r, drop_0.
    by apply take_app_length'.
  - unfold slice in *. rewrite Nat.mul_succ_r, Nat.add_comm.
    rewrite <- drop_drop, (drop_app_length' _ _ c) by done. by apply IH.
Qed.

Lemma lookup_concat_uniform c (ls : list (list A)) i j r :
  uniform c ls → ls !! i = Some r → (j < c)%nat → concat ls !! (c * i + j)%nat = r !! j.
Proof.
  intros Hu Hi Hj. rewrite <- (slice_concat_uniform c ls i r Hu Hi) at 1.
  by rewrite lookup_slice.
Qed.
End slices.

Lemma filter_none {A} (P : A → Prop) `{∀ x, Decision (P x)} (l : list A) :
  (∀ x, x ∈ l → ¬ P x) → filter P l = [].
Proof.
  induction l as [|x l IH]; intros Hl; [done|].
  rewrite filter_cons_False by (apply Hl; set_solver). apply IH. set_solver.
Qed.

Lemma elem_of_concat {A} (x : A) (ls : list (list A)) :
  x ∈ concat ls ↔ ∃ l, x ∈ l ∧ l ∈ ls.
Proof.
  rewrite list_elem_of_In, in_concat. setoid_rewrite list_elem_of_In. naive_solver.
Qed.

Lemma concat_perm {A} (ls ls' : list (list A)) : ls ≡ₚ ls' → concat ls ≡ₚ concat ls'.
Proof.
  induction 1 as [|l ls ls' _ IH|l l' ls|ls ls' ls'' _ IH _ IH'].
  - done.
  - simpl. by rewrite IH.
  - simpl. by rewrite !(assoc_L (++)), (Permutation_app_comm l l').
  - by rewrite IH.
Qed.

Lemma filter_all {A} (P : A → Prop) `{∀ x, Decision (P x)} (l : list A) :
  Forall P l → filter P l = l.
Proof.
  induction 1 as [|x l Hx Hl IH]; [done|]. by rewrite filter_cons_True, IH.
Qed.

Lemma filter_ext_In {A} (P Q : A → Prop) `{∀ x, Decision (P x), ∀ x, Decision (Q x)}
    (l : list A) :
  (∀ x, x ∈ l → P x ↔ Q x) → filter P l = filter Q l.
Proof.
  induction l as [|x l IH]; intros Hl; [done|].
  rewrite !filter_cons, IH by set_solver.
  apply decide_ext, Hl. set_solver.
Qed.

(** ** Hints and tactics of the development *)

Create HintDb nachos.
Create Rewrite HintDb nachos.
#[export] Hint Resolve aget_Some_lt aget_lt_is_Some : nachos.
#[export] Hint Rewrite @zlen_insert @length_insert : nachos.

(** One step of a [wp] proof. *)
Ltac wp_step :=
  lazymatch goal with
  | |- wp (_ ≫= _) _ _ => apply wp_bind
  | |- wp (mret _) _ _ => apply wp_ret
  | |- wp get _ _ => apply wp_get
  | |- wp (gets _) _ _ => apply wp_gets
  | |- wp (put _) _ _ => apply wp_put
  | |- wp (modify _) _ _ => apply wp_modify
  | |- wp (when _ _) _ _ => apply wp_when; intros ?
  end.
Ltac wp_steps := repeat (wp_step; cbn beta).

(** Inverts hypotheses about monadic runs that end normally. *)
Ltac minv :=
  repeat match goal with
  | H : (_ ≫= _) _ = Ok (_, _) |- _ =>
      apply M_bind_Ok in H; destruct H as (? & ? & ? & H)
  | H : _ ≫= _ = Ok _ |- _ =>
      apply res_bind_Ok in H; destruct H as (? & ? & H)
  | H : mret _ _ = Ok (_, _) |- _ => injection H as ? ?; subst
  | H : Ok _ = Ok _ |- _ => injection H as ?; subst
  | H : Fault _ = Ok _ |- _ => discriminate H
  | H : Ok _ = Fault _ |- _ => discriminate H
  | H : (_, _) = (_, _) |- _ => injection H as ? ?; subst
  end.

(** Executes the head of a monadic run whose outcome is computed, assumed, or
    given by the lemma [tac] applies. *)
Tactic Notation "mrun" := erewrite M_bind_step; [|first [eassumption | reflexivity]].
Tactic Notation "mrun" "by" tactic3(tac) := erewrite M_bind_step; [|solve [tac]].

(** Linear arithmetic with division and remainder by constants. *)
Ltac dlia := Z.to_euclidean_division_equations; lia.
