(* ===== verification/Word.v ===== *)
(** * Machine integers

    The 32-bit [int] and [unsigned int] of the host (an i386), and the bytes
    that make them up in memory.  A value of either type is a [Z] in its
    range; an operation of the source is the operation on [Z] followed by the
    conversion ([s32], [u32]) to the type of its result.  Signed overflow
    wraps, as the compilers of the time implement it and as the simulator in
    machine/mipssim.cc relies on. *)
From S2P Require Import Prelude.

Definition u32 (z : Z) : Z := z mod 2 ^ 32.
Definition s32 (z : Z) : Z := (z + 2 ^ 31) mod 2 ^ 32 - 2 ^ 31.

Definition in_u32 (z : Z) : Prop := 0 ≤ z < 2 ^ 32.
Definition in_s32 (z : Z) : Prop := - 2 ^ 31 ≤ z < 2 ^ 31.

#[export] Instance in_u32_dec z : Decision (in_u32 z).
Proof. unfold in_u32. apply _. Defined.
#[export] Instance in_s32_dec z : Decision (in_s32 z).
Proof. unfold in_s32. apply _. Defined.

(** [if (z)] on an integer. *)
Definition ctrue (z : Z) : bool := negb (z =? 0).

(** The C operators whose result is narrower than the operation on [Z]. *)
Definition add32 (a b : Z) : Z := s32 (a + b).
Definition sub32 (a b : Z) : Z := s32 (a - b).
Definition shl32 (a n : Z) : Z := s32 (Z.shiftl a n).

(** The macros [divRoundUp] and [divRoundDown] of threads/utility.h; the
    division of C truncates. *)
Definition divRoundUp (n s : Z) : Z :=
  Z.quot n s + (if 0 <? Z.rem n s then 1 else 0).
Definition divRoundDown (n s : Z) : Z := Z.quot n s.

Lemma divRoundUp_spec n s :
  0 ≤ n → 0 < s → s * (divRoundUp n s - 1) < n ≤ s * divRoundUp n s.
Proof.
  intros Hn Hs. unfold divRoundUp.
  rewrite Z.quot_div_nonneg, Z.rem_mod_nonneg by lia.
  pose proof (Z_div_mod_eq_full n s). pose proof (Z.mod_pos_bound n s Hs).
  case (Z.ltb_spec 0 (n mod s)); nia.
Qed.

Lemma divRoundUp_nonneg n s : 0 ≤ n → 0 < s → 0 ≤ divRoundUp n s.
Proof. intros Hn Hs. pose proof (divRoundUp_spec n s Hn Hs). nia. Qed.

(** ** Ranges and conversions *)

Section words.
Implicit Types z i : Z.

Lemma pow32_pos : 0 < 2 ^ 32. Proof. done. Qed.

Lemma u32_range z : in_u32 (u32 z).
Proof. apply Z.mod_pos_bound. done. Qed.

Lemma s32_range z : in_s32 (s32 z).
Proof.
  unfold s32, in_s32. pose proof (Z.mod_pos_bound (z + 2 ^ 31) (2 ^ 32) eq_refl).
  lia.
Qed.

Lemma u32_id z : in_u32 z → u32 z = z.
Proof. apply Z.mod_small. Qed.

Lemma s32_id z : in_s32 z → s32 z = z.
Proof. unfold s32, in_s32. intros. rewrite Z.mod_small; lia. Qed.

(** Both conversions keep the value modulo [2^32]. *)
Lemma s32_mod z : s32 z mod 2 ^ 32 = z mod 2 ^ 32.
Proof.
  unfold s32. rewrite Zminus_mod_idemp_l. f_equal. lia.
Qed.
Lemma u32_mod z : u32 z mod 2 ^ 32 = z mod 2 ^ 32.
Proof. apply Z.mod_mod. done. Qed.

Lemma u32_eq_mod a b : a mod 2 ^ 32 = b mod 2 ^ 32 → u32 a = u32 b.
Proof. done. Qed.
Lemma s32_eq_mod a b : a mod 2 ^ 32 = b mod 2 ^ 32 → s32 a = s32 b.
Proof.
  intros H. unfold s32. rewrite <- (Zplus_mod_idemp_l a), H, Zplus_mod_idemp_l.
  done.
Qed.

Lemma s32_u32 z : s32 (u32 z) = s32 z.
Proof. apply s32_eq_mod, u32_mod. Qed.
Lemma u32_s32 z : u32 (s32 z) = u32 z.
Proof. apply u32_eq_mod, s32_mod. Qed.
Lemma s32_add_s32 a b : s32 (s32 a + s32 b) = s32 (a + b).
Proof. apply s32_eq_mod. rewrite Z.add_mod, !s32_mod, <- Z.add_mod; done. Qed.

Lemma s32_s32 z : s32 (s32 z) = s32 z.
Proof. apply s32_eq_mod, s32_mod. Qed.
Lemma u32_u32 z : u32 (u32 z) = u32 z.
Proof. apply u32_eq_mod, u32_mod. Qed.

(** A signed value and its unsigned reading. *)
Lemma u32_of_s32 z : in_s32 z → u32 z = if z <? 0 then z + 2 ^ 32 else z.
Proof.
  unfold in_s32, u32. intros Hz. case (Z.ltb_spec z 0); intros.
  - rewrite <- (Z_mod_plus_full z 1), Z.mod_small; lia.
  - rewrite Z.mod_small; lia.
Qed.

Lemma s32_of_u32 z : in_u32 z → s32 z = if z <? 2 ^ 31 then z else z - 2 ^ 32.
Proof.
  unfold in_u32. intros Hz. case (Z.ltb_spec z (2 ^ 31)); intros.
  - apply s32_id. unfold in_s32. lia.
  - rewrite <- (s32_id (z - 2 ^ 32)) by (unfold in_s32; lia).
    apply s32_eq_mod. rewrite <- (Z_mod_plus_full (z - 2 ^ 32) 1).
    f_equal. lia.
Qed.

Lemma u32_inj_s32 a b : in_s32 a → in_s32 b → u32 a = u32 b → a = b.
Proof.
  intros Ha Hb H. rewrite <- (s32_id a Ha), <- (s32_id b Hb).
  by apply s32_eq_mod.
Qed.

(** ** Bits *)

Lemma u32_testbit z i : 0 ≤ i → Z.testbit (u32 z) i = (i <? 32) && Z.testbit z i.
Proof.
  intros Hi. unfold u32. case (Z.ltb_spec i 32); intros.
  - rewrite Z.mod_pow2_bits_low by lia. done.
  - rewrite Z.mod_pow2_bits_high by lia. done.
Qed.

Lemma s32_testbit_low z i : 0 ≤ i < 32 → Z.testbit (s32 z) i = Z.testbit z i.
Proof.
  intros Hi.
  rewrite <- (Z.mod_pow2_bits_low (s32 z) 32), <- (Z.mod_pow2_bits_low z 32) by lia.
  by rewrite s32_mod.
Qed.

(** The sign of a 32-bit value is its bit 31. *)
Lemma in_s32_sign z : in_s32 z → Z.testbit z 31 = (z <? 0).
Proof.
  unfold in_s32. intros Hz. rewrite Z.testbit_eqb by done.
  case (Z.ltb_spec z 0); intros Hs.
  - replace (z / 2 ^ 31) with (-1); [done|].
    apply (Z.div_unique z (2 ^ 31) (-1) (z + 2 ^ 31)); lia.
  - rewrite Z.div_small by lia. done.
Qed.

Lemma s32_sign z : Z.testbit z 31 = (s32 z <? 0).
Proof.
  rewrite <- in_s32_sign by apply s32_range. by rewrite s32_testbit_low.
Qed.

Lemma u32_bits_ext a b :
  in_u32 a → in_u32 b →
  (∀ i, 0 ≤ i < 32 → Z.testbit a i = Z.testbit b i) → a = b.
Proof.
  intros Ha Hb H. rewrite <- (u32_id a Ha), <- (u32_id b Hb).
  apply Z.bits_inj'. intros i Hi. rewrite !u32_testbit by done.
  case (Z.ltb_spec i 32); intros; [|done]. simpl. apply H. lia.
Qed.

Lemma testbit_1_shiftl k i :
  0 ≤ k → 0 ≤ i → Z.testbit (Z.shiftl 1 k) i = bool_decide (i = k).
Proof.
  intros Hk Hi. rewrite Z.shiftl_spec by done.
  case_bool_decide as E.
  - subst. by rewrite Z.sub_diag.
  - destruct (decide (i - k < 0)).
    + by rewrite Z.testbit_neg_r.
    + apply (Z.bits_above_log2 1); simpl; lia.
Qed.

(** Masks that select the bits from [k] on of a field of [n] bits. *)
Lemma land_field x k n :
  0 ≤ k → 0 ≤ n → Z.land x (Z.shiftl (Z.ones n) k) = (x / 2 ^ k) mod 2 ^ n * 2 ^ k.
Proof.
  intros Hk Hn. rewrite <- Z.shiftl_mul_pow2, <- Z.shiftr_div_pow2, <- Z.land_ones by done.
  apply Z.bits_inj'. intros i Hi. rewrite Z.land_spec, !Z.shiftl_spec by done.
  destruct (decide (i < k)).
  - rewrite !(Z.testbit_neg_r _ (i - k)) by lia. by rewrite andb_false_r.
  - rewrite Z.land_spec, Z.shiftr_spec by lia. by replace (i - k + k) with i by lia.
Qed.

(** Joining a low and a high part. *)
Lemma lor_add a b k : 0 ≤ k → 0 ≤ a < 2 ^ k → Z.lor a (b * 2 ^ k) = a + b * 2 ^ k.
Proof.
  intros Hk Ha. assert (Z.land a (b * 2 ^ k) = 0) as Hland.
  { apply Z.bits_inj'. intros i Hi. rewrite Z.land_spec, Z.bits_0.
    destruct (decide (i < k)).
    - by rewrite Z.mul_pow2_bits_low, andb_false_r by lia.
    - rewrite <- (Z.mod_small a (2 ^ k)) by done.
      by rewrite Z.mod_pow2_bits_high by lia. }
  by rewrite Z.add_nocarry_lxor, Z.lxor_lor.
Qed.

(** Testing one bit with a mask. *)
Lemma ctrue_land_bit z k : 0 ≤ k → ctrue (Z.land z (2 ^ k)) = Z.testbit z k.
Proof.
  intros Hk. rewrite <- (Z.mul_1_l (2 ^ k)), <- Z.shiftl_mul_pow2 by done.
  change 1 with (Z.ones 1) at 1. rewrite land_field by lia.
  rewrite <- Z.shiftr_div_pow2, <- Z.bit0_mod, Z.shiftr_spec, Z.add_0_l by lia.
  pose proof (Z.pow_pos_nonneg 2 k ltac:(lia) Hk). unfold ctrue.
  destruct (Z.testbit z k); simpl; [|done].
  case (Z.eqb_spec (1 * 2 ^ k) 0); [lia|done].
Qed.

Lemma testbit31_u32 z : in_u32 z → Z.testbit z 31 = (2 ^ 31 <=? z).
Proof.
  unfold in_u32. intros Hz. rewrite Z.testbit_eqb by done.
  change (2 ^ 31) with 2147483648. change (2 ^ 32) with 4294967296 in Hz.
  case (Z.leb_spec 2147483648 z); intros; apply Z.eqb_eq || apply Z.eqb_neq; dlia.
Qed.

(** The bitwise operators keep the range of an [int]. *)
Lemma in_s32_shiftr z : in_s32 z ↔ Z.shiftr z 31 = 0 ∨ Z.shiftr z 31 = -1.
Proof.
  rewrite Z.shiftr_div_pow2 by done. unfold in_s32. change (2 ^ 31) with 2147483648. dlia.
Qed.

Lemma in_s32_land a b : in_s32 a → in_s32 b → in_s32 (Z.land a b).
Proof. rewrite !in_s32_shiftr, Z.shiftr_land. by intros [-> | ->] [-> | ->]; auto. Qed.
Lemma in_s32_lor a b : in_s32 a → in_s32 b → in_s32 (Z.lor a b).
Proof. rewrite !in_s32_shiftr, Z.shiftr_lor. by intros [-> | ->] [-> | ->]; auto. Qed.
Lemma in_s32_lxor a b : in_s32 a → in_s32 b → in_s32 (Z.lxor a b).
Proof. rewrite !in_s32_shiftr, Z.shiftr_lxor. by intros [-> | ->] [-> | ->]; auto. Qed.
Lemma in_s32_lnot a : in_s32 a → in_s32 (Z.lnot a).
Proof. unfold in_s32, Z.lnot. lia. Qed.
Lemma in_s32_ones a n : 0 ≤ n ≤ 31 → in_s32 (Z.land a (Z.ones n)).
Proof.
  intros Hn. rewrite Z.land_ones by lia.
  pose proof (Z.mod_pos_bound a (2 ^ n) ltac:(apply Z.pow_pos_nonneg; lia)).
  pose proof (Z.pow_le_mono_r 2 n 31 ltac:(lia) ltac:(lia)). unfold in_s32. lia.
Qed.
Lemma in_s32_shiftr_r a n : in_s32 a → 0 ≤ n → in_s32 (Z.shiftr a n).
Proof.
  intros Ha Hn. rewrite Z.shiftr_div_pow2 by done. unfold in_s32 in *.
  pose proof (Z.pow_pos_nonneg 2 n ltac:(lia) Hn) as Hp.
  split.
  - apply Z.div_le_lower_bound; [done|]. nia.
  - apply Z.div_lt_upper_bound; [done|]. nia.
Qed.
Lemma add32_range a b : in_s32 (add32 a b).
Proof. apply s32_range. Qed.
Lemma sub32_range a b : in_s32 (sub32 a b).
Proof. apply s32_range. Qed.
Lemma shl32_range a b : in_s32 (shl32 a b).
Proof. apply s32_range. Qed.
Lemma in_s32_quot a b : in_s32 a → b ≠ 0 → ¬ (a = - 2 ^ 31 ∧ b = -1) → in_s32 (Z.quot a b).
Proof.
  unfold in_s32. intros Ha Hb Hn.
  destruct (decide (b = -1)) as [->|].
  - replace (Z.quot a (-1)) with (- a); [lia|].
    change (-1) with (- (1)). by rewrite Z.quot_opp_r, Z.quot_1_r.
  - assert (Z.abs (Z.quot a b) ≤ Z.abs a) as Hle.
    { rewrite <- Z.quot_abs by done. apply Z.quot_le_upper_bound; [lia|]. nia. }
    assert (b = 1 ∨ 2 ≤ Z.abs b) as [->|Hb2] by lia; [rewrite Z.quot_1_r; lia|].
    assert (Z.abs (Z.quot a b) * 2 ≤ Z.abs a) as Hle2.
    { rewrite <- Z.quot_abs by done. pose proof (Z.mul_quot_le (Z.abs a) (Z.abs b) ltac:(lia) ltac:(lia)).
      pose proof (Z.quot_pos (Z.abs a) (Z.abs b) ltac:(lia) ltac:(lia)). nia. }
    lia.
Qed.
Lemma in_s32_rem a b : in_s32 a → b ≠ 0 → in_s32 (Z.rem a b).
Proof.
  unfold in_s32. intros Ha Hb. pose proof (Z.quot_rem' a b) as H.
  assert (Z.abs (Z.rem a b) ≤ Z.abs a) as Hle.
  { rewrite <- Z.rem_abs by done. apply Z.rem_le; lia. }
  pose proof (Z.rem_sign_nz a b Hb) as Hs.
  destruct (decide (Z.rem a b = 0)) as [->|Hnz]; [lia|]. specialize (Hs Hnz). lia.
Qed.
End words.

Create HintDb s32.
#[export] Hint Resolve in_s32_land in_s32_lor in_s32_lxor in_s32_lnot in_s32_shiftr_r
  s32_range add32_range sub32_range shl32_range in_s32_quot in_s32_rem : s32.
#[export] Hint Extern 5 (in_s32 _) => (unfold in_s32; lia) : s32.

#[export] Hint Resolve u32_range s32_range : nachos.
#[export] Hint Rewrite s32_s32 s32_u32 u32_s32 u32_u32 : nachos.

(** ** Bytes, least significant first *)

Definition byte_ok (b : Z) : Prop := 0 ≤ b < 256.

Fixpoint bytes_le (n : nat) (z : Z) : list Z :=
  match n with
  | O => []
  | S n' => z mod 256 :: bytes_le n' (z / 256)
  end.

Fixpoint of_le (l : list Z) : Z :=
  match l with
  | [] => 0
  | b :: l' => b + 256 * of_le l'
  end.

(** A byte read as a signed [char]. *)
Definition s8 (z : Z) : Z := (z + 128) mod 256 - 128.

Section bytes.
Implicit Types (z b : Z) (l : list Z).

Lemma length_bytes_le n z : length (bytes_le n z) = n.
Proof. revert z. induction n; intros; simpl; auto. Qed.

Lemma bytes_le_ok n z : Forall byte_ok (bytes_le n z).
Proof.
  revert z. induction n; intros; simpl; constructor; auto.
  apply Z.mod_pos_bound. done.
Qed.

Lemma of_le_bytes_le n z : of_le (bytes_le n z) = z mod 256 ^ Z.of_nat n.
Proof.
  revert z. induction n as [|n IH]; intros z; simpl bytes_le; simpl of_le.
  - by rewrite Z.mod_1_r.
  - rewrite IH, Nat2Z.inj_succ, Z.pow_succ_r by lia.
    rewrite (Z.rem_mul_r z 256 (256 ^ Z.of_nat n)); [done|done|].
    apply Z.pow_pos_nonneg; lia.
Qed.

Lemma of_le_range l : Forall byte_ok l → 0 ≤ of_le l < 256 ^ zlen l.
Proof.
  unfold zlen. induction 1 as [|b l Hb Hl IH]; simpl length; simpl of_le.
  - done.
  - rewrite Nat2Z.inj_succ, Z.pow_succ_r by lia. unfold byte_ok in Hb. lia.
Qed.

Lemma bytes_le_of_le l : Forall byte_ok l → bytes_le (length l) (of_le l) = l.
Proof.
  induction 1 as [|b l Hb Hl IH]; simpl; [done|]. unfold byte_ok in Hb.
  f_equal.
  - symmetry. apply (Z.mod_unique _ _ (of_le l) b); lia.
  - rewrite <- (Z.div_unique _ 256 (of_le l) b); [apply IH|lia|lia].
Qed.

Lemma bytes_le_mod n z : bytes_le n (z mod 256 ^ Z.of_nat n) = bytes_le n z.
Proof.
  rewrite <- of_le_bytes_le. rewrite <- (length_bytes_le n z) at 1.
  apply bytes_le_of_le, bytes_le_ok.
Qed.

(** A word that is written and read back. *)
Lemma word_back z : in_s32 z → s32 (of_le (bytes_le 4 z)) = z.
Proof.
  intros Hz. rewrite of_le_bytes_le. change (z mod 256 ^ Z.of_nat 4) with (u32 z).
  rewrite s32_u32. by apply s32_id.
Qed.

Lemma s8_range b : -128 ≤ s8 b < 128.
Proof. unfold s8. pose proof (Z.mod_pos_bound (b + 128) 256 eq_refl). lia. Qed.

Lemma s8_mod b : s8 b mod 256 = b mod 256.
Proof. unfold s8. rewrite Zminus_mod_idemp_l. f_equal. lia. Qed.
End bytes.

(** ** Arrays of 32-bit words in memory (the i386 is little-endian) *)

Fixpoint words_bytes (ws : list Z) : list Z :=
  match ws with
  | [] => []
  | w :: ws' => bytes_le 4 w ++ words_bytes ws'
  end.

Fixpoint bytes_words (bs : list Z) : list Z :=
  match bs with
  | b0 :: b1 :: b2 :: b3 :: bs' => of_le [b0; b1; b2; b3] :: bytes_words bs'
  | _ => []
  end.

Section word_arrays.
Implicit Types (ws bs : list Z).

Lemma length_words_bytes ws : length (words_bytes ws) = (4 * length ws)%nat.
Proof.
  induction ws as [|w ws IH]; [done|].
  change (words_bytes (w :: ws)) with (bytes_le 4 w ++ words_bytes ws).
  rewrite length_app, length_bytes_le, IH. simpl. lia.
Qed.

Lemma words_bytes_ok ws : Forall byte_ok (words_bytes ws).
Proof.
  induction ws as [|w ws IH]; [constructor|].
  apply list.Forall_app. split; [apply bytes_le_ok|done].
Qed.

Lemma bytes_words_bytes ws : bytes_words (words_bytes ws) = u32 <$> ws.
Proof.
  induction ws as [|w ws IH]; [done|].
  change (bytes_words (words_bytes (w :: ws)))
    with (of_le (bytes_le 4 w) :: bytes_words (words_bytes ws)).
  rewrite IH, of_le_bytes_le. done.
Qed.

Lemma bytes_words_bytes_id ws :
  Forall in_u32 ws → bytes_words (words_bytes ws) = ws.
Proof.
  intros H. rewrite bytes_words_bytes. induction H; csimpl; [done|].
  by rewrite u32_id, IHForall.
Qed.

Lemma bytes_words_s32 ws :
  Forall in_s32 ws → s32 <$> bytes_words (words_bytes ws) = ws.
Proof.
  intros H. rewrite bytes_words_bytes. induction H; csimpl; [done|].
  by rewrite s32_u32, s32_id, IHForall.
Qed.
End word_arrays.
