(* ===== verification/NList.v ===== *)
(** * Singly-linked lists: threads/list.cc and threads/list.h

    [Spec] is what a list promises to its clients (the ready list, the queues
    of semaphores, locks and conditions, the pending interrupts, the children
    of a process): a sequence of keyed items.  [Impl] is the code: cells on a
    heap, linked by [next] pointers, with a [first] and a [last] pointer.
    [Impl.run_refines] relates the two. *)
From Stdlib Require Import Sorted.
From S2P Require Import Prelude.

(** ** The abstract list *)

Module Spec.
Section spec.
Context {A : Type} `{EqDecision A}.

(** [last_null] records that the [last] pointer of a non-empty list is
    [NULL], which [RemoveByElement] can leave behind. *)
Record alist := AList { elems : list (Z * A); last_null : bool }.

(** An empty list has both pointers [NULL], whatever happened before. *)
Definition mk (l : list (Z * A)) (b : bool) : alist :=
  AList l (match l with [] => false | _ => b end).

Definition empty : alist := AList [] false.

Definition IsEmpty (a : alist) : bool :=
  match elems a with [] => true | _ => false end.

(** The operations that go through [last] dereference it. *)
Definition push_back (k : Z) (x : A) (a : alist) : res alist :=
  match elems a with
  | [] => Ok (AList [(k, x)] false)
  | l => if last_null a then Fault NullDeref else Ok (AList (l ++ [(k, x)]) false)
  end.

Definition Append (x : A) (a : alist) : res alist := push_back 0 x a.

Definition Prepend (x : A) (a : alist) : alist :=
  mk ((0, x) :: elems a) (last_null a && negb (IsEmpty a)).

Definition SortedRemove (a : alist) : option (Z * A) * alist :=
  match elems a with
  | [] => (None, a)
  | kx :: l => (Some kx, mk l (last_null a))
  end.

Definition Remove (a : alist) : option A * alist :=
  let '(r, a') := SortedRemove a in (snd <$> r, a').

(** The keys up to the insertion point, and those from it on. *)
Fixpoint split_key (k : Z) (l : list (Z * A)) : list (Z * A) * list (Z * A) :=
  match l with
  | [] => ([], [])
  | kx :: l' =>
      if k <? fst kx then ([], l)
      else let '(l1, l2) := split_key k l' in (kx :: l1, l2)
  end.

Definition SortedInsert (k : Z) (x : A) (a : alist) : res alist :=
  match split_key k (elems a) with
  | (_, []) => push_back k x a
  | (l1, l2) => Ok (AList (l1 ++ (k, x) :: l2) (last_null a))
  end.

Fixpoint search (k : Z) (l : list (Z * A)) : option A :=
  match l with
  | [] => None
  | (k', x) :: l' => if k' =? k then Some x else search k l'
  end.
Definition Search (k : Z) (a : alist) : option A := search k (elems a).

(** The list around the first cell whose item is [e]. *)
Fixpoint split_item (e : A) (l : list (Z * A))
    : option (list (Z * A) * list (Z * A)) :=
  match l with
  | [] => None
  | kx :: l' =>
      if decide (snd kx = e) then Some ([], l')
      else '(l1, l2) ← split_item e l'; Some (kx :: l1, l2)
  end.

Definition RemoveByElement (e : A) (a : alist) : res (A * alist) :=
  match split_item e (elems a) with
  | None => Fault AssertFailed
  | Some (l1, l2) =>
      Ok (e, mk (l1 ++ l2)
               (match l2 with [] => true | _ => last_null a end))
  end.

(** The items, in the order in which [Mapcar] passes them to its function. *)
Definition Mapcar (a : alist) : list A := snd <$> elems a.

(** ** Operations as data, to run sequences of them *)

Inductive op :=
  | OAppend (x : A)
  | OPrepend (x : A)
  | OSortedInsert (k : Z) (x : A)
  | OSortedRemove
  | ORemoveByElement (x : A)
  | OSearch (k : Z)
  | OIsEmpty
  | OMapcar.

Inductive ret :=
  | RUnit
  | RKeyed (r : option (Z * A))
  | RItem (r : option A)
  | RBool (b : bool)
  | RItems (l : list A).

Definition run (o : op) (a : alist) : res (ret * alist) :=
  match o with
  | OAppend x => a' ← Append x a; Ok (RUnit, a')
  | OPrepend x => Ok (RUnit, Prepend x a)
  | OSortedInsert k x => a' ← SortedInsert k x a; Ok (RUnit, a')
  | OSortedRemove => let '(r, a') := SortedRemove a in Ok (RKeyed r, a')
  | ORemoveByElement x => '(y, a') ← RemoveByElement x a; Ok (RItem (Some y), a')
  | OSearch k => Ok (RItem (Search k a), a)
  | OIsEmpty => Ok (RBool (IsEmpty a), a)
  | OMapcar => Ok (RItems (Mapcar a), a)
  end.

Fixpoint run_all (os : list op) (a : alist) : res (list ret * alist) :=
  match os with
  | [] => Ok ([], a)
  | o :: os' =>
      '(r, a1) ← run o a;
      '(rs, a2) ← run_all os' a1;
      Ok (r :: rs, a2)
  end.
End spec.
Arguments alist : clear implicits.
Arguments op : clear implicits.
Arguments ret : clear implicits.
End Spec.

(** ** The linked implementation *)

Abbreviation loc := positive (only parsing).

Module Impl.
Section impl.
Context {A : Type} `{EqDecision A}.

Record ListElement := Elem { item : A; key : Z; next : option loc }.

(** A [List] object with the heap its elements live on. *)
Record List_ := LState {
  cells : gmap loc ListElement;
  first : option loc;
  last : option loc
}.

Definition List_init : List_ := LState ∅ None None.

(** Accesses to the fields of the list and of its elements. *)
Definition cell (p : loc) : M List_ ListElement := λ s,
  match cells s !! p with Some c => Ok (c, s) | None => Fault NullDeref end.
Definition set_next (p : loc) (n : option loc) : M List_ unit :=
  c ← cell p;
  modify (λ s, LState (<[p := Elem (item c) (key c) n]> (cells s)) (first s) (last s)).
Definition set_first (p : option loc) : M List_ unit :=
  modify (λ s, LState (cells s) p (last s)).
Definition set_last (p : option loc) : M List_ unit :=
  modify (λ s, LState (cells s) (first s) p).
Definition ptr (p : option loc) : M List_ loc := lift (deref p).

(** [new ListElement(itemPtr, sortKey)] and [delete element]. *)
Definition new_ListElement (itemPtr : A) (sortKey : Z) : M List_ loc := λ s,
  let p := fresh (dom (cells s)) in
  Ok (p, LState (<[p := Elem itemPtr sortKey None]> (cells s)) (first s) (last s)).
Definition delete_ListElement (p : loc) : M List_ unit :=
  modify (λ s, LState (delete p (cells s)) (first s) (last s)).

Definition IsEmpty : M List_ bool :=
  gets (λ s, bool_decide (first s = None)).

Definition Append (x : A) : M List_ unit :=
  element ← new_ListElement x 0;
  e ← IsEmpty;
  if (e : bool) then
    set_first (Some element) ;; set_last (Some element)
  else
    l ← gets last;
    lp ← ptr l;
    set_next lp (Some element) ;; set_last (Some element).

Definition Prepend (x : A) : M List_ unit :=
  element ← new_ListElement x 0;
  e ← IsEmpty;
  if (e : bool) then
    set_first (Some element) ;; set_last (Some element)
  else
    f ← gets first;
    set_next element f ;; set_first (Some element).

Definition SortedRemove : M List_ (option (Z * A)) :=
  e ← IsEmpty;
  if (e : bool) then mret None
  else
    s ← get;
    element ← ptr (first s);
    c ← cell element;
    (if bool_decide (first s = last s)
     then set_first None ;; set_last None
     else set_first (next c)) ;;
    delete_ListElement element ;;
    mret (Some (key c, item c)).

Definition Remove : M List_ (option A) :=
  r ← SortedRemove; mret (snd <$> r).

(** The [for] loop of [SortedInsert]: [true] when it has inserted the
    element and returned. *)
Fixpoint SortedInsert_walk (fuel : nat) (p element : loc) (sortKey : Z)
    : M List_ bool :=
  match fuel with
  | O => fail OutOfFuel
  | S fuel' =>
      c ← cell p;
      match next c with
      | None => mret false
      | Some q =>
          cq ← cell q;
          if sortKey <? key cq then
            set_next element (Some q) ;;
            set_next p (Some element) ;;
            mret true
          else SortedInsert_walk fuel' q element sortKey
      end
  end.

Definition SortedInsert (sortKey : Z) (x : A) : M List_ unit :=
  element ← new_ListElement x sortKey;
  e ← IsEmpty;
  if (e : bool) then
    set_first (Some element) ;; set_last (Some element)
  else
    s ← get;
    fp ← ptr (first s);
    fc ← cell fp;
    if sortKey <? key fc then
      set_next element (first s) ;; set_first (Some element)
    else
      done ← SortedInsert_walk (size (cells s)) fp element sortKey;
      if (done : bool) then mret tt
      else
        l ← gets last;
        lp ← ptr l;
        set_next lp (Some element) ;; set_last (Some element).

Fixpoint Search_walk (fuel : nat) (cur : option loc) (sortKey : Z)
    : M List_ (option A) :=
  match fuel with
  | O => fail OutOfFuel
  | S fuel' =>
      match cur with
      | None => mret None
      | Some p =>
          c ← cell p;
          if key c =? sortKey then mret (Some (item c))
          else Search_walk fuel' (next c) sortKey
      end
  end.

Definition Search (sortKey : Z) : M List_ (option A) :=
  s ← get; Search_walk (S (size (cells s))) (first s) sortKey.

(** The search loop of [RemoveByElement]: the cell before the match, and
    the match. *)
Fixpoint RemoveByElement_walk (fuel : nat) (pcur cur : option loc) (e : A)
    : M List_ (option loc * option loc) :=
  match fuel with
  | O => fail OutOfFuel
  | S fuel' =>
      match cur with
      | None => mret (pcur, None)
      | Some p =>
          c ← cell p;
          if decide (item c = e) then mret (pcur, Some p)
          else RemoveByElement_walk fuel' (Some p) (next c) e
      end
  end.

Definition RemoveByElement (e : A) : M List_ A :=
  s ← get;
  lift (ASSERT (negb (bool_decide (first s = None)))) ;;
  pc ← RemoveByElement_walk (S (size (cells s))) None (first s) e;
  let '(pcur, cur) := pc in
  lift (ASSERT (negb (bool_decide (cur = None)))) ;;
  cp ← ptr cur;
  c ← cell cp;
  (match pcur with
   | None => set_first (next c)
   | Some pp => set_next pp (next c)
   end) ;;
  (l ← gets last; when (bool_decide (l = cur)) (set_last None)) ;;
  delete_ListElement cp ;;
  mret (item c).

(** The items [Mapcar] passes to its function, in order. *)
Fixpoint Mapcar_walk (fuel : nat) (p : option loc) : M List_ (list A) :=
  match fuel with
  | O => fail OutOfFuel
  | S fuel' =>
      match p with
      | None => mret []
      | Some q =>
          c ← cell q;
          r ← Mapcar_walk fuel' (next c);
          mret (item c :: r)
      end
  end.

Definition Mapcar : M List_ (list A) :=
  s ← get; Mapcar_walk (S (size (cells s))) (first s).

(** The destructor: [while (Remove() != NULL)], on items that are not
    [NULL]. *)
Fixpoint List_delete (fuel : nat) : M List_ unit :=
  match fuel with
  | O => fail OutOfFuel
  | S fuel' =>
      r ← Remove;
      match r with
      | None => mret tt
      | Some _ => List_delete fuel'
      end
  end.

Definition run (o : Spec.op A) : M List_ (Spec.ret A) :=
  match o with
  | Spec.OAppend x => Append x ;; mret Spec.RUnit
  | Spec.OPrepend x => Prepend x ;; mret Spec.RUnit
  | Spec.OSortedInsert k x => SortedInsert k x ;; mret Spec.RUnit
  | Spec.OSortedRemove => r ← SortedRemove; mret (Spec.RKeyed r)
  | Spec.ORemoveByElement x => y ← RemoveByElement x; mret (Spec.RItem (Some y))
  | Spec.OSearch k => r ← Search k; mret (Spec.RItem r)
  | Spec.OIsEmpty => b ← IsEmpty; mret (Spec.RBool b)
  | Spec.OMapcar => l ← Mapcar; mret (Spec.RItems l)
  end.

Fixpoint run_all (os : list (Spec.op A)) : M List_ (list (Spec.ret A)) :=
  match os with
  | [] => mret []
  | o :: os' => r ← run o; rs ← run_all os'; mret (r :: rs)
  end.
End impl.
Arguments ListElement : clear implicits.
Arguments List_ : clear implicits.

(** *** Representation of an abstract list by cells *)

Section repr.
Context {A : Type}.
Implicit Types (h : gmap loc (ListElement A)) (l : list (Z * A)) (ps : list loc).

(** [seg h p ps l q]: following [next] from [p], the cells [ps] hold the
    items [l] and lead to [q]. *)
Fixpoint seg h (p : option loc) ps l (q : option loc) : Prop :=
  match ps, l with
  | [], [] => p = q
  | r :: ps', (k, x) :: l' =>
      p = Some r ∧ ∃ n, h !! r = Some (Elem x k n) ∧ seg h n ps' l' q
  | _, _ => False
  end.

(** The heap holds exactly the cells of the list; [last] is the last cell,
    or [NULL] when [last_null] says so. *)
Definition repr (s : List_ A) (a : Spec.alist A) : Prop :=
  ∃ ps, NoDup ps ∧ seg (cells s) (first s) ps (Spec.elems a) None
      ∧ dom (cells s) = list_to_set ps
      ∧ last s = (if Spec.last_null a then None else list.last ps)
      ∧ (Spec.last_null a = true → ps ≠ []).

Lemma seg_length h p ps l q : seg h p ps l q → length ps = length l.
Proof.
  revert p l. induction ps as [|r ps IH]; intros p [|[k x] l]; simpl; try done.
  intros (-> & n & _ & H). f_equal. eauto.
Qed.

Lemma seg_frame h h' p ps l q :
  (∀ r, r ∈ ps → h' !! r = h !! r) → seg h p ps l q → seg h' p ps l q.
Proof.
  revert p l. induction ps as [|r ps IH]; intros p [|[k x] l] Hf; simpl; try done.
  intros (-> & n & Hr & H). split; [done|]. exists n. split.
  - rewrite Hf; [done|]. apply list_elem_of_here.
  - apply IH; [|done]. intros r' Hr'. apply Hf. by apply list_elem_of_further.
Qed.

Lemma seg_insert h p ps l q r c :
  r ∉ ps → seg h p ps l q → seg (<[r := c]> h) p ps l q.
Proof.
  intros Hr. apply seg_frame. intros r' Hr'. apply lookup_insert_ne. set_solver.
Qed.

Lemma seg_delete h p ps l q r : r ∉ ps → seg h p ps l q → seg (delete r h) p ps l q.
Proof.
  intros Hr. apply seg_frame. intros r' Hr'. apply lookup_delete_ne. set_solver.
Qed.

Lemma seg_app h p ps1 ps2 l1 l2 q :
  length ps1 = length l1 →
  seg h p (ps1 ++ ps2) (l1 ++ l2) q ↔
  ∃ m, seg h p ps1 l1 m ∧ seg h m ps2 l2 q.
Proof.
  revert p l1. induction ps1 as [|r ps1 IH]; intros p [|[k x] l1] Hlen;
    simpl in *; try done.
  - split; [eauto|]. by intros (m & -> & H).
  - injection Hlen as Hlen. split.
    + intros (-> & n & Hr & (m & H1 & H2)%IH); [|done]. exists m. eauto.
    + intros (m & (-> & n & Hr & H1) & H2). split; [done|].
      exists n. split; [done|]. apply IH; eauto.
Qed.

(** Splitting a segment along a split of its items. *)
Lemma seg_split h p ps l1 l2 q :
  seg h p ps (l1 ++ l2) q →
  ∃ ps1 ps2 m, ps = ps1 ++ ps2 ∧ length ps1 = length l1 ∧
    seg h p ps1 l1 m ∧ seg h m ps2 l2 q.
Proof.
  intros H. pose proof (seg_length _ _ _ _ _ H) as Hlen.
  rewrite length_app in Hlen.
  rewrite <- (take_drop (length l1) ps) in H.
  apply seg_app in H as (m & H1 & H2).
  - exists (take (length l1) ps), (drop (length l1) ps), m.
    rewrite take_drop, length_take. repeat split; auto. lia.
  - rewrite length_take. lia.
Qed.

(** A non-empty segment, seen from its last cell. *)
Lemma seg_snoc_inv h p ps l k x q :
  seg h p ps (l ++ [(k, x)]) q →
  ∃ ps' r, ps = ps' ++ [r] ∧ length ps' = length l
         ∧ seg h p ps' l (Some r) ∧ h !! r = Some (Elem x k q).
Proof.
  intros (ps1 & ps2 & m & -> & Hlen & H1 & H2)%seg_split.
  destruct ps2 as [|r [|]]; simpl in H2; try done.
  - destruct H2 as (-> & n & Hr & <-). eauto 10.
  - destruct H2 as (_ & n & _ & H). done.
Qed.

Lemma seg_snoc h p ps l k x q r :
  seg h p ps l (Some r) → h !! r = Some (Elem x k q) →
  seg h p (ps ++ [r]) (l ++ [(k, x)]) q.
Proof.
  intros H Hr. apply seg_app; [by eapply seg_length|].
  exists (Some r). split; [done|]. simpl. eauto.
Qed.

Lemma seg_head h p r ps l q : seg h p (r :: ps) l q → p = Some r.
Proof. destruct l as [|[k x] l]; [done|]. by intros [-> _]. Qed.

Lemma seg_nonempty h p ps l : seg h p ps l None → (p = None ↔ l = []).
Proof.
  destruct ps, l as [|[k x] l]; simpl; try done.
  intros (-> & _). split; done.
Qed.
End repr.

(** *** Each operation implements the abstract one *)

Section refinement.
Context {A : Type} `{EqDecision A}.
Implicit Types (s : List_ A) (a : Spec.alist A).

(** What it is for a run of the code to match an abstract result. *)
Definition matches {B} (r : res (B * List_ A)) (o : res (B * Spec.alist A)) : Prop :=
  match o with
  | Ok (b, a') => ∃ s', r = Ok (b, s') ∧ repr s' a'
  | Fault f => r = Fault f
  end.

Lemma list_matches_bind {B C} (m : M (List_ A) B) (k : B → M (List_ A) C)
    s (o : res (B * Spec.alist A)) (ko : B * Spec.alist A → res (C * Spec.alist A)) :
  matches (m s) o →
  (∀ b s' a', repr s' a' → matches (k b s') (ko (b, a'))) →
  matches ((m ≫= k) s) (o ≫= ko).
Proof.
  unfold matches at 1. intros Hm Hk. destruct o as [[b a']|f]; simpl in Hm.
  - destruct Hm as (s' & Hm & Hr). rewrite (M_bind_step _ _ _ _ _ Hm). simpl.
    by apply Hk.
  - by rewrite (M_bind_fault _ _ _ _ Hm).
Qed.

Lemma cell_Ok s p c : cells s !! p = Some c → cell p s = Ok (c, s).
Proof. unfold cell. by intros ->. Qed.

Lemma set_next_Ok s p n c :
  cells s !! p = Some c →
  set_next p n s
  = Ok (tt, LState (<[p := Elem (item c) (key c) n]> (cells s)) (first s) (last s)).
Proof.
  intros H. unfold set_next. by rewrite (M_bind_step _ _ _ _ _ (cell_Ok _ _ _ H)).
Qed.

Lemma list_last_snoc {B} (l : list B) x : list.last (l ++ [x]) = Some x.
Proof. apply last_snoc. Qed.

Lemma last_app_ne {B} (l1 l2 : list B) :
  l2 ≠ [] → list.last (l1 ++ l2) = list.last l2.
Proof.
  destruct l2 as [|x l2 _] using rev_ind; [done|]. intros _.
  by rewrite app_assoc, !list_last_snoc.
Qed.

(** Linking an allocated element after the last cell. *)
Lemma link_last h f ps l e k x (b : bool) lst :
  NoDup ps → seg h f ps l None → l ≠ [] →
  e ∉ ps → h !! e = Some (Elem x k None) →
  dom h = {[e]} ∪ list_to_set ps →
  lst = (if b then None else list.last ps) →
  matches
    ((l0 ← gets last; lp ← ptr l0;
      set_next lp (Some e) ;; set_last (Some e)) (LState h f lst))
    (if b then Fault NullDeref else Ok (tt, Spec.AList (l ++ [(k, x)]) false)).
Proof.
  intros Hnd Hseg Hne He Hx Hdom ->. destruct b; [done|].
  destruct l as [|[k' x'] l' _] using rev_ind; [done|]. clear Hne.
  apply seg_snoc_inv in Hseg as (ps' & r & -> & Hlen & Hseg & Hr).
  rewrite list_last_snoc. unfold matches.
  apply list.NoDup_app in Hnd as (Hnd & Hdisj & _).
  rewrite elem_of_app, list_elem_of_singleton in He.
  assert (r ∉ ps') as Hrps
    by (intros Hin; apply (Hdisj _ Hin), list_elem_of_singleton; done).
  assert (r ≠ e) as Hre by naive_solver.
  eexists. split.
  { mrun. mrun. mrun by (apply set_next_Ok, Hr). done. }
  exists ((ps' ++ [r]) ++ [e]). simpl. split_and!.
  - apply list.NoDup_app. split_and!; [|set_solver|apply NoDup_singleton].
    apply list.NoDup_app. split_and!; [done|set_solver|apply NoDup_singleton].
  - apply seg_snoc.
    + apply seg_snoc; [by apply seg_insert|]. by rewrite lookup_insert_eq.
    + rewrite lookup_insert_ne; done.
  - rewrite dom_insert_L, Hdom, !list_to_set_app_L. set_solver.
  - by rewrite list_last_snoc.
  - done.
Qed.

(** Allocation keeps the representation, and gives a cell outside it. *)
Lemma alloc_spec s a x k :
  repr s a →
  ∃ e ps, new_ListElement x k s
       = Ok (e, LState (<[e := Elem x k None]> (cells s)) (first s) (last s))
    ∧ NoDup ps ∧ (e ∉ ps)
    ∧ seg (<[e := Elem x k None]> (cells s)) (first s) ps (Spec.elems a) None
    ∧ dom (<[e := Elem x k None]> (cells s)) = {[e]} ∪ list_to_set ps
    ∧ last s = (if Spec.last_null a then None else list.last ps)
    ∧ (Spec.last_null a = true → ps ≠ []).
Proof.
  intros (ps & Hnd & Hseg & Hdom & Hlast & Hnull).
  set (e := fresh (dom (cells s))).
  assert (e ∉ ps) as He.
  { intros Hin. apply (is_fresh (dom (cells s))). fold e. rewrite Hdom.
    by apply elem_of_list_to_set. }
  exists e, ps. split_and!; try done.
  - by apply seg_insert.
  - by rewrite dom_insert_L, Hdom.
Qed.

(** The list with the single allocated element. *)
Lemma repr_single (h : gmap loc (ListElement A)) e k x :
  h !! e = Some (Elem x k None) → dom h = {[e]} →
  repr (LState h (Some e) (Some e)) (Spec.AList [(k, x)] false).
Proof.
  intros He Hdom. exists [e]. simpl. split_and!; try done.
  - apply NoDup_singleton.
  - eauto.
  - rewrite Hdom. set_solver.
Qed.

Lemma IsEmpty_seg h f ps l lst :
  seg h f ps l None →
  IsEmpty (LState h f lst)
  = Ok (match l with [] => true | _ => false end, LState h f lst : List_ A).
Proof.
  intros Hseg%seg_nonempty. unfold IsEmpty, gets. simpl.
  destruct l; case_bool_decide; naive_solver.
Qed.

Lemma push_back_matches s a x k :
  repr s a →
  matches
    ((element ← new_ListElement x k;
      e ← IsEmpty;
      if (e : bool) then set_first (Some element) ;; set_last (Some element)
      else l ← gets last; lp ← ptr l;
           set_next lp (Some element) ;; set_last (Some element)) s)
    (a' ← Spec.push_back k x a; Ok (tt, a')).
Proof.
  intros (e & ps & Hnew & Hnd & He & Hseg & Hdom & Hlast & Hnull)%(alloc_spec _ _ x k).
  rewrite (M_bind_step _ _ _ _ _ Hnew). clear Hnew.
  mrun by (eapply IsEmpty_seg, Hseg).
  unfold Spec.push_back. destruct (Spec.elems a) as [|kx l] eqn:Hl.
  - simpl. eexists. split; [reflexivity|].
    destruct ps; [|done]. simpl. apply repr_single; [by rewrite lookup_insert_eq|].
    rewrite Hdom. set_solver.
  - replace (a' ← _; Ok (tt, a')) with
      (if Spec.last_null a then Fault NullDeref
       else Ok (tt, Spec.AList ((kx :: l) ++ [(k, x)]) false))
      by (by destruct (Spec.last_null a)).
    eapply link_last; try done. by rewrite lookup_insert_eq.
Qed.

Lemma Append_matches s a x :
  repr s a → matches (Append x s) (a' ← Spec.Append x a; Ok (tt, a')).
Proof. apply push_back_matches. Qed.

(** Putting the allocated element in front. *)
Lemma link_first h f ps l e k x lst (b : bool) :
  NoDup ps → seg h f ps l None → e ∉ ps → h !! e = Some (Elem x k None) →
  dom h = {[e]} ∪ list_to_set ps → l ≠ [] →
  lst = (if b then None else list.last ps) →
  matches ((set_next e f ;; set_first (Some e)) (LState h f lst))
          (Ok (tt, Spec.AList ((k, x) :: l) b)).
Proof.
  intros Hnd Hseg He Hx Hdom Hl ->. eexists. split.
  { mrun by (apply set_next_Ok, Hx). reflexivity. }
  exists (e :: ps). simpl. split_and!; try done.
  - by apply list.NoDup_cons.
  - exists f. rewrite lookup_insert_eq. split; [done|]. by apply seg_insert.
  - rewrite dom_insert_L, Hdom. set_solver.
  - destruct ps; [|done]. by destruct l.
Qed.

Lemma Prepend_matches s a x :
  repr s a → matches (Prepend x s) (Ok (tt, Spec.Prepend x a)).
Proof.
  intros (e & ps & Hnew & Hnd & He & Hseg & Hdom & Hlast & Hnull)%(alloc_spec _ _ x 0).
  unfold Prepend. rewrite (M_bind_step _ _ _ _ _ Hnew). clear Hnew.
  mrun by (eapply IsEmpty_seg, Hseg).
  unfold Spec.Prepend, Spec.mk, Spec.IsEmpty.
  destruct (Spec.elems a) as [|kx l] eqn:Hl.
  - rewrite andb_false_r. simpl. eexists. split; [reflexivity|].
    destruct ps; [|done]. simpl. apply repr_single; [by rewrite lookup_insert_eq|].
    rewrite Hdom. set_solver.
  - rewrite andb_true_r. mrun. eapply link_first; try done.
    by rewrite lookup_insert_eq.
Qed.

Lemma size_cells (h : gmap loc (ListElement A)) ps :
  NoDup ps → dom h = list_to_set ps → size h = length ps.
Proof. intros Hnd Hdom. by rewrite <- size_dom, Hdom, size_list_to_set. Qed.

Lemma SortedRemove_matches s a :
  repr s a → matches (SortedRemove s) (Ok (Spec.SortedRemove a)).
Proof.
  destruct s as [h f lst]. intros (ps & Hnd & Hseg & Hdom & Hlast & Hnull).
  unfold SortedRemove, Spec.SortedRemove. simpl in *. mrun by (eapply IsEmpty_seg, Hseg).
  destruct (Spec.elems a) as [|[k x] l] eqn:Hl.
  { eexists. split; [reflexivity|]. exists ps. rewrite Hl. done. }
  destruct ps as [|r ps]; [done|]. destruct Hseg as (-> & n & Hr & Hseg).
  apply list.NoDup_cons in Hnd as [Hrps Hnd].
  mrun. simpl. mrun. mrun by (apply cell_Ok, Hr). simpl.
  assert (dom (delete r h) = list_to_set ps) as Hdom'.
  { rewrite dom_delete_L, Hdom. set_solver. }
  pose proof (seg_length _ _ _ _ _ Hseg) as Hlen.
  assert (Some r = lst ↔ Spec.last_null a = false ∧ ps = []) as Hone.
  { rewrite Hlast. destruct (Spec.last_null a); [naive_solver|].
    destruct ps as [|r' ps' _] using rev_ind; [naive_solver|].
    rewrite app_comm_cons, list_last_snoc. split; [intros [= <-]|].
    - destruct Hrps. set_solver.
    - intros [_ ?]. by destruct ps'. }
  case_bool_decide as Hd.
  - apply Hone in Hd as [Hn ->]. destruct l; [|done].
    eexists. split; [reflexivity|]. exists []. simpl.
    split_and!; done.
  - eexists. split; [reflexivity|]. exists ps. simpl. split_and!; try done.
    + by apply seg_delete.
    + destruct l, ps; try done; simpl.
      destruct (Spec.last_null a); naive_solver.
    + destruct l; [done|]. by destruct ps.
Qed.

(** The loop of [SortedInsert] from a cell whose key is not greater. *)
Lemma SortedInsert_walk_spec k e x l : ∀ fuel h f lst p ps k0 x0,
  (length ps < fuel)%nat → NoDup (p :: ps) → e ∉ p :: ps →
  h !! e = Some (Elem x k None) →
  seg h (Some p) (p :: ps) ((k0, x0) :: l) None →
  match Spec.split_key k l with
  | (_, []) => SortedInsert_walk fuel p e k (LState h f lst)
               = Ok (false, LState h f lst : List_ A)
  | (l1, l2) => ∃ h' ps1 ps2,
      SortedInsert_walk fuel p e k (LState h f lst)
      = Ok (true, LState h' f lst)
      ∧ ps = ps1 ++ ps2 ∧ ps2 ≠ [] ∧ dom h' = dom h
      ∧ (∀ r, r ∉ e :: p :: ps → h' !! r = h !! r)
      ∧ seg h' (Some p) (p :: ps1 ++ e :: ps2) ((k0, x0) :: l1 ++ (k, x) :: l2) None
  end.
Proof.
  induction l as [|[k1 x1] l IH]; intros fuel h f lst p ps k0 x0 Hfuel Hnd He Hx Hseg;
    (destruct fuel as [|fuel]; [lia|]); destruct Hseg as (_ & n & Hp & Hseg).
  - destruct ps; [|done]. simpl in Hseg. subst n.
    simpl. mrun by (apply cell_Ok, Hp). done.
  - destruct ps as [|q ps]; [done|].
    pose proof Hseg as (-> & n1 & Hq & Hseg').
    apply list.NoDup_cons in Hnd as [Hpn Hnd].
    rewrite !not_elem_of_cons in He. destruct He as (Hep & Heq & He).
    rewrite not_elem_of_cons in Hpn. destruct Hpn as [Hpq Hpps].
    pose proof Hnd as [Hqps _]%list.NoDup_cons.
    simpl Spec.split_key. simpl SortedInsert_walk. cbn [fst].
    mrun by (apply cell_Ok, Hp). simpl. mrun by (apply cell_Ok, Hq). simpl.
    case (Z.ltb_spec k k1); intros Hk.
    + eexists _, [], (q :: ps). split.
      { mrun by (apply set_next_Ok, Hx).
        mrun by (apply set_next_Ok; simpl; rewrite lookup_insert_ne; [apply Hp|done]).
        reflexivity. }
      split_and!; try done.
      * simpl. rewrite !dom_insert_L.
        assert (p ∈ dom h ∧ e ∈ dom h) as [? ?]; [|set_solver].
        split; apply elem_of_dom; eauto.
      * intros r [? [? _]%not_elem_of_cons]%not_elem_of_cons. simpl.
        by rewrite !lookup_insert_ne.
      * exists (Some e). simpl. rewrite lookup_insert_eq.
        split; [done|]. split; [done|]. exists (Some q).
        rewrite lookup_insert_ne, lookup_insert_eq by done.
        split; [done|]. split; [done|]. exists n1.
        rewrite !lookup_insert_ne by done. split; [done|].
        by apply seg_insert, seg_insert.
    + specialize (IH fuel h f lst q ps k1 x1 ltac:(simpl in Hfuel; lia) Hnd
        ltac:(by apply not_elem_of_cons) Hx Hseg).
      destruct (Spec.split_key k l) as [l1 [|kx2 l2]]; [done|].
      destruct IH as (h' & ps1 & ps2 & Hrun & -> & Hps2 & Hdom & Hframe & Hs).
      eexists h', (q :: ps1), ps2. split_and!; try done.
      * intros r Hr. apply Hframe. set_solver.
      * exists (Some q). split; [|done].
        rewrite Hframe; [done|]. set_solver.
Qed.

Lemma split_key_app k (l : list (Z * A)) :
  l = fst (Spec.split_key k l) ++ snd (Spec.split_key k l).
Proof.
  induction l as [|[k1 x1] l IH]; simpl; [done|]. case_match; [done|].
  destruct (Spec.split_key k l). simpl in *. by f_equal.
Qed.

Lemma SortedInsert_matches s a k x :
  repr s a → matches (SortedInsert k x s) (a' ← Spec.SortedInsert k x a; Ok (tt, a')).
Proof.
  intros Hrepr.
  pose proof (alloc_spec _ _ x k Hrepr)
    as (e & ps & Hnew & Hnd & He & Hseg & Hdom & Hlast & Hnull).
  pose proof (push_back_matches _ _ x k Hrepr) as Hpush.
  unfold SortedInsert. rewrite (M_bind_step _ _ _ _ _ Hnew) in Hpush.
  rewrite (M_bind_step _ _ _ _ _ Hnew).
  assert (Hemp := IsEmpty_seg _ _ _ _ (last s) Hseg).
  rewrite (M_bind_step _ _ _ _ _ Hemp) in Hpush. rewrite (M_bind_step _ _ _ _ _ Hemp).
  unfold Spec.SortedInsert.
  set (h := <[e := Elem x k None]> (cells s)) in *.
  assert (h !! e = Some (Elem x k None)) as Hx by apply lookup_insert_eq. clearbody h.
  destruct (Spec.elems a) as [|[k0 x0] l] eqn:Hl; [exact Hpush|].
  destruct ps as [|p ps]; [done|]. pose proof Hseg as (Hf & n & Hp & Hseg').
  mrun. rewrite Hf in Hpush, Hseg |- *. cbn [first]. mrun. mrun by (apply cell_Ok, Hp).
  cbn [key Spec.split_key fst]. case (Z.ltb_spec k k0); intros Hk.
  { by eapply link_first. }
  assert (length (p :: ps) < size h)%nat as Hsize.
  { rewrite (size_cells h (e :: p :: ps)); [simpl; lia| |by rewrite Hdom].
    by apply list.NoDup_cons. }
  cbn [cells].
  pose proof (SortedInsert_walk_spec k e x l (size h) h (Some p) (last s) p ps k0 x0
    ltac:(simpl in Hsize; lia) Hnd He Hx Hseg) as Hw.
  destruct (Spec.split_key k l) as [l1 [|kx2 l2]].
  - mrun. cbv iota. exact Hpush.
  - destruct Hw as (h' & ps1 & ps2 & Hrun & -> & Hps2 & Hdom' & _ & Hs).
    mrun. cbv iota. eexists. split; [reflexivity|]. exists (p :: ps1 ++ e :: ps2). simpl in *.
    split_and!.
    + rewrite app_comm_cons in Hnd |- *. apply list.NoDup_app in Hnd as (? & Hd & ?).
      apply list.NoDup_app. split_and!; [done| |apply list.NoDup_cons; split; [|done]]; set_solver.
    + by destruct Hs.
    + by destruct Hs.
    + rewrite Hdom', Hdom. set_solver.
    + rewrite Hlast. destruct (Spec.last_null a); [done|].
      replace (p :: ps1 ++ e :: ps2) with ((p :: ps1 ++ [e]) ++ ps2)
        by (simpl; by rewrite <- app_assoc).
      by rewrite app_comm_cons, !last_app_ne.
    + done.
Qed.

Lemma Search_walk_spec (h : gmap loc (ListElement A)) ps l : ∀ fuel p k f lst,
  seg h p ps l None → (length ps < fuel)%nat →
  Search_walk fuel p k (LState h f lst) = Ok (Spec.search k l, LState h f lst).
Proof.
  revert l. induction ps as [|r ps IH]; intros [|[k x] l] fuel p k' f lst Hseg Hfuel;
    try done; (destruct fuel as [|fuel]; [lia|]).
  - by rewrite (Hseg : p = None).
  - destruct Hseg as (-> & n & Hr & Hseg). simpl. mrun by (apply cell_Ok, Hr). simpl.
    destruct (k =? k'); [done|]. apply IH; [done|]. simpl in Hfuel. lia.
Qed.

Lemma Mapcar_walk_spec (h : gmap loc (ListElement A)) ps l : ∀ fuel p f lst,
  seg h p ps l None → (length ps < fuel)%nat →
  Mapcar_walk fuel p (LState h f lst) = Ok (snd <$> l, LState h f lst).
Proof.
  revert l. induction ps as [|r ps IH]; intros [|[k x] l] fuel p f lst Hseg Hfuel;
    try done; (destruct fuel as [|fuel]; [lia|]).
  - by rewrite (Hseg : p = None).
  - destruct Hseg as (-> & n & Hr & Hseg). simpl. mrun by (apply cell_Ok, Hr). simpl.
    mrun by (eapply IH; [done|simpl in Hfuel; lia]). done.
Qed.

Lemma Search_matches s a k :
  repr s a → matches (Search k s) (Ok (Spec.Search k a, a)).
Proof.
  destruct s as [h f lst]. intros Hrepr.
  pose proof Hrepr as (ps & Hnd & Hseg & Hdom & _). eexists. split; [|done].
  unfold Search. mrun. cbn [cells first] in *. eapply Search_walk_spec; [done|].
  rewrite (size_cells _ ps); [lia|done|done].
Qed.

Lemma Mapcar_matches s a : repr s a → matches (Mapcar s) (Ok (Spec.Mapcar a, a)).
Proof.
  destruct s as [h f lst]. intros Hrepr.
  pose proof Hrepr as (ps & Hnd & Hseg & Hdom & _). eexists. split; [|done].
  unfold Mapcar. mrun. cbn [cells first] in *. eapply Mapcar_walk_spec; [done|].
  rewrite (size_cells _ ps); [lia|done|done].
Qed.

Lemma IsEmpty_matches s a : repr s a → matches (IsEmpty s) (Ok (Spec.IsEmpty a, a)).
Proof.
  destruct s as [h f lst]. intros Hrepr.
  pose proof Hrepr as (ps & Hnd & Hseg & _). eexists. split; [|done].
  by apply (IsEmpty_seg _ _ _ _ lst) in Hseg.
Qed.

(** The search loop stops at the first cell that holds the item. *)
Lemma RemoveByElement_walk_spec (h : gmap loc (ListElement A)) x ps l :
  ∀ fuel pcur p f lst,
  seg h p ps l None → (length ps < fuel)%nat →
  match Spec.split_item x l with
  | None => ∃ pcur', RemoveByElement_walk fuel pcur p x (LState h f lst)
                     = Ok ((pcur', None), LState h f lst)
  | Some (l1, l2) => ∃ ps1 r ps2, ps = ps1 ++ r :: ps2 ∧ length ps1 = length l1 ∧
      (∃ k, l = l1 ++ (k, x) :: l2) ∧
      RemoveByElement_walk fuel pcur p x (LState h f lst)
      = Ok ((match list.last ps1 with None => pcur | Some q => Some q end, Some r),
            LState h f lst)
  end.
Proof.
  revert l. induction ps as [|r ps IH]; intros [|[k y] l] fuel pcur p f lst Hseg Hfuel;
    try done; (destruct fuel as [|fuel]; [lia|]).
  { rewrite (Hseg : p = None). by eexists. }
  destruct Hseg as (-> & n & Hr & Hseg). simpl.
  assert (Hcell := cell_Ok (LState h f lst) _ _ Hr).
  destruct (decide (y = x)) as [->|Hne].
  { exists [], r, ps. split_and!; try done; [by exists k|].
    mrun. simpl. by rewrite decide_True. }
  simpl in Hfuel.
  specialize (IH l fuel (Some r) n f lst Hseg ltac:(lia)).
  destruct (Spec.split_item x l) as [[l1 l2]|]; simpl.
  - destruct IH as (ps1 & q & ps2 & -> & Hlen & [k' ->] & Hrun).
    exists (r :: ps1), q, ps2. split_and!; try done.
    + simpl. by rewrite Hlen.
    + by exists k'.
    + mrun. simpl. rewrite decide_False by done. rewrite Hrun.
      destruct ps1 as [|q' ps1 _] using rev_ind; [done|].
      by rewrite app_comm_cons, !list_last_snoc.
  - destruct IH as (pcur' & Hrun). exists pcur'.
    mrun. simpl. by rewrite decide_False.
Qed.

(** Unlinking the cell [r] that follows the cells [ps1]. *)
Lemma unlink_spec (h : gmap loc (ListElement A)) f ps1 r ps2
    (l1 l2 : list (Z * A)) (k : Z) (x : A) lst n :
  NoDup (ps1 ++ r :: ps2) → length ps1 = length l1 →
  seg h f (ps1 ++ r :: ps2) (l1 ++ (k, x) :: l2) None →
  h !! r = Some (Elem x k n) →
  ∃ h' f', (match list.last ps1 with
            | None => set_first n
            | Some pp => set_next pp n
            end) (LState h f lst) = Ok (tt, LState h' f' lst)
    ∧ dom h' = dom h
    ∧ seg (delete r h') f' (ps1 ++ ps2) (l1 ++ l2) None.
Proof.
  intros Hnd Hlen Hseg Hr.
  apply list.NoDup_app in Hnd as (Hnd1 & Hdisj & [Hrps2 Hnd2]%list.NoDup_cons).
  assert (r ∉ ps1) as Hrps1 by (intros Hin; apply (Hdisj _ Hin); set_solver).
  apply seg_app in Hseg as (m & Hs1 & -> & n' & Hr' & Hs2); [|done].
  assert (n' = n) as -> by congruence.
  destruct ps1 as [|q ps1 _] using rev_ind.
  - destruct l1; [|done]. simpl in Hs1. subst f. simpl.
    eexists _, _. split; [reflexivity|]. split; [done|]. by apply seg_delete.
  - destruct l1 as [|[k1 x1] l1 _] using rev_ind; [by destruct ps1|].
    rewrite !length_app in Hlen. simpl in Hlen.
    apply list.NoDup_app in Hnd1 as (Hnd1 & Hd1 & _).
    apply seg_snoc_inv in Hs1 as (ps' & q' & [-> [= <-]]%app_inj_2 & _ & Hs1 & Hq); [|done].
    rewrite list_last_snoc. eexists _, f. split.
    { by rewrite (set_next_Ok (LState h f lst) _ _ _ Hq). }
    assert (q ≠ r) as Hqr by set_solver.
    split; [simpl; rewrite dom_insert_L; apply elem_of_dom_2 in Hq; set_solver|].
    simpl. apply seg_delete; [set_solver|].
    rewrite <- !app_assoc. apply seg_app; [lia|]. exists (Some q). split.
    { apply seg_insert; [|done]. intros Hin. apply (Hd1 _ Hin). set_solver. }
    simpl. split; [done|]. exists n. rewrite lookup_insert_eq. split; [done|].
    apply seg_insert; [|done]. intros Hin. apply (Hdisj q); set_solver.
Qed.

Lemma clear_last (h : gmap loc (ListElement A)) f lst cur :
  (l ← gets last; when (bool_decide (l = cur)) (set_last None)) (LState h f lst)
  = Ok (tt, LState h f (if bool_decide (lst = cur) then None else lst)).
Proof.
  mrun. cbn [last]. unfold when. by destruct (bool_decide (lst = cur)).
Qed.

Lemma RemoveByElement_matches s a x :
  repr s a → matches (RemoveByElement x s) (Spec.RemoveByElement x a).
Proof.
  destruct s as [h f lst]. intros (ps & Hnd & Hseg & Hdom & Hlast & Hnull).
  unfold RemoveByElement, Spec.RemoveByElement. mrun. cbn [cells first last] in *.
  rewrite (size_cells _ ps) by done.
  pose proof (seg_nonempty _ _ _ _ Hseg) as Hne.
  destruct (bool_decide (f = None)) eqn:Hf.
  { apply bool_decide_eq_true in Hf. apply Hne in Hf. by rewrite Hf. }
  mrun. clear Hf. cbv beta.
  pose proof (RemoveByElement_walk_spec h x ps _ (S (length ps)) None f f lst Hseg
    ltac:(lia)) as Hw.
  destruct (Spec.split_item x (Spec.elems a)) as [[l1 l2]|].
  2: { destruct Hw as (pcur' & Hrun). by mrun. }
  destruct Hw as (ps1 & r & ps2 & -> & Hlen & [k Hl] & Hrun).
  rewrite Hl in Hseg. mrun. cbv iota beta.
  mrun. mrun.
  assert (∃ n, h !! r = Some (Elem x k n)) as [n Hr].
  { apply seg_app in Hseg as (? & _ & _ & n & ? & _); eauto. }
  mrun by (apply cell_Ok, Hr). cbn [next].
  pose proof (unlink_spec h f ps1 r ps2 l1 l2 k x lst n Hnd Hlen Hseg Hr)
    as (h' & f' & Hunlink & Hdom' & Hs').
  eexists. split.
  { erewrite M_bind_step; [|destruct (list.last ps1); exact Hunlink].
    mrun by apply clear_last. reflexivity. }
  exists (ps1 ++ ps2). cbn [cells first last Spec.elems Spec.mk].
  apply list.NoDup_app in Hnd as (Hnd1 & Hdisj & [Hrps2 Hnd2]%list.NoDup_cons).
  assert (r ∉ ps1) as Hrps1 by (intros Hin; apply (Hdisj _ Hin); set_solver).
  assert (NoDup (ps1 ++ ps2)) as Hnd'.
  { apply list.NoDup_app. split_and!; [done|set_solver|done]. }
  split; [done|]. split; [done|]. split.
  { rewrite dom_delete_L, Hdom', Hdom. set_solver. }
  apply seg_length in Hs'. rewrite length_app, (length_app l1) in Hs'.
  rewrite Hlast. destruct ps2 as [|r2 ps2].
  - assert (l2 = []) as -> by (destruct l2; [done|simpl in Hs'; lia]).
    rewrite !app_nil_r in *.
    rewrite list_last_snoc.
    assert (∀ b : bool, (if bool_decide ((if b then None else Some r) = Some r) then None
              else if b then None else Some r) = None :> option loc) as ->.
    { intros []; cbn; by case_bool_decide. }
    destruct l1, ps1; done.
  - destruct l2 as [|kx2 l2]; [simpl in Hs'; lia|].
    rewrite !last_app_ne by done. rewrite last_cons_cons.
    replace (list.last (r :: r2 :: ps2)) with (list.last (r2 :: ps2)) by done.
    assert (list.last (r2 :: ps2) ≠ Some r) as Hlr.
    { intros Hin%last_Some_elem_of. done. }
    split; [|by destruct ps1].
    destruct l1; simpl; destruct (Spec.last_null a); by case_bool_decide.
Qed.
(** The initial list represents the empty sequence. *)
Lemma repr_init : repr List_init (Spec.empty : Spec.alist A).
Proof. exists []. simpl. split_and!; try done. apply NoDup_nil_2. Qed.

Lemma list_matches_ret {B} (b : B) s a :
  repr s a → matches ((mret b : M (List_ A) B) s) (Ok (b, a)).
Proof. intros H. by exists s. Qed.

(** One operation of the code does what the abstract operation does. *)
Lemma list_run_matches s a (o : Spec.op A) : repr s a → matches (run o s) (Spec.run o a).
Proof.
  intros Hr. destruct o; simpl run; simpl Spec.run.
  - pose proof (Append_matches _ _ x Hr) as H.
    destruct (Spec.Append x a); eapply (list_matches_bind _ _ _ _ (λ '(_, a'), Ok (_, a'))) in H;
      [exact H| |exact H|]; intros; by apply list_matches_ret.
  - pose proof (Prepend_matches _ _ x Hr) as H.
    eapply (list_matches_bind _ _ _ _ (λ '(_, a'), Ok (_, a'))) in H; [exact H|].
    intros; by apply list_matches_ret.
  - pose proof (SortedInsert_matches _ _ k x Hr) as H.
    destruct (Spec.SortedInsert k x a);
      eapply (list_matches_bind _ _ _ _ (λ '(_, a'), Ok (_, a'))) in H;
      [exact H| |exact H|]; intros; by apply list_matches_ret.
  - pose proof (SortedRemove_matches _ _ Hr) as H. destruct (Spec.SortedRemove a) as [r a'].
    eapply (list_matches_bind _ _ _ _ (λ '(r, a'), Ok (Spec.RKeyed r, a'))) in H; [exact H|].
    intros; by apply list_matches_ret.
  - pose proof (RemoveByElement_matches _ _ x Hr) as H.
    eapply (list_matches_bind _ _ _ _ (λ '(y, a'), Ok (Spec.RItem (Some y), a'))) in H.
    + destruct (Spec.RemoveByElement x a) as [[y a']|]; exact H.
    + intros; by apply list_matches_ret.
  - pose proof (Search_matches _ _ k Hr) as H.
    eapply (list_matches_bind _ _ _ _ (λ '(r, a'), Ok (Spec.RItem r, a'))) in H; [exact H|].
    intros; by apply list_matches_ret.
  - pose proof (IsEmpty_matches _ _ Hr) as H.
    eapply (list_matches_bind _ _ _ _ (λ '(r, a'), Ok (Spec.RBool r, a'))) in H; [exact H|].
    intros; by apply list_matches_ret.
  - pose proof (Mapcar_matches _ _ Hr) as H.
    eapply (list_matches_bind _ _ _ _ (λ '(r, a'), Ok (Spec.RItems r, a'))) in H; [exact H|].
    intros; by apply list_matches_ret.
Qed.

Lemma list_run_all_matches s a (os : list (Spec.op A)) :
  repr s a → matches (run_all os s) (Spec.run_all os a).
Proof.
  revert s a. induction os as [|o os IH]; intros s a Hr; simpl.
  { by apply list_matches_ret. }
  eapply (list_matches_bind _ _ _ _ (λ '(r, a1), '(rs, a2) ← Spec.run_all os a1; Ok (r :: rs, a2))).
  - by apply list_run_matches.
  - intros r s1 a1 Hr1. specialize (IH s1 a1 Hr1).
    eapply (list_matches_bind _ _ _ _ (λ '(rs, a2), Ok (r :: rs, a2))) in IH; [exact IH|].
    intros. by apply list_matches_ret.
Qed.

(** C16.  Every sequence of list operations, started on a new [List],
    returns what the abstract sequence returns, ends in a heap that holds
    exactly the cells of the abstract list, and stops with a fault exactly
    where (and with the fault with which) the abstract list does; no walk
    along the cells runs out of fuel. *)
Theorem list_run_all_refines (os : list (Spec.op A)) :
  match Spec.run_all os Spec.empty with
  | Ok (rs, a) => ∃ s, run_all os List_init = Ok (rs, s) ∧ repr s a
  | Fault f => run_all os List_init = Fault f
  end.
Proof.
  pose proof (list_run_all_matches _ _ os repr_init) as H. unfold matches in H.
  by destruct (Spec.run_all os Spec.empty) as [[rs a]|].
Qed.

(** The destructor ends after one round more than the
    list has cells, and frees every cell. *)
Theorem List_delete_frees s a fuel :
  repr s a → (length (Spec.elems a) < fuel)%nat →
  ∃ s', List_delete fuel s = Ok (tt, s') ∧ cells s' = ∅.
Proof.
  revert s a. induction fuel as [|fuel IH]; intros s a Hr Hfuel; [lia|].
  pose proof (SortedRemove_matches _ _ Hr) as H. unfold Spec.SortedRemove in H.
  simpl List_delete. unfold Remove. destruct (Spec.elems a) as [|[k x] l] eqn:Hl.
  - destruct H as (s' & H & (ps & _ & Hseg & Hdom & _)). exists s'.
    rewrite Hl in Hseg. destruct ps; [|done].
    apply dom_empty_inv_L in Hdom. split; [|done].
    erewrite M_bind_step; [|by erewrite M_bind_step]. done.
  - destruct H as (s' & H & Hr'). apply IH in Hr' as (s2 & Hrun & Hcells).
    2: { simpl in *. lia. }
    exists s2. split; [|done].
    erewrite M_bind_step; [|by erewrite M_bind_step]. done.
Qed.
End refinement.

(** *** Sorted lists *)

Section sorting.
Context {A : Type} `{EqDecision A}.
Implicit Types (l : list (Z * A)) (a : Spec.alist A) (s : List_ A).

Definition key_le (p q : Z * A) : Prop := fst p ≤ fst q.

Lemma split_key_spec k l l1 l2 :
  StronglySorted key_le l → Spec.split_key k l = (l1, l2) →
  l = l1 ++ l2 ∧ (∀ p, p ∈ l1 → fst p ≤ k) ∧ (∀ p, p ∈ l2 → k < fst p).
Proof.
  revert l1 l2. induction l as [|[k' y] l IH]; intros l1 l2 Hs; simpl.
  { intros [= <- <-]. set_solver. }
  apply StronglySorted_inv in Hs as [Hs Hhd].
  case (Z.ltb_spec k k'); intros Hk.
  - intros [= <- <-]. split; [done|]. split; [set_solver|].
    intros p [->|Hp]%elem_of_cons; [done|].
    rewrite list.Forall_forall in Hhd. specialize (Hhd _ Hp).
    unfold key_le in Hhd. simpl in Hhd. lia.
  - destruct (Spec.split_key k l) as [m1 m2]. intros [= <- <-].
    destruct (IH m1 m2 Hs eq_refl) as (-> & H1 & H2). split; [done|]. split; [|done].
    intros p [->|Hp]%elem_of_cons; [simpl; lia|]. auto.
Qed.

Lemma insert_sorted k x l1 l2 :
  StronglySorted key_le (l1 ++ l2) →
  (∀ p, p ∈ l1 → fst p ≤ k) → (∀ p, p ∈ l2 → k < fst p) →
  StronglySorted key_le (l1 ++ (k, x) :: l2).
Proof.
  intros Hs H1 H2. induction l1 as [|p l1 IH]; simpl in *.
  - constructor; [done|]. apply list.Forall_forall. intros p Hp.
    specialize (H2 p Hp). unfold key_le. simpl. lia.
  - apply StronglySorted_inv in Hs as [Hs Hhd]. constructor.
    + apply IH; [done|]. set_solver.
    + apply list.Forall_app in Hhd as [Hh1 Hh2]. apply list.Forall_app. split; [done|].
      constructor; [|done]. apply (H1 p). set_solver.
Qed.

(** What [SortedInsert] does to a sorted list. *)
Lemma Spec_SortedInsert_sorted a k x :
  StronglySorted key_le (Spec.elems a) → Spec.last_null a = false →
  ∃ l1 l2, Spec.elems a = l1 ++ l2
    ∧ Spec.SortedInsert k x a = Ok (Spec.AList (l1 ++ (k, x) :: l2) false)
    ∧ (∀ p, p ∈ l1 → fst p ≤ k) ∧ (∀ p, p ∈ l2 → k < fst p)
    ∧ StronglySorted key_le (l1 ++ (k, x) :: l2).
Proof.
  intros Hs Hn. destruct (Spec.split_key k (Spec.elems a)) as [l1 l2] eqn:E.
  destruct (split_key_spec _ _ _ _ Hs E) as (Hl & H1 & H2).
  exists l1, l2. rewrite Hl in Hs.
  split; [done|]. split; [|split; [done|split; [done|by apply insert_sorted]]].
  unfold Spec.SortedInsert. rewrite E. destruct l2; [|by rewrite Hn].
  unfold Spec.push_back. rewrite app_nil_r in Hl. rewrite Hl, Hn. by destruct l1.
Qed.

(** On a list sorted by its keys, [SortedInsert] ends
    normally and puts the element behind every element whose key is at most
    its own and before every other one; the list stays sorted, and nothing
    else in it changes. *)
Theorem SortedInsert_sorted s a k x
    (Hrepr : repr s a) (Hsorted : StronglySorted key_le (Spec.elems a))
    (Hlast : Spec.last_null a = false) :
  ∃ s' l1 l2, SortedInsert k x s = Ok (tt, s')
    ∧ repr s' (Spec.AList (l1 ++ (k, x) :: l2) false)
    ∧ Spec.elems a = l1 ++ l2
    ∧ (∀ p, p ∈ l1 → fst p ≤ k) ∧ (∀ p, p ∈ l2 → k < fst p)
    ∧ StronglySorted key_le (l1 ++ (k, x) :: l2).
Proof.
  destruct (Spec_SortedInsert_sorted a k x Hsorted Hlast) as (l1 & l2 & Hl & Hrun & H).
  pose proof (SortedInsert_matches _ _ k x Hrepr) as Hm. rewrite Hrun in Hm.
  destruct Hm as (s' & ? & ?). exists s', l1, l2. tauto.
Qed.

Lemma run_inserts l a :
  StronglySorted key_le (Spec.elems a) → Spec.last_null a = false →
  ∃ out, Spec.run_all ((λ p, Spec.OSortedInsert p.1 p.2) <$> l) a
       = Ok (replicate (length l) Spec.RUnit, Spec.AList out false)
    ∧ StronglySorted key_le out ∧ out ≡ₚ Spec.elems a ++ l
    ∧ ∀ k, filter (λ p, fst p = k) out
         = filter (λ p, fst p = k) (Spec.elems a ++ l).
Proof.
  revert a. induction l as [|[k x] l IH]; intros a Hs Hn; csimpl.
  { exists (Spec.elems a). rewrite app_nil_r. destruct a. simpl in *. by subst. }
  destruct (Spec_SortedInsert_sorted a k x Hs Hn) as (l1 & l2 & Hl & Hrun & H1 & H2 & Hs').
  destruct (IH (Spec.AList (l1 ++ (k, x) :: l2) false)) as (out & Hall & Hso & Hp & Hf);
    [done|done|]. simpl in Hp, Hf.
  exists out. rewrite Hrun. cbn [mbind res_bind]. rewrite Hall. split; [done|].
  split; [done|]. split.
  - rewrite Hp, Hl, <- !app_assoc. f_equiv. simpl. by rewrite Permutation_middle.
  - intros k'. rewrite Hf, Hl, !list.filter_app, filter_cons, (filter_cons _ (k, x)).
    rewrite <- !app_assoc. f_equal. cbn [fst]. case_decide as Hk; [|done]. subst k'.
    assert (filter (λ p : Z * A, p.1 = k) l2 = []) as ->; [|done].
    apply filter_none. intros p Hp'. specialize (H2 p Hp'). lia.
Qed.

Lemma run_removes l :
  Spec.run_all (replicate (length l) Spec.OSortedRemove) (Spec.AList l false)
  = Ok ((λ p, Spec.RKeyed (Some p)) <$> l, Spec.AList [] false).
Proof.
  induction l as [|p l IH]; simpl; [done|].
  unfold Spec.mk. simpl. replace (match l with [] => false | _ => false end) with false
    by (by destruct l).
  by rewrite IH.
Qed.

Lemma spec_run_all_app (os1 os2 : list (Spec.op A)) a rs1 a1 rs2 a2 :
  Spec.run_all os1 a = Ok (rs1, a1) → Spec.run_all os2 a1 = Ok (rs2, a2) →
  Spec.run_all (os1 ++ os2) a = Ok (rs1 ++ rs2, a2).
Proof.
  revert a rs1. induction os1 as [|o os1 IH]; intros a rs1; simpl.
  { intros [= <- <-]. done. }
  destruct (Spec.run o a) as [[r a']|]; [|done]. cbn [mbind res_bind].
  destruct (Spec.run_all os1 a') as [[rs a'']|] eqn:E; [|done]. cbn [mbind res_bind].
  intros [= <- <-] H2. rewrite (IH _ _ E H2). done.
Qed.

(** Elements inserted with [SortedInsert] in a new list
    and taken out with [SortedRemove] come out in the order of their keys,
    each exactly once, and elements with one key in the order in which they
    were inserted; the list then has no cell left. *)
Theorem SortedInsert_drain l :
  ∃ out s,
    run_all (((λ p, Spec.OSortedInsert p.1 p.2) <$> l)
             ++ replicate (length l) Spec.OSortedRemove) List_init
    = Ok (replicate (length l) Spec.RUnit ++ ((λ p, Spec.RKeyed (Some p)) <$> out), s)
    ∧ StronglySorted key_le out ∧ out ≡ₚ l
    ∧ (∀ k, filter (λ p, fst p = k) out = filter (λ p, fst p = k) l)
    ∧ cells s = ∅.
Proof.
  destruct (run_inserts l Spec.empty) as (out & Hrun & Hs & Hp & Hf); [constructor|done|].
  assert (length out = length l) as Hlen by (by apply Permutation_length in Hp).
  pose proof (spec_run_all_app _ _ _ _ _ _ _ Hrun (run_removes out)) as Hall.
  pose proof (list_run_all_matches _ _
    (((λ p, Spec.OSortedInsert p.1 p.2) <$> l) ++ replicate (length out) Spec.OSortedRemove)
    repr_init) as Hm.
  rewrite Hall in Hm. destruct Hm as (s & Hm & (ps & _ & Hseg & Hdom & _)).
  exists out, s. rewrite <- Hlen at 1. split; [done|]. split; [done|].
  split; [done|]. split; [done|].
  destruct ps; [|done]. by apply dom_empty_inv_L in Hdom.
Qed.

Lemma split_item_snoc e (m : list (Z * A)) k :
  e ∉ snd <$> m → Spec.split_item e (m ++ [(k, e)]) = Some (m, []).
Proof.
  induction m as [|[k' y] m IH]; simpl; intros Hm.
  - by rewrite decide_True.
  - rewrite not_elem_of_cons in Hm. destruct Hm as [Hne Hm].
    rewrite decide_False by congruence. by rewrite IH.
Qed.

(** [RemoveByElement] of the element at the end of a
    list of two or more leaves [last] at [NULL], and the next [Append] on
    that list dereferences it. *)
Theorem RemoveByElement_last_breaks_Append s a m k e
    (Hrepr : repr s a) (Helems : Spec.elems a = m ++ [(k, e)])
    (Hm : m ≠ []) (He : e ∉ snd <$> m) :
  ∃ s', RemoveByElement e s = Ok (e, s')
      ∧ first s' ≠ None ∧ last s' = None
      ∧ ∀ y, Append y s' = Fault NullDeref.
Proof.
  pose proof (RemoveByElement_matches _ _ e Hrepr) as H.
  unfold Spec.RemoveByElement in H. rewrite Helems, split_item_snoc in H by done.
  rewrite app_nil_r in H. destruct H as (s' & Hrun & Hr'). exists s'.
  destruct m as [|kx m]; [done|]. unfold Spec.mk in Hr'.
  split; [done|]. split; [|split].
  - destruct Hr' as (ps & _ & Hseg & _). intros Hn.
    by apply (seg_nonempty _ _ _ _ Hseg) in Hn.
  - by destruct Hr' as (ps & _ & _ & _ & Hlast & _).
  - intros y. exact (Append_matches _ _ y Hr').
Qed.
End sorting.

(** *** Concrete lists *)

(** The list with the keyed items (1, 10) and (3, 30) in two cells. *)
Definition demo : List_ Z :=
LState (<[2%positive := Elem 30 3 None]> {[1%positive := Elem 10 1 (Some 2%positive)]})
  (Some 1%positive) (Some 2%positive).
Definition demo_spec : Spec.alist Z := Spec.AList [(1, 10); (3, 30)] false.

Lemma repr_demo : repr demo demo_spec.
Proof.
exists [1%positive; 2%positive]. split.
{ apply list.NoDup_cons. split; [set_solver|apply NoDup_singleton]. }
split; [|split; [done|split; done]]. simpl. split; [done|].
exists (Some 2%positive). split; [reflexivity|]. split; [done|].
exists None. split; [reflexivity|done].
Qed.

Lemma List_delete_frees_witness :
∃ s', List_delete 3 demo = Ok (tt, s') ∧ cells s' = ∅.
Proof. apply (List_delete_frees demo demo_spec 3 repr_demo). simpl. lia. Defined.

Lemma SortedInsert_sorted_witness :
∃ s' l1 l2, SortedInsert 2 20 demo = Ok (tt, s')
  ∧ repr s' (Spec.AList (l1 ++ (2, 20) :: l2) false)
  ∧ Spec.elems demo_spec = l1 ++ l2
  ∧ (∀ p, p ∈ l1 → fst p ≤ 2) ∧ (∀ p, p ∈ l2 → 2 < fst p)
  ∧ StronglySorted key_le (l1 ++ (2, 20) :: l2).
Proof.
apply (SortedInsert_sorted demo demo_spec 2 20 repr_demo); [|reflexivity].
repeat constructor. unfold key_le. simpl. lia.
Defined.

Lemma RemoveByElement_last_breaks_Append_witness :
∃ s', RemoveByElement 30 demo = Ok (30, s')
    ∧ first s' ≠ None ∧ last s' = None ∧ ∀ y, Append y s' = Fault NullDeref.
Proof.
apply (RemoveByElement_last_breaks_Append demo demo_spec [(1, 10)] 3 30 repr_demo eq_refl).
- discriminate.
- set_solver.
Defined.
End Impl.
