(* ===== verification/Stacks.v ===== *)
(** * c++example/: three stacks and a list

    The stack of any type of templatestack.cc, the one of integers of stack.cc,
    the abstract class of inheritstack.cc with its two implementations, and the
    list of list.cc. *)
From Stdlib Require Import String.
From stdpp Require Import strings.
From S2P Require Import Prelude Word.
#[local] Open Scope Z_scope.

(** What the programs print. *)
Inductive Line (T : Type) :=
  | testing (name : string)
  | pushing (x : T)
  | popping (x : T).
Arguments testing {T} _.
Arguments pushing {T} _.
Arguments popping {T} _.

(** ** templatestack.cc *)

Module Template.
Section template.
Context {T : Type}.

Record Stack := MkStack { size : Z; top : Z; stack : list T }.

(** [contents] is what the new array holds. *)
Definition Stack_new (contents : nat → list T) (sz : Z) : res Stack :=
  ASSERT (1 <=? sz) ;;
  Ok (MkStack sz 0 (contents (Z.to_nat sz))).

Definition Full : M Stack bool := gets (λ s, top s =? size s).
Definition Empty : M Stack bool := gets (λ s, top s =? 0).

Definition Push (value : T) : M Stack unit :=
  full ← Full;
  lift (ASSERT (negb full)) ;;
  s ← get;
  a ← lift (awrite (stack s) (top s) value);
  put (MkStack (size s) (add32 (top s) 1) a).

Definition Pop : M Stack T :=
  empty ← Empty;
  lift (ASSERT (negb empty)) ;;
  s ← get;
  put (MkStack (size s) (sub32 (top s) 1) (stack s)) ;;
  lift (aread (stack s) (sub32 (top s) 1)).
End template.
Arguments Stack : clear implicits.
End Template.

(** ** inheritstack.h: the abstract class *)

(** Its virtual functions, for the objects [Ob] of a class derived from it. *)
Class StackClass (Ob T : Type) := {
  Push : T → M Ob unit;
  Pop : M Ob T;
  Full : M Ob bool;
  Empty : M Ob bool
}.

(** The object, and what has been printed. *)
Definition on_obj {Ob T A} (m : M Ob A) : M (Ob * list (Line T)) A := λ s,
  '(a, o) ← m s.1; Ok (a, (o, s.2)).
Definition cout {Ob T} (l : Line T) : M (Ob * list (Line T)) unit :=
  modify (λ s, (s.1, s.2 ++ [l])).

Section selftest.
Context {Ob T : Type} `{!StackClass Ob T}.

(** [while (!Empty()) cout << "popping " << Pop()] *)
Fixpoint pop_all (fuel : nat) : M (Ob * list (Line T)) unit :=
  match fuel with
  | O => fail OutOfFuel
  | S fuel' =>
      empty ← on_obj Empty;
      if (empty : bool) then mret tt
      else x ← on_obj Pop; cout (popping x) ;; pop_all fuel'
  end.

(** [while (!Full()) { cout << "pushing " << count; Push(count++); }];
    [next] is what [++] does to [count]. *)
Fixpoint fill (next : T → T) (fuel : nat) (count : T) : M (Ob * list (Line T)) unit :=
  match fuel with
  | O => fail OutOfFuel
  | S fuel' =>
      full ← on_obj Full;
      if (full : bool) then mret tt
      else cout (pushing count) ;; on_obj (Push count) ;; fill next fuel' (next count)
  end.

(** [for (int i = 0; i < numToPush; i++)] with [n] rounds left. *)
Fixpoint push_items (next : T → T) (n : nat) (count : T) : M (Ob * list (Line T)) unit :=
  match n with
  | O => mret tt
  | S n' =>
      full ← on_obj Full;
      lift (ASSERT (negb full)) ;;
      cout (pushing count) ;;
      on_obj (Push count) ;;
      push_items next n' (next count)
  end.
End selftest.

Definition int_next (count : Z) : Z := add32 count 1.

(** [Stack::SelfTest] of inheritstack.cc. *)
Definition SelfTest {Ob} `{!StackClass Ob Z} (fuel : nat) (numToPush : Z) : M (Ob * list (Line Z)) unit :=
  push_items int_next (Z.to_nat numToPush) 17 ;; pop_all fuel.

(** ** The stacks with an array *)

#[export] Instance template_class {T} : StackClass (Template.Stack T) T := {
  Push := Template.Push;
  Pop := Template.Pop;
  Full := Template.Full;
  Empty := Template.Empty
}.

(** [Stack<T>::SelfTest] *)
Definition template_SelfTest {T} (next : T → T) (fuel : nat) (start : T)
    : M (Template.Stack T * list (Line T)) unit :=
  fill next fuel start ;; pop_all fuel.

(** stack.cc: the same functions for [int]. *)
Module IntStack.
Definition Stack : Type := Template.Stack Z.
Definition Stack_new : (nat → list Z) → Z → res Stack := Template.Stack_new.
Definition Full : M Stack bool := Template.Full.
Definition Empty : M Stack bool := Template.Empty.
Definition Push : Z → M Stack unit := Template.Push.
Definition Pop : M Stack Z := Template.Pop.
Definition SelfTest (fuel : nat) : M (Stack * list (Line Z)) unit :=
  fill int_next fuel 17 ;; pop_all fuel.
End IntStack.

(** inheritstack.cc: [ArrayStack], the same functions again. *)
Module ArrayStack.
Definition ArrayStack : Type := Template.Stack Z.
Definition ArrayStack_new : (nat → list Z) → Z → res ArrayStack := Template.Stack_new.
Definition Push : Z → M ArrayStack unit := Template.Push.
Definition Pop : M ArrayStack Z := Template.Pop.
Definition Full : M ArrayStack bool := Template.Full.
Definition Empty : M ArrayStack bool := Template.Empty.
End ArrayStack.

(** ** list.cc *)

Module IntList.
Definition loc := positive.

Record ListElement := Elem { item : Z; next : option loc }.

(** The cells that are allocated, and the two pointers. *)
Record List := MkList { cells : gmap loc ListElement; first : option loc; last : option loc }.
Definition List_new : List := MkList ∅ None None.

Definition cell (p : loc) : M List ListElement := λ s, c ← deref (cells s !! p); Ok (c, s).
Definition set_first (p : option loc) : M List unit := modify (λ s, MkList (cells s) p (last s)).
Definition set_last (p : option loc) : M List unit := modify (λ s, MkList (cells s) (first s) p).
Definition set_next (p : loc) (n : option loc) : M List unit :=
  c ← cell p; modify (λ s, MkList (<[p := Elem (item c) n]> (cells s)) (first s) (last s)).
Definition ListElement_new (value : Z) : M List loc := λ s,
  let p := fresh (dom (cells s)) in
  Ok (p, MkList (<[p := Elem value None]> (cells s)) (first s) (last s)).
Definition ListElement_delete (p : loc) : M List unit :=
  cell p ;; modify (λ s, MkList (delete p (cells s)) (first s) (last s)).

Definition Empty : M List bool := gets (λ s, bool_decide (first s = None)).

Definition Prepend (value : Z) : M List unit :=
  element ← ListElement_new value;
  empty ← Empty;
  if (empty : bool) then set_first (Some element) ;; set_last (Some element)
  else
    f ← gets first;
    set_next element f ;;
    set_first (Some element).

Definition Remove : M List Z :=
  empty ← Empty;
  lift (ASSERT (negb empty)) ;;
  s ← get;
  element ← lift (deref (first s));
  c ← cell element;
  (if bool_decide (first s = last s) then set_first None ;; set_last None
   else set_first (next c)) ;;
  ListElement_delete element ;;
  mret (item c).

(** The destructor. *)
Fixpoint List_delete (fuel : nat) : M List unit :=
  match fuel with
  | O => fail OutOfFuel
  | S fuel' =>
      empty ← Empty;
      if (empty : bool) then mret tt else Remove ;; List_delete fuel'
  end.
End IntList.

(** inheritstack.cc: [ListStack].  The list is part of the object. *)
Module ListStack.
Definition ListStack : Type := IntList.List.
Definition ListStack_new : ListStack := IntList.List_new.
Definition Push (value : Z) : M ListStack unit := IntList.Prepend value.
Definition Empty : M ListStack bool := IntList.Empty.
Definition Pop : M ListStack Z :=
  empty ← Empty;
  lift (ASSERT (negb empty)) ;;
  IntList.Remove.
Definition Full : M ListStack bool := mret false.
Definition ListStack_delete : nat → M ListStack unit := IntList.List_delete.
End ListStack.

#[export] Instance list_class : StackClass ListStack.ListStack Z := {
  Push := ListStack.Push;
  Pop := ListStack.Pop;
  Full := ListStack.Full;
  Empty := ListStack.Empty
}.

(** ** The three programs *)

(** [main] of stack.cc. *)
Definition stack_main (contents : nat → list Z) (fuel : nat) : res (list (Line Z)) :=
  s ← IntStack.Stack_new contents 10;
  '(_, (_, out)) ← IntStack.SelfTest fuel (s, []);
  Ok out.

(** [main] of inheritstack.cc. *)
Definition inherit_main (contents : nat → list Z) (fuel : nat) : res (list (Line Z)) :=
  s1 ← ArrayStack.ArrayStack_new contents 10;
  '(_, (_, out)) ← SelfTest fuel 10 (s1, [testing "ArrayStack"]);
  '(_, (s2, out)) ← SelfTest fuel 10 (ListStack.ListStack_new, out ++ [testing "ListStack"]);
  ListStack.ListStack_delete fuel s2 ;;
  Ok out.

(** [main] of templatestack.cc; the lines of the two stacks. *)
Definition char_next (count : Z) : Z := s8 (count + 1).
Definition template_main (ints chars : nat → list Z) (fuel : nat) : res (list (Line Z) * list (Line Z)) :=
  s1 ← Template.Stack_new ints 10;
  s2 ← Template.Stack_new chars 10;
  '(_, (_, out1)) ← template_SelfTest int_next fuel 17 (s1, [testing "Stack<int>"]);
  '(_, (_, out2)) ← template_SelfTest char_next fuel 97 (s2, [testing "Stack<char>"]);
  Ok (out1, out2).
