(* ===== verification/StackSpec.v ===== *)
(** * The stacks are stacks

    What a class derived from [Stack] promises, as a type class: it does what
    a list with a capacity does.  The array and the list keep the promise, and
    the self test is proved against it. *)
From S2P Require Import Prelude Word Stacks.

(** ** The abstract stack *)

Section spec.
Context {T : Type}.

Inductive op := OPush (x : T) | OPop | OFull | OEmpty.
Inductive ret := RUnit | RItem (x : T) | RBool (b : bool).

(** [cap] is the capacity, if there is one. *)
Definition is_full (cap : option Z) (xs : list T) : bool := bool_decide (cap = Some (zlen xs)).

Definition spec_run (cap : option Z) (o : op) (xs : list T) : res (ret * list T) :=
  match o with
  | OPush x => if is_full cap xs then Fault AssertFailed else Ok (RUnit, x :: xs)
  | OPop => match xs with x :: xs' => Ok (RItem x, xs') | [] => Fault AssertFailed end
  | OFull => Ok (RBool (is_full cap xs), xs)
  | OEmpty => Ok (RBool (bool_decide (xs = [])), xs)
  end.

Fixpoint spec_run_all (cap : option Z) (os : list op) (xs : list T) : res (list ret * list T) :=
  match os with
  | [] => Ok ([], xs)
  | o :: os => '(r, xs) ← spec_run cap o xs; '(rs, xs) ← spec_run_all cap os xs; Ok (r :: rs, xs)
  end.

(** ** A class derived from [Stack] *)

Context {Ob : Type} `{!StackClass Ob T}.

Definition run (o : op) : M Ob ret :=
  match o with
  | OPush x => Push x ;; mret RUnit
  | OPop => x ← Pop; mret (RItem x)
  | OFull => b ← Full; mret (RBool b)
  | OEmpty => b ← Empty; mret (RBool b)
  end.

Fixpoint run_all (os : list op) : M Ob (list ret) :=
  match os with
  | [] => mret []
  | o :: os => r ← run o; rs ← run_all os; mret (r :: rs)
  end.
End spec.
Arguments op : clear implicits.
Arguments ret : clear implicits.

(** The run of the code, when the abstract stack answers [o]. *)
Definition matches {Ob T A} (R : list T → Ob → Prop) (r : res (A * Ob)) (o : res (A * list T)) : Prop :=
  match o with
  | Ok (a, xs) => ∃ ob, r = Ok (a, ob) ∧ R xs ob
  | Fault f => r = Fault f
  end.

(** What it promises: the object stands for the items, the last one pushed
    first, and every operation does what it does to them. *)
Class IsStack (Ob T : Type) `{!StackClass Ob T} (cap : option Z) (R : list T → Ob → Prop) : Prop :=
  run_matches : ∀ o xs ob, R xs ob → matches R (run o ob) (spec_run cap o xs).

Section client.
Context {Ob T : Type} `{!StackClass Ob T} {cap : option Z} {R : list T → Ob → Prop} `{!IsStack Ob T cap R}.

Lemma run_all_matches os : ∀ xs ob, R xs ob → matches R (run_all os ob) (spec_run_all cap os xs).
Proof.
  induction os as [|o os IH]; intros xs ob HR; [by exists ob|]. simpl.
  pose proof (run_matches o xs ob HR) as Ho. unfold matches in Ho.
  destruct (spec_run cap o xs) as [[r xs1]|f]; cbn.
  - destruct Ho as (ob1 & Ho & HR1). rewrite (M_bind_step _ _ _ _ _ Ho).
    specialize (IH _ _ HR1). unfold matches in IH |- *.
    destruct (spec_run_all cap os xs1) as [[rs xs2]|f]; cbn.
    + destruct IH as (ob2 & IH & HR2). rewrite (M_bind_step _ _ _ _ _ IH). by exists ob2.
    + unfold mbind, M_bind. by rewrite IH.
  - unfold mbind, M_bind. by rewrite Ho.
Qed.

(** Each function, from the promise. *)
Lemma Push_Ok x xs ob :
  R xs ob → is_full cap xs = false → ∃ ob', Push x ob = Ok (tt, ob') ∧ R (x :: xs) ob'.
Proof.
  intros HR Hf. pose proof (run_matches (OPush x) xs ob HR) as H. simpl in H. rewrite Hf in H.
  destruct H as (ob' & H & HR'). exists ob'. split; [|done]. unfold mbind, M_bind in H.
  by destruct (Push x ob) as [[[] ob1]|] eqn:E; [injection H as ->|].
Qed.

Lemma Pop_Ok x xs ob : R (x :: xs) ob → ∃ ob', Pop ob = Ok (x, ob') ∧ R xs ob'.
Proof.
  intros HR. destruct (run_matches OPop _ ob HR) as (ob' & H & HR'). exists ob'. split; [|done].
  unfold run, mbind, M_bind in H. by destruct (Pop ob) as [[y ob1]|] eqn:E; [injection H as -> ->|].
Qed.

Lemma Full_Ok xs ob : R xs ob → ∃ ob', Full ob = Ok (is_full cap xs, ob') ∧ R xs ob'.
Proof.
  intros HR. destruct (run_matches OFull _ ob HR) as (ob' & H & HR'). exists ob'. split; [|done].
  unfold run, mbind, M_bind in H. by destruct (Full ob) as [[y ob1]|] eqn:E; [injection H as -> ->|].
Qed.

Lemma Empty_Ok xs ob : R xs ob → ∃ ob', Empty ob = Ok (bool_decide (xs = []), ob') ∧ R xs ob'.
Proof.
  intros HR. destruct (run_matches OEmpty _ ob HR) as (ob' & H & HR'). exists ob'. split; [|done].
  unfold run, mbind, M_bind in H. by destruct (Empty ob) as [[y ob1]|] eqn:E; [injection H as -> ->|].
Qed.

Lemma on_obj_step {A B} (m : M Ob A) (k : A → M (Ob * list (Line T)) B) a ob ob' out :
  m ob = Ok (a, ob') → (on_obj m ≫= k) (ob, out) = k a (ob', out).
Proof. intros H. unfold on_obj, mbind, M_bind. simpl. by rewrite H. Qed.

(** ** The self test *)

Lemma pop_all_Ok xs : ∀ fuel ob out, R xs ob → (length xs < fuel)%nat →
  ∃ ob', pop_all fuel (ob, out) = Ok (tt, (ob', out ++ (popping <$> xs))) ∧ R [] ob'.
Proof.
  induction xs as [|x xs IH]; intros [|fuel] ob out HR Hf; simpl in Hf; try lia; simpl.
  - destruct (Empty_Ok _ _ HR) as (ob1 & He & HR1). rewrite (on_obj_step _ _ _ _ _ _ He). cbn.
    exists ob1. by rewrite app_nil_r.
  - destruct (Empty_Ok _ _ HR) as (ob1 & He & HR1). rewrite (on_obj_step _ _ _ _ _ _ He). cbn.
    destruct (Pop_Ok _ _ _ HR1) as (ob2 & Hp & HR2). rewrite (on_obj_step _ _ _ _ _ _ Hp).
    destruct (IH fuel ob2 (out ++ [popping x]) HR2 ltac:(lia)) as (ob3 & H3 & HR3).
    exists ob3. split; [|done]. unfold cout, modify, mbind, M_bind. simpl. rewrite H3.
    by rewrite <- app_assoc.
Qed.

(** The items that are pushed, in their order. *)
Fixpoint counted (next : T → T) (n : nat) (x : T) : list T :=
  match n with O => [] | S n => x :: counted next n (next x) end.

Lemma push_items_Ok next n : ∀ x xs ob out, R xs ob →
  (∀ c, cap = Some c → zlen xs + Z.of_nat n ≤ c) →
  ∃ ob', push_items next n x (ob, out) = Ok (tt, (ob', out ++ (pushing <$> counted next n x)))
    ∧ R (reverse (counted next n x) ++ xs) ob'.
Proof.
  induction n as [|n IH]; intros x xs ob out HR Hc.
  { exists ob. simpl. by rewrite app_nil_r. }
  assert (reverse (counted next (S n) x) ++ xs = reverse (counted next n (next x)) ++ x :: xs) as ->
    by (cbn [counted]; by rewrite reverse_cons, <- app_assoc).
  simpl.
  assert (is_full cap xs = false) as Hf.
  { apply bool_decide_false. intros E. specialize (Hc _ E). lia. }
  destruct (Full_Ok _ _ HR) as (ob1 & H1 & HR1). rewrite Hf in H1. rewrite (on_obj_step _ _ _ _ _ _ H1).
  destruct (Push_Ok x _ _ HR1 Hf) as (ob2 & H2 & HR2).
  destruct (IH (next x) (x :: xs) ob2 (out ++ [pushing x]) HR2) as (ob3 & H3 & HR3).
  { intros c E. specialize (Hc c E). unfold zlen in *. simpl. lia. }
  exists ob3. unfold cout, modify, lift, mbind, M_bind. simpl. unfold on_obj. simpl. rewrite H2. cbn. rewrite H3.
  split; [by rewrite <- app_assoc|done].
Qed.

(** Too many of them fail an assertion. *)
Lemma push_items_fails next n : ∀ x xs ob out c, R xs ob → cap = Some c →
  zlen xs ≤ c < zlen xs + Z.of_nat n → push_items next n x (ob, out) = Fault AssertFailed.
Proof.
  induction n as [|n IH]; intros x xs ob out c HR Hcap Hc; [lia|]. simpl.
  destruct (Full_Ok _ _ HR) as (ob1 & H1 & HR1). rewrite (on_obj_step _ _ _ _ _ _ H1).
  destruct (is_full cap xs) eqn:Hf; [done|].
  destruct (Push_Ok x _ _ HR1 Hf) as (ob2 & H2 & HR2).
  unfold cout, modify, lift, mbind, M_bind. simpl. unfold on_obj. simpl. rewrite H2. cbn.
  apply bool_decide_eq_false in Hf. rewrite Hcap in Hf.
  apply (IH (next x) (x :: xs) ob2 _ c HR2 Hcap). unfold zlen in *. simpl.
  assert (c ≠ Z.of_nat (length xs)) by (intros ->; done). lia.
Qed.

(** Pushing until the stack is full. *)
Lemma fill_full next n : ∀ x xs ob out c fuel, R xs ob → cap = Some c →
  zlen xs + Z.of_nat n = c → (n < fuel)%nat →
  ∃ ob', fill next fuel x (ob, out) = Ok (tt, (ob', out ++ (pushing <$> counted next n x)))
    ∧ R (reverse (counted next n x) ++ xs) ob'.
Proof.
  induction n as [|n IH]; intros x xs ob out c fuel HR Hcap Hc Hf; (destruct fuel as [|fuel]; [lia|]); cbn [fill];
    destruct (Full_Ok _ _ HR) as (ob1 & H1 & HR1).
  - assert (is_full cap xs = true) as Hfull by (apply bool_decide_true; rewrite Hcap; f_equal; lia).
    rewrite Hfull in H1. rewrite (on_obj_step _ _ _ _ _ _ H1). exists ob1. simpl. by rewrite app_nil_r.
  - assert (reverse (counted next (S n) x) ++ xs = reverse (counted next n (next x)) ++ x :: xs) as ->
      by (cbn [counted]; by rewrite reverse_cons, <- app_assoc).
    assert (is_full cap xs = false) as Hfull by (apply bool_decide_false; rewrite Hcap; intros [= ?]; lia).
    rewrite Hfull in H1. rewrite (on_obj_step _ _ _ _ _ _ H1).
    destruct (Push_Ok x _ _ HR1 Hfull) as (ob2 & H2 & HR2).
    destruct (IH (next x) (x :: xs) ob2 (out ++ [pushing x]) c fuel HR2 Hcap) as (ob3 & H3 & HR3);
      [unfold zlen in *; simpl; lia|lia|].
    exists ob3. unfold cout, modify, mbind, M_bind. simpl. unfold on_obj. simpl. rewrite H2. cbn. rewrite H3.
    split; [by rewrite <- app_assoc|done].
Qed.
End client.

(** ** The two implementations *)

(** The array starts with the items, the first one pushed first. *)
Definition array_is {T} (n : Z) (xs : list T) (s : Template.Stack T) : Prop :=
  Template.size s = n ∧ Template.top s = zlen xs ∧ n < 2 ^ 31 ∧ zlen (Template.stack s) = n
  ∧ ∃ rest, Template.stack s = reverse xs ++ rest.

Lemma array_new {T} (contents : nat → list T) n :
  (∀ i, length (contents i) = i) → 1 ≤ n < 2 ^ 31 →
  ∃ s, Template.Stack_new contents n = Ok s ∧ array_is n [] s.
Proof.
  intros Hc Hn. unfold Template.Stack_new. replace (1 <=? n) with true by lia. eexists. split; [done|].
  unfold array_is, zlen. simpl. rewrite Hc. split; [done|]. split; [done|]. split; [lia|]. split; [lia|]. eauto.
Qed.

Lemma zlen_reverse {A} (l : list A) : zlen (reverse l) = zlen l.
Proof. unfold zlen. by rewrite length_reverse. Qed.

#[export] Instance array_stack {T} (n : Z) : IsStack (Template.Stack T) T (Some n) (array_is n).
Proof.
  intros o xs [sz tp a] (Hs & Ht & Hn & Ha & rest & Hrest). simpl in *. subst sz tp a.
  assert (zlen xs + zlen rest = n) as Hlen by (rewrite <- Ha; unfold zlen; rewrite length_app, length_reverse; lia).
  assert (is_full (Some n) xs = (zlen xs =? n)) as Hfull.
  { unfold is_full. destruct (Z.eqb_spec (zlen xs) n) as [->|]; [by rewrite bool_decide_true|].
    apply bool_decide_false. congruence. }
  destruct o as [x| | |]; cbn [spec_run matches run Push Pop Full Empty template_class].
  - rewrite Hfull. unfold Template.Push, Template.Full, gets, get, lift, put, mbind, M_bind. cbn -[reverse].
    destruct (Z.eqb_spec (zlen xs) n) as [E|E]; [done|]. cbn -[reverse].
    destruct rest as [|y rest]; [unfold zlen in *; simpl in *; lia|].
    rewrite <- (zlen_reverse xs), awrite_middle. eexists. split; [reflexivity|].
    unfold array_is, add32. cbn -[reverse]. rewrite zlen_reverse, s32_id by (unfold in_s32, zlen in *; simpl in *; lia).
    split; [done|]. split; [unfold zlen; simpl; lia|]. split; [done|].
    split; [rewrite <- Ha; unfold zlen; by rewrite !length_app|]. exists rest. by rewrite reverse_cons, <- app_assoc.
  - unfold Template.Pop, Template.Empty, gets, get, lift, put, mbind, M_bind. cbn -[reverse].
    destruct xs as [|x xs]; [done|]. assert (zlen (x :: xs) = zlen xs + 1) as Hx by (unfold zlen; simpl; lia).
    assert (0 ≤ zlen xs ∧ 0 ≤ zlen rest) as [H1 H2] by (unfold zlen; lia).
    rewrite (proj2 (Z.eqb_neq _ _)) by lia. cbn -[reverse]. rewrite Hx, reverse_cons, <- app_assoc.
    unfold sub32. rewrite s32_id by (unfold in_s32; lia). replace (zlen xs + 1 - 1) with (zlen xs) by lia.
    cbn -[reverse]. pose proof (aread_middle (reverse xs) rest x) as Hr. rewrite zlen_reverse in Hr. rewrite Hr.
    eexists. split; [reflexivity|]. unfold array_is. cbn -[reverse]. split; [done|]. split; [done|]. split; [done|].
    split; [rewrite <- Ha, reverse_cons, <- app_assoc; done|]. by exists (x :: rest).
  - rewrite Hfull. unfold Template.Full, gets, mbind, M_bind. cbn -[reverse]. eexists. split; [reflexivity|].
    split; [done|]. split; [done|]. split; [done|]. split; [done|]. by exists rest.
  - unfold Template.Empty, gets, mbind, M_bind. cbn -[reverse]. eexists.
    replace (zlen xs =? 0) with (bool_decide (xs = [])) by (by destruct xs).
    split; [reflexivity|]. split; [done|]. split; [done|]. split; [done|]. split; [done|]. by exists rest.
Qed.

(** The cells of the list, from the first one on. *)
Section list.
Import IntList.
Implicit Types (h : gmap loc ListElement) (ps : list loc).

Fixpoint chain h (p : option loc) ps (xs : list Z) : Prop :=
  match ps, xs with
  | [], [] => p = None
  | q :: ps, x :: xs => p = Some q ∧ ∃ n, h !! q = Some (Elem x n) ∧ chain h n ps xs
  | _, _ => False
  end.

Definition list_is (xs : list Z) (s : List) : Prop :=
  ∃ ps, NoDup ps ∧ chain (cells s) (first s) ps xs ∧ dom (cells s) = list_to_set ps
    ∧ last s = list.last ps.

Lemma chain_frame h h' ps : ∀ p xs,
  (∀ q, q ∈ ps → h' !! q = h !! q) → chain h p ps xs → chain h' p ps xs.
Proof.
  induction ps as [|q ps IH]; intros p [|x xs] Hf; simpl; try done.
  intros (-> & n & Hq & H). split; [done|]. exists n. rewrite Hf by apply list_elem_of_here.
  split; [done|]. apply IH; [|done]. intros. apply Hf. by apply list_elem_of_further.
Qed.

Lemma chain_empty h p ps xs : chain h p ps xs → bool_decide (p = None) = bool_decide (xs = []).
Proof. destruct ps, xs; simpl; try done; [by intros ->|by intros [-> _]]. Qed.

Lemma list_new : list_is [] ListStack.ListStack_new.
Proof. exists []. split; [constructor|]. done. Qed.

Lemma Empty_list xs s : list_is xs s → IntList.Empty s = Ok (bool_decide (xs = []), s).
Proof. intros (ps & _ & Hc & _). unfold IntList.Empty, gets. by rewrite (chain_empty _ _ _ _ Hc). Qed.

Lemma set_next_cell p c n s :
  cells s !! p = Some c →
  set_next p n s = Ok (tt, MkList (<[p := Elem (item c) n]> (cells s)) (first s) (last s)).
Proof. intros H. unfold set_next, cell, modify, mbind, M_bind. rewrite H. done. Qed.

Lemma ListElement_delete_Ok p c s :
  cells s !! p = Some c → ListElement_delete p s = Ok (tt, MkList (delete p (cells s)) (first s) (last s)).
Proof. intros H. unfold ListElement_delete, cell, modify, mbind, M_bind. by rewrite H. Qed.

Lemma Prepend_list x xs s : list_is xs s → ∃ s', Prepend x s = Ok (tt, s') ∧ list_is (x :: xs) s'.
Proof.
  intros Hs. pose proof Hs as (ps & Hnd & Hc & Hdom & Hlast). unfold Prepend, ListElement_new.
  set (q := fresh (dom (cells s))). assert (q ∉ dom (cells s)) as Hq by apply is_fresh.
  assert (q ∉ ps) as Hqs by (rewrite Hdom in Hq; set_solver).
  assert (∀ c, chain (<[q := c]> (cells s)) (first s) ps xs) as Hc'.
  { intros c. eapply chain_frame; [|exact Hc]. intros r Hr. apply lookup_insert_ne. by intros ->. }
  assert (∀ c f, first s = None ∧ f = Some q ∨ first s ≠ None ∧ f = last s →
    list_is (x :: xs) (MkList (<[q := Elem x (first s)]> (<[q := c]> (cells s))) (Some q) f)) as Hend.
  { intros c f Hf. exists (q :: ps). split; [by apply list.NoDup_cons|]. cbn [cells first last]. rewrite insert_insert_eq.
    split; [split; [done|]; eexists; split; [apply lookup_insert_eq|apply Hc']|].
    split; [rewrite dom_insert_L, Hdom; set_solver|].
    destruct ps as [|r ps]; [by destruct xs; destruct Hf as [[_ ->]|[? _]]|].
    destruct xs; [done|]. destruct Hc as [Hc _]. destruct Hf as [[E _]|[_ ->]]; [congruence|]. by rewrite Hlast. }
  fold q. unfold IntList.Empty, gets, mbind, M_bind, set_first, set_last, modify. cbn [cells first last].
  destruct (first s) as [r|] eqn:Ef.
  - rewrite bool_decide_false by done.
    rewrite (set_next_cell q (Elem x None)) by (cbn [cells]; apply lookup_insert_eq).
    cbn [cells first last item]. eexists. split; [reflexivity|]. apply Hend. by right.
  - rewrite bool_decide_true by done. eexists. split; [reflexivity|].
    specialize (Hend (Elem x None) (Some q) (or_introl (conj eq_refl eq_refl))).
    by rewrite insert_insert_eq in Hend.
Qed.

Lemma Remove_list x xs s : list_is (x :: xs) s → ∃ s', Remove s = Ok (x, s') ∧ list_is xs s'.
Proof.
  intros ([|q ps] & Hnd & Hc & Hdom & Hlast); [done|]. destruct Hc as (Hf & n & Hq & Hc).
  apply list.NoDup_cons in Hnd as [Hqs Hnd].
  assert (chain (delete q (cells s)) n ps xs) as Hc'.
  { eapply chain_frame; [|exact Hc]. intros r Hr. apply lookup_delete_ne. by intros ->. }
  assert (dom (delete q (cells s)) = list_to_set ps) as Hdom' by (rewrite dom_delete_L, Hdom; set_solver).
  unfold Remove, IntList.Empty. rewrite (M_bind_step _ _ _ false s) by (unfold gets; by rewrite Hf).
  mrun. mrun. rewrite (M_bind_step _ _ _ q s) by (unfold lift; by rewrite Hf).
  rewrite (M_bind_step _ _ _ (Elem x n) s) by (unfold cell; by rewrite Hq).
  destruct ps as [|r ps].
  - destruct xs; [|done]. rewrite Hf, Hlast, bool_decide_true by done.
    rewrite (M_bind_step _ _ _ tt (MkList (cells s) None None)) by done.
    rewrite (M_bind_step _ _ _ _ _ (ListElement_delete_Ok q _ (MkList (cells s) None None) Hq)).
    eexists. split; [reflexivity|]. by exists [].
  - rewrite Hf, bool_decide_false.
    + rewrite (M_bind_step _ _ _ tt (MkList (cells s) n (last s))) by done.
      rewrite (M_bind_step _ _ _ _ _ (ListElement_delete_Ok q _ (MkList (cells s) n (last s)) Hq)).
      eexists. split; [reflexivity|]. by exists (r :: ps).
    + rewrite Hlast. intros E. symmetry in E. change (list.last (r :: ps) = Some q) in E.
      by apply last_Some_elem_of in E.
Qed.
End list.

#[export] Instance list_stack : IsStack ListStack.ListStack Z None list_is.
Proof.
  intros o xs s Hs. destruct o as [x| | |]; cbn [spec_run matches run Push Pop Full Empty list_class].
  - destruct (Prepend_list x xs s Hs) as (s' & Hp & Hs'). exists s'. unfold ListStack.Push.
    by rewrite (M_bind_step _ _ _ _ _ Hp).
  - assert (∀ b, (bool_decide (xs = []) = b) → ListStack.Pop s = if b then Fault AssertFailed else IntList.Remove s) as Hpop.
    { intros b <-. unfold ListStack.Pop, ListStack.Empty. rewrite (M_bind_step _ _ _ _ _ (Empty_list _ _ Hs)).
      by destruct xs. }
    unfold mbind, M_bind. rewrite (Hpop _ eq_refl). destruct xs as [|x xs]; [done|].
    destruct (Remove_list x xs s Hs) as (s' & Hr & Hs'). cbn. rewrite Hr. by exists s'.
  - by exists s.
  - unfold ListStack.Empty. rewrite (M_bind_step _ _ _ _ _ (Empty_list _ _ Hs)). by exists s.
Qed.

(** ** Both of them *)

(** What the operations answer, or how they fail. *)
Definition answers {A B} (r : res (A * B)) : res A := fst <$> r.

Lemma matches_answers {Ob T A} (R : list T → Ob → Prop) (r : res (A * Ob)) o :
  matches R r o → answers r = answers o.
Proof. unfold matches. destruct o as [[a xs]|f]; [intros (ob & -> & _)|intros ->]; done. Qed.

(** C20.  Both stacks are stacks: every sequence of operations on a
    new [ArrayStack] answers what an abstract stack of the capacity of its
    array answers, and on a new [ListStack] what one without a bound answers,
    failed assertions included. *)
Theorem stacks_refine (os : list (op Z)) (contents : nat → list Z) n
    (Hcontents : ∀ i, length (contents i) = i) (Hn : 1 ≤ n < 2 ^ 31) :
  (∃ s, ArrayStack.ArrayStack_new contents n = Ok s
     ∧ answers (run_all os s) = answers (spec_run_all (Some n) os []))
  ∧ answers (run_all os ListStack.ListStack_new) = answers (spec_run_all None os []).
Proof.
  split.
  - destruct (array_new contents n Hcontents Hn) as (s & Hs & Ha). exists s. split; [done|].
    eapply matches_answers, (run_all_matches (cap := Some n)), Ha.
  - eapply matches_answers, (run_all_matches (cap := None)), list_new.
Qed.

(** The lines of the self test with [n] items. *)
Definition test_lines (n : nat) : list (Line Z) :=
  let xs := counted int_next n 17 in (pushing <$> xs) ++ (popping <$> reverse xs).

Lemma length_counted {T} (next : T → T) n x : length (counted next n x) = n.
Proof. revert x. induction n; intros; simpl; auto. Qed.

Lemma SelfTest_Ok {Ob} `{!StackClass Ob Z} cap R `{!IsStack Ob Z cap R} fuel num ob out :
  R [] ob → (∀ c, cap = Some c → num ≤ c) → 0 ≤ num → (Z.to_nat num < fuel)%nat →
  ∃ ob', SelfTest fuel num (ob, out) = Ok (tt, (ob', out ++ test_lines (Z.to_nat num))) ∧ R [] ob'.
Proof.
  intros HR Hc Hnum Hf. unfold SelfTest.
  destruct (push_items_Ok (cap := cap) (R := R) int_next (Z.to_nat num) 17 [] ob out HR) as (ob1 & H1 & HR1).
  { intros c E. specialize (Hc c E). unfold zlen. simpl. lia. }
  rewrite (M_bind_step _ _ _ _ _ H1). rewrite app_nil_r in HR1.
  destruct (pop_all_Ok (cap := cap) (R := R) _ fuel ob1 (out ++ (pushing <$> counted int_next (Z.to_nat num) 17)) HR1)
    as (ob2 & H2 & HR2); [by rewrite length_reverse, length_counted|].
  exists ob2. split; [|done]. rewrite H2. by rewrite <- app_assoc.
Qed.

(** The self test does not care which stack it gets: written
    against the abstract class it pushes [num] numbers from 17 on, pops them in
    the reverse order until the stack is empty, and prints the same lines for
    both implementations; only the array stops it, by a failed assertion, and
    exactly when the numbers do not fit. *)
Theorem SelfTest_correct (contents : nat → list Z) n num fuel out
    (Hcontents : ∀ i, length (contents i) = i) (Hn : 1 ≤ n < 2 ^ 31) (Hnum : 0 ≤ num)
    (Hfuel : (Z.to_nat num < fuel)%nat) :
  (∃ s, ArrayStack.ArrayStack_new contents n = Ok s
     ∧ if num <=? n
       then ∃ s', SelfTest fuel num (s, out) = Ok (tt, (s', out ++ test_lines (Z.to_nat num)))
                  ∧ ArrayStack.Empty s' = Ok (true, s')
       else SelfTest fuel num (s, out) = Fault AssertFailed)
  ∧ ∃ s', SelfTest fuel num (ListStack.ListStack_new, out) = Ok (tt, (s', out ++ test_lines (Z.to_nat num)))
          ∧ IntList.cells s' = ∅.
Proof.
  split.
  - destruct (array_new contents n Hcontents Hn) as (s & Hs & Ha). exists s. split; [done|].
    destruct (Z.leb_spec num n).
    + destruct (SelfTest_Ok (Some n) (array_is n) fuel num s out Ha) as (s' & H1 & _ & Ht & _);
        [by intros c [= <-]|done|done|]. exists s'. split; [done|].
      unfold ArrayStack.Empty, Template.Empty, gets. by rewrite Ht.
    + unfold SelfTest. unfold mbind, M_bind.
      by rewrite (push_items_fails (R := array_is n) int_next _ 17 [] s out n Ha eq_refl) by (unfold zlen; simpl; lia).
  - destruct (SelfTest_Ok None list_is fuel num _ out list_new) as (s' & H1 & ps & _ & Hc & Hdom & _);
      [done|done|done|]. exists s'. split; [done|]. destruct ps; [|done].
    by apply dom_empty_inv_L.
Qed.

(** The self tests of stack.cc and templatestack.cc fill the array. *)
Lemma template_SelfTest_Ok {T} (next : T → T) n fuel start s out :
  array_is n [] s → (Z.to_nat n < fuel)%nat →
  ∃ s', template_SelfTest next fuel start (s, out)
        = Ok (tt, (s', out ++ (pushing <$> counted next (Z.to_nat n) start)
                         ++ (popping <$> reverse (counted next (Z.to_nat n) start)))) ∧ array_is n [] s'.
Proof.
  intros Ha Hf. assert (0 ≤ n) as Hn by (destruct Ha as (_ & _ & _ & <- & _); unfold zlen; lia).
  unfold template_SelfTest.
  destruct (fill_full (cap := Some n) (R := array_is n) next (Z.to_nat n) start [] s out n fuel Ha eq_refl)
    as (s1 & H1 & HR1); [unfold zlen; simpl; lia|done|].
  rewrite (M_bind_step _ _ _ _ _ H1). rewrite app_nil_r in HR1.
  destruct (pop_all_Ok (cap := Some n) (R := array_is n) _ fuel s1
    (out ++ (pushing <$> counted next (Z.to_nat n) start)) HR1) as (s2 & H2 & HR2);
    [by rewrite length_reverse, length_counted|].
  exists s2. split; [|done]. rewrite H2. by rewrite <- app_assoc.
Qed.

(** The program of stack.cc prints the lines of ten numbers. *)
Theorem stack_main_prints (contents : nat → list Z) :
  (∀ i, length (contents i) = i) → stack_main contents 11 = Ok (test_lines 10).
Proof.
  intros Hc. unfold stack_main. destruct (array_new contents 10 Hc ltac:(done)) as (s & Hs & Ha).
  destruct (template_SelfTest_Ok int_next 10 11 17 s [] Ha) as (s' & H & _); [simpl; lia|].
  assert (IntStack.Stack_new contents 10 = Ok s) as -> by exact Hs.
  assert (IntStack.SelfTest 11 ((s : IntStack.Stack), []) = Ok (tt, (s', test_lines 10))) as H' by exact H.
  unfold mbind, res_bind. by rewrite H'.
Qed.

Lemma stacks_refine_witness :
  let os := [OPush 1; OPush 2; OFull; OPop; OPop; OEmpty; OPop] in
  (∃ s, ArrayStack.ArrayStack_new (λ i, replicate i 0) 2 = Ok s
     ∧ answers (run_all os s) = answers (spec_run_all (Some 2) os []))
  ∧ answers (run_all os ListStack.ListStack_new) = answers (spec_run_all None os []).
Proof. apply (stacks_refine _ (λ i, replicate i 0) 2); [intros i; apply length_replicate|done]. Defined.

Lemma SelfTest_correct_witness :
  (∃ s, ArrayStack.ArrayStack_new (λ i, replicate i 0) 2 = Ok s
     ∧ SelfTest 4 3 (s, []) = Fault AssertFailed)
  ∧ ∃ s', SelfTest 4 3 (ListStack.ListStack_new, [])
          = Ok (tt, (s', [pushing 17; pushing 18; pushing 19; popping 19; popping 18; popping 17]))
          ∧ IntList.cells s' = ∅.
Proof.
  apply (SelfTest_correct (λ i, replicate i 0) 2 3 4 []);
    [intros i; apply length_replicate|done|done|simpl; lia].
Defined.
