(* ===== verification/UserPrograms.v ===== *)
(** * test/sort.c and test/matmult.c: two programs for the simulated machine

    What the programs compute, and what they pass to [Exit].  An [int] has 32
    bits.  An array of arrays is one array of its rows.  The functions return
    the argument of [Exit]. *)
From S2P Require Import Prelude Word.

(** ** sort.c *)

Module Sort.
Definition rd (i : Z) : M (list Z) Z := λ A, x ← aread A i; Ok (x, A).
Definition wr (i x : Z) : M (list Z) unit := λ A, A' ← awrite A i x; Ok (tt, A').

(** The body of the inner loop. *)
Definition exchange (j : Z) : M (list Z) unit :=
  a ← rd j;
  b ← rd (j + 1);
  if b <? a then
    tmp ← rd j;
    y ← rd (j + 1);
    wr j y ;;
    wr (j + 1) tmp
  else mret tt.

Definition init : M (list Z) unit := for_range 0 1024 (λ i, wr i (1024 - i)).
Definition sort : M (list Z) unit :=
  for_range 0 1023 (λ i, for_range i (1023 - i) exchange).

Definition main : M (list Z) Z := init ;; sort ;; rd 0.
End Sort.

(** ** matmult.c *)

Module Matmult.
Definition Dim : Z := 20.

Record Matrices := MkMatrices { A : list Z; B : list Z; C : list Z }.

(** [M[i][j]] *)
Definition at_ (i j : Z) : Z := i * Dim + j.
Definition wr_A (i j x : Z) : M Matrices unit := λ m,
  a ← awrite (A m) (at_ i j) x; Ok (tt, MkMatrices a (B m) (C m)).
Definition wr_B (i j x : Z) : M Matrices unit := λ m,
  b ← awrite (B m) (at_ i j) x; Ok (tt, MkMatrices (A m) b (C m)).
Definition wr_C (i j x : Z) : M Matrices unit := λ m,
  c ← awrite (C m) (at_ i j) x; Ok (tt, MkMatrices (A m) (B m) c).

Definition init : M Matrices unit :=
  for_range 0 Dim (λ i, for_range 0 Dim (λ j, wr_A i j i ;; wr_B i j j ;; wr_C i j 0)).

(** [C[i][j] += A[i][k] * B[k][j]] *)
Definition accumulate (i j k : Z) : M Matrices unit :=
  m ← get;
  c ← lift (aread (C m) (at_ i j));
  a ← lift (aread (A m) (at_ i k));
  b ← lift (aread (B m) (at_ k j));
  wr_C i j (add32 c (s32 (a * b))).

Definition multiply : M Matrices unit :=
  for_range 0 Dim (λ i, for_range 0 Dim (λ j, for_range 0 Dim (accumulate i j))).

Definition main : M Matrices Z :=
  init ;;
  multiply ;;
  m ← get;
  lift (aread (C m) (at_ (Dim - 1) (Dim - 1))).
End Matmult.
