(* ===== verification/UserProgramsSpec.v ===== *)
(** * What test/sort.c and test/matmult.c compute *)
From Stdlib Require Import Sorted.
From S2P Require Import Prelude Word UserPrograms.

(** ** sort.c *)

Section sort.
Import Sort.

Lemma for_range_none {S} lo hi (body : Z → M S unit) s Q :
  hi ≤ lo → Q tt s → wp (for_range lo hi body) s Q.
Proof. intros H HQ. unfold for_range. replace (Z.to_nat (hi - lo)) with 0%nat by lia. by apply wp_ret. Qed.

Lemma two_cells (A : list Z) j :
  0 ≤ j → j + 1 < zlen A → ∃ l1 x y l2, A = l1 ++ x :: y :: l2 ∧ zlen l1 = j.
Proof.
  intros Hj Hlt. unfold zlen in *.
  destruct (lookup_lt_is_Some_2 A (Z.to_nat j)) as [x Hx]; [lia|].
  destruct (lookup_lt_is_Some_2 A (S (Z.to_nat j))) as [y Hy]; [lia|].
  exists (take (Z.to_nat j) A), x, y, (drop (S (S (Z.to_nat j))) A). split.
  - rewrite <- (take_drop_middle A _ x Hx) at 1. f_equal. f_equal. by apply drop_S.
  - rewrite length_take. lia.
Qed.

(** Two neighbours are in order afterwards. *)
Lemma exchange_Ok l1 x y l2 :
  exchange (zlen l1) (l1 ++ x :: y :: l2)
  = Ok (tt, if y <? x then l1 ++ y :: x :: l2 else l1 ++ x :: y :: l2).
Proof.
  assert (∀ b (l : list Z), zlen (l ++ [b]) = zlen l + 1) as Hl
    by (intros; unfold zlen; rewrite length_app; simpl; lia).
  assert (∀ a b l2, aread (l1 ++ a :: b :: l2) (zlen l1) = Ok a) as H0 by (intros; apply aread_middle).
  assert (∀ a b l2, aread (l1 ++ a :: b :: l2) (zlen l1 + 1) = Ok b) as H1.
  { intros a b l3. rewrite <- (Hl a l1). change (a :: b :: l3) with ([a] ++ b :: l3).
    rewrite app_assoc. apply aread_middle. }
  unfold exchange. erewrite M_bind_step; [|unfold rd; rewrite H0; reflexivity].
  erewrite M_bind_step; [|unfold rd; rewrite H1; reflexivity]. destruct (y <? x); [|done].
  erewrite M_bind_step; [|unfold rd; rewrite H0; reflexivity].
  erewrite M_bind_step; [|unfold rd; rewrite H1; reflexivity].
  erewrite M_bind_step; [|unfold wr; rewrite awrite_middle; reflexivity].
  unfold wr. rewrite <- (Hl y l1). change (y :: y :: l2) with ([y] ++ y :: l2).
  rewrite app_assoc, awrite_middle. by rewrite <- app_assoc.
Qed.

(** The loops, on an array that starts with [a0] and [a1]: after the first
    exchange the first element stays. *)
Variables (a0 a1 : Z) (rest : list Z).
Hypothesis Hrest : zlen rest = 1022.

Definition progress (j : Z) (A : list Z) : Prop :=
  zlen A = 1024 ∧ A ≡ₚ a0 :: a1 :: rest
  ∧ if decide (j = 0) then A = a0 :: a1 :: rest else A !! 0%nat = Some (Z.min a0 a1).

Lemma progress_next j j' A : 0 < j → 0 < j' → progress j A → progress j' A.
Proof. intros Hj Hj'. unfold progress. by rewrite !decide_False by lia. Qed.

Lemma exchange_progress j A :
  0 ≤ j < 1023 → progress j A → wp (exchange j) A (λ _ A', progress (j + 1) A').
Proof.
  intros Hj (Hlen & Hperm & Hhead). destruct (two_cells A j) as (l1 & x & y & l2 & -> & <-); [lia|lia|].
  unfold wp. rewrite exchange_Ok. unfold progress. rewrite (decide_False (P := zlen l1 + 1 = 0)) by (unfold zlen; lia).
  assert (zlen (l1 ++ y :: x :: l2) = 1024) as Hlen' by (unfold zlen in *; rewrite length_app in *; simpl in *; lia).
  assert (l1 ++ y :: x :: l2 ≡ₚ a0 :: a1 :: rest) as Hperm'.
  { rewrite <- Hperm. apply Permutation_app_head, perm_swap. }
  case_decide as Hz.
  - destruct l1; [|unfold zlen in Hz; simpl in Hz; lia]. injection Hhead as -> -> ->.
    destruct (Z.ltb_spec a1 a0); (split; [done|]; split; [done|]; simpl; f_equal; lia).
  - destruct l1 as [|z l1]; [done|]. by destruct (y <? x).
Qed.

Lemma sort_progress : wp sort (a0 :: a1 :: rest) (λ _ A', progress 1023 A').
Proof.
  unfold sort. apply (wp_for_range progress); [lia| |].
  - split; [unfold zlen in *; simpl; lia|]. by rewrite decide_True.
  - intros i A Hi HA. destruct (decide (1023 - i ≤ i)).
    + apply for_range_none; [done|]. apply (progress_next i); [lia|lia|done].
    + eapply wp_mono; [apply (wp_for_range progress); [lia|exact HA|]|].
      * intros j A' Hj HA'. apply exchange_progress; [lia|done].
      * intros [] A' HA'. apply (progress_next (1023 - i)); [lia|lia|done].
Qed.
End sort.

Section sort_main.
Import Sort.

(** The array in reverse order. *)
Definition countdown : list Z := (λ i, 1024 - i) <$> seqZ 0 1024.

Lemma awrite_wp (l : list Z) i x :
  0 ≤ i < zlen l → wr i x l = Ok (tt, <[Z.to_nat i := x]> l).
Proof. intros Hi. unfold wr. by rewrite awrite_total. Qed.

Lemma init_Ok A : zlen A = 1024 → init A = Ok (tt, countdown).
Proof.
  intros HA. assert (wp init A (λ _ A', zlen A' = 1024 ∧ ∀ k, 0 ≤ k < 1024 → aget A' k = Some (1024 - k))) as H.
  { apply (wp_for_range (λ i A', zlen A' = 1024 ∧ ∀ k, 0 ≤ k < i → aget A' k = Some (1024 - k))); [lia| |].
    - split; [done|]. intros. lia.
    - intros i A1 Hi [Hl Hk]. unfold wp. rewrite awrite_wp by lia.
      split; [unfold zlen in *; by rewrite length_insert|]. intros k Hk'.
      rewrite aget_insert by lia. case_decide; [by subst|]. apply Hk. lia. }
  unfold wp in H. destruct (init A) as [[[] A']|]; [|done]. destruct H as [Hl Hk]. do 2 f_equal.
  apply aget_ext; [by rewrite Hl|]. intros k Hk'. rewrite Hk by lia.
  unfold countdown, aget. rewrite (proj2 (Z.leb_le 0 k)) by lia.
  rewrite list_lookup_fmap, (lookup_seqZ_lt 0 1024 (Z.to_nat k)) by lia. simpl. f_equal. lia.
Qed.

(** The program sort.c does not sort.  Its inner loop starts at
    [i] instead of the start of the array, so that what the first round has put
    in front stays there: from any contents of its array the program ends, it
    passes 1023 to [Exit] where the smallest number is 1, and it has only
    exchanged elements of the array. *)
Theorem sort_exits A (HA : zlen A = 1024) :
  ∃ A', main A = Ok (1023, A') ∧ A' ≡ₚ countdown ∧ A' !! 0%nat = Some 1023 ∧ 1 ∈ A'
    ∧ ¬ StronglySorted Z.le A'.
Proof.
  unfold main. rewrite (M_bind_step _ _ _ _ _ (init_Ok A HA)).
  assert (∃ rest, countdown = 1024 :: 1023 :: rest ∧ zlen rest = 1022 ∧ 1 ∈ countdown) as (rest & Hc & Hr & H1).
  { exists ((λ i, 1024 - i) <$> seqZ 2 1022). split; [by vm_compute|]. split; [by vm_compute|].
    apply list_elem_of_fmap. exists 1023. split; [done|]. apply elem_of_seqZ. lia. }
  revert H1 Hc. generalize countdown. intros start H1 ->.
  pose proof (sort_progress 1024 1023 rest Hr) as Hs. unfold wp in Hs.
  destruct (sort (1024 :: 1023 :: rest)) as [[[] A']|] eqn:E; [|done]. destruct Hs as (Hl & Hp & Hh).
  rewrite decide_False in Hh by lia. change (Z.min 1024 1023) with 1023 in Hh.
  assert (1 ∈ A') as H1' by (by rewrite Hp).
  exists A'. rewrite (M_bind_step _ _ _ _ _ E). destruct A' as [|x A']; [done|]. injection Hh as ->.
  split; [done|]. split; [done|]. split; [done|]. split; [done|].
  intros [_ Hall]%StronglySorted_inv. apply list.elem_of_cons in H1' as [?|H1']; [done|].
  rewrite list.Forall_forall in Hall. specialize (Hall 1 H1'). lia.
Qed.

Lemma sort_exits_witness :
  ∃ A', main (replicate 1024 0) = Ok (1023, A') ∧ A' ≡ₚ countdown ∧ A' !! 0%nat = Some 1023 ∧ 1 ∈ A'
    ∧ ¬ StronglySorted Z.le A'.
Proof. apply (sort_exits (replicate 1024 0)). done. Defined.
End sort_main.

(** ** matmult.c *)

Section matmult.
Import Matmult.

(** [f 0 + ... + f (n - 1)] *)
Fixpoint sum (n : nat) (f : Z → Z) : Z :=
  match n with O => 0 | S n => sum n f + f (Z.of_nat n) end.

Definition square (l : list Z) : Prop := zlen l = Dim * Dim.
Definition matrices_ok (m : Matrices) : Prop := square (A m) ∧ square (B m) ∧ square (C m).

(** The element of a matrix; 0 outside. *)
Definition el (l : list Z) (p : Z) : Z := default 0 (aget l p).

Lemma aread_el l p : 0 ≤ p < zlen l → aread l p = Ok (el l p).
Proof. intros Hp. destruct (aread_total l p Hp) as (x & -> & H). unfold el. by rewrite H. Qed.

Lemma el_insert l p q x : 0 ≤ p < zlen l → el (<[Z.to_nat p := x]> l) q = if decide (p = q) then x else el l q.
Proof. intros Hp. unfold el. rewrite aget_insert by done. by case_decide. Qed.

Lemma at_range i j : 0 ≤ i < Dim → 0 ≤ j < Dim → 0 ≤ at_ i j < Dim * Dim.
Proof. unfold at_, Dim. lia. Qed.

Lemma at_inj i j i' j' : 0 ≤ j < Dim → 0 ≤ j' < Dim → at_ i j = at_ i' j' → i = i' ∧ j = j'.
Proof. unfold at_, Dim. lia. Qed.

(** The first [k] terms of the product at [(i, j)]. *)
Definition product (a b : list Z) (i j k : Z) : Z :=
  sum (Z.to_nat k) (λ x, el a (at_ i x) * el b (at_ x j)).

Lemma product_next a b i j k :
  0 ≤ k → product a b i j (k + 1) = product a b i j k + el a (at_ i k) * el b (at_ k j).
Proof.
  intros Hk. unfold product. replace (Z.to_nat (k + 1)) with (S (Z.to_nat k)) by lia.
  cbn [sum]. by rewrite Z2Nat.id.
Qed.

(** After the rounds before [(i, j, k)], on matrices [a] and [b], with [c] at
    the start. *)
Definition multiplied (a b c : list Z) (i j k : Z) (m : Matrices) : Prop :=
  A m = a ∧ B m = b ∧ square (C m)
  ∧ ∀ i' j', 0 ≤ i' < Dim → 0 ≤ j' < Dim →
      el (C m) (at_ i' j')
      = if decide (i' < i ∨ i' = i ∧ j' < j) then s32 (el c (at_ i' j') + product a b i' j' Dim)
        else if decide (i' = i ∧ j' = j) then s32 (el c (at_ i' j') + product a b i' j' k)
        else el c (at_ i' j').

Lemma accumulate_Ok a b c i j k m :
  square a → square b → 0 ≤ i < Dim → 0 ≤ j < Dim → 0 ≤ k < Dim →
  multiplied a b c i j k m → wp (accumulate i j k) m (λ _ m', multiplied a b c i j (k + 1) m').
Proof.
  intros Ha Hb Hi Hj Hk (<- & <- & Hc & Hel). unfold square in *.
  pose proof (at_range i j Hi Hj) as Hij.
  unfold wp, accumulate, wr_C, get, lift, mbind, M_bind.
  rewrite !aread_el by (rewrite ?Ha, ?Hb, ?Hc; by apply at_range). rewrite awrite_total by lia. cbn -[insert].
  unfold multiplied. cbn [A B C].
  split; [done|]. split; [done|]. split; [unfold square, zlen in *; by rewrite length_insert|].
  intros i' j' Hi' Hj'. rewrite el_insert by lia. rewrite (Hel i j), (Hel i' j') by done.
  rewrite (decide_False (P := i < i ∨ i = i ∧ j < j)) by lia.
  rewrite (decide_True (P := i = i ∧ j = j)) by done. destruct (decide (at_ i j = at_ i' j')) as [E|E].
  - apply at_inj in E as [<- <-]; [|done..].
    rewrite (decide_False (P := i < i ∨ i = i ∧ j < j)) by lia.
    rewrite (decide_True (P := i = i ∧ j = j)) by done.
    rewrite product_next by lia. unfold add32. rewrite s32_add_s32. f_equal. lia.
  - by rewrite !(decide_False (P := i' = i ∧ j' = j)) by (intros [-> ->]; done).
Qed.

(** The end of a loop is the start of the next round of the one around it. *)
Lemma multiplied_next a b c i j k i2 j2 m :
  (∀ i' j', 0 ≤ i' < Dim → 0 ≤ j' < Dim → in_s32 (el c (at_ i' j'))) → multiplied a b c i j k m →
  (∀ i' j', 0 ≤ i' < Dim → 0 ≤ j' < Dim →
     (i' < i ∨ i' = i ∧ j' < j) ∨ (i' = i ∧ j' = j ∧ k = Dim) ↔ i' < i2 ∨ i' = i2 ∧ j' < j2) →
  (∀ i' j', 0 ≤ i' < Dim → 0 ≤ j' < Dim → i' = i → j' = j → k = Dim ∨ k = 0) →
  multiplied a b c i2 j2 0 m.
Proof.
  intros Hin (Ha & Hb & Hc & Hel) Hiff Hk. split; [done|]. split; [done|]. split; [done|].
  intros i' j' Hi' Hj'. rewrite (Hel i' j') by done. specialize (Hiff i' j' Hi' Hj'). specialize (Hk i' j' Hi' Hj').
  assert (s32 (el c (at_ i' j') + product a b i' j' 0) = el c (at_ i' j')) as H0
    by (change (product a b i' j' 0) with 0; rewrite Z.add_0_r; by apply s32_id, Hin).
  assert (i' = i ∧ j' = j → k = Dim ∨ k = 0) as Hk' by (intros [? ?]; by apply Hk).
  repeat case_decide; try done; try (exfalso; lia);
    first [by assert (k = Dim) as -> by lia|by assert (k = 0) as -> by lia|done].
Qed.

Lemma multiply_Ok a b c :
  square a → square b → square c →
  (∀ i' j', 0 ≤ i' < Dim → 0 ≤ j' < Dim → in_s32 (el c (at_ i' j'))) →
  wp multiply (MkMatrices a b c) (λ _ m, multiplied a b c Dim 0 0 m).
Proof.
  intros Ha Hb Hc Hin. unfold multiply.
  apply (wp_for_range (λ i m, multiplied a b c i 0 0 m)); [done| |].
  - split; [done|]. split; [done|]. split; [done|]. intros i' j' Hi' Hj'.
    rewrite decide_False by lia. case_decide; [|done]. change (product a b i' j' 0) with 0.
    rewrite Z.add_0_r. by apply eq_sym, s32_id, Hin.
  - intros i m Hi Hm. eapply wp_mono; [apply (wp_for_range (λ j m, multiplied a b c i j 0 m)); [done|exact Hm|]|].
    + intros j m1 Hj Hm1.
      eapply wp_mono; [apply (wp_for_range (λ k m, multiplied a b c i j k m)); [done|exact Hm1|]|].
      * intros k m2 Hk Hm2. by apply accumulate_Ok.
      * intros [] m2 Hm2. eapply multiplied_next; [done|exact Hm2| |]; unfold Dim; intros; lia.
    + intros [] m1 Hm1. eapply multiplied_next; [done|exact Hm1| |]; unfold Dim in *; intros; lia.
Qed.

(** The matrices after the rounds before [(i, j)]. *)
Definition filled (i j : Z) (m : Matrices) : Prop :=
  matrices_ok m ∧ ∀ i' j', 0 ≤ i' < Dim → 0 ≤ j' < Dim → i' < i ∨ i' = i ∧ j' < j →
    el (A m) (at_ i' j') = i' ∧ el (B m) (at_ i' j') = j' ∧ el (C m) (at_ i' j') = 0.

Lemma init_filled m : matrices_ok m → wp init m (λ _ m', filled Dim 0 m').
Proof.
  intros Hm. unfold init. apply (wp_for_range (λ i m, filled i 0 m)); [done|split; [done|unfold Dim; lia]|].
  intros i m1 Hi Hm1. eapply wp_mono; [apply (wp_for_range (λ j m, filled i j m)); [done|exact Hm1|]|].
  - intros j m2 Hj [(Ha & Hb & Hc) Hel]. unfold square in *. pose proof (at_range i j Hi Hj) as Hij.
    unfold wp, wr_A, wr_B, wr_C, mbind, M_bind. do 3 (rewrite awrite_total by lia; cbn -[insert]).
    unfold filled, matrices_ok, square. cbn [A B C].
    split; [unfold zlen in *; by rewrite !length_insert|]. intros i' j' Hi' Hj' Hbefore.
    rewrite !el_insert by lia. case_decide as E; [by apply at_inj in E as [<- <-]|].
    apply Hel; [done..|]. assert (¬ (i' = i ∧ j' = j)) by (intros [-> ->]; done). lia.
  - intros [] m2 [Hok Hel]. split; [done|]. intros i' j' Hi' Hj' Hbefore. apply Hel; lia.
Qed.

Lemma sum_const n x : sum n (λ _, x) = Z.of_nat n * x.
Proof. induction n as [|n IH]; [done|]. cbn [sum]. rewrite IH. lia. Qed.

Lemma sum_ext n f g : (∀ k, 0 ≤ k < Z.of_nat n → f k = g k) → sum n f = sum n g.
Proof. induction n as [|n IH]; intros H; [done|]. cbn [sum]. rewrite IH, H by (intros; apply H || lia; lia). done. Qed.

(** The program matmult.c multiplies its matrices: from any
    contents of the three arrays it ends, every element of the result is the
    sum of the products of a row and a column (no sum leaves the range of an
    [int]), [20 * i * j], and it passes the last one, 7220, to [Exit]. *)
Theorem matmult_exits m (Hm : matrices_ok m) :
  ∃ m', main m = Ok (7220, m')
    ∧ ∀ i j, 0 ≤ i < Dim → 0 ≤ j < Dim →
        el (C m') (at_ i j) = product (A m') (B m') i j Dim
        ∧ el (A m') (at_ i j) = i ∧ el (B m') (at_ i j) = j ∧ el (C m') (at_ i j) = 20 * i * j.
Proof.
  pose proof (init_filled m Hm) as Hinit. unfold wp in Hinit.
  destruct (init m) as [[[] [a b c]]|] eqn:E; [|done]. destruct Hinit as [(Ha & Hb & Hc) Hel]. cbn [A B C] in *.
  assert (∀ i j, 0 ≤ i < Dim → 0 ≤ j < Dim → el a (at_ i j) = i ∧ el b (at_ i j) = j ∧ el c (at_ i j) = 0) as Hel'
    by (intros; apply Hel; lia).
  pose proof (multiply_Ok a b c Ha Hb Hc) as Hmul. unfold wp in Hmul.
  destruct (multiply (MkMatrices a b c)) as [[[] m']|] eqn:E2;
    [|by destruct Hmul; intros i j Hi Hj; destruct (Hel' i j Hi Hj) as (_ & _ & ->)].
  destruct Hmul as (Hma & Hmb & Hmc & Hres); [by intros i j Hi Hj; destruct (Hel' i j Hi Hj) as (_ & _ & ->)|].
  assert (∀ i j, 0 ≤ i < Dim → 0 ≤ j < Dim → product a b i j Dim = 20 * i * j) as Hprod.
  { intros i j Hi Hj. unfold product. rewrite (sum_ext _ _ (λ _, i * j)).
    - rewrite sum_const. change (Z.of_nat (Z.to_nat Dim)) with 20. lia.
    - intros k Hk. change (Z.of_nat (Z.to_nat Dim)) with Dim in Hk.
      destruct (Hel' i k Hi Hk) as (-> & _). by destruct (Hel' k j Hk Hj) as (_ & -> & _). }
  assert (∀ i j, 0 ≤ i < Dim → 0 ≤ j < Dim → el (C m') (at_ i j) = 20 * i * j) as HC.
  { intros i j Hi Hj. rewrite Hres, decide_True by lia. destruct (Hel' i j Hi Hj) as (_ & _ & ->).
    rewrite Hprod by done. apply s32_id. unfold in_s32, Dim in *. nia. }
  exists m'. split.
  - unfold main. rewrite (M_bind_step _ _ _ _ _ E), (M_bind_step _ _ _ _ _ E2). mrun.
    unfold lift. rewrite aread_el by (rewrite Hmc; by apply at_range). by rewrite HC by (unfold Dim; lia).
  - intros i j Hi Hj. rewrite Hma, Hmb, HC, Hprod by done. destruct (Hel' i j Hi Hj) as (-> & -> & _). done.
Qed.

Lemma matmult_exits_witness :
  let zero := replicate 400 0 in
  ∃ m', main (MkMatrices zero zero zero) = Ok (7220, m')
    ∧ ∀ i j, 0 ≤ i < Dim → 0 ≤ j < Dim →
        el (C m') (at_ i j) = product (A m') (B m') i j Dim
        ∧ el (A m') (at_ i j) = i ∧ el (B m') (at_ i j) = j ∧ el (C m') (at_ i j) = 20 * i * j.
Proof. intros zero. apply (matmult_exits (MkMatrices zero zero zero)). done. Defined.
End matmult.
