(* ===== verification/Bitmap.v ===== *)
(** * Bit maps: userprog/bitmap.cc and userprog/bitmap.h

    [Spec] is the promise: a set of marked numbers below a bound.  [Impl] is
    the code: an array of 32-bit words.  [Impl.bitmap_run_all_refines] relates the
    two for every sequence of operations on a new bit map, whatever its memory
    held before. *)
From S2P Require Import Prelude Word.

(** ** A set of marked bits *)

Module Spec.
Record bits := Bits { size : Z; marked : gset Z }.

Definition valid (which : Z) (b : bits) : bool := (0 <=? which) && (which <? size b).

Definition Mark (which : Z) (b : bits) : res bits :=
  ASSERT (valid which b) ;; Ok (Bits (size b) ({[which]} ∪ marked b)).

Definition Clear (which : Z) (b : bits) : res bits :=
  ASSERT (valid which b) ;; Ok (Bits (size b) (marked b ∖ {[which]})).

Definition Test (which : Z) (b : bits) : res bool :=
  ASSERT (valid which b) ;; Ok (bool_decide (which ∈ marked b)).

(** The clear bits and the marked bits, in ascending order. *)
Definition clear_list (b : bits) : list Z := filter (λ i, i ∉ marked b) (seqZ 0 (size b)).
Definition marked_list (b : bits) : list Z := filter (λ i, i ∈ marked b) (seqZ 0 (size b)).

Definition Find (b : bits) : Z * bits :=
  match clear_list b with
  | [] => (-1, b)
  | i :: _ => (i, Bits (size b) ({[i]} ∪ marked b))
  end.

Definition NumClear (b : bits) : Z := zlen (clear_list b).

Inductive op := OMark (i : Z) | OClear (i : Z) | OTest (i : Z) | OFind | ONumClear | OPrint.
Inductive ret := RUnit | RBool (b : bool) | RInt (z : Z) | RInts (l : list Z).

Definition run (o : op) (b : bits) : res (ret * bits) :=
  match o with
  | OMark i => b' ← Mark i b; Ok (RUnit, b')
  | OClear i => b' ← Clear i b; Ok (RUnit, b')
  | OTest i => t ← Test i b; Ok (RBool t, b)
  | OFind => let '(i, b') := Find b in Ok (RInt i, b')
  | ONumClear => Ok (RInt (NumClear b), b)
  | OPrint => Ok (RInts (marked_list b), b)
  end.

Fixpoint run_all (os : list op) (b : bits) : res (list ret * bits) :=
  match os with
  | [] => Ok ([], b)
  | o :: os' =>
      '(r, b1) ← run o b;
      '(rs, b2) ← run_all os' b1;
      Ok (r :: rs, b2)
  end.
End Spec.

(** ** The array of words *)

Definition BitsInByte : Z := 8.
Definition BitsInWord : Z := 32.

Module Impl.
Record BitMap := MkBitMap { numBits : Z; numWords : Z; map : list Z }.

Definition set_map (m : list Z) : M BitMap unit :=
  modify (λ b, MkBitMap (numBits b) (numWords b) m).

(** [ASSERT(which >= 0 && which < numBits)]. *)
Definition assert_bit (which : Z) : M BitMap unit :=
  b ← get; lift (ASSERT ((0 <=? which) && (which <? numBits b))).

(** [1 << (which % BitsInWord)], an [int]. *)
Definition bit_mask (which : Z) : Z := shl32 1 (Z.rem which BitsInWord).

Definition Mark (which : Z) : M BitMap unit :=
  assert_bit which ;;
  b ← get;
  w ← lift (aread (map b) (Z.quot which BitsInWord));
  m ← lift (awrite (map b) (Z.quot which BitsInWord) (Z.lor w (u32 (bit_mask which))));
  set_map m.

Definition Clear (which : Z) : M BitMap unit :=
  assert_bit which ;;
  b ← get;
  w ← lift (aread (map b) (Z.quot which BitsInWord));
  m ← lift (awrite (map b) (Z.quot which BitsInWord)
              (Z.land w (u32 (Z.lnot (bit_mask which)))));
  set_map m.

Definition Test (which : Z) : M BitMap bool :=
  assert_bit which ;;
  b ← get;
  w ← lift (aread (map b) (Z.quot which BitsInWord));
  mret (ctrue (Z.land w (u32 (bit_mask which)))).

(** The constructor; [mem] is what [new unsigned int[numWords]] holds. *)
Definition BitMap_new (nitems : Z) (mem : list Z) : res BitMap :=
  '(_, b) ← for_range 0 nitems Clear (MkBitMap nitems (divRoundUp nitems BitsInWord) mem);
  Ok b.

Definition Find : M BitMap Z :=
  b ← get;
  r ← for_return (Z.to_nat (numBits b)) 0 (λ i,
        t ← Test i;
        if (t : bool) then mret None else Mark i ;; mret (Some i));
  mret (match r with Some i => i | None => -1 end).

Fixpoint NumClear_loop (n : nat) (i count : Z) : M BitMap Z :=
  match n with
  | O => mret count
  | S n' =>
      t ← Test i;
      NumClear_loop n' (i + 1) (if (t : bool) then count else count + 1)
  end.
Definition NumClear : M BitMap Z :=
  b ← get; NumClear_loop (Z.to_nat (numBits b)) 0 0.

(** The numbers [Print] prints. *)
Fixpoint Print_loop (n : nat) (i : Z) : M BitMap (list Z) :=
  match n with
  | O => mret []
  | S n' =>
      t ← Test i;
      l ← Print_loop n' (i + 1);
      mret (if (t : bool) then i :: l else l)
  end.
Definition Print : M BitMap (list Z) :=
  b ← get; Print_loop (Z.to_nat (numBits b)) 0.

(** The memory of the map as the bytes [WriteBack] stores; [FetchFrom]
    overwrites as many of them as the file gives. *)
Definition bytes_of (b : BitMap) : list Z := words_bytes (map b).
Definition load_bytes (data : list Z) (b : BitMap) : BitMap :=
  MkBitMap (numBits b) (numWords b)
    (bytes_words (data ++ drop (length data) (bytes_of b))).

Definition run (o : Spec.op) : M BitMap Spec.ret :=
  match o with
  | Spec.OMark i => Mark i ;; mret Spec.RUnit
  | Spec.OClear i => Clear i ;; mret Spec.RUnit
  | Spec.OTest i => t ← Test i; mret (Spec.RBool t)
  | Spec.OFind => i ← Find; mret (Spec.RInt i)
  | Spec.ONumClear => n ← NumClear; mret (Spec.RInt n)
  | Spec.OPrint => l ← Print; mret (Spec.RInts l)
  end.

Fixpoint run_all (os : list Spec.op) : M BitMap (list Spec.ret) :=
  match os with
  | [] => mret []
  | o :: os' => r ← run o; rs ← run_all os'; mret (r :: rs)
  end.

(** *** Representation of a set by words *)

(** Bit [i] of an array of words. *)
Definition bit_of (m : list Z) (i : Z) : bool :=
  match aget m (Z.quot i BitsInWord) with
  | Some w => Z.testbit w (Z.rem i BitsInWord)
  | None => false
  end.

Definition wf (b : BitMap) : Prop :=
  0 ≤ numBits b ∧ numWords b = divRoundUp (numBits b) BitsInWord
  ∧ zlen (map b) = numWords b ∧ Forall in_u32 (map b).

Definition repr (b : BitMap) (s : Spec.bits) : Prop :=
  wf b ∧ Spec.size s = numBits b
  ∧ (∀ i, i ∈ Spec.marked s → 0 ≤ i < numBits b)
  ∧ (∀ i, 0 ≤ i < numBits b → bit_of (map b) i = bool_decide (i ∈ Spec.marked s)).

Lemma quot_bounds b i :
  wf b → 0 ≤ i < numBits b → 0 ≤ Z.quot i BitsInWord < zlen (map b).
Proof.
  intros (Hn & Hw & Hl & _) Hi. rewrite Hl, Hw.
  pose proof (divRoundUp_spec (numBits b) BitsInWord Hn eq_refl).
  unfold BitsInWord in *. rewrite Z.quot_div_nonneg by lia.
  pose proof (Z_div_mod_eq_full i 32). pose proof (Z.mod_pos_bound i 32 eq_refl). lia.
Qed.

Lemma rem_bounds i : 0 ≤ i → 0 ≤ Z.rem i BitsInWord < 32.
Proof. intros Hi. apply Z.rem_bound_pos; unfold BitsInWord; lia. Qed.

Lemma quot_rem_inj i j :
  0 ≤ i → 0 ≤ j → Z.quot i BitsInWord = Z.quot j BitsInWord →
  Z.rem i BitsInWord = Z.rem j BitsInWord → i = j.
Proof.
  intros Hi Hj Hq Hr. rewrite (Z.quot_rem' i BitsInWord), (Z.quot_rem' j BitsInWord).
  by rewrite Hq, Hr.
Qed.

(** The mask of a bit has that bit and no other. *)
Lemma bit_mask_spec i k :
  0 ≤ i → 0 ≤ k < 32 →
  Z.testbit (u32 (bit_mask i)) k = bool_decide (k = Z.rem i BitsInWord).
Proof.
  intros Hi Hk. pose proof (rem_bounds i Hi).
  rewrite u32_testbit by lia. case (Z.ltb_spec k 32); [|lia]. intros _.
  unfold bit_mask, shl32. rewrite s32_testbit_low by lia.
  by rewrite testbit_1_shiftl by lia.
Qed.

Lemma bit_mask_not_spec i k :
  0 ≤ i → 0 ≤ k < 32 →
  Z.testbit (u32 (Z.lnot (bit_mask i))) k = negb (bool_decide (k = Z.rem i BitsInWord)).
Proof.
  intros Hi Hk. pose proof (bit_mask_spec i k Hi Hk) as H.
  rewrite u32_testbit in H |- * by lia. rewrite Z.lnot_spec by lia.
  case (Z.ltb_spec k 32) in H |- *; [|lia]. simpl in *. by rewrite H.
Qed.

(** Testing a word against the mask of a bit. *)
Lemma land_mask_spec w i :
  in_u32 w → 0 ≤ i →
  ctrue (Z.land w (u32 (bit_mask i))) = Z.testbit w (Z.rem i BitsInWord).
Proof.
  intros Hw Hi. pose proof (rem_bounds i Hi) as Hr.
  assert (Z.land w (u32 (bit_mask i))
          = if Z.testbit w (Z.rem i BitsInWord) then u32 (bit_mask i) else 0) as ->.
  { apply Z.bits_inj'. intros k Hk. rewrite Z.land_spec.
    destruct (decide (k < 32)) as [Hk2|Hk2].
    - rewrite bit_mask_spec by lia. case_bool_decide as E.
      + subst k. destruct (Z.testbit w _) eqn:Ew; [|by rewrite Z.bits_0].
        rewrite bit_mask_spec by lia. by rewrite bool_decide_true.
      + rewrite andb_false_r. destruct (Z.testbit w _); [|by rewrite Z.bits_0].
        rewrite bit_mask_spec by lia. by rewrite bool_decide_false.
    - assert (Z.testbit (u32 (bit_mask i)) k = false) as Hf.
      { rewrite u32_testbit by lia. by case (Z.ltb_spec k 32); [lia|]. }
      rewrite Hf, andb_false_r. destruct (Z.testbit w _); [done|by rewrite Z.bits_0]. }
  destruct (Z.testbit w _); [|done]. unfold ctrue.
  case (Z.eqb_spec (u32 (bit_mask i)) 0); [|done]. intros Heq.
  pose proof (bit_mask_spec i _ Hi Hr) as Hb.
  by rewrite Heq, Z.bits_0, bool_decide_true in Hb.
Qed.

Lemma lor_in_u32 w v : in_u32 w → in_u32 v → in_u32 (Z.lor w v).
Proof.
  intros Hw Hv. rewrite <- (u32_id w Hw), <- (u32_id v Hv). unfold u32.
  rewrite <- !Z.land_ones, <- Z.land_lor_distr_l, Z.land_ones by lia. apply u32_range.
Qed.

Lemma land_in_u32 w v : in_u32 w → in_u32 v → in_u32 (Z.land w v).
Proof.
  intros Hw Hv. rewrite <- (u32_id v Hv). unfold u32.
  rewrite <- Z.land_ones, Z.land_assoc, Z.land_ones by lia. apply u32_range.
Qed.

Lemma word_in_u32 b i w : wf b → aget (map b) i = Some w → in_u32 w.
Proof.
  intros (_ & _ & _ & Hall). unfold aget. case_match; [|done].
  intros Hl. by eapply Forall_lookup_1 in Hall.
Qed.

(** Replacing the word of bit [i] by one that differs at most in that bit. *)
Lemma repr_update b s i w' (v : bool) :
  repr b s → 0 ≤ i < numBits b → in_u32 w' →
  (∀ k, 0 ≤ k < 32 → Z.testbit w' k =
     if decide (k = Z.rem i BitsInWord) then v
     else match aget (map b) (Z.quot i BitsInWord) with
          | Some w => Z.testbit w k | None => false end) →
  repr (MkBitMap (numBits b) (numWords b) (<[Z.to_nat (Z.quot i BitsInWord) := w']> (map b)))
       (Spec.Bits (Spec.size s)
          (if v then {[i]} ∪ Spec.marked s else Spec.marked s ∖ {[i]})).
Proof.
  intros (Hwf & Hsz & Hdom & Hbits) Hi Hw' Hk.
  pose proof (quot_bounds b i Hwf Hi) as Hq.
  split; [|split; [done|split]]; simpl.
  - destruct Hwf as (H1 & H2 & H3 & H4). split; [done|]. simpl.
    split; [done|]. split; [by rewrite zlen_insert|]. by apply Forall_insert.
  - intros j. destruct v; set_unfold; naive_solver.
  - intros j Hj. unfold bit_of. rewrite aget_insert by done.
    case_decide as E; cbn beta in E.
    + rewrite Hk by (apply rem_bounds; lia). case_decide as E2.
      * assert (i = j) as <- by (apply quot_rem_inj; try lia; congruence).
        destruct v; symmetry; [apply bool_decide_eq_true|apply bool_decide_eq_false]; set_solver.
      * rewrite E. fold (bit_of (map b) j). rewrite Hbits by done.
        apply bool_decide_ext. assert (i ≠ j) by congruence.
        destruct v; set_solver.
    + fold (bit_of (map b) j). rewrite Hbits by done. apply bool_decide_ext.
      assert (i ≠ j) by congruence. destruct v; set_solver.
Qed.

(** What it is for a run of the code to match an abstract result. *)
Definition matches {B} (r : res (B * BitMap)) (o : res (B * Spec.bits)) : Prop :=
  match o with
  | Ok (b, s) => ∃ b', r = Ok (b, b') ∧ repr b' s
  | Fault f => r = Fault f
  end.

(** The assertion of the operations on one bit: on either outcome. *)
Lemma assert_bit_spec b s i :
  repr b s →
  assert_bit i b = if Spec.valid i s then Ok (tt, b) else Fault AssertFailed.
Proof.
  intros (_ & Hsz & _). unfold Spec.valid. rewrite Hsz. unfold assert_bit.
  mrun. by destruct ((0 <=? i) && (i <? numBits b)).
Qed.

Lemma valid_spec b s i : repr b s → Spec.valid i s = true → 0 ≤ i < numBits b.
Proof. intros (_ & Hsz & _). unfold Spec.valid. rewrite Hsz. lia. Qed.

Lemma get_word b s i :
  repr b s → 0 ≤ i < numBits b →
  ∃ w, aread (map b) (Z.quot i BitsInWord) = Ok w
     ∧ aget (map b) (Z.quot i BitsInWord) = Some w ∧ in_u32 w.
Proof.
  intros (Hwf & _) Hi. destruct (aread_total _ _ (quot_bounds b i Hwf Hi)) as (w & Hr & Hg).
  exists w. split; [done|]. split; [done|]. by eapply word_in_u32.
Qed.

Lemma Mark_matches b s i :
  repr b s → matches (Mark i b) (s' ← Spec.Mark i s; Ok (tt, s')).
Proof.
  intros Hr. unfold Mark, Spec.Mark. pose proof (assert_bit_spec b s i Hr) as Ha.
  destruct (Spec.valid i s) eqn:Hv; [|by apply M_bind_fault].
  apply (valid_spec b) in Hv; [|done]. mrun. mrun.
  destruct (get_word b s i Hr Hv) as (w & Hrd & Hg & Hw). rewrite Hrd. mrun.
  rewrite awrite_total by (eapply quot_bounds; [apply Hr|done]). mrun.
  eexists. split; [reflexivity|].
  apply (repr_update b s i _ true); [done|done| |].
  - apply lor_in_u32; [done|apply u32_range].
  - intros k Hk. rewrite Hg, Z.lor_spec, bit_mask_spec by lia.
    case_decide; case_bool_decide; try done; [by rewrite orb_true_r|by rewrite orb_false_r].
Qed.

Lemma Clear_matches b s i :
  repr b s → matches (Clear i b) (s' ← Spec.Clear i s; Ok (tt, s')).
Proof.
  intros Hr. unfold Clear, Spec.Clear. pose proof (assert_bit_spec b s i Hr) as Ha.
  destruct (Spec.valid i s) eqn:Hv; [|by apply M_bind_fault].
  apply (valid_spec b) in Hv; [|done]. mrun. mrun.
  destruct (get_word b s i Hr Hv) as (w & Hrd & Hg & Hw). rewrite Hrd. mrun.
  rewrite awrite_total by (eapply quot_bounds; [apply Hr|done]). mrun.
  eexists. split; [reflexivity|].
  apply (repr_update b s i _ false); [done|done| |].
  - apply land_in_u32; [done|apply u32_range].
  - intros k Hk. rewrite Hg, Z.land_spec, bit_mask_not_spec by lia.
    case_decide; case_bool_decide; try done; [by rewrite andb_false_r|by rewrite andb_true_r].
Qed.

Lemma Test_Ok b s i :
  repr b s → 0 ≤ i < numBits b → Test i b = Ok (bool_decide (i ∈ Spec.marked s), b).
Proof.
  intros Hr Hi. unfold Test. mrun by (rewrite (assert_bit_spec b s i Hr);
    unfold Spec.valid; replace ((0 <=? i) && (i <? Spec.size s)) with true;
    [reflexivity|destruct Hr as (_ & -> & _); lia]).
  mrun. destruct (get_word b s i Hr Hi) as (w & Hrd & Hg & Hw). rewrite Hrd. mrun.
  cbv beta. rewrite land_mask_spec by (done || lia).
  destruct Hr as (_ & _ & _ & Hb). rewrite <- Hb by done. unfold bit_of. by rewrite Hg.
Qed.

Lemma Test_matches b s i :
  repr b s → matches (Test i b) (t ← Spec.Test i s; Ok (t, s)).
Proof.
  intros Hr. unfold Spec.Test. destruct (Spec.valid i s) eqn:Hv.
  - exists b. split; [|done]. apply Test_Ok; [done|]. by eapply valid_spec.
  - unfold Test, matches. simpl. apply M_bind_fault.
    by rewrite (assert_bit_spec b s i Hr), Hv.
Qed.

(** The loops of [Find], [NumClear] and [Print] on the bits from [i] on. *)
Lemma NumClear_loop_spec b s n : ∀ i count,
  repr b s → 0 ≤ i → i + Z.of_nat n = numBits b →
  NumClear_loop n i count b
  = Ok (count + zlen (filter (λ j, j ∉ Spec.marked s) (seqZ i (Z.of_nat n))), b).
Proof.
  induction n as [|n IH]; intros i count Hr Hi Hn.
  { simpl. by rewrite Z.add_0_r. }
  rewrite seqZ_cons, filter_cons by lia. simpl NumClear_loop.
  mrun by (apply (Test_Ok b s i Hr); lia). cbv beta.
  replace (Z.pred (Z.of_nat (S n))) with (Z.of_nat n) by lia.
  replace (Z.succ i) with (i + 1) by lia.
  rewrite IH by (done || lia). f_equal. f_equal.
  case_bool_decide; case_decide; try done. unfold zlen. simpl. lia.
Qed.

Lemma Print_loop_spec b s n : ∀ i,
  repr b s → 0 ≤ i → i + Z.of_nat n = numBits b →
  Print_loop n i b = Ok (filter (λ j, j ∈ Spec.marked s) (seqZ i (Z.of_nat n)), b).
Proof.
  induction n as [|n IH]; intros i Hr Hi Hn; [done|].
  rewrite seqZ_cons, filter_cons by lia. simpl Print_loop.
  mrun by (apply (Test_Ok b s i Hr); lia). cbv beta.
  replace (Z.pred (Z.of_nat (S n))) with (Z.of_nat n) by lia.
  replace (Z.succ i) with (i + 1) by lia.
  mrun by (apply IH; [done|lia|lia]). by case_bool_decide; case_decide.
Qed.

Lemma Find_loop_spec b s n : ∀ i,
  repr b s → 0 ≤ i → i + Z.of_nat n = numBits b →
  match filter (λ j, j ∉ Spec.marked s) (seqZ i (Z.of_nat n)) with
  | [] => for_return n i (λ i, t ← Test i;
            if (t : bool) then mret None else Mark i ;; mret (Some i)) b = Ok (None, b)
  | j :: _ => ∃ b',
      for_return n i (λ i, t ← Test i;
        if (t : bool) then mret None else Mark i ;; mret (Some i)) b = Ok (Some j, b')
      ∧ repr b' (Spec.Bits (Spec.size s) ({[j]} ∪ Spec.marked s))
  end.
Proof.
  induction n as [|n IH]; intros i Hr Hi Hn; [done|].
  rewrite seqZ_cons by lia. cbn [for_return].
  assert (HT := Test_Ok b s i Hr ltac:(lia)).
  replace (Z.pred (Z.of_nat (S n))) with (Z.of_nat n) by lia.
  replace (Z.succ i) with (i + 1) by lia. destruct (decide (i ∈ Spec.marked s)) as [E|E].
  2: { rewrite filter_cons_True by done. rewrite bool_decide_false in HT by done.
    pose proof (Mark_matches b s i Hr) as Hm. unfold Spec.Mark in Hm.
    replace (Spec.valid i s) with true in Hm.
    2: { unfold Spec.valid. destruct Hr as (_ & -> & _). lia. }
    destruct Hm as (b' & Hm & Hr'). exists b'. split; [|done].
    mrun by (mrun; cbv beta iota; mrun; reflexivity). done. }
  - rewrite filter_cons_False by (by intros []). rewrite bool_decide_true in HT by done.
    specialize (IH (i + 1) Hr ltac:(lia) ltac:(lia)).
    destruct (filter _ _) as [|j l].
    + mrun by (mrun; reflexivity). exact IH.
    + destruct IH as (b' & Hrun & Hr'). exists b'. split; [|done].
      mrun by (mrun; reflexivity). exact Hrun.
Qed.

Lemma size_nat b s : repr b s → Z.of_nat (Z.to_nat (numBits b)) = Spec.size s.
Proof. intros ((H & _) & -> & _). lia. Qed.

Lemma Find_matches b s : repr b s → matches (Find b) (Ok (Spec.Find s)).
Proof.
  intros Hr. unfold Find, Spec.Find, Spec.clear_list. mrun.
  pose proof (Find_loop_spec b s (Z.to_nat (numBits b)) 0 Hr ltac:(lia)) as Hl.
  rewrite (size_nat b s Hr) in Hl. specialize (Hl ltac:(destruct Hr as (? & -> & _); lia)).
  destruct (filter _ _) as [|j l].
  - exists b. split; [|done]. by mrun.
  - destruct Hl as (b' & Hrun & Hr'). exists b'. split; [|done]. by mrun.
Qed.

Lemma NumClear_Ok b s : repr b s → NumClear b = Ok (Spec.NumClear s, b).
Proof.
  intros Hr. unfold NumClear, Spec.NumClear, Spec.clear_list. mrun.
  rewrite (NumClear_loop_spec b s) by (done || destruct Hr as ((? & _) & _); lia).
  by rewrite (size_nat b s Hr).
Qed.

Lemma Print_Ok b s : repr b s → Print b = Ok (Spec.marked_list s, b).
Proof.
  intros Hr. unfold Print, Spec.marked_list. mrun.
  rewrite (Print_loop_spec b s) by (done || destruct Hr as ((? & _) & _); lia).
  by rewrite (size_nat b s Hr).
Qed.

Lemma bitmap_matches_bind {B C} (m : M BitMap B) (k : B → M BitMap C)
    b (o : res (B * Spec.bits)) (ko : B * Spec.bits → res (C * Spec.bits)) :
  matches (m b) o →
  (∀ x b' s', repr b' s' → matches (k x b') (ko (x, s'))) →
  matches ((m ≫= k) b) (o ≫= ko).
Proof.
  unfold matches at 1. intros Hm Hk. destruct o as [[x s']|f]; simpl in Hm.
  - destruct Hm as (b' & Hm & Hr). rewrite (M_bind_step _ _ _ _ _ Hm). by apply Hk.
  - by rewrite (M_bind_fault _ _ _ _ Hm).
Qed.

Lemma bitmap_matches_ret {B} (x : B) b s :
  repr b s → matches ((mret x : M BitMap B) b) (Ok (x, s)).
Proof. intros H. by exists b. Qed.

Lemma bitmap_run_matches b s (o : Spec.op) : repr b s → matches (run o b) (Spec.run o s).
Proof.
  intros Hr. destruct o; simpl run; simpl Spec.run.
  - pose proof (Mark_matches b s i Hr) as H. destruct (Spec.Mark i s) as [s'|f]; simpl in *.
    + destruct H as (b' & H & Hr'). exists b'. by mrun.
    + by apply M_bind_fault.
  - pose proof (Clear_matches b s i Hr) as H. destruct (Spec.Clear i s) as [s'|f]; simpl in *.
    + destruct H as (b' & H & Hr'). exists b'. by mrun.
    + by apply M_bind_fault.
  - pose proof (Test_matches b s i Hr) as H. destruct (Spec.Test i s) as [t|f]; simpl in *.
    + destruct H as (b' & H & Hr'). exists b'. by mrun.
    + by apply M_bind_fault.
  - pose proof (Find_matches b s Hr) as H. destruct (Spec.Find s) as [j s'].
    destruct H as (b' & H & Hr'). exists b'. by mrun.
  - exists b. split; [|done]. mrun by (apply NumClear_Ok, Hr). done.
  - exists b. split; [|done]. mrun by (apply Print_Ok, Hr). done.
Qed.

Lemma bitmap_run_all_matches b s os : repr b s → matches (run_all os b) (Spec.run_all os s).
Proof.
  revert b s. induction os as [|o os IH]; intros b s Hr; simpl.
  { by apply bitmap_matches_ret. }
  eapply (bitmap_matches_bind _ _ _ _ (λ '(r, a1), '(rs, a2) ← Spec.run_all os a1; Ok (r :: rs, a2))).
  - by apply bitmap_run_matches.
  - intros r b1 s1 Hr1. specialize (IH b1 s1 Hr1).
    eapply (bitmap_matches_bind _ _ _ _ (λ '(rs, a2), Ok (r :: rs, a2))) in IH; [exact IH|].
    intros. by apply bitmap_matches_ret.
Qed.

(** Any well-formed memory represents some set of marked bits. *)
Definition marked_of (b : BitMap) : gset Z :=
  list_to_set (filter (λ i, bit_of (map b) i = true) (seqZ 0 (numBits b))).

Lemma repr_of_wf b : wf b → repr b (Spec.Bits (numBits b) (marked_of b)).
Proof.
  intros Hwf. split; [done|]. split; [done|]. unfold marked_of. simpl. split.
  - intros i. rewrite elem_of_list_to_set, list_elem_of_filter, elem_of_seqZ. lia.
  - intros i Hi. symmetry. destruct (bit_of (map b) i) eqn:E.
    + apply bool_decide_eq_true.
      rewrite elem_of_list_to_set, list_elem_of_filter, elem_of_seqZ. split; [done|lia].
    + apply bool_decide_eq_false.
      rewrite elem_of_list_to_set, list_elem_of_filter, E. naive_solver.
Qed.

(** The loop of the constructor clears every bit, garbage included. *)
Lemma BitMap_new_repr n mem :
  0 ≤ n → zlen mem = divRoundUp n BitsInWord → Forall in_u32 mem →
  ∃ b, BitMap_new n mem = Ok b ∧ repr b (Spec.Bits n ∅).
Proof.
  intros Hn Hl Hw. unfold BitMap_new.
  set (b0 := MkBitMap n (divRoundUp n BitsInWord) mem).
  assert (wp (for_range 0 n Clear) b0 (λ _ b, ∃ s, repr b s ∧ Spec.size s = n ∧
            ∀ i, i ∈ Spec.marked s → n ≤ i)) as H.
  { apply (wp_for_range (λ k b, ∃ s, repr b s ∧ Spec.size s = n ∧
            ∀ i, i ∈ Spec.marked s → k ≤ i)); [done| |].
    - exists (Spec.Bits n (marked_of b0)). assert (repr b0 (Spec.Bits n (marked_of b0))) as Hr.
      { apply (repr_of_wf b0). done. }
      split; [done|]. split; [done|]. intros i Hi. destruct Hr as (_ & _ & Hd & _). by apply Hd in Hi as [? _].
    - intros i b Hi (s & Hr & Hs & Hmin). pose proof (Clear_matches b s i Hr) as H.
      unfold Spec.Clear in H. replace (Spec.valid i s) with true in H.
      2: { unfold Spec.valid. rewrite Hs. lia. }
      destruct H as (b' & Hrun & Hr'). unfold wp. rewrite Hrun.
      eexists. split; [exact Hr'|]. split; [done|]. simpl.
      intros j [Hj Hne]%elem_of_difference. specialize (Hmin j Hj).
      assert (j ≠ i) by set_solver. lia. }
  apply wp_elim in H as ([] & b & Hrun & s & Hr & Hs & Hmin).
  exists b. rewrite Hrun. split; [done|].
  assert (s = Spec.Bits n ∅) as <-; [|done].
  destruct s as [sz m]. simpl in *. f_equal; [done|].
  apply set_eq. intros i. split; [|set_solver]. intros Hi.
  destruct Hr as (_ & Hsz & Hdom & _). simpl in *.
  specialize (Hdom i Hi). specialize (Hmin i Hi). lia.
Qed.

(** C27.  A new bit map, over whatever its memory held, behaves for
    every sequence of operations as an empty set of marked bits: the same
    results, an assertion failure exactly for a bit out of range, and no
    access outside the array of words. *)
Theorem bitmap_run_all_refines n mem os
    (Hn : 0 ≤ n) (Hlen : zlen mem = divRoundUp n BitsInWord)
    (Hmem : Forall in_u32 mem) :
  ∃ b, BitMap_new n mem = Ok b ∧
    match Spec.run_all os (Spec.Bits n ∅) with
    | Ok (rs, s) => ∃ b', run_all os b = Ok (rs, b') ∧ repr b' s
    | Fault f => run_all os b = Fault f
    end.
Proof.
  destruct (BitMap_new_repr n mem Hn Hlen Hmem) as (b & Hnew & Hr).
  exists b. split; [done|]. pose proof (bitmap_run_all_matches b _ os Hr) as H.
  by destruct (Spec.run_all os _) as [[rs s]|].
Qed.

(** The first clear bit, and what is left after taking it. *)
Lemma clear_list_head s i l :
  Spec.clear_list s = i :: l →
  0 ≤ i < Spec.size s ∧ (i ∉ Spec.marked s) ∧
  (∀ j, 0 ≤ j < i → j ∈ Spec.marked s) ∧
  Spec.clear_list (Spec.Bits (Spec.size s) ({[i]} ∪ Spec.marked s)) = l.
Proof.
  unfold Spec.clear_list. simpl. intros Hl.
  assert (∀ n lo l', 0 ≤ lo →
    filter (λ i, i ∉ Spec.marked s) (seqZ lo (Z.of_nat n)) = i :: l' →
    lo ≤ i < lo + Z.of_nat n ∧ (i ∉ Spec.marked s) ∧ (∀ j, lo ≤ j < i → j ∈ Spec.marked s)
    ∧ filter (λ j, j ∉ ({[i]} ∪ Spec.marked s)) (seqZ lo (Z.of_nat n)) = l') as H.
  2: { destruct (decide (0 ≤ Spec.size s)).
       - specialize (H (Z.to_nat (Spec.size s)) 0 l ltac:(lia)).
         rewrite Z2Nat.id in H by done. simpl in H. naive_solver lia.
       - rewrite seqZ_nil in Hl by lia. done. }
  clear l Hl. induction n as [|n IH]; intros lo l' Hlo; [done|].
  rewrite seqZ_cons by lia.
  replace (Z.pred (Z.of_nat (S n))) with (Z.of_nat n) by lia.
  replace (Z.succ lo) with (lo + 1) by lia.
  destruct (decide (lo ∈ Spec.marked s)) as [E|E].
  - rewrite filter_cons_False by (by intros []). intros Hf.
    rewrite filter_cons_False by set_solver.
    destruct (IH (lo + 1) l' ltac:(lia) Hf) as (H1 & H2 & H3 & H4).
    split; [lia|]. split; [done|]. split; [|done].
    intros j Hj. destruct (decide (j = lo)) as [->|]; [done|]. apply H3. lia.
  - rewrite filter_cons_True by done. intros [= -> <-].
    split; [lia|]. split; [done|]. split; [lia|].
    rewrite filter_cons_False by set_solver.
    apply filter_ext_In. intros j Hj%elem_of_seqZ. assert (j ≠ i) by lia. set_solver.
Qed.

(** [Find] answers -1 exactly when every bit is marked,
    and then changes nothing; otherwise it answers the least clear bit, marks
    it and no other, and [NumClear] is one less. *)
Theorem Find_least b s (Hr : repr b s) :
  (Spec.NumClear s = 0 ∧ Find b = Ok (-1, b)
     ∧ ∀ i, 0 ≤ i < numBits b → i ∈ Spec.marked s) ∨
  (∃ i b' s', Find b = Ok (i, b') ∧ 0 ≤ i < numBits b
     ∧ (i ∉ Spec.marked s) ∧ (∀ j, 0 ≤ j < i → j ∈ Spec.marked s)
     ∧ repr b' s' ∧ Spec.marked s' = {[i]} ∪ Spec.marked s
     ∧ NumClear b' = Ok (Spec.NumClear s - 1, b')).
Proof.
  pose proof (Find_matches b s Hr) as H. unfold Spec.Find in H.
  destruct (Spec.clear_list s) as [|i l] eqn:E.
  - left. destruct H as (b' & Hrun & _). split; [unfold Spec.NumClear; by rewrite E|].
    assert (∀ i, 0 ≤ i < numBits b → i ∈ Spec.marked s) as Hall.
    { intros i Hi. destruct (decide (i ∈ Spec.marked s)); [done|].
      assert (i ∈ Spec.clear_list s) as Hin.
      { apply list_elem_of_filter. split; [done|]. apply elem_of_seqZ.
        destruct Hr as (_ & -> & _). lia. }
      rewrite E in Hin. set_solver. }
    split; [|done]. rewrite Hrun. f_equal. f_equal.
    unfold Find in Hrun. apply M_bind_Ok in Hrun as (? & ? & [= <- <-] & Hrun).
    pose proof (Find_loop_spec b s (Z.to_nat (numBits b)) 0 Hr ltac:(lia)) as Hl.
    rewrite (size_nat b s Hr) in Hl. specialize (Hl ltac:(destruct Hr as (? & -> & _); lia)).
    fold (Spec.clear_list s) in Hl. rewrite E in Hl.
    rewrite (M_bind_step _ _ _ _ _ Hl) in Hrun. by injection Hrun.
  - right. destruct H as (b' & Hrun & Hr').
    destruct (clear_list_head s i l E) as (H1 & H2 & H3 & H4).
    eexists i, b', _. split; [done|]. split; [by destruct Hr as (_ & <- & _)|].
    split; [done|]. split; [done|]. split; [done|]. split; [done|].
    rewrite (NumClear_Ok b' _ Hr'). f_equal. f_equal. unfold Spec.NumClear.
    rewrite H4, E. unfold zlen. simpl. lia.
Qed.

(** The bytes of a bit map, in any other of the same size, are the map. *)
Lemma load_bytes_bytes_of b b0 :
  wf b → wf b0 → numBits b0 = numBits b →
  load_bytes (bytes_of b) b0 = b ∧ zlen (bytes_of b) = 4 * numWords b.
Proof.
  intros (H1 & H2 & H3 & H4) (G1 & G2 & G3 & G4) Hsize.
  destruct b as [n w m], b0 as [n0 w0 m0]. unfold load_bytes, bytes_of. simpl in *. subst.
  split.
  - rewrite drop_ge; [by rewrite app_nil_r, bytes_words_bytes_id|].
    rewrite !length_words_bytes. unfold zlen in *. lia.
  - unfold zlen in *. rewrite length_words_bytes. lia.
Qed.

(** The bytes [WriteBack] stores are enough for
    [FetchFrom]: loaded in any bit map of the same size they give back the
    map; fewer bytes keep the rest of the old memory. *)
Theorem load_bytes_of b b0 (Hb : wf b) (Hb0 : wf b0) (Hsize : numBits b0 = numBits b) :
  load_bytes (bytes_of b) b0 = b ∧ load_bytes [] b0 = b0
  ∧ zlen (bytes_of b) = 4 * numWords b.
Proof.
  destruct (load_bytes_bytes_of b b0 Hb Hb0 Hsize) as [H Hl]. split; [done|]. split; [|done].
  destruct Hb0 as (_ & _ & _ & Hw), b0 as [n0 w0 m0]. unfold load_bytes, bytes_of. simpl in *.
  by rewrite drop_0, bytes_words_bytes_id.
Qed.

(** *** Concrete bit maps *)

Lemma bitmap_run_all_refines_witness :
  ∃ b, BitMap_new 33 [2 ^ 32 - 1; 7] = Ok b ∧
    ∃ b', run_all [Spec.OMark 0; Spec.OFind; Spec.OTest 32; Spec.ONumClear] b
          = Ok ([Spec.RUnit; Spec.RInt 1; Spec.RBool false; Spec.RInt 31], b')
      ∧ repr b' (Spec.Bits 33 ({[1]} ∪ ({[0]} ∪ ∅))).
Proof.
  assert (Forall in_u32 [2 ^ 32 - 1; 7]) as Hm
    by (repeat constructor; unfold in_u32; lia).
  exact (bitmap_run_all_refines 33 [2 ^ 32 - 1; 7]
    [Spec.OMark 0; Spec.OFind; Spec.OTest 32; Spec.ONumClear]
    (ltac:(lia)) eq_refl Hm).
Defined.

(** Four bits, of which 0 and 2 are marked. *)
Definition demo : BitMap := MkBitMap 4 1 [5].
Lemma wf_demo_bits : wf demo.
Proof.
  split; [simpl; lia|]. split; [done|]. split; [done|].
  repeat constructor; unfold in_u32; lia.
Qed.

Lemma Find_least_witness :
  ∃ i b' s', Find demo = Ok (i, b') ∧ 0 ≤ i < 4 ∧ bit_of (map demo) i = false
    ∧ repr b' s'.
Proof.
  pose proof (repr_of_wf demo wf_demo_bits) as Hr.
  destruct (Find_least demo _ Hr) as [(H & _)|(i & b' & s' & H & Hi & Hn & _ & Hr' & _)].
  - vm_compute in H. discriminate H.
  - exists i, b', s'. split; [exact H|]. split; [exact Hi|]. split; [|exact Hr'].
    destruct Hr as (_ & _ & _ & Hb). rewrite Hb by done. by apply bool_decide_eq_false.
Defined.

Lemma load_bytes_of_witness :
  load_bytes (bytes_of demo) (MkBitMap 4 1 [77]) = demo ∧
  load_bytes [] (MkBitMap 4 1 [77]) = MkBitMap 4 1 [77] ∧ zlen (bytes_of demo) = 4.
Proof.
  apply (load_bytes_of demo (MkBitMap 4 1 [77]) wf_demo_bits); [|reflexivity].
  split; [simpl; lia|]. split; [done|]. split; [done|].
  repeat constructor; unfold in_u32; lia.
Defined.
End Impl.
