(* ===== verification/Machine.v ===== *)
(** * The simulated machine: machine/machine.cc and machine/translate.cc

    Registers, physical memory, address translation through a page table or a
    TLB, and the trap to the kernel.  The kernel's [ExceptionHandler] is a
    variable of the section, constrained by the interface [SafeHandler] where
    a theorem needs it; the rest of the simulation is a type [K] that only the
    handler touches. *)
From S2P Require Import Prelude Word.

(** ** Sizes and registers: machine/machine.h and machine/disk.h *)

Definition SectorSize : Z := 128.
Definition PageSize : Z := SectorSize.
Definition NumPhysPages : Z := 32.
Definition MemorySize : Z := NumPhysPages * PageSize.
Definition TLBSize : Z := 4.

Definition StackReg : Z := 29.
Definition RetAddrReg : Z := 31.
Definition NumGPRegs : Z := 32.
Definition HiReg : Z := 32.
Definition LoReg : Z := 33.
Definition PCReg : Z := 34.
Definition NextPCReg : Z := 35.
Definition PrevPCReg : Z := 36.
Definition LoadReg : Z := 37.
Definition LoadValueReg : Z := 38.
Definition BadVAddrReg : Z := 39.
Definition NumTotalRegs : Z := 40.

Inductive ExceptionType :=
  | NoException
  | SyscallException
  | PageFaultException
  | ReadOnlyException
  | BusErrorException
  | AddressErrorException
  | OverflowException
  | IllegalInstrException.

#[export] Instance ExceptionType_eq_dec : EqDecision ExceptionType.
Proof. solve_decision. Defined.

Inductive MachineStatus := IdleMode | SystemMode | UserMode.

(** machine/translate.h *)
Record TranslationEntry := TE {
  virtualPage : Z;
  physicalPage : Z;
  valid : bool;
  readOnly : bool;
  use : bool;
  dirty : bool;
  zeroFilled : bool
}.

(** A page table is shared by the machine and the address space it belongs
    to: [pageTable] is a pointer into the tables that exist. *)
Record Machine (K : Type) := MkMachine {
  mainMemory : list Z;                (* the bytes, each in [0, 256) *)
  registers : list Z;
  tlb : option (list TranslationEntry);
  pageTable : option positive;
  pageTableSize : Z;
  tables : gmap positive (list TranslationEntry);
  status : MachineStatus;             (* of the interrupt hardware *)
  kernel : K
}.
Arguments MkMachine {K}.
Arguments mainMemory {K}. Arguments registers {K}. Arguments tlb {K}.
Arguments pageTable {K}. Arguments pageTableSize {K}. Arguments tables {K}.
Arguments status {K}. Arguments kernel {K}.

(** ** Byte order of the host and of the simulated machine *)

Section endian.
Variable HOST_IS_BIG_ENDIAN : bool.

Definition WordToHost (word : Z) : Z :=
  if HOST_IS_BIG_ENDIAN then
    Z.lor (Z.lor (Z.lor (Z.land (Z.shiftr word 24) 0x000000ff)
                        (Z.land (Z.shiftr word 8) 0x0000ff00))
                 (Z.land (u32 (Z.shiftl word 8)) 0x00ff0000))
          (Z.land (u32 (Z.shiftl word 24)) 0xff000000)
  else word.

Definition ShortToHost (shortword : Z) : Z :=
  if HOST_IS_BIG_ENDIAN then
    Z.lor (Z.land (Z.shiftl shortword 8) 0xff00)
          (Z.land (Z.shiftr shortword 8) 0x00ff)
  else shortword.

Definition WordToMachine (word : Z) : Z := WordToHost word.
Definition ShortToMachine (shortword : Z) : Z := ShortToHost shortword.

(** The integer a host of this byte order finds in some bytes of memory,
    and the bytes it stores for an integer: the casts of [&mainMemory[..]]
    to [unsigned short *] and [unsigned int *]. *)
Definition host_load (bytes : list Z) : Z :=
  of_le (if HOST_IS_BIG_ENDIAN then reverse bytes else bytes).
Definition host_store (n : nat) (z : Z) : list Z :=
  if HOST_IS_BIG_ENDIAN then reverse (bytes_le n z) else bytes_le n z.

(** The assertion of [CheckEndian] in machine/machine.cc. *)
Definition CheckEndian : res unit :=
  let intword := host_load [1; 2; 3; 4] in
  if HOST_IS_BIG_ENDIAN then ASSERT (intword =? 0x01020304)
  else ASSERT (intword =? 0x04030201).
End endian.

(** ** The machine *)

Section machine.
Context {K : Type}.
Variable HOST_IS_BIG_ENDIAN : bool.
Variable ExceptionHandler : ExceptionType → M (Machine K) unit.

Implicit Types m : Machine K.

Definition with_registers (f : list Z → list Z) m : Machine K :=
  MkMachine (mainMemory m) (f (registers m)) (tlb m) (pageTable m)
    (pageTableSize m) (tables m) (status m) (kernel m).
Definition with_memory (f : list Z → list Z) m : Machine K :=
  MkMachine (f (mainMemory m)) (registers m) (tlb m) (pageTable m)
    (pageTableSize m) (tables m) (status m) (kernel m).
Definition with_tlb (t : option (list TranslationEntry)) m : Machine K :=
  MkMachine (mainMemory m) (registers m) t (pageTable m)
    (pageTableSize m) (tables m) (status m) (kernel m).
Definition with_tables (t : gmap positive (list TranslationEntry)) m : Machine K :=
  MkMachine (mainMemory m) (registers m) (tlb m) (pageTable m)
    (pageTableSize m) t (status m) (kernel m).

Definition setStatus (st : MachineStatus) : M (Machine K) unit :=
  modify (λ m, MkMachine (mainMemory m) (registers m) (tlb m) (pageTable m)
                 (pageTableSize m) (tables m) st (kernel m)).

(** [registers[i]] and [registers[i] = v]. *)
Definition reg (i : Z) : M (Machine K) Z :=
  m ← get; lift (aread (registers m) i).
Definition set_reg (i v : Z) : M (Machine K) unit :=
  m ← get;
  r ← lift (awrite (registers m) i v);
  modify (with_registers (λ _, r)).

(** The constructor; [use_tlb] is the build flag [USE_TLB], [garbage] the
    fields of the TLB entries it leaves uninitialised. *)
Definition Machine_new (use_tlb : bool) (garbage : list TranslationEntry)
    (k : K) : res (Machine K) :=
  let t := if use_tlb then
      Some ((λ e, TE (virtualPage e) (physicalPage e) false (readOnly e)
                     (use e) (dirty e) (zeroFilled e)) <$> garbage)
    else None in
  CheckEndian HOST_IS_BIG_ENDIAN ;;
  Ok (MkMachine (replicate (Z.to_nat MemorySize) 0)
                (replicate (Z.to_nat NumTotalRegs) 0)
                t None 0 ∅ SystemMode k).

Definition ReadRegister (num : Z) : M (Machine K) Z :=
  lift (ASSERT ((0 <=? num) && (num <? NumTotalRegs))) ;; reg num.

Definition WriteRegister (num value : Z) : M (Machine K) unit :=
  lift (ASSERT ((0 <=? num) && (num <? NumTotalRegs))) ;; set_reg num value.

(** machine/mipssim.cc *)
Definition DelayedLoad (nextReg nextValue : Z) : M (Machine K) unit :=
  r ← reg LoadReg;
  v ← reg LoadValueReg;
  set_reg r v ;;
  set_reg LoadReg nextReg ;;
  set_reg LoadValueReg nextValue ;;
  set_reg 0 0.

Definition RaiseException (which : ExceptionType) (badVAddr : Z) : M (Machine K) unit :=
  set_reg BadVAddrReg badVAddr ;;
  DelayedLoad 0 0 ;;
  setStatus SystemMode ;;
  ExceptionHandler which ;;
  setStatus UserMode.

(** *** Address translation *)

(** The pointer [entry]: an entry of the page table or of the TLB. *)
Inductive entry_ref := InTable (t : positive) (i : Z) | InTLB (i : Z).

Definition get_entry (e : entry_ref) : M (Machine K) TranslationEntry :=
  m ← get;
  match e with
  | InTable t i => l ← lift (deref (tables m !! t)); lift (aread l i)
  | InTLB i => l ← lift (deref (tlb m)); lift (aread l i)
  end.

Definition set_entry (e : entry_ref) (x : TranslationEntry) : M (Machine K) unit :=
  m ← get;
  match e with
  | InTable t i =>
      l ← lift (deref (tables m !! t));
      l' ← lift (awrite l i x);
      modify (with_tables (<[t := l']> (tables m)))
  | InTLB i =>
      l ← lift (deref (tlb m));
      l' ← lift (awrite l i x);
      modify (with_tlb (Some l'))
  end.

(** The search loop over the TLB, from entry [i] on. *)
Fixpoint tlb_search (n : nat) (i vpn : Z) : M (Machine K) (option entry_ref) :=
  match n with
  | O => mret None
  | S n' =>
      e ← get_entry (InTLB i);
      if valid e && (u32 (virtualPage e) =? vpn) then mret (Some (InTLB i))
      else tlb_search n' (i + 1) vpn
  end.

(** The [if (tlb == NULL) ... else ...]: the entry, or the exception. *)
Definition find_entry (vpn : Z) : M (Machine K) (ExceptionType + entry_ref) :=
  m ← get;
  match tlb m with
  | None =>
      if pageTableSize m <=? vpn then mret (inl AddressErrorException)
      else
        t ← lift (deref (pageTable m));
        e ← get_entry (InTable t vpn);
        if negb (valid e) then mret (inl PageFaultException)
        else mret (inr (InTable t vpn))
  | Some _ =>
      r ← tlb_search (Z.to_nat TLBSize) 0 vpn;
      match r with
      | None => mret (inl PageFaultException)
      | Some e => mret (inr e)
      end
  end.

Definition misaligned (virtAddr size : Z) : bool :=
  ((size =? 4) && ctrue (Z.land virtAddr 0x3))
  || ((size =? 2) && ctrue (Z.land virtAddr 0x1)).

(** [inl] an exception, or [inr] the physical address ([NoException]). *)
Definition Translate (virtAddr size : Z) (writing : bool)
    : M (Machine K) (ExceptionType + Z) :=
  if misaligned virtAddr size then mret (inl AddressErrorException)
  else
    m ← get;
    lift (ASSERT (bool_decide (tlb m = None) || bool_decide (pageTable m = None))) ;;
    lift (ASSERT (negb (bool_decide (tlb m = None)) || negb (bool_decide (pageTable m = None)))) ;;
    let vpn := u32 virtAddr / PageSize in
    let offset := u32 virtAddr mod PageSize in
    r ← find_entry vpn;
    match r with
    | inl exn => mret (inl exn)
    | inr entry =>
        e ← get_entry entry;
        if readOnly e && writing then mret (inl ReadOnlyException)
        else
          let pageFrame := u32 (physicalPage e) in
          if NumPhysPages <=? pageFrame then mret (inl BusErrorException)
          else
            set_entry entry (TE (virtualPage e) (physicalPage e) (valid e) (readOnly e)
                                true (if writing then true else dirty e) (zeroFilled e)) ;;
            let physAddr := s32 (pageFrame * PageSize + offset) in
            lift (ASSERT ((0 <=? physAddr) && (physAddr + size <=? MemorySize))) ;;
            mret (inr physAddr)
    end.

(** *** Memory accesses *)

(** The [n] bytes of [mainMemory] from [a] on. *)
Definition mem_read (a : Z) (n : nat) : M (Machine K) (list Z) :=
  m ← get;
  lift (if (0 <=? a) && (a + Z.of_nat n <=? zlen (mainMemory m))
        then Ok (slice (Z.to_nat a) n (mainMemory m))
        else Fault OutOfBounds).
Definition mem_write (a : Z) (bytes : list Z) : M (Machine K) unit :=
  m ← get;
  if (0 <=? a) && (a + zlen bytes <=? zlen (mainMemory m))
  then modify (with_memory (splice (Z.to_nat a) bytes))
  else fail OutOfBounds.

(** [None] is FALSE, [Some v] is TRUE with [*value = v]. *)
Definition ReadMem (addr size : Z) : M (Machine K) (option Z) :=
  r ← Translate addr size false;
  match r with
  | inl exception => RaiseException exception addr ;; mret None
  | inr physicalAddress =>
      if size =? 1 then
        b ← mem_read physicalAddress 1;
        mret (Some (s8 (host_load HOST_IS_BIG_ENDIAN b)))
      else if size =? 2 then
        b ← mem_read physicalAddress 2;
        mret (Some (ShortToHost HOST_IS_BIG_ENDIAN (host_load HOST_IS_BIG_ENDIAN b)))
      else if size =? 4 then
        b ← mem_read physicalAddress 4;
        mret (Some (s32 (WordToHost HOST_IS_BIG_ENDIAN (host_load HOST_IS_BIG_ENDIAN b))))
      else fail AssertFailed
  end.

Definition WriteMem (addr size value : Z) : M (Machine K) bool :=
  r ← Translate addr size true;
  match r with
  | inl exception => RaiseException exception addr ;; mret false
  | inr physicalAddress =>
      if size =? 1 then
        mem_write physicalAddress [Z.land value 0xff] ;; mret true
      else if size =? 2 then
        mem_write physicalAddress
          (host_store HOST_IS_BIG_ENDIAN 2
             (ShortToMachine HOST_IS_BIG_ENDIAN (Z.land value 0xffff))) ;; mret true
      else if size =? 4 then
        mem_write physicalAddress
          (host_store HOST_IS_BIG_ENDIAN 4
             (WordToMachine HOST_IS_BIG_ENDIAN (u32 value))) ;; mret true
      else fail AssertFailed
  end.
End machine.

(** ** Byte order *)

Section endian_facts.
Implicit Types (b : Z) (bs : list Z).

(** The shifts and masks of [WordToHost] reverse the bytes of a word. *)
Lemma word_swap b0 b1 b2 b3 :
  byte_ok b0 → byte_ok b1 → byte_ok b2 → byte_ok b3 →
  WordToHost true (of_le [b3; b2; b1; b0]) = of_le [b0; b1; b2; b3].
Proof.
  intros H0 H1 H2 H3. unfold WordToHost, byte_ok in *. simpl of_le.
  set (w := b3 + 256 * (b2 + 256 * (b1 + 256 * (b0 + 256 * 0)))).
  assert (Z.land (Z.shiftr w 24) 255 = b0) as ->.
  { rewrite (land_field _ 0 8) by done. rewrite Z.shiftr_div_pow2 by done.
    change (2 ^ 24) with 16777216. change (2 ^ 8) with 256. change (2 ^ 0) with 1.
    unfold w. dlia. }
  assert (Z.land (Z.shiftr w 8) 65280 = b1 * 2 ^ 8) as ->.
  { rewrite (land_field _ 8 8) by done. rewrite Z.shiftr_div_pow2 by done.
    change (2 ^ 8) with 256. unfold w. dlia. }
  assert (Z.land (u32 (Z.shiftl w 8)) 16711680 = b2 * 2 ^ 16) as ->.
  { rewrite (land_field _ 16 8) by done. rewrite Z.shiftl_mul_pow2 by done.
    unfold u32. change (2 ^ 8) with 256. change (2 ^ 16) with 65536.
    change (2 ^ 32) with 4294967296. unfold w. dlia. }
  assert (Z.land (u32 (Z.shiftl w 24)) 4278190080 = b3 * 2 ^ 24) as ->.
  { rewrite (land_field _ 24 8) by done. rewrite Z.shiftl_mul_pow2 by done.
    unfold u32. change (2 ^ 8) with 256. change (2 ^ 24) with 16777216.
    change (2 ^ 32) with 4294967296. unfold w. dlia. }
  rewrite (lor_add b0 b1 8) by lia.
  rewrite (lor_add _ b2 16) by lia. rewrite (lor_add _ b3 24) by lia. lia.
Qed.

Lemma short_swap b0 b1 :
  byte_ok b0 → byte_ok b1 → ShortToHost true (of_le [b1; b0]) = of_le [b0; b1].
Proof.
  intros H0 H1. unfold ShortToHost, byte_ok in *. simpl of_le.
  set (w := b1 + 256 * (b0 + 256 * 0)).
  assert (Z.land (Z.shiftl w 8) 65280 = b1 * 2 ^ 8) as ->.
  { rewrite (land_field _ 8 8) by done. rewrite Z.shiftl_mul_pow2 by done.
    change (2 ^ 8) with 256. unfold w. dlia. }
  assert (Z.land (Z.shiftr w 8) 255 = b0) as ->.
  { rewrite (land_field _ 0 8) by done. rewrite Z.shiftr_div_pow2 by done.
    change (2 ^ 8) with 256. change (2 ^ 0) with 1. unfold w. dlia. }
  rewrite Z.lor_comm, lor_add by lia. lia.
Qed.

(** What is loaded from memory, whatever the byte order of the host. *)
Lemma word_load big bs :
  length bs = 4%nat → Forall byte_ok bs → WordToHost big (host_load big bs) = of_le bs.
Proof.
  destruct bs as [|b0 [|b1 [|b2 [|b3 [|]]]]]; try done. intros _ Hok.
  destruct big; [|done]. rewrite !list.Forall_cons in Hok.
  apply word_swap; tauto.
Qed.

Lemma short_load big bs :
  length bs = 2%nat → Forall byte_ok bs → ShortToHost big (host_load big bs) = of_le bs.
Proof.
  destruct bs as [|b0 [|b1 [|]]]; try done. intros _ Hok.
  destruct big; [|done]. rewrite !list.Forall_cons in Hok.
  apply short_swap; tauto.
Qed.

Lemma word_range big z : in_u32 z → in_u32 (WordToHost big z).
Proof.
  intros Hz. destruct big; [|done].
  rewrite <- (u32_id z Hz). unfold u32. change (2 ^ 32) with (256 ^ Z.of_nat 4).
  rewrite <- of_le_bytes_le. pose proof (bytes_le_ok 4 z) as Hok.
  pose proof (length_bytes_le 4 z) as Hlen.
  destruct (bytes_le 4 z) as [|b0 [|b1 [|b2 [|b3 [|]]]]]; try done.
  rewrite !list.Forall_cons in Hok. rewrite word_swap by tauto.
  assert (Forall byte_ok [b3; b2; b1; b0]) as Hok' by (rewrite !list.Forall_cons; tauto).
  apply of_le_range in Hok'. exact Hok'.
Qed.

(** What is stored to memory, whatever the byte order of the host. *)
Lemma word_store big z :
  in_u32 z → host_store big 4 (WordToMachine big z) = bytes_le 4 z.
Proof.
  intros Hz. destruct big; [|done]. unfold host_store, WordToMachine.
  pose proof (bytes_le_ok 4 z) as Hok. pose proof (length_bytes_le 4 z) as Hlen.
  assert (z = of_le (bytes_le 4 z)) as Hz2.
  { rewrite of_le_bytes_le. symmetry. apply Z.mod_small. done. }
  rewrite Hz2 at 1. destruct (bytes_le 4 z) as [|b0 [|b1 [|b2 [|b3 [|]]]]]; try done.
  rewrite !list.Forall_cons in Hok. rewrite word_swap by tauto.
  change 4%nat with (length [b3; b2; b1; b0]). rewrite bytes_le_of_le; [done|].
  rewrite !list.Forall_cons; tauto.
Qed.

Lemma short_store big z :
  0 ≤ z < 65536 → host_store big 2 (ShortToMachine big z) = bytes_le 2 z.
Proof.
  intros Hz. destruct big; [|done]. unfold host_store, ShortToMachine.
  pose proof (bytes_le_ok 2 z) as Hok. pose proof (length_bytes_le 2 z) as Hlen.
  assert (z = of_le (bytes_le 2 z)) as Hz2.
  { rewrite of_le_bytes_le. symmetry. apply Z.mod_small. done. }
  rewrite Hz2 at 1. destruct (bytes_le 2 z) as [|b0 [|b1 [|]]]; try done.
  rewrite !list.Forall_cons in Hok. rewrite short_swap by tauto.
  change 2%nat with (length [b1; b0]). rewrite bytes_le_of_le; [done|].
  rewrite !list.Forall_cons; tauto.
Qed.
End endian_facts.

(** ** Invariants of the machine *)

Definition wf_regs (r : list Z) : Prop :=
  zlen r = NumTotalRegs ∧ Forall in_s32 r ∧ aget r 0 = Some 0
  ∧ ∃ l, aget r LoadReg = Some l ∧ 0 ≤ l < NumGPRegs.

Definition wf_mem (l : list Z) : Prop := zlen l = MemorySize ∧ Forall byte_ok l.

(** Exactly one of the two translation mechanisms, and it is all there. *)
Definition wf_tr {K} (m : Machine K) : Prop :=
  match tlb m, pageTable m with
  | Some l, None => zlen l = TLBSize
  | None, Some t => ∃ l, tables m !! t = Some l ∧ pageTableSize m ≤ zlen l
  | _, _ => False
  end.

Definition wf {K} (m : Machine K) : Prop :=
  wf_regs (registers m) ∧ wf_mem (mainMemory m) ∧ wf_tr m.

(** What a client of the machine may assume of the kernel's handler. *)
Class SafeHandler {K} (ExceptionHandler : ExceptionType → M (Machine K) unit) : Prop :=
  handler_safe : ∀ which m, wf m → wp (ExceptionHandler which) m (λ _ m', wf m').

(** ** Registers *)

Section registers.
Context {K : Type}.
Implicit Types m : Machine K.

Lemma reg_Ok m i : 0 ≤ i < zlen (registers m) →
  ∃ v, reg i m = Ok (v, m) ∧ aget (registers m) i = Some v.
Proof.
  intros Hi. destruct (aread_total _ _ Hi) as (v & Hr & Hg). exists v.
  split; [|done]. unfold reg. mrun. by rewrite Hr.
Qed.

Lemma reg_get m i v : aget (registers m) i = Some v → reg i m = Ok (v, m).
Proof. intros H%aread_Ok. unfold reg. mrun. by rewrite H. Qed.

Lemma set_reg_Ok m i v : 0 ≤ i < zlen (registers m) →
  set_reg i v m = Ok (tt, with_registers (<[Z.to_nat i := v]>) m).
Proof.
  intros Hi. unfold set_reg. mrun. rewrite awrite_total by done. by mrun.
Qed.

Lemma wf_regs_read r i :
  wf_regs r → 0 ≤ i < NumTotalRegs → ∃ v, aget r i = Some v ∧ in_s32 v.
Proof.
  intros (Hlen & Hall & _) Hi. rewrite <- Hlen in Hi.
  destruct (aget_lt_is_Some _ _ Hi) as [v Hv]. exists v. split; [done|].
  unfold aget in Hv. case_match; [|done]. by eapply Forall_lookup_1 in Hall.
Qed.

(** Writing any register but [R0] and [LoadReg] keeps the register file. *)
Lemma wf_regs_write r i v :
  wf_regs r → 0 < i < NumTotalRegs → i ≠ LoadReg → in_s32 v →
  wf_regs (<[Z.to_nat i := v]> r).
Proof.
  intros (Hlen & Hall & H0 & l & Hl & Hrange) Hi Hne Hv.
  split; [by rewrite zlen_insert|]. split; [by apply Forall_insert|].
  rewrite !aget_insert_ne by lia. eauto.
Qed.
End registers.

(** ** Translation *)

Section translation.
Context {K : Type}.
Implicit Types m : Machine K.

Definition entry_of m (e : entry_ref) : option TranslationEntry :=
  match e with
  | InTable t i => l ← tables m !! t; aget l i
  | InTLB i => l ← tlb m; aget l i
  end.

Definition update_entry m (e : entry_ref) (x : TranslationEntry) : Machine K :=
  match e with
  | InTable t i => with_tables (alter (<[Z.to_nat i := x]>) t (tables m)) m
  | InTLB i => with_tlb (<[Z.to_nat i := x]> <$> tlb m) m
  end.

Lemma get_entry_Ok m e x : entry_of m e = Some x → get_entry e m = Ok (x, m).
Proof.
  unfold entry_of, get_entry. intros H. mrun. destruct e as [t i|i].
  - destruct (tables m !! t) as [l|]; [|done]. simpl in H. mrun.
    by apply aread_Ok in H as ->.
  - destruct (tlb m) as [l|]; [|done]. simpl in H. mrun. by apply aread_Ok in H as ->.
Qed.

Lemma set_entry_Ok m e x y :
  entry_of m e = Some x → set_entry e y m = Ok (tt, update_entry m e y).
Proof.
  unfold entry_of, set_entry, update_entry. intros H. mrun. destruct e as [t i|i].
  - destruct (tables m !! t) as [l|] eqn:E; [|done]. simpl in H. mrun.
    rewrite awrite_total by eauto with nachos. mrun.
    unfold modify. f_equal. f_equal. f_equal. apply map_eq. intros t'.
    destruct (decide (t = t')) as [->|].
    + by rewrite lookup_insert_eq, lookup_alter_eq, E.
    + by rewrite lookup_insert_ne, lookup_alter_ne.
  - destruct (tlb m) as [l|]; [|done]. simpl in H. mrun.
    rewrite awrite_total by eauto with nachos. by mrun.
Qed.

Definition tlb_hit (vpn : Z) (e : TranslationEntry) : Prop :=
  valid e = true ∧ u32 (virtualPage e) = vpn.
#[global] Instance tlb_hit_dec vpn e : Decision (tlb_hit vpn e).
Proof. unfold tlb_hit. apply _. Defined.

(** The entry that maps a page, or the exception. *)
Definition lookup_page m (vpn : Z) : ExceptionType + entry_ref * TranslationEntry :=
  match tlb m with
  | Some l =>
      match list_find (tlb_hit vpn) l with
      | Some (i, e) => inr (InTLB (Z.of_nat i), e)
      | None => inl PageFaultException
      end
  | None =>
      if pageTableSize m <=? vpn then inl AddressErrorException
      else match pageTable m with
           | None => inl AddressErrorException
           | Some t =>
               match entry_of m (InTable t vpn) with
               | Some e => if valid e then inr (InTable t vpn, e)
                           else inl PageFaultException
               | None => inl AddressErrorException
               end
           end
  end.

Lemma tlb_search_spec m l vpn : tlb m = Some l → ∀ n i,
  0 ≤ i → i + Z.of_nat n = zlen l →
  tlb_search n i vpn m
  = Ok ((λ p, InTLB (i + Z.of_nat p.1)) <$> list_find (tlb_hit vpn) (drop (Z.to_nat i) l), m).
Proof.
  intros Hl. induction n as [|n IH]; intros i Hi Hn.
  { rewrite drop_ge; [done|]. unfold zlen in Hn. lia. }
  destruct (aget_lt_is_Some l i ltac:(lia)) as [e He]. cbn [tlb_search].
  mrun by (apply get_entry_Ok; simpl; by rewrite Hl).
  unfold aget in He. destruct (Z.leb_spec 0 i); [|done].
  rewrite (drop_S l e (Z.to_nat i)) by done. cbn [list_find].
  destruct (decide (tlb_hit vpn e)) as [[Hv Hp]|Hno].
  - rewrite Hv, Hp, Z.eqb_refl. simpl. by rewrite Z.add_0_r.
  - replace (valid e && (u32 (virtualPage e) =? vpn)) with false.
    2: { symmetry. apply not_true_iff_false. unfold tlb_hit in Hno. intros [? ?%Z.eqb_eq]%andb_true_iff.
         by apply Hno. }
    rewrite IH by lia. replace (Z.to_nat (i + 1)) with (S (Z.to_nat i)) by lia.
    f_equal. f_equal. destruct (list_find _ _) as [[j e']|]; simpl; [|done]. f_equal. f_equal.
    lia.
Qed.

Lemma find_entry_spec m vpn :
  wf_tr m → 0 ≤ vpn →
  find_entry vpn m
  = Ok (match lookup_page m vpn with inl x => inl x | inr (r, _) => inr r end, m).
Proof.
  intros Hwf Hvpn. unfold find_entry, lookup_page, wf_tr in *. mrun. cbv beta.
  destruct (tlb m) as [l|] eqn:Htlb.
  - destruct (pageTable m); [done|].
    mrun by (apply (tlb_search_spec m l); [done|done|]; rewrite Hwf; done).
    rewrite drop_0. destruct (list_find _ _) as [[i e]|]; done.
  - destruct (pageTable m) as [t|]; [|done]. destruct Hwf as (l & Ht & Hsize).
    case (Z.leb_spec (pageTableSize m) vpn); intros; [done|].
    destruct (aget_lt_is_Some l vpn ltac:(lia)) as [e He].
    assert (entry_of m (InTable t vpn) = Some e) as Hent by (simpl; by rewrite Ht).
    rewrite Hent. mrun. mrun by (by apply get_entry_Ok). by destruct (valid e).
Qed.

Lemma lookup_page_entry m vpn r e :
  lookup_page m vpn = inr (r, e) → entry_of m r = Some e.
Proof.
  unfold lookup_page. destruct (tlb m) as [l|] eqn:Htlb.
  - destruct (list_find _ _) as [[i e']|] eqn:E; [|done]. intros [= <- <-].
    apply list_find_Some in E as (E & _). simpl. rewrite Htlb. simpl.
    unfold aget. case (Z.leb_spec 0 (Z.of_nat i)); [|lia]. by rewrite Nat2Z.id.
  - repeat case_match; naive_solver.
Qed.

(** The outcome of a translation: the exception, or the entry and the
    physical address. *)
Definition translation m (virtAddr size : Z) (writing : bool)
    : ExceptionType + entry_ref * TranslationEntry * Z :=
  if misaligned virtAddr size then inl AddressErrorException
  else match lookup_page m (u32 virtAddr / PageSize) with
       | inl x => inl x
       | inr (r, e) =>
           if readOnly e && writing then inl ReadOnlyException
           else if NumPhysPages <=? u32 (physicalPage e) then inl BusErrorException
           else inr (r, e, u32 (physicalPage e) * PageSize + u32 virtAddr mod PageSize)
       end.

Definition touched (e : TranslationEntry) (writing : bool) : TranslationEntry :=
  TE (virtualPage e) (physicalPage e) (valid e) (readOnly e) true
     (if writing then true else dirty e) (zeroFilled e).

(** An aligned access does not cross the end of its page. *)
Lemma aligned_offset virtAddr size :
  size = 1 ∨ size = 2 ∨ size = 4 → misaligned virtAddr size = false →
  u32 virtAddr mod PageSize + size ≤ PageSize.
Proof.
  intros Hs Hm. unfold misaligned, ctrue in Hm. unfold PageSize, SectorSize, u32.
  change 3 with (Z.ones 2) in Hm. change 1 with (Z.ones 1) in Hm at 1.
  rewrite !Z.land_ones in Hm by done. change (2 ^ 2) with 4 in Hm. change (2 ^ 1) with 2 in Hm.
  change (2 ^ 32) with 4294967296.
  destruct Hs as [-> | [-> | ->]]; simpl in Hm.
  - pose proof (Z.mod_pos_bound (virtAddr mod 4294967296) 128 eq_refl). lia.
  - assert (virtAddr mod 2 = 0) as H by lia. clear Hm. dlia.
  - assert (virtAddr mod 4 = 0) as H by lia. clear Hm. dlia.
Qed.

Lemma translation_bounds m virtAddr size writing r e pa :
  size = 1 ∨ size = 2 ∨ size = 4 →
  translation m virtAddr size writing = inr (r, e, pa) →
  0 ≤ pa ∧ pa + size ≤ MemorySize.
Proof.
  intros Hs. unfold translation. destruct (misaligned virtAddr size) eqn:Hm; [done|].
  destruct (lookup_page _ _) as [x|[r' e']]; [done|].
  destruct (readOnly e' && writing); [done|].
  case (Z.leb_spec NumPhysPages (u32 (physicalPage e'))); [done|]. intros Hf [= <- <- <-].
  pose proof (aligned_offset virtAddr size Hs Hm) as Ho.
  pose proof (u32_range (physicalPage e')) as Hp. unfold in_u32 in Hp.
  pose proof (Z.mod_pos_bound (u32 virtAddr) PageSize eq_refl).
  unfold MemorySize, NumPhysPages, PageSize, SectorSize in *. lia.
Qed.

Lemma Translate_spec m virtAddr size writing :
  wf_tr m → size = 1 ∨ size = 2 ∨ size = 4 →
  Translate virtAddr size writing m
  = match translation m virtAddr size writing with
    | inl x => Ok (inl x, m)
    | inr (r, e, pa) => Ok (inr pa, update_entry m r (touched e writing))
    end.
Proof.
  intros Hwf Hs. pose proof (translation_bounds m virtAddr size writing) as Hb.
  unfold Translate, translation in *. destruct (misaligned virtAddr size) eqn:Hm; [done|].
  assert (0 ≤ u32 virtAddr / PageSize) as Hvpn.
  { apply Z.div_pos; [|done]. apply u32_range. }
  mrun. mrun by (unfold wf_tr in Hwf; destruct (tlb m), (pageTable m); done).
  mrun by (unfold wf_tr in Hwf; destruct (tlb m), (pageTable m); done).
  mrun by (by apply find_entry_spec). cbv beta.
  pose proof (lookup_page_entry m (u32 virtAddr / PageSize)) as He.
  destruct (lookup_page _ _) as [x|[r e]]; [done|]. specialize (He r e eq_refl).
  mrun by (by apply get_entry_Ok). cbv beta.
  destruct (readOnly e && writing); [done|].
  case (Z.leb_spec NumPhysPages (u32 (physicalPage e))) in Hb |- *; [done|].
  specialize (Hb _ _ _ Hs eq_refl).
  mrun by (by eapply set_entry_Ok). cbv beta.
  rewrite s32_id.
  2: { unfold in_s32. unfold MemorySize, NumPhysPages, PageSize, SectorSize in *. lia. }
  mrun by (unfold lift, ASSERT; replace (_ && _) with true; [done|lia]). done.
Qed.
End translation.

(** ** Memory accesses and traps *)

Section access.
Context {K : Type} (big : bool) (ExceptionHandler : ExceptionType → M (Machine K) unit).
Implicit Types m : Machine K.

Lemma registers_update_entry m r x : registers (update_entry m r x) = registers m.
Proof. by destruct r. Qed.
Lemma mainMemory_update_entry m r x : mainMemory (update_entry m r x) = mainMemory m.
Proof. by destruct r. Qed.

Lemma wf_tr_update_entry m r x : wf_tr m → wf_tr (update_entry m r x).
Proof.
  unfold wf_tr. destruct r as [t i|i]; simpl.
  - destruct (tlb m), (pageTable m) as [t'|]; try done. intros (l & Hl & Hs).
    destruct (decide (t = t')) as [->|].
    + exists (<[Z.to_nat i := x]> l). rewrite lookup_alter_eq, Hl. split; [done|].
      by rewrite zlen_insert.
    + exists l. by rewrite lookup_alter_ne.
  - destruct (tlb m), (pageTable m); try done. simpl. by rewrite zlen_insert.
Qed.

Lemma wf_update_entry m r x : wf m → wf (update_entry m r x).
Proof.
  intros (Hr & Hm & Ht). split; [by rewrite registers_update_entry|].
  split; [by rewrite mainMemory_update_entry|]. by apply wf_tr_update_entry.
Qed.

Lemma wf_with_registers m f : wf m → wf_regs (f (registers m)) → wf (with_registers f m).
Proof. intros (_ & Hm & Ht) Hr. by split. Qed.

Lemma wf_with_memory m f : wf m → wf_mem (f (mainMemory m)) → wf (with_memory f m).
Proof. intros (Hr & _ & Ht) Hm. by split. Qed.

(** [DelayedLoad]: the pending load arrives, the next one is noted, and [R0]
    is zero again. *)
Definition delayed (nextReg nextValue : Z) (r : list Z) : list Z :=
  let l := default 0 (aget r LoadReg) in
  let v := default 0 (aget r LoadValueReg) in
  <[0%nat := 0]> (<[Z.to_nat LoadValueReg := nextValue]>
    (<[Z.to_nat LoadReg := nextReg]> (<[Z.to_nat l := v]> r))).

Lemma with_registers_with_registers (f g : list Z → list Z) m :
  with_registers f (with_registers g m) = with_registers (λ r, f (g r)) m.
Proof. done. Qed.

Lemma DelayedLoad_Ok m nextReg nextValue :
  zlen (registers m) = NumTotalRegs →
  (∃ l, aget (registers m) LoadReg = Some l ∧ 0 ≤ l < NumTotalRegs) →
  DelayedLoad nextReg nextValue m
  = Ok (tt, with_registers (delayed nextReg nextValue) m).
Proof.
  intros Hlen (l & Hl & Hrange). unfold DelayedLoad, delayed, NumTotalRegs in *.
  mrun by (by apply reg_get).
  destruct (reg_Ok m LoadValueReg) as (v & Hv & Hgv); [rewrite Hlen; done|]. mrun.
  mrun by (apply set_reg_Ok; lia).
  mrun by (apply set_reg_Ok; simpl; rewrite zlen_insert; unfold LoadReg; lia).
  mrun by (apply set_reg_Ok; simpl; rewrite !zlen_insert; unfold LoadValueReg; lia).
  rewrite set_reg_Ok by (simpl; rewrite !zlen_insert; lia).
  rewrite !with_registers_with_registers. unfold with_registers. rewrite Hl, Hgv. done.
Qed.

Lemma wf_regs_delayed r nextReg nextValue :
  zlen r = NumTotalRegs → Forall in_s32 r →
  (∃ l, aget r LoadReg = Some l ∧ 0 ≤ l < NumGPRegs) →
  0 ≤ nextReg < NumGPRegs → in_s32 nextValue → wf_regs (delayed nextReg nextValue r).
Proof.
  intros Hlen Hall (l & Hl & Hrange) Hn Hv. unfold delayed. rewrite Hl. simpl default.
  assert (∃ v, aget r LoadValueReg = Some v ∧ in_s32 v) as (v & Hgv & Hvr).
  { destruct (aget_lt_is_Some r LoadValueReg) as [v E]; [by rewrite Hlen|].
    exists v. split; [done|]. unfold aget in E. simpl in E.
    by eapply Forall_lookup_1 in Hall. }
  rewrite Hgv. simpl default. unfold NumTotalRegs, NumGPRegs, LoadReg, LoadValueReg in *.
  split; [by rewrite !zlen_insert|]. split.
  { repeat apply Forall_insert; try done. unfold in_s32. lia. }
  split.
  - change 0%nat with (Z.to_nat 0). apply aget_insert_eq. rewrite !zlen_insert. lia.
  - exists nextReg. split; [|done]. change 0%nat with (Z.to_nat 0).
    unfold LoadReg. rewrite 2!aget_insert_ne by lia. apply aget_insert_eq.
    rewrite zlen_insert. lia.
Qed.

(** The state in which the kernel's handler starts. *)
Definition trapped (badVAddr : Z) m : Machine K :=
  MkMachine (mainMemory m)
    (delayed 0 0 (<[Z.to_nat BadVAddrReg := badVAddr]> (registers m)))
    (tlb m) (pageTable m) (pageTableSize m) (tables m) SystemMode (kernel m).

Lemma RaiseException_run m which a :
  wf_regs (registers m) → in_s32 a →
  RaiseException ExceptionHandler which a m
  = (ExceptionHandler which ;; setStatus UserMode) (trapped a m).
Proof.
  intros (Hlen & Hall & _ & l & Hl & Hrange) Ha. unfold RaiseException.
  unfold NumTotalRegs, NumGPRegs in *.
  mrun by (apply set_reg_Ok; rewrite Hlen; done).
  mrun by (apply DelayedLoad_Ok; simpl; rewrite ?zlen_insert; [done|];
           exists l; rewrite aget_insert_ne by done; split; [done|unfold NumTotalRegs; lia]).
  by mrun.
Qed.

Lemma wf_trapped m a : wf m → in_s32 a → wf (trapped a m).
Proof.
  intros ((Hlen & Hall & _ & l & Hl & Hrange) & Hm & Ht) Ha.
  split; [|split; [done|exact Ht]].
  apply wf_regs_delayed; try done.
  - by rewrite zlen_insert.
  - by apply Forall_insert.
  - exists l. by rewrite aget_insert_ne.
Qed.

Lemma wp_RaiseException `{!SafeHandler ExceptionHandler} m which a :
  wf m → in_s32 a → wp (RaiseException ExceptionHandler which a) m (λ _ m', wf m').
Proof.
  intros Hwf Ha. unfold wp. rewrite RaiseException_run by (done || apply Hwf).
  change (wp (ExceptionHandler which ;; setStatus UserMode) (trapped a m) (λ _ m', wf m')).
  wp_step. eapply wp_mono; [by apply handler_safe, wf_trapped|].
  intros [] m' Hm'. by apply wp_modify.
Qed.

(** The value of an access of [size] bytes. *)
Definition value_of (size : Z) (bs : list Z) : Z :=
  if size =? 1 then s8 (of_le bs) else if size =? 2 then of_le bs else s32 (of_le bs).

Definition bytes_at m (a n : Z) : list Z := slice (Z.to_nat a) (Z.to_nat n) (mainMemory m).

Lemma mem_read_Ok m a n :
  wf_mem (mainMemory m) → 0 ≤ a → a + Z.of_nat n ≤ MemorySize →
  mem_read a n m = Ok (slice (Z.to_nat a) n (mainMemory m), m).
Proof.
  intros (Hlen & _) Ha Hn. unfold mem_read. mrun. rewrite Hlen.
  replace (_ && _) with true by lia. done.
Qed.

Lemma mem_write_Ok m a bs :
  wf_mem (mainMemory m) → 0 ≤ a → a + zlen bs ≤ MemorySize →
  mem_write a bs m = Ok (tt, with_memory (splice (Z.to_nat a) bs) m).
Proof.
  intros (Hlen & _) Ha Hn. unfold mem_write. mrun. rewrite Hlen.
  replace (_ && _) with true by lia. done.
Qed.

Lemma bytes_at_ok m a n :
  wf_mem (mainMemory m) → 0 ≤ a → 0 ≤ n → a + n ≤ MemorySize →
  length (bytes_at m a n) = Z.to_nat n ∧ Forall byte_ok (bytes_at m a n).
Proof.
  intros (Hlen & Hok) Ha Hn Hb. unfold bytes_at, zlen in *. split; [|by apply Forall_slice].
  apply length_slice. lia.
Qed.

Lemma ReadMem_spec m addr size :
  wf_mem (mainMemory m) → wf_tr m → size = 1 ∨ size = 2 ∨ size = 4 →
  ReadMem big ExceptionHandler addr size m
  = match translation m addr size false with
    | inl x => (RaiseException ExceptionHandler x addr ;; mret None) m
    | inr (r, e, pa) => Ok (Some (value_of size (bytes_at m pa size)),
                            update_entry m r (touched e false))
    end.
Proof.
  intros Hmem Htr Hs. unfold ReadMem. pose proof (translation_bounds m addr size false) as Hb.
  pose proof (Translate_spec m addr size false Htr Hs) as Ht.
  destruct (translation m addr size false) as [x|[[r e] pa]]; mrun; [done|].
  specialize (Hb _ _ _ Hs eq_refl). cbv beta iota.
  assert (wf_mem (mainMemory (update_entry m r (touched e false)))) as Hmem'
    by (by rewrite mainMemory_update_entry).
  destruct (bytes_at_ok m pa size Hmem) as [Hl Hok]; [lia|lia|lia|].
  unfold value_of, bytes_at in *.
  destruct Hs as [-> | [-> | ->]]; cbn [Z.eqb Pos.eqb];
    (mrun by (apply mem_read_Ok; [done|lia|lia])); rewrite !mainMemory_update_entry.
  - destruct big; [|done]. unfold host_load.
    by destruct (slice (Z.to_nat pa) _ _) as [|b0 [|]].
  - by rewrite short_load.
  - by rewrite word_load.
Qed.

(** The bytes an access of [size] bytes stores for a value. *)
Definition stored (size value : Z) : list Z := bytes_le (Z.to_nat size) value.

Lemma WriteMem_spec m addr size value :
  wf_mem (mainMemory m) → wf_tr m → size = 1 ∨ size = 2 ∨ size = 4 →
  WriteMem big ExceptionHandler addr size value m
  = match translation m addr size true with
    | inl x => (RaiseException ExceptionHandler x addr ;; mret false) m
    | inr (r, e, pa) =>
        Ok (true, with_memory (splice (Z.to_nat pa) (stored size value))
                    (update_entry m r (touched e true)))
    end.
Proof.
  intros Hmem Htr Hs. unfold WriteMem. pose proof (translation_bounds m addr size true) as Hb.
  pose proof (Translate_spec m addr size true Htr Hs) as Ht.
  destruct (translation m addr size true) as [x|[[r e] pa]]; mrun; [done|].
  specialize (Hb _ _ _ Hs eq_refl). cbv beta iota.
  assert (wf_mem (mainMemory (update_entry m r (touched e true)))) as Hmem'
    by (by rewrite mainMemory_update_entry).
  unfold stored.
  destruct Hs as [-> | [-> | ->]]; cbn [Z.eqb Pos.eqb].
  - change 255 with (Z.ones 8). rewrite Z.land_ones by done.
    by mrun by (apply mem_write_Ok; [done|lia|unfold zlen; simpl; lia]).
  - change 65535 with (Z.ones 16). rewrite Z.land_ones by done.
    rewrite short_store by (apply Z.mod_pos_bound; done).
    mrun by (apply mem_write_Ok; [done|lia|unfold zlen; rewrite length_bytes_le; lia]).
    change (2 ^ 16) with (256 ^ Z.of_nat 2). by rewrite bytes_le_mod.
  - rewrite word_store by apply u32_range.
    mrun by (apply mem_write_Ok; [done|lia|unfold zlen; rewrite length_bytes_le; lia]).
    unfold u32. change (2 ^ 32) with (256 ^ Z.of_nat 4). by rewrite bytes_le_mod.
Qed.

Lemma value_of_range size bs :
  size = 1 ∨ size = 2 ∨ size = 4 → length bs = Z.to_nat size → Forall byte_ok bs →
  in_s32 (value_of size bs).
Proof.
  intros Hs Hl Hok. pose proof (of_le_range bs Hok) as Hr. unfold zlen in Hr.
  rewrite Hl in Hr. unfold value_of.
  destruct Hs as [-> | [-> | ->]]; cbn [Z.eqb Pos.eqb].
  - pose proof (s8_range (of_le bs)). unfold in_s32. lia.
  - change (256 ^ Z.of_nat (Z.to_nat 2)) with 65536 in Hr. unfold in_s32. lia.
  - apply s32_range.
Qed.

Lemma wp_ReadMem `{!SafeHandler ExceptionHandler} m addr size :
  wf m → in_s32 addr → size = 1 ∨ size = 2 ∨ size = 4 →
  wp (ReadMem big ExceptionHandler addr size) m
     (λ v m', wf m' ∧ match v with Some z => in_s32 z ∧ registers m' = registers m
                                 | None => True end).
Proof.
  intros Hwf Ha Hs. pose proof Hwf as (Hr & Hm & Ht).
  pose proof (translation_bounds m addr size false) as Hb.
  unfold wp. rewrite ReadMem_spec by done.
  destruct (translation m addr size false) as [x|[[r e] pa]].
  - change (wp (RaiseException ExceptionHandler x addr ;; mret None) m
      (λ v m', wf m' ∧ match v with Some z => in_s32 z ∧ registers m' = registers m
                                 | None => True end)).
    wp_step. eapply wp_mono; [by apply wp_RaiseException|]. intros [] m' Hm'.
    by apply wp_ret.
  - specialize (Hb _ _ _ Hs eq_refl). split; [by apply wf_update_entry|].
    rewrite registers_update_entry. split; [|done].
    destruct (bytes_at_ok m pa size Hm) as [Hl Hok]; [lia|lia|lia|].
    by apply value_of_range.
Qed.

Lemma wp_WriteMem `{!SafeHandler ExceptionHandler} m addr size value :
  wf m → in_s32 addr → size = 1 ∨ size = 2 ∨ size = 4 →
  wp (WriteMem big ExceptionHandler addr size value) m
     (λ b m', wf m' ∧ (b = true → registers m' = registers m)).
Proof.
  intros Hwf Ha Hs. pose proof Hwf as (Hr & Hm & Ht).
  pose proof (translation_bounds m addr size true) as Hb.
  unfold wp. rewrite WriteMem_spec by done.
  destruct (translation m addr size true) as [x|[[r e] pa]].
  - change (wp (RaiseException ExceptionHandler x addr ;; mret false) m
      (λ b m', wf m' ∧ (b = true → registers m' = registers m))).
    wp_step. eapply wp_mono; [by apply wp_RaiseException|]. intros [] m' Hm'.
    by apply wp_ret.
  - specialize (Hb _ _ _ Hs eq_refl). split; [|by rewrite <- (registers_update_entry m r (touched e true))].
    apply wf_with_memory; [by apply wf_update_entry|].
    rewrite mainMemory_update_entry. destruct Hm as [Hlen Hok]. unfold stored, zlen in *.
    split.
    + unfold zlen. rewrite length_splice; [done|]. rewrite length_bytes_le. lia.
    + apply Forall_splice; [apply bytes_le_ok|done].
Qed.
End access.

(** ** Properties of translation and memory *)

Section properties.
Context {K : Type} (ExceptionHandler : ExceptionType → M (Machine K) unit).
Implicit Types m : Machine K.

(** C26.  [Translate] through a page table never fails an assertion
    nor reads outside the table.  It raises, in this order, an address error
    for a misaligned or out-of-range address, a page fault for an invalid
    page, a read-only exception for a store to a read-only page, a bus error
    for a frame the machine does not have; otherwise the physical address is
    the frame and the offset, the whole access lies in physical memory, and
    the only change is that the entry is marked used, and dirty by a store.
    (machine/translate.h says of the bit [valid] that the entry is ignored if
    it is set; translate.cc ignores the entries in which it is clear.) *)
Theorem Translate_page_table m t l virtAddr size writing
    (Htlb : tlb m = None) (Hpt : pageTable m = Some t)
    (Hl : tables m !! t = Some l) (Hsz : pageTableSize m = zlen l)
    (Hsize : size = 1 ∨ size = 2 ∨ size = 4) :
  let vpn := u32 virtAddr / PageSize in
  if misaligned virtAddr size
  then Translate virtAddr size writing m = Ok (inl AddressErrorException, m)
  else match aget l vpn with
  | None => Translate virtAddr size writing m = Ok (inl AddressErrorException, m)
  | Some e =>
      if negb (valid e)
      then Translate virtAddr size writing m = Ok (inl PageFaultException, m)
      else if readOnly e && writing
      then Translate virtAddr size writing m = Ok (inl ReadOnlyException, m)
      else if NumPhysPages <=? u32 (physicalPage e)
      then Translate virtAddr size writing m = Ok (inl BusErrorException, m)
      else
        let pa := u32 (physicalPage e) * PageSize + u32 virtAddr mod PageSize in
        Translate virtAddr size writing m
        = Ok (inr pa, with_tables (<[t := <[Z.to_nat vpn := touched e writing]> l]> (tables m)) m)
        ∧ 0 ≤ pa ∧ pa + size ≤ MemorySize
  end.
Proof.
  intros vpn.
  assert (wf_tr m) as Hwf by (unfold wf_tr; rewrite Htlb, Hpt; exists l; split; [done|lia]).
  pose proof (translation_bounds m virtAddr size writing) as Hb.
  rewrite (Translate_spec m virtAddr size writing Hwf Hsize).
  unfold translation, lookup_page in *. rewrite Htlb, Hpt in *. simpl in Hb |- *.
  rewrite Hl in *. fold vpn in Hb |- *. simpl in Hb |- *.
  destruct (misaligned virtAddr size); [done|].
  assert (0 ≤ vpn) as Hvpn by (apply Z.div_pos; [apply u32_range|done]).
  rewrite Hsz in *. destruct (aget l vpn) as [e|] eqn:E.
  - apply aget_Some_lt in E as Hlt. replace (zlen l <=? vpn) with false in * by lia.
    destruct (valid e); [|done]. simpl. destruct (readOnly e && writing); [done|].
    case_match; [done|]. specialize (Hb _ _ _ Hsize eq_refl). split; [|done].
    f_equal. f_equal. f_equal. unfold update_entry. f_equal.
    apply map_eq. intros t'. destruct (decide (t = t')) as [<-|].
    + by rewrite lookup_alter_eq, lookup_insert_eq, Hl.
    + by rewrite lookup_alter_ne, lookup_insert_ne.
  - apply aget_None in E. by replace (zlen l <=? vpn) with true by lia.
Qed.

(** C39.  A TLB whose valid entries agree with a page table
    is a cache of it: an access that hits is translated as the page table
    translates it; one that misses is a page fault, or an address error when
    it is misaligned. *)
Theorem Translate_tlb_agrees m1 m2 t l ptl virtAddr size writing
    (Htlb1 : tlb m1 = Some l) (Hpt1 : pageTable m1 = None) (Hlen : zlen l = TLBSize)
    (Htlb2 : tlb m2 = None) (Hpt2 : pageTable m2 = Some t)
    (Hl2 : tables m2 !! t = Some ptl) (Hsz : pageTableSize m2 = zlen ptl)
    (Hagree : ∀ e, e ∈ l → valid e = true →
       ∃ e', aget ptl (u32 (virtualPage e)) = Some e' ∧ valid e' = true
           ∧ physicalPage e' = physicalPage e ∧ readOnly e' = readOnly e)
    (Hsize : size = 1 ∨ size = 2 ∨ size = 4) :
  ∃ r1 m1', Translate virtAddr size writing m1 = Ok (r1, m1') ∧
    if decide (Exists (tlb_hit (u32 virtAddr / PageSize)) l)
    then ∃ m2', Translate virtAddr size writing m2 = Ok (r1, m2')
    else r1 = inl (if misaligned virtAddr size then AddressErrorException
                   else PageFaultException).
Proof.
  assert (wf_tr m1) as Hwf1 by (unfold wf_tr; by rewrite Htlb1, Hpt1).
  assert (wf_tr m2) as Hwf2
    by (unfold wf_tr; rewrite Htlb2, Hpt2; exists ptl; split; [done|lia]).
  rewrite !Translate_spec by done. unfold translation, lookup_page.
  rewrite Htlb1, Htlb2, Hpt2. simpl. rewrite Hl2. simpl.
  set (vpn := u32 virtAddr / PageSize).
  destruct (misaligned virtAddr size).
  { eexists _, _. split; [done|]. case_decide; [|done]. by eexists. }
  destruct (list_find (tlb_hit vpn) l) as [[i e]|] eqn:E.
  - apply list_find_Some in E as (Hi & [Hv Hvp] & _).
    destruct (Hagree e) as (e' & He' & Hv' & Hp' & Hr'); [by eapply list_elem_of_lookup_2|done|].
    rewrite Hvp in He'. pose proof (aget_Some_lt _ _ _ He').
    replace (pageTableSize m2 <=? vpn) with false by lia.
    rewrite He'. cbn iota beta. rewrite Hv', Hp', Hr'.
    assert (Exists (tlb_hit vpn) l) as Hex.
    { apply list.Exists_exists. exists e. split; [by eapply list_elem_of_lookup_2|done]. }
    destruct (readOnly e && writing);
      [|destruct (NumPhysPages <=? u32 (physicalPage e))];
      (eexists _, _; split; [reflexivity|]; rewrite decide_True by done; by eexists).
  - apply list_find_None in E. eexists _, _. split; [reflexivity|].
    rewrite decide_False; [done|]. intros (e & He & Hh)%list.Exists_exists. rewrite list.Forall_forall in E.
    by apply (E e He).
Qed.

Lemma translation_touched m addr size r e pa :
  translation m addr size true = inr (r, e, pa) →
  ∀ f, translation (with_memory f (update_entry m r (touched e true))) addr size false
       = inr (r, touched e true, pa).
Proof.
  intros Ht f. unfold translation in *. destruct (misaligned addr size); [done|].
  set (vpn := u32 addr / PageSize) in *.
  destruct (lookup_page m vpn) as [|[r' e']] eqn:El; [done|].
  assert (lookup_page (with_memory f (update_entry m r' (touched e' true))) vpn
          = inr (r', touched e' true)) as Hlk.
  { pose proof (lookup_page_entry _ _ _ _ El) as He. unfold lookup_page in *. simpl.
    destruct (tlb m) as [l|] eqn:Etlb.
    - destruct (list_find _ _) as [[i x]|] eqn:Ef; [|done]. injection El as <- <-.
      simpl. rewrite Etlb. simpl. rewrite Nat2Z.id.
      apply list_find_Some in Ef as (Hi & Hh & Hmin).
      assert (list_find (tlb_hit vpn) (<[i := touched x true]> l) = Some (i, touched x true)) as ->.
      { apply list_find_Some. split; [|split].
        - apply list_lookup_insert_eq. by eapply lookup_lt_Some.
        - destruct Hh. by split.
        - intros j y Hj Hlt. rewrite list_lookup_insert_ne in Hj by lia. by eapply Hmin. }
      done.
    - destruct (pageTableSize m <=? vpn) eqn:Esz; [done|].
      destruct (pageTable m) as [t|] eqn:Ept; [|done].
      destruct (entry_of m (InTable t vpn)) as [x|] eqn:Ex; [|done].
      destruct (valid x) eqn:Ev; [|done]. injection El as <- <-.
      simpl in *. rewrite Etlb, Esz, Ept, lookup_alter_eq. simpl.
      destruct (tables m !! t) as [l|] eqn:Etab; [|done]. simpl in *.
      rewrite aget_insert_eq by (by eapply aget_Some_lt). simpl. by rewrite Ev. }
  destruct (readOnly e' && true) eqn:Ero; [done|].
  destruct (NumPhysPages <=? u32 (physicalPage e')) eqn:Ef; [done|].
  injection Ht as <- <- <-. rewrite Hlk. simpl. rewrite Ef, andb_false_r. done.
Qed.

Lemma WriteMem_true big m addr size value m' :
  wf m → size = 1 ∨ size = 2 ∨ size = 4 →
  WriteMem big ExceptionHandler addr size value m = Ok (true, m') →
  ∃ r e pa, translation m addr size true = inr (r, e, pa)
    ∧ m' = with_memory (splice (Z.to_nat pa) (stored size value))
             (update_entry m r (touched e true)).
Proof.
  intros (_ & Hm & Ht) Hs. rewrite WriteMem_spec by done.
  destruct (translation m addr size true) as [x|[[r e] pa]].
  - intros (? & ? & _ & H)%M_bind_Ok. done.
  - intros [= <-]. eauto 10.
Qed.

(** A load after a successful store at the same
    address and of the same size, on a host of either byte order, gives back
    what was stored: the word, its low 16 bits zero-extended, or its low byte
    sign-extended. *)
Theorem WriteMem_ReadMem big m addr size value m'
    (Hwf : wf m) (Hsize : size = 1 ∨ size = 2 ∨ size = 4)
    (Hwrite : WriteMem big ExceptionHandler addr size value m = Ok (true, m')) :
  ∃ m'', ReadMem big ExceptionHandler addr size m'
         = Ok (Some (if size =? 4 then s32 value
                     else if size =? 2 then value mod 65536 else s8 value), m'')
       ∧ registers m'' = registers m ∧ mainMemory m'' = mainMemory m'.
Proof.
  destruct (WriteMem_true _ _ _ _ _ _ Hwf Hsize Hwrite) as (r & e & pa & Ht & ->).
  pose proof (translation_bounds _ _ _ _ _ _ _ Hsize Ht) as Hb.
  pose proof Hwf as (Hr & [Hlen Hok] & Htr).
  assert (length (stored size value) = Z.to_nat size) as Hst by apply length_bytes_le.
  rewrite ReadMem_spec; [| |by apply (wf_tr_update_entry m r (touched e true))|done].
  2: { simpl. rewrite mainMemory_update_entry. split.
       - unfold zlen in *. rewrite length_splice; lia.
       - apply Forall_splice; [apply bytes_le_ok|done]. }
  rewrite (translation_touched _ _ _ _ _ _ Ht). eexists. split; [|split].
  - f_equal. f_equal. f_equal. unfold bytes_at. simpl. rewrite mainMemory_update_entry.
    rewrite <- Hst, slice_splice_eq by (unfold zlen in Hlen; lia).
    unfold value_of, stored. rewrite of_le_bytes_le.
    destruct Hsize as [-> | [-> | ->]]; cbn [Z.eqb Pos.eqb].
    + unfold s8. change (256 ^ Z.of_nat (Z.to_nat 1)) with 256.
      by rewrite Zplus_mod_idemp_l.
    + done.
    + apply s32_u32.
  - by rewrite registers_update_entry; simpl; rewrite registers_update_entry.
  - by rewrite mainMemory_update_entry.
Qed.

(** The bytes of a physical page. *)
Definition frame_bytes m (f : Z) : list Z :=
  slice (Z.to_nat (f * PageSize)) (Z.to_nat PageSize) (mainMemory m).

(** The entries through which the machine translates. *)
Definition entries m : list TranslationEntry :=
  match tlb m with
  | Some l => l
  | None => match pageTable m with
            | Some t => default [] (tables m !! t)
            | None => []
            end
  end.

Lemma lookup_page_in m vpn r e :
  lookup_page m vpn = inr (r, e) → e ∈ entries m ∧ valid e = true.
Proof.
  unfold lookup_page, entries. destruct (tlb m) as [l|].
  - destruct (list_find _ _) as [[i x]|] eqn:E; [|done]. intros [= <- <-].
    apply list_find_Some in E as (Hi & [Hv _] & _). split; [|done].
    by eapply list_elem_of_lookup_2.
  - destruct (pageTableSize m <=? vpn); [done|]. destruct (pageTable m) as [t|]; [|done].
    simpl. destruct (tables m !! t) as [l|]; [|done]. simpl.
    destruct (aget l vpn) as [x|] eqn:E; [|done]. destruct (valid x) eqn:Ev; [|done].
    intros [= <- <-]. split; [|done]. unfold aget in E. case_match; [|done].
    by eapply list_elem_of_lookup_2.
Qed.

(** C14.  Memory protection: a store by a user program changes no physical
    page other than those that a valid, writable entry of its page table (or
    of the TLB) maps; in particular it cannot change a page shared
    copy-on-write, which every table maps read-only. *)
Theorem WriteMem_isolated big m addr size value m'
    (Hwf : wf m) (Hsize : size = 1 ∨ size = 2 ∨ size = 4)
    (Hwrite : WriteMem big ExceptionHandler addr size value m = Ok (true, m')) :
  ∀ f, 0 ≤ f < NumPhysPages →
    (∀ e, e ∈ entries m → valid e = true → readOnly e = false → u32 (physicalPage e) ≠ f) →
    frame_bytes m' f = frame_bytes m f.
Proof.
  intros f Hf Hno.
  destruct (WriteMem_true _ _ _ _ _ _ Hwf Hsize Hwrite) as (r & e & pa & Ht & ->).
  pose proof (translation_bounds _ _ _ _ _ _ _ Hsize Ht) as Hb.
  pose proof Hwf as (_ & [Hlen _] & _).
  unfold translation in Ht. destruct (misaligned addr size) eqn:Hmis; [done|].
  destruct (lookup_page m _) as [|[r' e']] eqn:El; [done|].
  apply lookup_page_in in El as [Hin Hv].
  destruct (readOnly e' && true) eqn:Ero; [done|]. rewrite andb_true_r in Ero.
  destruct (NumPhysPages <=? u32 (physicalPage e')); [done|]. injection Ht as <- <- <-.
  specialize (Hno e' Hin Hv Ero). unfold frame_bytes. simpl.
  rewrite mainMemory_update_entry.
  pose proof (aligned_offset addr size Hsize Hmis) as Hoff.
  pose proof (Z.mod_pos_bound (u32 addr) PageSize eq_refl) as Hmod.
  pose proof (u32_range (physicalPage e')) as Hpr. unfold in_u32 in Hpr.
  assert (length (stored size value) = Z.to_nat size) as Hst by apply length_bytes_le.
  unfold zlen, MemorySize, NumPhysPages, PageSize, SectorSize in *.
  apply slice_splice_ne; rewrite ?Hst; lia.
Qed.

(** The byte order of the host does not show: on a machine whose memory
    is well-formed, a big-endian and a little-endian host run every access
    to memory, loads, stores and traps, alike. *)
Theorem access_endian_independent m addr size value
    (Hmem : wf_mem (mainMemory m)) (Htr : wf_tr m)
    (Hsize : size = 1 ∨ size = 2 ∨ size = 4) :
  ReadMem true ExceptionHandler addr size m = ReadMem false ExceptionHandler addr size m
  ∧ WriteMem true ExceptionHandler addr size value m
    = WriteMem false ExceptionHandler addr size value m
  ∧ CheckEndian true = Ok tt ∧ CheckEndian false = Ok tt.
Proof. by rewrite !ReadMem_spec, !WriteMem_spec. Qed.
End properties.

(** ** A concrete machine *)

(** The registers and the memory of a new machine are well-formed. *)
Lemma wf_regs_init : wf_regs (replicate (Z.to_nat NumTotalRegs) 0).
Proof.
  split; [done|]. split; [|split; [done|]].
  - apply Forall_replicate. unfold in_s32. lia.
  - exists 0. split; [done|]. unfold NumGPRegs. lia.
Qed.

Lemma wf_mem_init : wf_mem (replicate (Z.to_nat MemorySize) 0).
Proof.
  split; [unfold zlen; by rewrite length_replicate|].
  apply Forall_replicate. unfold byte_ok. lia.
Qed.

(** Page 0 in frame 5, page 1 read-only in frame 7, page 2 not valid. *)
Definition demo_table : list TranslationEntry :=
  [TE 0 5 true false false false false;
   TE 1 7 true true false false false;
   TE 2 6 false false false false true].

Definition demo : Machine unit :=
  MkMachine (replicate (Z.to_nat MemorySize) 0) (replicate (Z.to_nat NumTotalRegs) 0)
    None (Some 1%positive) 3 {[1%positive := demo_table]} UserMode tt.

Definition demo_tlb : Machine unit :=
  MkMachine (replicate (Z.to_nat MemorySize) 0) (replicate (Z.to_nat NumTotalRegs) 0)
    (Some [TE 1 7 true true true false false; TE 9 9 false false false false false;
           TE 0 5 true false false false false; TE 0 4 false false false false false])
    None 0 ∅ UserMode tt.

Lemma wf_demo : wf demo.
Proof.
  split; [apply wf_regs_init|]. split; [apply wf_mem_init|].
  exists demo_table. split; [done|]. done.
Qed.

(** A kernel whose handler only returns. *)
Definition null_handler (which : ExceptionType) : M (Machine unit) unit := mret tt.

#[export] Instance null_handler_safe : SafeHandler null_handler.
Proof. intros which m Hm. by apply wp_ret. Qed.

Lemma Translate_page_table_witness :
  ∃ m', Translate 6 2 true demo = Ok (inr 646, m') ∧ 0 ≤ 646 ∧ 646 + 2 ≤ MemorySize.
Proof.
  exists (with_tables (<[1%positive := <[0%nat := TE 0 5 true false true true false]> demo_table]>
            (tables demo)) demo).
  exact (Translate_page_table demo 1%positive demo_table 6 2 true
           eq_refl eq_refl eq_refl eq_refl (or_intror (or_introl eq_refl))).
Defined.

Lemma Translate_tlb_agrees_witness :
  ∃ r1 m1', Translate 6 2 true demo_tlb = Ok (r1, m1')
          ∧ ∃ m2', Translate 6 2 true demo = Ok (r1, m2').
Proof.
  refine (Translate_tlb_agrees demo_tlb demo 1%positive _ demo_table 6 2 true
            eq_refl eq_refl eq_refl eq_refl eq_refl eq_refl eq_refl _
            (or_intror (or_introl eq_refl))).
  intros e He Hv. simpl in He.
  repeat (apply elem_of_cons in He as [->|He];
          [first [discriminate Hv | eexists; split; [reflexivity|]; done]|]).
  by apply elem_of_nil in He.
Defined.

Definition demo_stored : Machine unit :=
  with_memory (splice 640 (stored 4 (-2)))
    (update_entry demo (InTable 1 0) (TE 0 5 true false true true false)).

Lemma demo_write : WriteMem true null_handler 0 4 (-2) demo = Ok (true, demo_stored).
Proof.
  rewrite WriteMem_spec; [|apply wf_mem_init|apply wf_demo|tauto]. reflexivity.
Qed.

Lemma WriteMem_ReadMem_witness :
  ∃ m'', ReadMem true null_handler 0 4 demo_stored = Ok (Some (-2), m'')
       ∧ registers m'' = registers demo ∧ mainMemory m'' = mainMemory demo_stored.
Proof.
  exact (WriteMem_ReadMem null_handler true demo 0 4 (-2) demo_stored
           wf_demo (or_intror (or_intror eq_refl)) demo_write).
Defined.

Lemma WriteMem_isolated_witness : frame_bytes demo_stored 7 = frame_bytes demo 7.
Proof.
  apply (WriteMem_isolated null_handler true demo 0 4 (-2) demo_stored
           wf_demo (or_intror (or_intror eq_refl)) demo_write).
  - unfold NumPhysPages. lia.
  - intros e He Hv Hro. simpl in He.
    repeat (apply elem_of_cons in He as [->|He]; [by vm_compute in Hv, Hro |- *|]).
    by apply elem_of_nil in He.
Defined.

Lemma access_endian_independent_witness :
  ReadMem true null_handler 6 2 demo = ReadMem false null_handler 6 2 demo.
Proof.
  exact (proj1 (access_endian_independent null_handler demo 6 2 0
           wf_mem_init (proj2 (proj2 wf_demo)) (or_intror (or_introl eq_refl)))).
Defined.
