(* ===== verification/Mips.v ===== *)
(** * The MIPS instruction interpreter: machine/mipssim.cc and machine/mipssim.h

    Decoding, the double-word multiplication, and [OneInstruction]: fetch,
    decode, the switch over the opcodes (in groups of cases that fall through
    to the next group as to the next [case]), the delayed load and the advance
    of the program counters. *)
From S2P Require Import Prelude Word Machine.

(** ** Opcodes *)

Definition OP_ADD := 1.
Definition OP_ADDI := 2.
Definition OP_ADDIU := 3.
Definition OP_ADDU := 4.
Definition OP_AND := 5.
Definition OP_ANDI := 6.
Definition OP_BEQ := 7.
Definition OP_BGEZ := 8.
Definition OP_BGEZAL := 9.
Definition OP_BGTZ := 10.
Definition OP_BLEZ := 11.
Definition OP_BLTZ := 12.
Definition OP_BLTZAL := 13.
Definition OP_BNE := 14.
Definition OP_DIV := 16.
Definition OP_DIVU := 17.
Definition OP_J := 18.
Definition OP_JAL := 19.
Definition OP_JALR := 20.
Definition OP_JR := 21.
Definition OP_LB := 22.
Definition OP_LBU := 23.
Definition OP_LH := 24.
Definition OP_LHU := 25.
Definition OP_LUI := 26.
Definition OP_LW := 27.
Definition OP_LWL := 28.
Definition OP_LWR := 29.
Definition OP_MFHI := 31.
Definition OP_MFLO := 32.
Definition OP_MTHI := 34.
Definition OP_MTLO := 35.
Definition OP_MULT := 36.
Definition OP_MULTU := 37.
Definition OP_NOR := 38.
Definition OP_OR := 39.
Definition OP_ORI := 40.
Definition OP_RFE := 41.
Definition OP_SB := 42.
Definition OP_SH := 43.
Definition OP_SLL := 44.
Definition OP_SLLV := 45.
Definition OP_SLT := 46.
Definition OP_SLTI := 47.
Definition OP_SLTIU := 48.
Definition OP_SLTU := 49.
Definition OP_SRA := 50.
Definition OP_SRAV := 51.
Definition OP_SRL := 52.
Definition OP_SRLV := 53.
Definition OP_SUB := 54.
Definition OP_SUBU := 55.
Definition OP_SW := 56.
Definition OP_SWL := 57.
Definition OP_SWR := 58.
Definition OP_XOR := 59.
Definition OP_XORI := 60.
Definition OP_SYSCALL := 61.
Definition OP_UNIMP := 62.
Definition OP_RES := 63.
Definition MaxOpcode := 63.

Definition SPECIAL := 100.
Definition BCOND := 101.

Definition IFMT := 1.
Definition JFMT := 2.
Definition RFMT := 3.

Definition SIGN_BIT := 0x80000000.
Definition R31 := 31.

Definition IndexToAddr (x : Z) : Z := shl32 x 2.

(** ** Tables *)

Definition opTable : list (Z * Z) := [
  (SPECIAL, RFMT); (BCOND, IFMT); (OP_J, JFMT); (OP_JAL, JFMT);
  (OP_BEQ, IFMT); (OP_BNE, IFMT); (OP_BLEZ, IFMT); (OP_BGTZ, IFMT);
  (OP_ADDI, IFMT); (OP_ADDIU, IFMT); (OP_SLTI, IFMT); (OP_SLTIU, IFMT);
  (OP_ANDI, IFMT); (OP_ORI, IFMT); (OP_XORI, IFMT); (OP_LUI, IFMT);
  (OP_UNIMP, IFMT); (OP_UNIMP, IFMT); (OP_UNIMP, IFMT); (OP_UNIMP, IFMT);
  (OP_RES, IFMT); (OP_RES, IFMT); (OP_RES, IFMT); (OP_RES, IFMT);
  (OP_RES, IFMT); (OP_RES, IFMT); (OP_RES, IFMT); (OP_RES, IFMT);
  (OP_RES, IFMT); (OP_RES, IFMT); (OP_RES, IFMT); (OP_RES, IFMT);
  (OP_LB, IFMT); (OP_LH, IFMT); (OP_LWL, IFMT); (OP_LW, IFMT);
  (OP_LBU, IFMT); (OP_LHU, IFMT); (OP_LWR, IFMT); (OP_RES, IFMT);
  (OP_SB, IFMT); (OP_SH, IFMT); (OP_SWL, IFMT); (OP_SW, IFMT);
  (OP_RES, IFMT); (OP_RES, IFMT); (OP_SWR, IFMT); (OP_RES, IFMT);
  (OP_UNIMP, IFMT); (OP_UNIMP, IFMT); (OP_UNIMP, IFMT); (OP_UNIMP, IFMT);
  (OP_RES, IFMT); (OP_RES, IFMT); (OP_RES, IFMT); (OP_RES, IFMT);
  (OP_UNIMP, IFMT); (OP_UNIMP, IFMT); (OP_UNIMP, IFMT); (OP_UNIMP, IFMT);
  (OP_RES, IFMT); (OP_RES, IFMT); (OP_RES, IFMT); (OP_RES, IFMT)].

Definition specialTable : list Z := [
  OP_SLL; OP_RES; OP_SRL; OP_SRA; OP_SLLV; OP_RES; OP_SRLV; OP_SRAV;
  OP_JR; OP_JALR; OP_RES; OP_RES; OP_SYSCALL; OP_UNIMP; OP_RES; OP_RES;
  OP_MFHI; OP_MTHI; OP_MFLO; OP_MTLO; OP_RES; OP_RES; OP_RES; OP_RES;
  OP_MULT; OP_MULTU; OP_DIV; OP_DIVU; OP_RES; OP_RES; OP_RES; OP_RES;
  OP_ADD; OP_ADDU; OP_SUB; OP_SUBU; OP_AND; OP_OR; OP_XOR; OP_NOR;
  OP_RES; OP_RES; OP_SLT; OP_SLTU; OP_RES; OP_RES; OP_RES; OP_RES;
  OP_RES; OP_RES; OP_RES; OP_RES; OP_RES; OP_RES; OP_RES; OP_RES;
  OP_RES; OP_RES; OP_RES; OP_RES; OP_RES; OP_RES; OP_RES; OP_RES].

(** ** Decoding *)

Record Instruction := Instr { opCode : Z; rs : Z; rt : Z; rd : Z; extra : Z }.

(** [value] is the [unsigned int] fetched. *)
Definition Decode (value : Z) : res Instruction :=
  let rs := Z.land (Z.shiftr value 21) 0x1f in
  let rt := Z.land (Z.shiftr value 16) 0x1f in
  let rd := Z.land (Z.shiftr value 11) 0x1f in
  '(opCode, format) ← aread opTable (Z.land (Z.shiftr value 26) 0x3f);
  let extra :=
    if format =? IFMT then
      let extra := Z.land value 0xffff in
      if ctrue (Z.land extra 0x8000) then s32 (Z.lor extra 0xffff0000) else extra
    else if format =? RFMT then Z.land (Z.shiftr value 6) 0x1f
    else Z.land value 0x3ffffff in
  opCode ←
    (if opCode =? SPECIAL then aread specialTable (Z.land value 0x3f)
     else if opCode =? BCOND then
       let i := Z.land value 0x1f0000 in
       Ok (if i =? 0 then OP_BLTZ
           else if i =? 0x10000 then OP_BGEZ
           else if i =? 0x100000 then OP_BLTZAL
           else if i =? 0x110000 then OP_BGEZAL
           else OP_UNIMP)
     else Ok opCode);
  Ok (Instr opCode rs rt rd extra).

(** ** Multiplication *)

(** The loop over the bits of [a]; [a] is an [int], the rest [unsigned int].
    The result is [(hi, lo)]. *)
Fixpoint Mult_loop (n : nat) (a bLo bHi lo hi : Z) : Z * Z :=
  match n with
  | O => (hi, lo)
  | S n' =>
      let '(lo, hi, stop) :=
        if ctrue (Z.land a 1) then
          let lo := u32 (lo + bLo) in
          let hi := if lo <? bLo then u32 (hi + 1) else hi in
          let hi := u32 (hi + bHi) in
          (lo, hi, Z.land (u32 a) 0xfffffffe =? 0)
        else (lo, hi, false) in
      if stop then (hi, lo)
      else
        let bHi := u32 (Z.shiftl bHi 1) in
        let bHi := if ctrue (Z.land bLo 0x80000000) then Z.lor bHi 1 else bHi in
        Mult_loop n' (Z.shiftr a 1) (u32 (Z.shiftl bLo 1)) bHi lo hi
  end.

(** The values of [*hiPtr] and [*loPtr]. *)
Definition Mult (a b : Z) (signedArith : bool) : Z * Z :=
  if (a =? 0) || (b =? 0) then (0, 0)
  else
    let negative := if signedArith then xorb (a <? 0) (b <? 0) else false in
    let a := if signedArith && (a <? 0) then s32 (- a) else a in
    let b := if signedArith && (b <? 0) then s32 (- b) else b in
    let '(hi, lo) := Mult_loop 32 a (u32 b) 0 0 0 in
    if negative then
      let hi := u32 (Z.lnot hi) in
      let lo := u32 (u32 (Z.lnot lo) + 1) in
      let hi := if lo =? 0 then u32 (hi + 1) else hi in
      (s32 hi, s32 lo)
    else (s32 hi, s32 lo).

(** ** Execution *)

Section exec.
Context {K : Type}.
Variable HOST_IS_BIG_ENDIAN : bool.
Variable ExceptionHandler : ExceptionType → M (Machine K) unit.

(** How the switch ends: by [return], or by [break] with the values of
    [pcAfter], [nextLoadReg] and [nextLoadValue]. *)
Inductive outcome := Return | Next (pcAfter nextLoadReg nextLoadValue : Z).

Abbreviation raise e a := (RaiseException ExceptionHandler e a ;; mret Return).
Abbreviation read_mem := (ReadMem HOST_IS_BIG_ENDIAN ExceptionHandler).
Abbreviation write_mem := (WriteMem HOST_IS_BIG_ENDIAN ExceptionHandler).

Definition sign (z : Z) : bool := ctrue (Z.land (u32 z) SIGN_BIT).

(** The branch target [registers[NextPCReg] + IndexToAddr(instr->extra)]. *)
Definition branch_target (i : Instruction) : M (Machine K) Z :=
  n ← reg NextPCReg; mret (add32 n (IndexToAddr (extra i))).

Definition exec_add_and (i : Instruction) (pcAfter : Z)
    (otherwise : M (Machine K) outcome) : M (Machine K) outcome :=
  if opCode i =? OP_ADD then
    a ← reg (rs i); b ← reg (rt i);
    let sum := add32 a b in
    if negb (sign (Z.lxor a b)) && sign (Z.lxor a sum) then raise OverflowException 0
    else set_reg (rd i) sum ;; mret (Next pcAfter 0 0)
  else if opCode i =? OP_ADDI then
    a ← reg (rs i);
    let sum := add32 a (extra i) in
    if negb (sign (Z.lxor a (extra i))) && sign (Z.lxor (extra i) sum)
    then raise OverflowException 0
    else set_reg (rt i) sum ;; mret (Next pcAfter 0 0)
  else if opCode i =? OP_ADDIU then
    a ← reg (rs i); set_reg (rt i) (add32 a (extra i)) ;; mret (Next pcAfter 0 0)
  else if opCode i =? OP_ADDU then
    a ← reg (rs i); b ← reg (rt i);
    set_reg (rd i) (add32 a b) ;; mret (Next pcAfter 0 0)
  else if opCode i =? OP_AND then
    a ← reg (rs i); b ← reg (rt i);
    set_reg (rd i) (Z.land a b) ;; mret (Next pcAfter 0 0)
  else if opCode i =? OP_ANDI then
    a ← reg (rs i);
    set_reg (rt i) (Z.land a (Z.land (extra i) 0xffff)) ;; mret (Next pcAfter 0 0)
  else otherwise.

Definition exec_branch (i : Instruction) (pcAfter : Z)
    (otherwise : M (Machine K) outcome) : M (Machine K) outcome :=
  let link := (n ← reg NextPCReg; set_reg R31 (add32 n 4)) in
  let branch (taken : bool) :=
    (if taken then t ← branch_target i; mret (Next t 0 0)
     else mret (Next pcAfter 0 0)) in
  if opCode i =? OP_BEQ then
    a ← reg (rs i); b ← reg (rt i); branch (a =? b)
  else if opCode i =? OP_BGEZAL then
    link ;; a ← reg (rs i); branch (negb (sign a))
  else if opCode i =? OP_BGEZ then
    a ← reg (rs i); branch (negb (sign a))
  else if opCode i =? OP_BGTZ then
    a ← reg (rs i); branch (0 <? a)
  else if opCode i =? OP_BLEZ then
    a ← reg (rs i); branch (a <=? 0)
  else if opCode i =? OP_BLTZAL then
    link ;; a ← reg (rs i); branch (sign a)
  else if opCode i =? OP_BLTZ then
    a ← reg (rs i); branch (sign a)
  else if opCode i =? OP_BNE then
    a ← reg (rs i); b ← reg (rt i); branch (negb (a =? b))
  else otherwise.

(** [INT_MIN / -1] has no value in C; on the host it stops the simulator. *)
Definition exec_div_jump (i : Instruction) (pcAfter : Z)
    (otherwise : M (Machine K) outcome) : M (Machine K) outcome :=
  let link r := (n ← reg NextPCReg; set_reg r (add32 n 4)) in
  let jump := mret (Next (s32 (Z.lor (Z.land (u32 pcAfter) 0xf0000000)
                                     (IndexToAddr (extra i)))) 0 0) in
  let jump_register := (a ← reg (rs i); mret (Next a 0 0)) in
  if opCode i =? OP_DIV then
    a ← reg (rs i); b ← reg (rt i);
    if b =? 0 then
      set_reg LoReg 0 ;; set_reg HiReg 0 ;; mret (Next pcAfter 0 0)
    else if (a =? - 2 ^ 31) && (b =? -1) then fail DivOverflow
    else
      set_reg LoReg (Z.quot a b) ;; set_reg HiReg (Z.rem a b) ;;
      mret (Next pcAfter 0 0)
  else if opCode i =? OP_DIVU then
    a ← reg (rs i); b ← reg (rt i);
    if u32 b =? 0 then
      set_reg LoReg 0 ;; set_reg HiReg 0 ;; mret (Next pcAfter 0 0)
    else
      set_reg LoReg (s32 (u32 a / u32 b)) ;; set_reg HiReg (s32 (u32 a mod u32 b)) ;;
      mret (Next pcAfter 0 0)
  else if opCode i =? OP_JAL then link R31 ;; jump
  else if opCode i =? OP_J then jump
  else if opCode i =? OP_JALR then link (rd i) ;; jump_register
  else if opCode i =? OP_JR then jump_register
  else otherwise.

(** The effective address [registers[instr->rs] + instr->extra]. *)
Definition address (i : Instruction) : M (Machine K) Z :=
  a ← reg (rs i); mret (add32 a (extra i)).

(** [if (!machine->ReadMem(...)) return;], then the rest with [value]. *)
Definition reading (addr size : Z) (k : Z → M (Machine K) outcome) : M (Machine K) outcome :=
  r ← read_mem addr size;
  match r with None => mret Return | Some value => k value end.

(** The value a partial load merges into: the one still in the delay slot, or
    that of the register. *)
Definition merge_base (i : Instruction) : M (Machine K) Z :=
  l ← reg LoadReg;
  if l =? rt i then reg LoadValueReg else reg (rt i).

Definition exec_load (i : Instruction) (pcAfter : Z)
    (otherwise : M (Machine K) outcome) : M (Machine K) outcome :=
  if (opCode i =? OP_LB) || (opCode i =? OP_LBU) then
    tmp ← address i;
    reading tmp 1 (λ value,
      mret (Next pcAfter (rt i)
        (if ctrue (Z.land value 0x80) && (opCode i =? OP_LB)
         then s32 (Z.lor value 0xffffff00) else Z.land value 0xff)))
  else if (opCode i =? OP_LH) || (opCode i =? OP_LHU) then
    tmp ← address i;
    if ctrue (Z.land tmp 0x1) then raise AddressErrorException tmp
    else reading tmp 2 (λ value,
      mret (Next pcAfter (rt i)
        (if ctrue (Z.land value 0x8000) && (opCode i =? OP_LH)
         then s32 (Z.lor value 0xffff0000) else Z.land value 0xffff)))
  else if opCode i =? OP_LUI then
    set_reg (rt i) (shl32 (extra i) 16) ;; mret (Next pcAfter 0 0)
  else if opCode i =? OP_LW then
    tmp ← address i;
    if ctrue (Z.land tmp 0x3) then raise AddressErrorException tmp
    else reading tmp 4 (λ value, mret (Next pcAfter (rt i) value))
  else if opCode i =? OP_LWL then
    tmp ← address i;
    lift (ASSERT (Z.land tmp 0x3 =? 0)) ;;
    reading tmp 4 (λ value,
      v ← merge_base i;
      mret (Next pcAfter (rt i)
        (if Z.land tmp 0x3 =? 0 then value
         else if Z.land tmp 0x3 =? 1 then Z.lor (Z.land v 0xff) (shl32 value 8)
         else if Z.land tmp 0x3 =? 2 then Z.lor (Z.land v 0xffff) (shl32 value 16)
         else Z.lor (Z.land v 0xffffff) (shl32 value 24))))
  else if opCode i =? OP_LWR then
    tmp ← address i;
    lift (ASSERT (Z.land tmp 0x3 =? 0)) ;;
    reading tmp 4 (λ value,
      v ← merge_base i;
      mret (Next pcAfter (rt i)
        (if Z.land tmp 0x3 =? 0 then
           s32 (Z.lor (Z.land (u32 v) 0xffffff00) (Z.land (Z.shiftr value 24) 0xff))
         else if Z.land tmp 0x3 =? 1 then
           s32 (Z.lor (Z.land (u32 v) 0xffff0000) (Z.land (Z.shiftr value 16) 0xffff))
         else if Z.land tmp 0x3 =? 2 then
           s32 (Z.lor (Z.land (u32 v) 0xff000000) (Z.land (Z.shiftr value 8) 0xffffff))
         else value)))
  else otherwise.

Definition exec_hilo_logic (i : Instruction) (pcAfter : Z)
    (otherwise : M (Machine K) outcome) : M (Machine K) outcome :=
  let copy from to := (v ← reg from; set_reg to v ;; mret (Next pcAfter 0 0)) in
  let mult signed :=
    (a ← reg (rs i); b ← reg (rt i);
     let '(hi, lo) := Mult a b signed in
     set_reg HiReg hi ;; set_reg LoReg lo ;; mret (Next pcAfter 0 0)) in
  if opCode i =? OP_MFHI then copy HiReg (rd i)
  else if opCode i =? OP_MFLO then copy LoReg (rd i)
  else if opCode i =? OP_MTHI then copy (rs i) HiReg
  else if opCode i =? OP_MTLO then copy (rs i) LoReg
  else if opCode i =? OP_MULT then mult true
  else if opCode i =? OP_MULTU then mult false
  else if opCode i =? OP_NOR then
    a ← reg (rs i); b ← reg (rt i);
    set_reg (rd i) (Z.lnot (Z.lor a b)) ;; mret (Next pcAfter 0 0)
  else if opCode i =? OP_OR then
    a ← reg (rs i); b ← reg (rs i);
    set_reg (rd i) (Z.lor a b) ;; mret (Next pcAfter 0 0)
  else if opCode i =? OP_ORI then
    a ← reg (rs i);
    set_reg (rt i) (Z.lor a (Z.land (extra i) 0xffff)) ;; mret (Next pcAfter 0 0)
  else otherwise.

(** The stores of a byte, a half word and a word. *)
Definition exec_store (i : Instruction) (pcAfter : Z)
    (otherwise : M (Machine K) outcome) : M (Machine K) outcome :=
  let store size :=
    (addr ← address i; v ← reg (rt i);
     ok ← write_mem addr size v;
     if (ok : bool) then mret (Next pcAfter 0 0) else mret Return) in
  if opCode i =? OP_SB then store 1
  else if opCode i =? OP_SH then store 2
  else if opCode i =? OP_SW then store 4
  else otherwise.

Definition exec_shift_sub (i : Instruction) (pcAfter : Z)
    (otherwise : M (Machine K) outcome) : M (Machine K) outcome :=
  let set (r v : Z) := set_reg r v ;; mret (Next pcAfter 0 0) in
  if opCode i =? OP_SLL then
    b ← reg (rt i); set (rd i) (shl32 b (extra i))
  else if opCode i =? OP_SLLV then
    b ← reg (rt i); a ← reg (rs i); set (rd i) (shl32 b (Z.land a 0x1f))
  else if opCode i =? OP_SLT then
    a ← reg (rs i); b ← reg (rt i); set (rd i) (if a <? b then 1 else 0)
  else if opCode i =? OP_SLTI then
    a ← reg (rs i); set (rt i) (if a <? extra i then 1 else 0)
  else if opCode i =? OP_SLTIU then
    a ← reg (rs i); set (rt i) (if u32 a <? u32 (extra i) then 1 else 0)
  else if opCode i =? OP_SLTU then
    a ← reg (rs i); b ← reg (rt i); set (rd i) (if u32 a <? u32 b then 1 else 0)
  else if opCode i =? OP_SRA then
    b ← reg (rt i); set (rd i) (Z.shiftr b (extra i))
  else if opCode i =? OP_SRAV then
    b ← reg (rt i); a ← reg (rs i); set (rd i) (Z.shiftr b (Z.land a 0x1f))
  else if opCode i =? OP_SRL then
    tmp ← reg (rt i); set (rd i) (Z.shiftr tmp (extra i))
  else if opCode i =? OP_SRLV then
    tmp ← reg (rt i); a ← reg (rs i); set (rd i) (Z.shiftr tmp (Z.land a 0x1f))
  else if opCode i =? OP_SUB then
    a ← reg (rs i); b ← reg (rt i);
    let diff := sub32 a b in
    if sign (Z.lxor a b) && sign (Z.lxor a diff) then raise OverflowException 0
    else set (rd i) diff
  else if opCode i =? OP_SUBU then
    a ← reg (rs i); b ← reg (rt i); set (rd i) (sub32 a b)
  else otherwise.

(** [SWL] and [SWR]: read the word, merge, and write it back. *)
Definition exec_store_partial (i : Instruction) (pcAfter : Z)
    (otherwise : M (Machine K) outcome) : M (Machine K) outcome :=
  let partial (merge : Z → Z → Z → Z) :=
    (tmp ← address i;
     lift (ASSERT (Z.land tmp 0x3 =? 0)) ;;
     reading (Z.land tmp (Z.lnot 0x3)) 4 (λ value,
       v ← reg (rt i);
       ok ← write_mem (Z.land tmp (Z.lnot 0x3)) 4 (merge (Z.land tmp 0x3) value v);
       if (ok : bool) then mret (Next pcAfter 0 0) else mret Return)) in
  if opCode i =? OP_SWL then
    partial (λ k value v,
      if k =? 0 then v
      else if k =? 1 then
        s32 (Z.lor (Z.land (u32 value) 0xff000000) (Z.land (Z.shiftr v 8) 0xffffff))
      else if k =? 2 then
        s32 (Z.lor (Z.land (u32 value) 0xffff0000) (Z.land (Z.shiftr v 16) 0xffff))
      else
        s32 (Z.lor (Z.land (u32 value) 0xffffff00) (Z.land (Z.shiftr v 24) 0xff)))
  else if opCode i =? OP_SWR then
    partial (λ k value v,
      if k =? 0 then Z.lor (Z.land value 0xffffff) (shl32 v 24)
      else if k =? 1 then Z.lor (Z.land value 0xffff) (shl32 v 16)
      else if k =? 2 then Z.lor (Z.land value 0xff) (shl32 v 8)
      else v)
  else otherwise.

Definition exec_rest (i : Instruction) (pcAfter : Z)
    (otherwise : M (Machine K) outcome) : M (Machine K) outcome :=
  if opCode i =? OP_SYSCALL then raise SyscallException 0
  else if opCode i =? OP_XOR then
    a ← reg (rs i); b ← reg (rt i);
    set_reg (rd i) (Z.lxor a b) ;; mret (Next pcAfter 0 0)
  else if opCode i =? OP_XORI then
    a ← reg (rs i);
    set_reg (rt i) (Z.lxor a (Z.land (extra i) 0xffff)) ;; mret (Next pcAfter 0 0)
  else if (opCode i =? OP_RES) || (opCode i =? OP_UNIMP) then
    raise IllegalInstrException 0
  else otherwise.

(** The whole switch, with its [default]. *)
Definition exec_switch (i : Instruction) (pcAfter : Z)
    (default : M (Machine K) outcome) : M (Machine K) outcome :=
  exec_add_and i pcAfter (exec_branch i pcAfter (exec_div_jump i pcAfter
    (exec_load i pcAfter (exec_hilo_logic i pcAfter (exec_store i pcAfter
      (exec_shift_sub i pcAfter (exec_store_partial i pcAfter
        (exec_rest i pcAfter default)))))))).

Definition exec (i : Instruction) (pcAfter : Z) : M (Machine K) outcome :=
  exec_switch i pcAfter (lift (ASSERT false) ;; mret Return).

(** After the switch: the delayed load, then the program counters. *)
Definition advance (pcAfter nextLoadReg nextLoadValue : Z) : M (Machine K) unit :=
  DelayedLoad nextLoadReg nextLoadValue ;;
  pc ← reg PCReg;
  set_reg PrevPCReg pc ;;
  next ← reg NextPCReg;
  set_reg PCReg next ;;
  set_reg NextPCReg pcAfter.

Definition OneInstruction : M (Machine K) unit :=
  pc ← reg PCReg;
  raw ← read_mem pc 4;
  match raw with
  | None => mret tt
  | Some raw =>
      i ← lift (Decode (u32 raw));
      next ← reg NextPCReg;
      o ← exec i (add32 next 4);
      match o with
      | Return => mret tt
      | Next pcAfter nextLoadReg nextLoadValue =>
          advance pcAfter nextLoadReg nextLoadValue
      end
  end.

(** The loop of [Run], for [n] rounds; [tick] is [interrupt->OneTick()]. *)
Fixpoint Run_loop (tick : M (Machine K) unit) (n : nat) : M (Machine K) unit :=
  match n with
  | O => mret tt
  | S n' => OneInstruction ;; tick ;; Run_loop tick n'
  end.
Definition Run (tick : M (Machine K) unit) (n : nat) : M (Machine K) unit :=
  setStatus UserMode ;; Run_loop tick n.
End exec.

(** ** Decoded instructions *)

(** The opcodes [Decode] can answer. *)
Definition opcode_ok (op : Z) : bool :=
  (1 <=? op) && (op <=? MaxOpcode)
  && negb (bool_decide (op ∈ [15; 30; 33; OP_RFE])).

Definition wf_instr (i : Instruction) : Prop :=
  opcode_ok (opCode i) = true
  ∧ 0 ≤ rs i < NumGPRegs ∧ 0 ≤ rt i < NumGPRegs ∧ 0 ≤ rd i < NumGPRegs
  ∧ in_s32 (extra i)
  ∧ (opCode i ∈ [OP_SLL; OP_SRA; OP_SRL] → 0 ≤ extra i < 32).

Section decode_facts.
Implicit Types (v k : Z).

Lemma land_ones_range v n : 0 ≤ n → 0 ≤ Z.land v (Z.ones n) < 2 ^ n.
Proof.
  intros Hn. rewrite Z.land_ones by done. apply Z.mod_pos_bound.
  by apply Z.pow_pos_nonneg.
Qed.

Lemma aread_in_range {A} (l : list A) (P : A → Prop) k :
  Forall P l → 0 ≤ k < zlen l → ∃ x, aread l k = Ok x ∧ P x.
Proof.
  intros Hall Hk. destruct (aread_total l k Hk) as (x & Hr & Hg). exists x.
  split; [done|]. unfold aget in Hg. case_match; [|done].
  by eapply Forall_lookup_1 in Hall.
Qed.

Definition op_entry_ok (p : Z * Z) : bool :=
  let '(op, format) := p in
  if op =? SPECIAL then format =? RFMT
  else if op =? BCOND then format =? IFMT
  else opcode_ok op && negb (bool_decide (op ∈ [OP_SLL; OP_SRA; OP_SRL])).

Lemma opTable_ok : Forall (λ p, op_entry_ok p = true) opTable.
Proof. apply list.Forall_forall. intros p Hp. by repeat (apply elem_of_cons in Hp as [->|Hp]; [done|]); apply elem_of_nil in Hp. Qed.

Lemma specialTable_ok : Forall (λ op, opcode_ok op = true) specialTable.
Proof. apply list.Forall_forall. intros p Hp. by repeat (apply elem_of_cons in Hp as [->|Hp]; [done|]); apply elem_of_nil in Hp. Qed.

(** [Decode] accepts every word: it answers an opcode the
    switch of [OneInstruction] has a case for, register numbers below 32, and
    an operand that fits an [int] (below 32 for the shifts by a constant). *)
Theorem Decode_total v : ∃ i, Decode v = Ok i ∧ wf_instr i.
Proof.
  unfold Decode.
  pose proof (land_ones_range (Z.shiftr v 21) 5 ltac:(done)) as Hrs.
  pose proof (land_ones_range (Z.shiftr v 16) 5 ltac:(done)) as Hrt.
  pose proof (land_ones_range (Z.shiftr v 11) 5 ltac:(done)) as Hrd.
  pose proof (land_ones_range (Z.shiftr v 6) 5 ltac:(done)) as Hsh.
  pose proof (land_ones_range (Z.shiftr v 26) 6 ltac:(done)) as Hop.
  pose proof (land_ones_range v 6 ltac:(done)) as Hfn.
  pose proof (land_ones_range v 16 ltac:(done)) as Him.
  pose proof (land_ones_range v 26 ltac:(done)) as Hj.
  change (Z.ones 5) with 31 in *. change (Z.ones 6) with 63 in *.
  change (Z.ones 16) with 65535 in *. change (Z.ones 26) with 67108863 in *.
  destruct (aread_in_range opTable _ (Z.land (Z.shiftr v 26) 63) opTable_ok) as ([op fmt] & Hrd1 & Hok).
  { exact Hop. }
  rewrite Hrd1. cbn [mbind res_bind]. set (ext := if fmt =? IFMT then _ else _).
  assert (in_s32 ext) as Hext.
  { subst ext. cbv zeta. unfold in_s32. repeat case_match; try lia. apply s32_range. }
  destruct (aread_in_range specialTable _ (Z.land v 63) specialTable_ok) as (sop & Hrd2 & Hsok).
  { exact Hfn. }
  unfold op_entry_ok in Hok. destruct (op =? SPECIAL) eqn:Esp.
  - rewrite Hrd2. cbn [mbind res_bind]. eexists. split; [reflexivity|].
    repeat (split; [done|]). intros _. subst ext. simpl.
    apply Z.eqb_eq in Hok as ->. simpl. exact Hsh.
  - destruct (op =? BCOND) eqn:Ebc; cbn [mbind res_bind].
    + eexists. split; [reflexivity|]. split; [simpl; by repeat case_match|].
      repeat (split; [done|]). simpl. intros Hin. exfalso. revert Hin. clear.
      repeat case_match; rewrite !elem_of_cons, elem_of_nil;
        unfold OP_BLTZ, OP_BGEZ, OP_BLTZAL, OP_BGEZAL, OP_UNIMP, OP_SLL, OP_SRA, OP_SRL; lia.
    + eexists. split; [reflexivity|]. apply andb_true_iff in Hok as [Hop1 Hop2].
      repeat (split; [done|]). simpl. intros Hin.
      rewrite bool_decide_true in Hop2 by done. done.
Qed.
End decode_facts.

(** ** Multiplication is multiplication *)

Section mult_facts.
Implicit Types (a b lo hi : Z).

(** A double word. *)
Definition dword hi lo : Z := hi * 2 ^ 32 + lo.

Lemma dword_add lo hi bLo bHi :
  in_u32 lo → in_u32 hi → in_u32 bLo → in_u32 bHi →
  let lo' := u32 (lo + bLo) in
  let hi' := u32 ((if lo' <? bLo then u32 (hi + 1) else hi) + bHi) in
  dword hi' lo' mod 2 ^ 64 = (dword hi lo + dword bHi bLo) mod 2 ^ 64.
Proof.
  unfold in_u32, dword, u32. change (2 ^ 32) with 4294967296.
  change (2 ^ 64) with 18446744073709551616. intros H1 H2 H3 H4. cbv zeta.
  case (Z.ltb_spec ((lo + bLo) mod 4294967296) bLo); intros; dlia.
Qed.

Lemma dword_double bLo bHi :
  in_u32 bLo → in_u32 bHi →
  let bHi1 := u32 (Z.shiftl bHi 1) in
  let bHi' := if ctrue (Z.land bLo 0x80000000) then Z.lor bHi1 1 else bHi1 in
  in_u32 bHi' ∧ dword bHi' (u32 (Z.shiftl bLo 1)) mod 2 ^ 64 = (2 * dword bHi bLo) mod 2 ^ 64.
Proof.
  intros H1 H2. cbv zeta. change 0x80000000 with (2 ^ 31).
  rewrite ctrue_land_bit, testbit31_u32 by done.
  assert (Z.lor (u32 (Z.shiftl bHi 1)) 1 = u32 (Z.shiftl bHi 1) + 1) as ->.
  { rewrite Z.lor_comm, Z.shiftl_mul_pow2 by done.
    assert (u32 (bHi * 2 ^ 1) = bHi mod 2 ^ 31 * 2 ^ 1) as ->.
    { unfold u32. change (2 ^ 32) with 4294967296. change (2 ^ 31) with 2147483648.
      change (2 ^ 1) with 2. dlia. }
    rewrite lor_add by done. lia. }
  rewrite !Z.shiftl_mul_pow2 by done. unfold in_u32, dword, u32 in *.
  change (2 ^ 32) with 4294967296 in *. change (2 ^ 31) with 2147483648.
  change (2 ^ 64) with 18446744073709551616. change (2 ^ 1) with 2.
  case (Z.leb_spec 2147483648 bLo); intros; (split; [dlia|dlia]).
Qed.

Lemma mod_pow_succ a (n : nat) :
  a mod 2 ^ Z.of_nat (S n) = a mod 2 + 2 * ((a / 2) mod 2 ^ Z.of_nat n).
Proof.
  rewrite Nat2Z.inj_succ, Z.pow_succ_r by lia. apply Z.rem_mul_r; [done|].
  apply Z.pow_pos_nonneg; lia.
Qed.

Lemma Mult_loop_spec n : ∀ a bLo bHi lo hi,
  (n ≤ 32)%nat → in_u32 bLo → in_u32 bHi → in_u32 lo → in_u32 hi →
  let '(hi', lo') := Mult_loop n a bLo bHi lo hi in
  in_u32 hi' ∧ in_u32 lo' ∧
  dword hi' lo' mod 2 ^ 64
  = (dword hi lo + (a mod 2 ^ Z.of_nat n) * dword bHi bLo) mod 2 ^ 64.
Proof.
  induction n as [|n IH]; intros a bLo bHi lo hi Hn HbL HbH Hl Hh.
  { simpl. rewrite Z.mod_1_r. by rewrite Z.mul_0_l, Z.add_0_r. }
  rewrite mod_pow_succ. cbn [Mult_loop].
  assert (ctrue (Z.land a 1) = (a mod 2 =? 1)) as Hodd.
  { change 1 with (2 ^ 0) at 1. rewrite ctrue_land_bit, Z.bit0_odd by done.
    rewrite Zmod_odd. by destruct (Z.odd a). }
  pose proof (dword_add lo hi bLo bHi Hl Hh HbL HbH) as Hadd. cbv zeta in Hadd.
  pose proof (dword_double bLo bHi HbL HbH) as Hdbl. cbv zeta in Hdbl.
  destruct Hdbl as [HbH' Hdbl]. rewrite Hodd.
  set (lo1 := u32 (lo + bLo)) in *. set (hi1 := u32 (_ + bHi)) in *.
  set (bHi' := if ctrue (Z.land bLo _) then _ else _) in *.
  set (B := dword bHi bLo) in *.
  assert (∀ R, (R + (a / 2) mod 2 ^ Z.of_nat n * dword bHi' (u32 (Z.shiftl bLo 1))) mod 2 ^ 64
            = (R + 2 * ((a / 2) mod 2 ^ Z.of_nat n) * B) mod 2 ^ 64) as Hstep.
  { intros R. rewrite <- Zplus_mod_idemp_r, <- Zmult_mod_idemp_r, Hdbl.
    rewrite Zmult_mod_idemp_r, Zplus_mod_idemp_r. f_equal. lia. }
  case (Z.eqb_spec (a mod 2) 1); intros Ha.
  - destruct (Z.land (u32 a) 4294967294 =? 0) eqn:Hstop.
    + split; [apply u32_range|]. split; [apply u32_range|]. rewrite Hadd. f_equal.
      change 4294967294 with (Z.shiftl (Z.ones 31) 1) in Hstop.
      rewrite land_field in Hstop by done.
      assert (u32 a = 1) as Hu.
      { pose proof (u32_range a) as Hr. unfold in_u32, u32 in *.
        change (2 ^ 32) with 4294967296 in *. change (2 ^ 31) with 2147483648 in *.
        change (2 ^ 1) with 2 in *. dlia. }
      assert (a mod 2 + 2 * ((a / 2) mod 2 ^ Z.of_nat n) = 1) as Hone.
      { rewrite <- mod_pow_succ. rewrite <- (Z.mod_small 1 (2 ^ Z.of_nat (S n))).
        2: { split; [done|]. apply (Z.pow_gt_1 2); lia. }
        rewrite <- Hu. unfold u32.
        replace (2 ^ 32) with (2 ^ Z.of_nat (S n) * 2 ^ (32 - Z.of_nat (S n))).
        2: { rewrite <- Z.pow_add_r by lia. f_equal. lia. }
        symmetry. apply Z.mod_mod_divide. apply Z.divide_factor_l. }
      rewrite Hone. lia.
    + specialize (IH (Z.shiftr a 1) (u32 (Z.shiftl bLo 1)) bHi' lo1 hi1 ltac:(lia)
        (u32_range _) HbH' (u32_range _) (u32_range _)).
      destruct (Mult_loop n _ _ _ _ _) as [h l]. destruct IH as (Hh' & Hl' & IH).
      split; [done|]. split; [done|]. rewrite IH.
      rewrite Z.shiftr_div_pow2 by done. change (2 ^ 1) with 2. rewrite Hstep.
      rewrite <- Zplus_mod_idemp_l, Hadd, Zplus_mod_idemp_l, Ha. f_equal; lia.
  - specialize (IH (Z.shiftr a 1) (u32 (Z.shiftl bLo 1)) bHi' lo hi ltac:(lia)
      (u32_range _) HbH' Hl Hh).
    destruct (Mult_loop n _ _ _ _ _) as [h l]. destruct IH as (Hh' & Hl' & IH).
    split; [done|]. split; [done|]. rewrite IH.
    rewrite Z.shiftr_div_pow2 by done. change (2 ^ 1) with 2. rewrite Hstep.
    assert (a mod 2 = 0) as -> by (pose proof (Z.mod_pos_bound a 2 eq_refl); lia).
    f_equal; lia.
Qed.

(** On the whole words the loop computes their product as unsigned numbers. *)
Lemma Mult_loop_product a b hi lo :
  Mult_loop 32 a (u32 b) 0 0 0 = (hi, lo) →
  in_u32 hi ∧ in_u32 lo ∧ dword hi lo = u32 a * u32 b.
Proof.
  intros Hrun. pose proof (Mult_loop_spec 32 a (u32 b) 0 0 0 ltac:(lia) (u32_range b)) as H.
  rewrite Hrun in H. destruct H as (Hh & Hl & H); [unfold in_u32; lia..|].
  split; [done|]. split; [done|]. change (2 ^ Z.of_nat 32) with (2 ^ 32) in H.
  fold (u32 a) in H. unfold dword in *. rewrite !Z.mul_0_l, !Z.add_0_l in H.
  pose proof (u32_range a) as Ha. pose proof (u32_range b) as Hb. unfold in_u32 in *.
  change (2 ^ 32) with 4294967296 in *. change (2 ^ 64) with 18446744073709551616 in *.
  rewrite !Z.mod_small in H by nia. done.
Qed.

(** The two's complement of a double word. *)
Lemma dword_neg hi lo :
  in_u32 hi → in_u32 lo →
  let lo' := u32 (u32 (Z.lnot lo) + 1) in
  let hi' := if lo' =? 0 then u32 (u32 (Z.lnot hi) + 1) else u32 (Z.lnot hi) in
  in_u32 hi' ∧ in_u32 lo' ∧ dword hi' lo' = (- dword hi lo) mod 2 ^ 64.
Proof.
  unfold in_u32, dword, u32, Z.lnot. change (2 ^ 32) with 4294967296.
  change (2 ^ 64) with 18446744073709551616. intros H1 H2. cbv zeta.
  case_match eqn:E; (split; [dlia|split; dlia]).
Qed.

Lemma dword_signed hi lo :
  in_u32 hi → in_u32 lo →
  dword (s32 hi) lo
  = if 2 ^ 63 <=? dword hi lo then dword hi lo - 2 ^ 64 else dword hi lo.
Proof.
  intros Hh Hl. rewrite s32_of_u32 by done. unfold in_u32, dword in *.
  change (2 ^ 32) with 4294967296 in *. change (2 ^ 31) with 2147483648.
  change (2 ^ 64) with 18446744073709551616. change (2 ^ 63) with 9223372036854775808.
  repeat case_match; lia.
Qed.

(** The shift-and-add loop of [Mult], with its early exit, its
    sign correction and the wrap of [-INT_MIN], gives the exact 64-bit product:
    of the signed values for [MULT], of the unsigned ones for [MULTU], the
    high word in [*hiPtr] and the low word in [*loPtr]. *)
Theorem Mult_correct a b (Ha : in_s32 a) (Hb : in_s32 b) :
  (let '(hi, lo) := Mult a b true in
   in_s32 hi ∧ in_s32 lo ∧ hi * 2 ^ 32 + u32 lo = a * b) ∧
  (let '(hi, lo) := Mult a b false in
   in_s32 hi ∧ in_s32 lo ∧ u32 hi * 2 ^ 32 + u32 lo = u32 a * u32 b).
Proof.
  unfold Mult. destruct (Z.eqb_spec a 0) as [->|Ha0]; simpl orb.
  { repeat split; unfold in_s32; try lia. }
  destruct (Z.eqb_spec b 0) as [->|Hb0].
  { assert (in_s32 0) by (unfold in_s32; lia).
    split; (split; [done|]; split; [done|]); change (u32 0) with 0; lia. }
  split; cbn [andb].
  - assert (∀ z, in_s32 z → u32 (if z <? 0 then s32 (- z) else z) = Z.abs z) as Habs.
    { intros z Hz. unfold in_s32, u32, s32 in *. change (2 ^ 31) with 2147483648 in *.
      change (2 ^ 32) with 4294967296. case (Z.ltb_spec z 0); intros; dlia. }
    destruct (Mult_loop 32 _ _ 0 0 0) as [hi lo] eqn:Hrun.
    apply Mult_loop_product in Hrun as (Hh & Hl & Hp). rewrite !Habs in Hp by done.
    assert (0 < Z.abs a * Z.abs b ≤ 2 ^ 62) as Hmag.
    { unfold in_s32 in *. change (2 ^ 31) with 2147483648 in *.
      change (2 ^ 62) with (2147483648 * 2147483648). nia. }
    destruct (xorb (a <? 0) (b <? 0)) eqn:Hneg.
    + pose proof (dword_neg hi lo Hh Hl) as (Hh' & Hl' & Hp'). cbv zeta.
      set (lo' := u32 (u32 (Z.lnot lo) + 1)) in *.
      set (hi' := if lo' =? 0 then _ else _) in *.
      split; [apply s32_range|]. split; [apply s32_range|]. rewrite u32_s32, (u32_id lo') by done.
      change (dword (s32 hi') lo' = a * b). rewrite dword_signed by done.
      rewrite Hp', Hp. change (2 ^ 62) with 4611686018427387904 in Hmag.
      change (2 ^ 64) with 18446744073709551616. change (2 ^ 63) with 9223372036854775808.
      assert (a * b = - (Z.abs a * Z.abs b)) as ->.
      { destruct (Z.ltb_spec a 0), (Z.ltb_spec b 0); simpl in Hneg; try done; nia. }
      set (p := Z.abs a * Z.abs b) in *. clearbody p.
      case (Z.leb_spec 9223372036854775808 ((- p) mod 18446744073709551616)); intros; dlia.
    + split; [apply s32_range|]. split; [apply s32_range|]. rewrite u32_s32, (u32_id lo) by done.
      change (dword (s32 hi) lo = a * b). rewrite dword_signed, Hp by done.
      change (2 ^ 62) with 4611686018427387904 in Hmag.
      change (2 ^ 64) with 18446744073709551616. change (2 ^ 63) with 9223372036854775808.
      assert (a * b = Z.abs a * Z.abs b) as ->.
      { destruct (Z.ltb_spec a 0), (Z.ltb_spec b 0); simpl in Hneg; try done; nia. }
      case (Z.leb_spec 9223372036854775808 (Z.abs a * Z.abs b)); intros; lia.
  - destruct (Mult_loop 32 _ _ 0 0 0) as [hi lo] eqn:Hrun.
    apply Mult_loop_product in Hrun as (Hh & Hl & Hp).
    split; [apply s32_range|]. split; [apply s32_range|].
    rewrite !u32_s32, (u32_id lo), (u32_id hi) by done. exact Hp.
Qed.

Lemma Mult_range a b signed :
  in_s32 a → in_s32 b → let '(hi, lo) := Mult a b signed in in_s32 hi ∧ in_s32 lo.
Proof.
  intros Ha Hb. unfold Mult. destruct ((a =? 0) || (b =? 0)).
  { split; unfold in_s32; lia. }
  destruct (Mult_loop _ _ _ _ _ _) as [hi lo].
  destruct (if signed then _ else _); split; apply s32_range.
Qed.
End mult_facts.

(** ** The interpreter is safe *)

(** The invariant between two instructions without what [DelayedLoad]
    restores at the end of each of them: [R0] may hold anything. *)
Definition wf_pre {K} (m : Machine K) : Prop :=
  (zlen (registers m) = NumTotalRegs ∧ Forall in_s32 (registers m)
   ∧ ∃ l, aget (registers m) LoadReg = Some l ∧ 0 ≤ l < NumGPRegs)
  ∧ wf_mem (mainMemory m) ∧ wf_tr m.

Lemma wf_wf_pre {K} (m : Machine K) : wf m → wf_pre m.
Proof. intros ((H1 & H2 & _ & H3) & H). by split. Qed.

(** The operations of the host that have no value in C, or that an assertion
    of the interpreter rules out. *)
Definition unsafe (i : Instruction) (r : list Z) : Prop :=
  ∃ a b, aget r (rs i) = Some a ∧ aget r (rt i) = Some b ∧
    ((opCode i = OP_DIV ∧ a = - 2 ^ 31 ∧ b = -1) ∨
     (opCode i ∈ [OP_LWL; OP_LWR; OP_SWL; OP_SWR] ∧ Z.land (add32 a (extra i)) 3 ≠ 0)).

Section exec_safe.
Context {K : Type} (big : bool) (ExceptionHandler : ExceptionType → M (Machine K) unit).
Context `{!SafeHandler ExceptionHandler}.
Implicit Types m : Machine K.

Definition exec_post (o : outcome) m : Prop :=
  match o with
  | Return => wf m
  | Next pcAfter nextLoadReg nextLoadValue =>
      wf_pre m ∧ in_s32 pcAfter ∧ 0 ≤ nextLoadReg < NumGPRegs ∧ in_s32 nextLoadValue
  end.

Lemma wp_reg m i (Q : Z → Machine K → Prop) :
  wf_pre m → 0 ≤ i < NumTotalRegs →
  (∀ v, aget (registers m) i = Some v → in_s32 v → Q v m) → wp (reg i) m Q.
Proof.
  intros ((Hlen & Hall & _) & _) Hi HQ. rewrite <- Hlen in Hi.
  destruct (reg_Ok m i Hi) as (v & Hr & Hg). unfold wp. rewrite Hr. apply HQ; [done|].
  unfold aget in Hg. case_match; [|done]. by eapply Forall_lookup_1 in Hall.
Qed.

Lemma wf_pre_set m i v :
  wf_pre m → 0 ≤ i < NumTotalRegs → i ≠ LoadReg → in_s32 v →
  wf_pre (with_registers (<[Z.to_nat i := v]>) m).
Proof.
  intros ((Hlen & Hall & l & Hl & Hr) & Hm & Ht) Hi Hne Hv.
  split; [|by split]. simpl. split; [by rewrite zlen_insert|].
  split; [by apply Forall_insert|]. exists l. by rewrite aget_insert_ne by lia.
Qed.

Lemma wp_set_reg m i v (Q : unit → Machine K → Prop) :
  wf_pre m → 0 ≤ i < NumTotalRegs → i ≠ LoadReg → in_s32 v →
  (wf_pre (with_registers (<[Z.to_nat i := v]>) m) →
   Q tt (with_registers (<[Z.to_nat i := v]>) m)) →
  wp (set_reg i v) m Q.
Proof.
  intros Hwf Hi Hne Hv HQ. unfold wp. rewrite set_reg_Ok; [by apply HQ, wf_pre_set|].
  destruct Hwf as ((-> & _) & _). done.
Qed.

Lemma wp_raise m e a (Q : outcome → Machine K → Prop) :
  wf m → in_s32 a → (∀ m', wf m' → Q Return m') →
  wp (RaiseException ExceptionHandler e a ;; mret Return) m Q.
Proof.
  intros Hwf Ha HQ. wp_step. eapply wp_mono; [by apply wp_RaiseException|].
  intros [] m' Hm'. apply wp_ret. by apply HQ.
Qed.

Lemma wp_reading m addr size k :
  wf m → in_s32 addr → size = 1 ∨ size = 2 ∨ size = 4 →
  (∀ v m', wf m' → in_s32 v → registers m' = registers m → wp (k v) m' exec_post) →
  wp (reading big ExceptionHandler addr size k) m exec_post.
Proof.
  intros Hwf Ha Hs Hk. unfold reading. wp_step.
  eapply wp_mono; [by apply wp_ReadMem|]. intros [v|] m' (Hm' & Hv).
  - destruct Hv. by apply Hk.
  - by apply wp_ret.
Qed.

Lemma wp_write m addr size v pcAfter :
  wf m → in_s32 addr → size = 1 ∨ size = 2 ∨ size = 4 → in_s32 pcAfter →
  wp (ok ← WriteMem big ExceptionHandler addr size v;
      if (ok : bool) then mret (Next pcAfter 0 0) else mret Return) m exec_post.
Proof.
  intros Hwf Ha Hs Hpc. wp_step. eapply wp_mono; [by apply wp_WriteMem|].
  intros [] m' [Hm' _]; apply wp_ret; [|done].
  split; [by apply wf_wf_pre|]. unfold NumGPRegs, in_s32 in *. lia.
Qed.

Lemma exec_post_next m pcAfter :
  wf_pre m → in_s32 pcAfter → exec_post (Next pcAfter 0 0) m.
Proof. intros. split; [done|]. unfold NumGPRegs, in_s32 in *. lia. Qed.

End exec_safe.

Ltac reg_range :=
  unfold NumTotalRegs, NumGPRegs, HiReg, LoReg, PCReg, NextPCReg, PrevPCReg,
    LoadReg, LoadValueReg, R31 in *; lia.

(** One step of an instruction: the rules above, with the side conditions. *)
Ltac exec_step :=
  lazymatch goal with
  | |- wp (if ?b then _ else _) _ _ => destruct b eqn:?
  | |- wp (RaiseException _ _ _ ≫= _) _ _ =>
      apply wp_raise; [apply _|done|by eauto with s32|by intros ? ?]
  | |- wp (reading _ _ _ _ _) _ _ =>
      apply wp_reading; [apply _|done|by eauto with s32|by auto|intros ? ? ? ? ?]
  | |- wp (WriteMem _ _ _ _ _ ≫= _) _ _ =>
      apply wp_write; [apply _|done|by eauto with s32|by auto|by eauto with s32]
  | |- wp (_ ≫= _) _ _ => apply wp_bind
  | |- wp (mret (Next _ 0 0)) _ exec_post =>
      apply wp_ret, exec_post_next; [by auto using wf_wf_pre|by eauto with s32]
  | |- wp (mret _) _ _ => apply wp_ret
  | |- wp (reg _) _ _ => apply wp_reg; [by auto using wf_wf_pre|reg_range|intros ? ? ?]
  | |- wp (set_reg _ _) _ _ =>
      apply wp_set_reg;
        [by auto using wf_wf_pre|reg_range|reg_range|by eauto 6 with s32|intros ?]
  end.
Ltac exec_steps := repeat (exec_step; cbn beta iota).

Section exec_safe_groups.
Context {K : Type} (big : bool) (ExceptionHandler : ExceptionType → M (Machine K) unit).
Context `{!SafeHandler ExceptionHandler}.
Context (i : Instruction) (pcAfter : Z) (m : Machine K) (otherwise : M (Machine K) outcome).
Hypothesis (Hwf : wf m) (Hi : wf_instr i) (Hpc : in_s32 pcAfter).
Hypothesis Hother : wp otherwise m exec_post.

Lemma wp_exec_add_and : wp (exec_add_and ExceptionHandler i pcAfter otherwise) m exec_post.
Proof.
  destruct Hi as (_ & ? & ? & ? & ? & _). unfold exec_add_and. cbv zeta. by exec_steps.
Qed.

Lemma wp_exec_branch : wp (exec_branch i pcAfter otherwise) m exec_post.
Proof.
  destruct Hi as (_ & ? & ? & ? & ? & _). unfold exec_branch, branch_target. cbv zeta.
  by exec_steps.
Qed.

Hypothesis Hsafe : ¬ unsafe i (registers m).

Lemma safe_aligned a :
  opCode i ∈ [OP_LWL; OP_LWR; OP_SWL; OP_SWR] → aget (registers m) (rs i) = Some a →
  (Z.land (add32 a (extra i)) 3 =? 0) = true.
Proof.
  intros Hop Ha. destruct Hi as (_ & _ & Hrt & _).
  destruct (wf_regs_read (registers m) (rt i)) as (b & Hb & _); [apply Hwf|reg_range|].
  case (Z.eqb_spec (Z.land (add32 a (extra i)) 3) 0); [done|]. intros Hne.
  destruct Hsafe. exists a, b. auto.
Qed.

Lemma safe_div a b :
  opCode i = OP_DIV → aget (registers m) (rs i) = Some a → aget (registers m) (rt i) = Some b →
  (a =? - 2 ^ 31) && (b =? -1) = false.
Proof.
  intros Hop Ha Hb. apply not_true_iff_false. intros [Ha1 Hb1]%andb_true_iff.
  destruct Hsafe. exists a, b. split; [done|]. split; [done|]. left. lia.
Qed.

Lemma in_s32_div_u a b : in_s32 (s32 (u32 a / u32 b)) ∧ in_s32 (s32 (u32 a mod u32 b)).
Proof. split; apply s32_range. Qed.

Lemma wp_exec_div_jump : wp (exec_div_jump i pcAfter otherwise) m exec_post.
Proof.
  destruct Hi as (_ & ? & ? & ? & ? & _). unfold exec_div_jump. cbv zeta.
  destruct (opCode i =? OP_DIV) eqn:Eop; [|by exec_steps].
  apply Z.eqb_eq in Eop. do 4 exec_step. exec_step; [by exec_steps|].
  assert (Hs : (v =? - 2 ^ 31) && (v0 =? -1) = false) by (by apply safe_div).
  rewrite Hs. assert (v0 ≠ 0) by lia. assert (¬ (v = - 2 ^ 31 ∧ v0 = -1)) by lia.
  by exec_steps.
Qed.

Lemma wp_address (Q : Z → Machine K → Prop) :
  (∀ a, aget (registers m) (rs i) = Some a → in_s32 a → Q (add32 a (extra i)) m) →
  wp (address i) m Q.
Proof.
  intros HQ. destruct Hi as (_ & ? & _). unfold address. exec_steps. by apply HQ.
Qed.

Lemma exec_post_load (m' : Machine K) v :
  wf m' → in_s32 v → exec_post (Next pcAfter (rt i) v) m'.
Proof.
  intros Hwf' Hv. destruct Hi as (_ & _ & ? & _). split; [by apply wf_wf_pre|]. done.
Qed.

Lemma wp_merge_base (m' : Machine K) (Q : Z → Machine K → Prop) :
  wf m' → (∀ v, in_s32 v → Q v m') → wp (merge_base i) m' Q.
Proof.
  intros Hwf' HQ. destruct Hi as (_ & _ & ? & _). unfold merge_base. exec_steps; by apply HQ.
Qed.

Lemma wp_exec_load : wp (exec_load big ExceptionHandler i pcAfter otherwise) m exec_post.
Proof.
  destruct Hi as (_ & ? & ? & ? & ? & _). unfold exec_load. cbv zeta.
  exec_step.
  { exec_step. apply wp_address. intros a Ha Hra. exec_step. apply wp_ret.
    apply exec_post_load; [done|]. case_match; auto with s32. }
  exec_step.
  { exec_step. apply wp_address. intros a Ha Hra. exec_step; [by exec_step|].
    exec_step. apply wp_ret. apply exec_post_load; [done|]. case_match; auto with s32. }
  exec_step; [by exec_steps|]. exec_step.
  { exec_step. apply wp_address. intros a Ha Hra. exec_step; [by exec_step|].
    exec_step. apply wp_ret. by apply exec_post_load. }
  exec_step.
  { exec_step. apply wp_address. intros a Ha Hra. exec_step.
    apply wp_assert; [apply safe_aligned; [set_solver by lia|done]|].
    exec_step. exec_step. apply wp_merge_base; [done|]. intros w Hw. apply wp_ret.
    apply exec_post_load; [done|]. repeat case_match; auto with s32. }
  exec_step; [|done].
  exec_step. apply wp_address. intros a Ha Hra. exec_step.
  apply wp_assert; [apply safe_aligned; [set_solver by lia|done]|].
  exec_step. exec_step. apply wp_merge_base; [done|]. intros w Hw. apply wp_ret.
  apply exec_post_load; [done|]. repeat case_match; auto with s32.
Qed.

Lemma wp_exec_hilo_logic : wp (exec_hilo_logic i pcAfter otherwise) m exec_post.
Proof.
  destruct Hi as (_ & ? & ? & ? & ? & _). unfold exec_hilo_logic. cbv zeta.
  do 4 (exec_step; [by exec_steps|]).
  assert (∀ signed, wp (a ← reg (rs i); b ← reg (rt i); let '(hi, lo) := Mult a b signed in
     set_reg HiReg hi ;; set_reg LoReg lo ;; mret (Next pcAfter 0 0)) m exec_post) as Hmult.
  { intros signed. do 4 exec_step.
    pose proof (Mult_range v v0 signed ltac:(done) ltac:(done)) as Hr.
    destruct (Mult v v0 signed) as [hi lo]. destruct Hr. by exec_steps. }
  exec_step; [apply Hmult|]. exec_step; [apply Hmult|]. by exec_steps.
Qed.

Lemma wp_exec_store : wp (exec_store big ExceptionHandler i pcAfter otherwise) m exec_post.
Proof.
  destruct Hi as (_ & ? & ? & ? & ? & _). unfold exec_store. cbv zeta.
  do 3 (exec_step; [exec_step; apply wp_address; intros a Ha Hra; by exec_steps|]). done.
Qed.

Lemma wp_exec_shift_sub : wp (exec_shift_sub ExceptionHandler i pcAfter otherwise) m exec_post.
Proof.
  destruct Hi as (_ & ? & ? & ? & ? & Hsh). unfold exec_shift_sub. cbv zeta.
  assert (∀ a, 0 ≤ Z.land a 31).
  { intros a. apply (land_ones_range a 5). done. }
  assert (opCode i = OP_SLL ∨ opCode i = OP_SRA ∨ opCode i = OP_SRL → 0 ≤ extra i) as Hsh'.
  { intros Hop. apply Hsh. set_solver. }
  exec_step; [by exec_steps|]. exec_step; [by exec_steps|].
  do 4 (exec_step; [exec_steps; case_match; auto with s32; by exec_steps|]).
  exec_step.
  { assert (0 ≤ extra i) by (apply Hsh'; lia). by exec_steps. }
  exec_step; [by exec_steps|]. exec_step.
  { assert (0 ≤ extra i) by (apply Hsh'; lia). by exec_steps. }
  by exec_steps.
Qed.

Lemma wp_exec_store_partial :
  wp (exec_store_partial big ExceptionHandler i pcAfter otherwise) m exec_post.
Proof.
  destruct Hi as (_ & ? & ? & ? & ? & _). unfold exec_store_partial. cbv zeta.
  assert (∀ a, in_s32 (Z.land (add32 a (extra i)) (Z.lnot 3))).
  { intros a. apply in_s32_land; [apply s32_range|]. change (Z.lnot 3) with (-4). unfold in_s32. lia. }
  do 2 (exec_step;
    [exec_step; apply wp_address; intros a Ha Hra; exec_step;
     apply wp_assert; [apply safe_aligned; [set_solver by lia|done]|];
     by exec_steps|]).
  done.
Qed.

Lemma wp_exec_rest : wp (exec_rest ExceptionHandler i pcAfter otherwise) m exec_post.
Proof.
  destruct Hi as (_ & ? & ? & ? & ? & _). unfold exec_rest. cbv zeta. by exec_steps.
Qed.
End exec_safe_groups.

(** Selects the case of the switch when the opcode is a constant. *)
Ltac switch_case :=
  lazy beta iota zeta delta [
    exec_switch exec_add_and exec_branch exec_div_jump exec_load exec_hilo_logic
    exec_store exec_shift_sub exec_store_partial exec_rest opCode rs rt rd extra
    Z.eqb Pos.eqb orb
    OP_ADD OP_ADDI OP_ADDIU OP_ADDU OP_AND OP_ANDI OP_BEQ OP_BGEZ OP_BGEZAL OP_BGTZ
    OP_BLEZ OP_BLTZ OP_BLTZAL OP_BNE OP_DIV OP_DIVU OP_J OP_JAL OP_JALR OP_JR OP_LB OP_LBU
    OP_LH OP_LHU OP_LUI OP_LW OP_LWL OP_LWR OP_MFHI OP_MFLO OP_MTHI OP_MTLO OP_MULT
    OP_MULTU OP_NOR OP_OR OP_ORI OP_SB OP_SH OP_SLL OP_SLLV OP_SLT OP_SLTI OP_SLTIU
    OP_SLTU OP_SRA OP_SRAV OP_SRL OP_SRLV OP_SUB OP_SUBU OP_SW OP_SWL OP_SWR OP_XOR
    OP_XORI OP_SYSCALL OP_UNIMP OP_RES].

Section one_instruction.
Context {K : Type} (big : bool) (ExceptionHandler : ExceptionType → M (Machine K) unit).
Implicit Types m : Machine K.

(** Case analysis on the opcodes. *)
Lemma opcode_ok_in op : opcode_ok op = true → op ∈ seqZ 1 63.
Proof.
  unfold opcode_ok, MaxOpcode. intros H. apply elem_of_seqZ.
  apply andb_true_iff in H as [H _]. lia.
Qed.

(** The [default] case of the switch is not reached. *)
Lemma exec_switch_default i pcAfter d1 d2 :
  opcode_ok (opCode i) = true →
  exec_switch big ExceptionHandler i pcAfter d1 = exec_switch big ExceptionHandler i pcAfter d2.
Proof.
  intros Hok. pose proof (opcode_ok_in _ Hok) as Hin.
  destruct i as [op rs rt rd ext]. simpl in Hok, Hin.
  let l := eval vm_compute in (seqZ 1 63) in change (seqZ 1 63) with l in Hin.
  repeat (apply elem_of_cons in Hin as [->|Hin];
          [first [switch_case; reflexivity | by vm_compute in Hok]|]).
  exfalso. by apply elem_of_nil in Hin.
Qed.

Lemma wp_exec `{!SafeHandler ExceptionHandler} i pcAfter m :
  wf m → wf_instr i → in_s32 pcAfter → ¬ unsafe i (registers m) →
  wp (exec big ExceptionHandler i pcAfter) m exec_post.
Proof.
  intros Hwf Hi Hpc Hsafe. unfold exec.
  rewrite (exec_switch_default i pcAfter _ (mret Return)) by apply Hi. unfold exec_switch.
  apply wp_exec_add_and; try done. apply wp_exec_branch; try done.
  apply wp_exec_div_jump; try done. apply wp_exec_load; try done.
  apply wp_exec_hilo_logic; try done. apply wp_exec_store; try done.
  apply wp_exec_shift_sub; try done. apply wp_exec_store_partial; try done.
  apply wp_exec_rest; try done.
Qed.

Lemma wp_advance m pcAfter nextLoadReg nextLoadValue :
  wf_pre m → in_s32 pcAfter → 0 ≤ nextLoadReg < NumGPRegs → in_s32 nextLoadValue →
  wp (advance pcAfter nextLoadReg nextLoadValue) m (λ _ m', wf m').
Proof.
  intros Hwf Hpc Hr Hv. unfold advance. wp_step.
  pose proof Hwf as ((Hlen & Hall & l & Hl & Hlr) & Hm & Ht).
  unfold wp at 1. rewrite DelayedLoad_Ok; [|done|exists l; split; [done|reg_range]].
  assert (wf (with_registers (delayed nextLoadReg nextLoadValue) m)) as Hwf'.
  { split; [|by split]. apply wf_regs_delayed; try done. by exists l. }
  set (m1 := with_registers _ m) in *. clearbody m1.
  assert (∀ i v (m2 : Machine K), wf m2 → 34 ≤ i < 37 → in_s32 v →
            wf (with_registers (<[Z.to_nat i := v]>) m2)) as Hset.
  { intros i v m2 Hm2 Hi Hv2. apply wf_with_registers; [done|].
    apply wf_regs_write; [apply Hm2|reg_range|reg_range|done]. }
  exec_step. exec_step. exec_step.
  apply wp_set_reg; [by auto using wf_wf_pre|reg_range|reg_range|done|intros _].
  assert (Hw1 := Hset PrevPCReg v m1 Hwf' ltac:(reg_range) ltac:(done)).
  exec_step. exec_step. exec_step.
  apply wp_set_reg; [by auto using wf_wf_pre|reg_range|reg_range|done|intros _].
  assert (Hw2 := Hset PCReg v0 _ Hw1 ltac:(reg_range) ltac:(done)).
  apply wp_set_reg; [by auto using wf_wf_pre|reg_range|reg_range|done|intros _].
  apply Hset; [done|reg_range|done].
Qed.

(** C2.  [OneInstruction] keeps the machine well-formed (40
    registers that hold [int]s, [R0] zero, the pending load aimed at a
    register, memory and translation intact) and never stops the simulator,
    whatever word is fetched and whatever the instruction does or traps to;
    except for a [DIV] of the smallest [int] by -1 and for a misaligned [LWL],
    [LWR], [SWL] or [SWR]. *)
Theorem OneInstruction_safe `{!SafeHandler ExceptionHandler} m
    (Hwf : wf m)
    (Hsafe : ∀ pc raw m1 i, aget (registers m) PCReg = Some pc →
       ReadMem big ExceptionHandler pc 4 m = Ok (Some raw, m1) →
       Decode (u32 raw) = Ok i → ¬ unsafe i (registers m)) :
  wp (OneInstruction big ExceptionHandler) m (λ _ m', wf m').
Proof.
  unfold OneInstruction. exec_step. exec_step. exec_step.
  pose proof (wp_ReadMem big ExceptionHandler m v 4 Hwf ltac:(done) ltac:(auto)) as Hrd.
  apply wp_elim in Hrd as (raw & m1 & Hrd & Hwf1 & Hraw).
  unfold wp at 1. rewrite Hrd. destruct raw as [raw|]; [|by apply wp_ret].
  destruct Hraw as [Hraw Hregs]. destruct (Decode_total (u32 raw)) as (i & Hdec & Hi).
  specialize (Hsafe v raw m1 i ltac:(done) Hrd Hdec). rewrite <- Hregs in Hsafe.
  exec_step. apply (wp_lift _ _ _ i); [done|]. exec_step. exec_step. exec_step.
  eapply wp_mono; [apply wp_exec; [done|done|apply s32_range|done]|].
  intros [|pcAfter lr lv] m2 Hpost; [by apply wp_ret|].
  destruct Hpost as (? & ? & ? & ?). by apply wp_advance.
Qed.
End one_instruction.

(** ** What the instructions do *)

(** The register file after an instruction that ends normally: its writes, the
    pending load, the new pending load, and the program counters. *)
Definition retired (writes : list (Z * Z)) (pcAfter nextLoadReg nextLoadValue : Z)
    (r : list Z) : list Z :=
  let r1 := foldl (λ r p, <[Z.to_nat p.1 := p.2]> r) r writes in
  let r2 := delayed nextLoadReg nextLoadValue r1 in
  <[Z.to_nat NextPCReg := pcAfter]>
    (<[Z.to_nat PCReg := default 0 (aget r2 NextPCReg)]>
      (<[Z.to_nat PrevPCReg := default 0 (aget r2 PCReg)]> r2)).

(** What [DelayedLoad] relies on. *)
Definition loadable (r : list Z) : Prop :=
  zlen r = NumTotalRegs ∧ ∃ l, aget r LoadReg = Some l ∧ 0 ≤ l < NumGPRegs.

Lemma wf_loadable r : wf_regs r → loadable r.
Proof. intros (H1 & _ & _ & H2). by split. Qed.

(** The program counters after an instruction that does not write them. *)
Lemma retired_pc writes pcAfter lr lv r next :
  loadable r → aget r NextPCReg = Some next → 0 ≤ lr < NumGPRegs →
  Forall (λ p, 0 ≤ p.1 < 34) writes →
  aget (retired writes pcAfter lr lv r) PCReg = Some next
  ∧ aget (retired writes pcAfter lr lv r) NextPCReg = Some pcAfter.
Proof.
  intros (Hlen & l & Hl & Hlr) Hn Hr Hw. unfold retired.
  set (r1 := foldl _ r writes).
  assert (zlen r1 = NumTotalRegs ∧ aget r1 LoadReg = Some l ∧ aget r1 NextPCReg = Some next)
    as (Hlen1 & Hl1 & Hn1).
  { subst r1. clear Hlr. revert r Hlen Hl Hn.
    induction Hw as [|p ws Hp Hws IH]; intros r Hlen Hl Hn; simpl; [done|].
    apply IH; [by rewrite zlen_insert| |]; rewrite aget_insert_ne by reg_range; done. }
  clearbody r1. set (r2 := delayed lr lv r1).
  assert (zlen r2 = NumTotalRegs) as Hlen2 by (unfold r2, delayed; by rewrite !zlen_insert).
  assert (aget r2 NextPCReg = Some next) as Hn2.
  { unfold r2, delayed. rewrite Hl1. simpl default. change 0%nat with (Z.to_nat 0).
    rewrite !aget_insert_ne by reg_range. done. }
  clearbody r2. rewrite Hn2. simpl default. split.
  - rewrite aget_insert_ne by reg_range. apply aget_insert_eq.
    rewrite zlen_insert, Hlen2. reg_range.
  - apply aget_insert_eq. rewrite !zlen_insert, Hlen2. reg_range.
Qed.

(** A pending load arrives at the end of the next instruction, over whatever
    that instruction writes. *)
Lemma retired_load writes pcAfter lr lv pcAfter0 l v r :
  loadable r → 0 ≤ l < NumGPRegs → 0 < l →
  Forall (λ p, 0 ≤ p.1 < 34) writes →
  aget (retired writes pcAfter lr lv (retired [] pcAfter0 l v r)) l = Some v.
Proof.
  intros (Hlen & l0 & Hl0 & Hlr) Hl Hpos Hw.
  set (r0 := retired [] pcAfter0 l v r).
  assert (zlen r0 = NumTotalRegs ∧ aget r0 LoadReg = Some l ∧ aget r0 LoadValueReg = Some v)
    as (Hlen0 & Hload & Hval).
  { unfold r0, retired, delayed. cbn [foldl]. rewrite Hl0. simpl default.
    change 0%nat with (Z.to_nat 0).
    rewrite !zlen_insert, !(aget_insert_ne _ NextPCReg), !(aget_insert_ne _ PCReg),
      !(aget_insert_ne _ PrevPCReg), !(aget_insert_ne _ 0) by reg_range.
    split; [done|]. split.
    - rewrite (aget_insert_ne _ LoadValueReg) by reg_range. apply aget_insert_eq.
      rewrite zlen_insert. reg_range.
    - apply aget_insert_eq. rewrite !zlen_insert. reg_range. }
  clearbody r0. unfold retired at 1. set (r1 := foldl _ r0 writes).
  assert (zlen r1 = NumTotalRegs ∧ aget r1 LoadReg = Some l ∧ aget r1 LoadValueReg = Some v)
    as (Hlen1 & Hload1 & Hval1).
  { subst r1. revert r0 Hlen0 Hload Hval.
    induction Hw as [|p ws Hp Hws IH]; intros r0 ???; simpl; [done|].
    apply IH; [by rewrite zlen_insert| |]; rewrite aget_insert_ne by reg_range; done. }
  clearbody r1. rewrite !(aget_insert_ne _ NextPCReg), !(aget_insert_ne _ PCReg),
    !(aget_insert_ne _ PrevPCReg) by reg_range.
  unfold delayed. rewrite Hload1, Hval1. simpl default. change 0%nat with (Z.to_nat 0).
  rewrite !(aget_insert_ne _ 0), !(aget_insert_ne _ LoadValueReg),
    !(aget_insert_ne _ LoadReg) by reg_range.
  apply aget_insert_eq. rewrite Hlen1. reg_range.
Qed.

(** [i] is the instruction the machine executes next; [m1] is the machine once
    it is fetched (the page is marked used). *)
Definition fetches {K} (big : bool) (h : ExceptionType → M (Machine K) unit)
    (m : Machine K) (i : Instruction) (m1 : Machine K) : Prop :=
  ∃ pc raw, aget (registers m) PCReg = Some pc
    ∧ ReadMem big h pc 4 m = Ok (Some raw, m1) ∧ Decode (u32 raw) = Ok i.

Section functional.
Context {K : Type} (big : bool) (ExceptionHandler : ExceptionType → M (Machine K) unit).
Implicit Types m : Machine K.

(** A successful load from memory changes no register, and not the invariant. *)
Lemma ReadMem_keeps m addr size v m1 :
  wf m → size = 1 ∨ size = 2 ∨ size = 4 →
  ReadMem big ExceptionHandler addr size m = Ok (Some v, m1) →
  wf m1 ∧ registers m1 = registers m ∧ mainMemory m1 = mainMemory m ∧ in_s32 v.
Proof.
  intros Hwf Hs. pose proof Hwf as (Hr & Hm & Ht).
  pose proof (translation_bounds m addr size false) as Hb.
  rewrite ReadMem_spec by done. destruct (translation m addr size false) as [x|[[r e] pa]].
  { intros (? & ? & _ & H)%M_bind_Ok. done. }
  specialize (Hb _ _ _ Hs eq_refl). intros [= <- <-].
  split; [by apply wf_update_entry|]. split; [apply registers_update_entry|].
  split; [apply mainMemory_update_entry|].
  destruct (bytes_at_ok m pa size Hm) as [Hl Hok]; [lia|lia|lia|]. by apply value_of_range.
Qed.

Lemma fetches_keeps m i m1 :
  wf m → fetches big ExceptionHandler m i m1 →
  wf m1 ∧ registers m1 = registers m ∧ mainMemory m1 = mainMemory m ∧ wf_instr i.
Proof.
  intros Hwf (pc & raw & Hpc & Hrd & Hdec).
  destruct (ReadMem_keeps m pc 4 raw m1 Hwf ltac:(auto) Hrd) as (? & ? & ? & _).
  split; [done|]. split; [done|]. split; [done|].
  destruct (Decode_total (u32 raw)) as (i' & Hi & Hok). rewrite Hdec in Hi. by injection Hi as <-.
Qed.

(** From a fetched instruction to the end of [OneInstruction]. *)
Lemma OneInstruction_fetched m i m1 next :
  fetches big ExceptionHandler m i m1 → aget (registers m1) NextPCReg = Some next →
  OneInstruction big ExceptionHandler m
  = (o ← exec big ExceptionHandler i (add32 next 4);
     match o with
     | Return => mret tt
     | Next pcAfter lr lv => advance pcAfter lr lv
     end) m1.
Proof.
  intros (pc & raw & Hpc & Hrd & Hdec) Hn. unfold OneInstruction.
  mrun by (by apply reg_get). mrun. cbv beta iota. rewrite Hdec. mrun.
  by mrun by (by apply reg_get).
Qed.

(** The effect of [advance] on a machine whose instruction made some writes. *)
Lemma advance_Ok m pcAfter lr lv writes :
  loadable (registers m) → Forall (λ p, 0 ≤ p.1 < NumTotalRegs ∧ p.1 ≠ LoadReg) writes →
  advance pcAfter lr lv
    (with_registers (λ r, foldl (λ r p, <[Z.to_nat p.1 := p.2]> r) r writes) m)
  = Ok (tt, with_registers (retired writes pcAfter lr lv) m).
Proof.
  intros (Hlen & l & Hl & Hlr) Hw.
  assert (∀ r : list Z, zlen r = NumTotalRegs → aget r LoadReg = Some l →
    zlen (foldl (λ r p, <[Z.to_nat p.1 := p.2]> r) r writes) = NumTotalRegs
    ∧ aget (foldl (λ r p, <[Z.to_nat p.1 := p.2]> r) r writes) LoadReg = Some l) as Hfold.
  { induction Hw as [|p ws [Hp1 Hp2] Hws IH]; intros r Hr1 Hr2; simpl; [done|].
    apply IH; [by rewrite zlen_insert|]. by rewrite aget_insert_ne by lia. }
  destruct (Hfold (registers m) Hlen Hl) as [Hlen1 Hl1]. clear Hfold.
  unfold advance, retired. set (r1 := foldl _ (registers m) writes) in *.
  mrun by (apply DelayedLoad_Ok; simpl; [done|exists l; split; [done|reg_range]]).
  simpl. fold r1. set (r2 := delayed lr lv r1).
  assert (zlen r2 = NumTotalRegs) as Hlen2 by (unfold r2, delayed; by rewrite !zlen_insert).
  destruct (aget_lt_is_Some r2 PCReg) as [pc Hpc]; [rewrite Hlen2; reg_range|].
  destruct (aget_lt_is_Some r2 NextPCReg) as [next Hnext]; [rewrite Hlen2; reg_range|].
  mrun by (apply reg_get; exact Hpc).
  mrun by (apply set_reg_Ok; simpl; fold r1 r2; rewrite Hlen2; reg_range).
  mrun by (apply reg_get; simpl; fold r1 r2; rewrite aget_insert_ne by reg_range; exact Hnext).
  mrun by (apply set_reg_Ok; simpl; fold r1 r2; rewrite zlen_insert, Hlen2; reg_range).
  rewrite set_reg_Ok by (simpl; fold r1 r2; rewrite !zlen_insert, Hlen2; reg_range).
  unfold with_registers. simpl. fold r1 r2. by rewrite Hpc, Hnext.
Qed.

(** An instruction whose case ends with [break] after some writes. *)
Lemma OneInstruction_retires m i m1 m2 next writes pcAfter lr lv :
  wf m → fetches big ExceptionHandler m i m1 → aget (registers m) NextPCReg = Some next →
  wf m2 → Forall (λ p, 0 ≤ p.1 < NumTotalRegs ∧ p.1 ≠ LoadReg) writes →
  exec big ExceptionHandler i (add32 next 4) m1
  = Ok (Next pcAfter lr lv,
        with_registers (λ r, foldl (λ r p, <[Z.to_nat p.1 := p.2]> r) r writes) m2) →
  OneInstruction big ExceptionHandler m
  = Ok (tt, with_registers (retired writes pcAfter lr lv) m2).
Proof.
  intros Hwf Hf Hn Hwf2 Hw Hexec.
  destruct (fetches_keeps _ _ _ Hwf Hf) as (_ & Hregs & _).
  rewrite (OneInstruction_fetched m i m1 next) by (done || by rewrite Hregs).
  rewrite (M_bind_step _ _ _ _ _ Hexec). apply advance_Ok; [by apply wf_loadable, Hwf2|done].
Qed.
End functional.

(** ** Reference semantics, as the architecture defines the instructions *)

(** The destination and the value of the instructions that only compute, from
    the values [a] of [rs] and [b] of [rt]. *)
Definition alu (i : Instruction) (a b : Z) : option (Z * Z) :=
  let op := opCode i in
  let imm := extra i in
  if op =? OP_ADDU then Some (rd i, s32 (a + b))
  else if op =? OP_ADDIU then Some (rt i, s32 (a + imm))
  else if op =? OP_SUBU then Some (rd i, s32 (a - b))
  else if op =? OP_AND then Some (rd i, Z.land a b)
  else if op =? OP_ANDI then Some (rt i, Z.land a (imm mod 2 ^ 16))
  else if op =? OP_OR then Some (rd i, Z.lor a b)
  else if op =? OP_ORI then Some (rt i, Z.lor a (imm mod 2 ^ 16))
  else if op =? OP_XOR then Some (rd i, Z.lxor a b)
  else if op =? OP_XORI then Some (rt i, Z.lxor a (imm mod 2 ^ 16))
  else if op =? OP_NOR then Some (rd i, - Z.lor a b - 1)
  else if op =? OP_SLT then Some (rd i, Z.b2z (a <? b))
  else if op =? OP_SLTI then Some (rt i, Z.b2z (a <? imm))
  else if op =? OP_SLTU then Some (rd i, Z.b2z (u32 a <? u32 b))
  else if op =? OP_SLTIU then Some (rt i, Z.b2z (u32 a <? u32 imm))
  else if op =? OP_SLL then Some (rd i, s32 (b * 2 ^ imm))
  else if op =? OP_SLLV then Some (rd i, s32 (b * 2 ^ (a mod 32)))
  else if op =? OP_SRA then Some (rd i, b / 2 ^ imm)
  else if op =? OP_SRAV then Some (rd i, b / 2 ^ (a mod 32))
  else if op =? OP_SRL then Some (rd i, s32 (u32 b / 2 ^ imm))
  else if op =? OP_SRLV then Some (rd i, s32 (u32 b / 2 ^ (a mod 32)))
  else if op =? OP_LUI then Some (rt i, s32 (imm * 2 ^ 16))
  else None.

(** What the interpreter computes for the three instructions that differ. *)
Definition alu_actual (i : Instruction) (a b : Z) : option (Z * Z) :=
  let op := opCode i in
  if op =? OP_OR then Some (rd i, a)
  else if op =? OP_SRL then Some (rd i, b / 2 ^ extra i)
  else if op =? OP_SRLV then Some (rd i, b / 2 ^ (a mod 32))
  else alu i a b.

Section alu_facts.
Context {K : Type} (big : bool) (ExceptionHandler : ExceptionType → M (Machine K) unit).
Implicit Types m : Machine K.

Lemma land_31 a : Z.land a 31 = a mod 32.
Proof. change 31 with (Z.ones 5). by rewrite Z.land_ones. Qed.
Lemma land_ffff a : Z.land a 65535 = a mod 2 ^ 16.
Proof. change 65535 with (Z.ones 16). by rewrite Z.land_ones. Qed.

Lemma exec_alu i pcAfter m a b d v :
  wf m → wf_instr i → aget (registers m) (rs i) = Some a → aget (registers m) (rt i) = Some b →
  alu_actual i a b = Some (d, v) →
  exec big ExceptionHandler i pcAfter m
  = Ok (Next pcAfter 0 0, with_registers (<[Z.to_nat d := v]>) m) ∧ 0 ≤ d < NumGPRegs.
Proof.
  intros Hwf (Hop & Hrs & Hrt & Hrd & Hex & Hsh) Ha Hb.
  assert (zlen (registers m) = NumTotalRegs) as Hlen by apply Hwf.
  assert (∀ d v, 0 ≤ d < NumGPRegs →
    set_reg d v m = Ok (tt, with_registers (<[Z.to_nat d := v]>) m)) as Hset.
  { intros. apply set_reg_Ok. rewrite Hlen. reg_range. }
  assert (Hra := reg_get m _ _ Ha). assert (Hrb := reg_get m _ _ Hb).
  destruct i as [op rs0 rt0 rd0 ext]. simpl in *.
  assert (∀ r v, v = r → Ok (Next pcAfter 0 0, with_registers (<[Z.to_nat d := v]>) m)
     = Ok (Next pcAfter 0 0, with_registers (<[Z.to_nat d := r]>) m)) as Heq by congruence.
  assert (op ∈ [OP_SLL; OP_SRA; OP_SRL] → 0 ≤ ext) as Hsh' by (intros H%Hsh; lia).
  pose proof (Z.mod_pos_bound a 32 eq_refl) as Hmod.
  unfold exec, alu_actual, alu. cbn [opCode rd rt extra].
  repeat match goal with
  | |- context [op =? ?o] => destruct (Z.eqb_spec op o) as [->|?]; [|]
  end; intros [= <- <-]; (split; [|done]); switch_case; repeat (mrun; cbv beta);
    (mrun by (by apply Hset)); apply Heq; unfold add32, sub32, shl32;
    try (assert (0 ≤ ext) by (apply Hsh'; rewrite !elem_of_cons; tauto));
    rewrite ?land_31, ?land_ffff, ?Z.lor_diag, ?Z.shiftl_mul_pow2, ?Z.shiftr_div_pow2 by lia;
    first [done | by case_match | unfold Z.lnot; lia].
Qed.

(** An arithmetic right shift in place of a logical one. *)
Lemma srl_iff b k :
  in_s32 b → 0 ≤ k < 32 → b / 2 ^ k = s32 (u32 b / 2 ^ k) ↔ 0 ≤ b ∨ k = 0.
Proof.
  intros Hb Hk. rewrite u32_of_s32 by done. unfold in_s32 in Hb.
  pose proof (Z.pow_pos_nonneg 2 k ltac:(lia) ltac:(lia)) as Hp.
  case (Z.ltb_spec b 0); intros Hneg.
  - destruct (decide (k = 0)) as [->|Hk0].
    { split; [by auto|]. intros _. rewrite !Z.div_1_r. rewrite <- (s32_id b) at 1 by done.
      apply s32_eq_mod. by rewrite <- (Z_mod_plus_full b 1). }
    split; [|lia]. intros Heq. exfalso.
    assert (2 ≤ 2 ^ k) as H2 by (apply (Z.pow_le_mono_r 2 1 k); lia).
    assert (0 ≤ (b + 2 ^ 32) / 2 ^ k < 2 ^ 31) as Hr.
    { split; [apply Z.div_pos; lia|]. apply Z.div_lt_upper_bound; nia. }
    rewrite s32_id in Heq by (unfold in_s32; lia).
    assert (b / 2 ^ k < 0) by (apply Z.div_lt_upper_bound; lia). lia.
  - split; [by auto|]. intros _. symmetry. apply s32_id.
    rewrite <- Z.shiftr_div_pow2 by lia. apply in_s32_shiftr_r; [done|lia].
Qed.

(** C29.  Every instruction that only computes (add and subtract without
    trap, the logical operations, comparisons, shifts, [LUI]) writes the
    architecture's value to its destination and nothing else, and goes on to
    the next instruction; except [OR], [SRL] and [SRLV]. *)
Theorem alu_correct m m1 i a b d v next
    (Hwf : wf m) (Hfetch : fetches big ExceptionHandler m i m1)
    (Hnext : aget (registers m) NextPCReg = Some next)
    (Ha : aget (registers m) (rs i) = Some a) (Hb : aget (registers m) (rt i) = Some b)
    (Hop : opCode i ∉ [OP_OR; OP_SRL; OP_SRLV]) (Halu : alu i a b = Some (d, v)) :
  OneInstruction big ExceptionHandler m
  = Ok (tt, with_registers (retired [(d, v)] (add32 next 4) 0 0) m1).
Proof.
  destruct (fetches_keeps _ _ _ _ _ Hwf Hfetch) as (Hwf1 & Hregs & _ & Hi).
  rewrite <- Hregs in Ha, Hb.
  destruct (exec_alu i (add32 next 4) m1 a b d v Hwf1 Hi Ha Hb) as [Hex Hd].
  { rewrite !not_elem_of_cons in Hop. unfold alu_actual.
    repeat (case_match; [lia|]). done. }
  eapply OneInstruction_retires; [done|done|done|done| |exact Hex].
  constructor; [|done]. simpl. reg_range.
Qed.

(** [OR] copies [rs] instead of combining it with [rt]; [SRL]
    and [SRLV] shift copies of the sign bit in.  So [OR] is wrong whenever [rt]
    has a bit that [rs] has not, and a logical right shift by [1 .. 31] is
    wrong exactly for the negative values. *)
Theorem alu_wrong m m1 i a b next
    (Hwf : wf m) (Hfetch : fetches big ExceptionHandler m i m1)
    (Hnext : aget (registers m) NextPCReg = Some next)
    (Ha : aget (registers m) (rs i) = Some a) (Hb : aget (registers m) (rt i) = Some b)
    (Hop : opCode i ∈ [OP_OR; OP_SRL; OP_SRLV]) :
  ∃ v w, OneInstruction big ExceptionHandler m
         = Ok (tt, with_registers (retired [(rd i, v)] (add32 next 4) 0 0) m1)
    ∧ alu i a b = Some (rd i, w)
    ∧ (v = w ↔ if opCode i =? OP_OR then Z.lor a b = a
               else 0 ≤ b ∨ (if opCode i =? OP_SRL then extra i else a mod 32) = 0).
Proof.
  destruct (fetches_keeps _ _ _ _ _ Hwf Hfetch) as (Hwf1 & Hregs & _ & Hi).
  rewrite <- Hregs in Ha, Hb.
  assert (∃ v w, alu_actual i a b = Some (rd i, v) ∧ alu i a b = Some (rd i, w)
    ∧ (v = w ↔ if opCode i =? OP_OR then Z.lor a b = a
               else 0 ≤ b ∨ (if opCode i =? OP_SRL then extra i else a mod 32) = 0))
    as (v & w & Hact & Hw & Hiff).
  { destruct (wf_regs_read (registers m1) (rt i)) as (b' & Hb' & Hbr);
      [apply Hwf1|destruct Hi as (_ & _ & ? & _); reg_range|].
    assert (b' = b) as -> by congruence.
    destruct Hi as (_ & _ & _ & _ & _ & Hsh). pose proof (Z.mod_pos_bound a 32 eq_refl).
    rewrite !elem_of_cons, elem_of_nil in Hop. unfold alu_actual, alu.
    destruct Hop as [E|[E|[E|[]]]]; rewrite E in *; cbn [Z.eqb Pos.eqb OP_OR OP_SRL OP_SRLV];
      eexists _, _; (split; [reflexivity|]); (split; [reflexivity|]).
    - split; by intros.
    - apply srl_iff; [done|]. apply Hsh. rewrite !elem_of_cons. tauto.
    - by apply srl_iff. }
  exists v, w. split; [|done].
  destruct (exec_alu i (add32 next 4) m1 a b (rd i) v Hwf1 Hi Ha Hb Hact) as [Hex Hd].
  eapply OneInstruction_retires; [done|done|done|done| |exact Hex].
  constructor; [|done]. simpl. reg_range.
Qed.
End alu_facts.

(** ** Arithmetic that traps, multiplication and division *)

Section arith_facts.
Context {K : Type} (big : bool) (ExceptionHandler : ExceptionType → M (Machine K) unit).
Implicit Types m : Machine K.

Lemma sign_lxor a b :
  in_s32 a → in_s32 b → sign (Z.lxor a b) = xorb (a <? 0) (b <? 0).
Proof.
  intros Ha Hb. unfold sign, SIGN_BIT. change 0x80000000 with (2 ^ 31).
  rewrite ctrue_land_bit, u32_testbit, Z.lxor_spec by done.
  change (31 <? 32) with true. by rewrite andb_true_l, !in_s32_sign.
Qed.

(** The overflow tests of [ADD], [ADDI] and [SUB] are exact. *)
Lemma add_overflow a b :
  in_s32 a → in_s32 b →
  negb (sign (Z.lxor a b)) && sign (Z.lxor a (add32 a b)) = negb (bool_decide (in_s32 (a + b)))
  ∧ negb (sign (Z.lxor a b)) && sign (Z.lxor b (add32 a b)) = negb (bool_decide (in_s32 (a + b))).
Proof.
  intros Ha Hb. rewrite !sign_lxor by (done || apply s32_range).
  assert (∀ x y : bool, (x = true ↔ y = true) → x = y) as Hext by (intros [] []; naive_solver).
  assert (add32 a b = if decide (in_s32 (a + b)) then a + b
                      else if a <? 0 then a + b + 2 ^ 32 else a + b - 2 ^ 32) as ->.
  { unfold add32. case_decide as Hd; [by apply s32_id|]. unfold in_s32, s32 in *.
    change (2 ^ 31) with 2147483648 in *. change (2 ^ 32) with 4294967296.
    case_match; dlia. }
  unfold in_s32 in *. change (2 ^ 31) with 2147483648 in *.
  change (2 ^ 32) with 4294967296.
  case_decide; case_bool_decide; try done;
    destruct (Z.ltb_spec a 0), (Z.ltb_spec b 0); split; simpl; first [apply Hext; lia | case_match; first [done | lia]].
Qed.

Lemma sub_overflow a b :
  in_s32 a → in_s32 b →
  sign (Z.lxor a b) && sign (Z.lxor a (sub32 a b)) = negb (bool_decide (in_s32 (a - b))).
Proof.
  intros Ha Hb. rewrite !sign_lxor by (done || apply s32_range).
  assert (∀ x y : bool, (x = true ↔ y = true) → x = y) as Hext by (intros [] []; naive_solver).
  assert (sub32 a b = if decide (in_s32 (a - b)) then a - b
                      else if a <? 0 then a - b + 2 ^ 32 else a - b - 2 ^ 32) as ->.
  { unfold sub32. case_decide as Hd; [by apply s32_id|]. unfold in_s32, s32 in *.
    change (2 ^ 31) with 2147483648 in *. change (2 ^ 32) with 4294967296.
    case_match; dlia. }
  unfold in_s32 in *. change (2 ^ 31) with 2147483648 in *.
  change (2 ^ 32) with 4294967296.
  case_decide; case_bool_decide; try done;
    destruct (Z.ltb_spec a 0), (Z.ltb_spec b 0); simpl;
    first [apply Hext; lia | case_match; first [done | lia]].
Qed.

(** The destination and the exact result of the instructions that trap on
    overflow. *)
Definition trapping (i : Instruction) (a b : Z) : option (Z * Z) :=
  if opCode i =? OP_ADD then Some (rd i, a + b)
  else if opCode i =? OP_ADDI then Some (rt i, a + extra i)
  else if opCode i =? OP_SUB then Some (rd i, a - b)
  else None.

Lemma raise_fetched m i m1 next e a :
  fetches big ExceptionHandler m i m1 → aget (registers m1) NextPCReg = Some next →
  exec big ExceptionHandler i (add32 next 4) m1
  = (RaiseException ExceptionHandler e a ;; mret Return) m1 →
  OneInstruction big ExceptionHandler m = RaiseException ExceptionHandler e a m1.
Proof.
  intros Hf Hn Hexec. rewrite (OneInstruction_fetched _ _ _ _ _ _ Hf Hn).
  unfold mbind, M_bind in Hexec |- *. rewrite Hexec.
  by destruct (RaiseException ExceptionHandler e a m1) as [[[] ?]|].
Qed.

Lemma exec_trapping i pcAfter m a b d v :
  wf m → wf_instr i → aget (registers m) (rs i) = Some a → aget (registers m) (rt i) = Some b →
  trapping i a b = Some (d, v) →
  0 ≤ d < NumGPRegs ∧
  exec big ExceptionHandler i pcAfter m
  = if decide (in_s32 v)
    then Ok (Next pcAfter 0 0, with_registers (<[Z.to_nat d := v]>) m)
    else (RaiseException ExceptionHandler OverflowException 0 ;; mret Return) m.
Proof.
  intros Hwf (Hop & Hrs & Hrt & Hrd & Hex & Hsh) Ha Hb.
  assert (zlen (registers m) = NumTotalRegs) as Hlen by apply Hwf.
  destruct (wf_regs_read (registers m) (rs i)) as (a' & Ha' & Har); [apply Hwf|reg_range|].
  destruct (wf_regs_read (registers m) (rt i)) as (b' & Hb' & Hbr); [apply Hwf|reg_range|].
  assert (a' = a) as -> by congruence. assert (b' = b) as -> by congruence.
  assert (Hra := reg_get m _ _ Ha). assert (Hrb := reg_get m _ _ Hb).
  destruct (add_overflow a b Har Hbr) as [Hov1 _].
  destruct (add_overflow a (extra i) Har Hex) as [_ Hov2].
  pose proof (sub_overflow a b Har Hbr) as Hov3.
  assert (∀ d v w, 0 ≤ d < NumGPRegs → (in_s32 v → w = v) →
    (if negb (bool_decide (in_s32 v)) then
       (RaiseException ExceptionHandler OverflowException 0 ;; mret Return)
     else set_reg d w ;; mret (Next pcAfter 0 0)) m
    = if decide (in_s32 v)
      then Ok (Next pcAfter 0 0, with_registers (<[Z.to_nat d := v]>) m)
      else (RaiseException ExceptionHandler OverflowException 0 ;; mret Return) m) as Hend.
  { intros d0 v0 w Hd0 Hw. destruct (decide (in_s32 v0)) as [E|E].
    - rewrite bool_decide_true by done. cbn [negb].
      mrun by (apply set_reg_Ok; rewrite Hlen; reg_range). by rewrite (Hw E).
    - by rewrite bool_decide_false by done. }
  destruct i as [op rs0 rt0 rd0 ext]. unfold trapping. cbn [opCode rd rt rs extra] in *.
  unfold exec.
  repeat match goal with
  | |- context [op =? ?o] => destruct (Z.eqb_spec op o) as [->|?]; [|]
  end; intros [= <- <-]; (split; [done|]); switch_case; repeat (mrun; cbv beta).
  - rewrite Hov1. apply Hend; [done|]. intros. by apply s32_id.
  - rewrite Hov2. apply Hend; [done|]. intros. by apply s32_id.
  - rewrite Hov3. apply Hend; [done|]. intros. by apply s32_id.
Qed.

(** C30.  [ADD], [ADDI] and [SUB] trap with an overflow exception
    exactly when the exact result does not fit an [int], and then leave their
    destination alone; otherwise they write the exact result. *)
Theorem overflow_exact m m1 i a b d v next
    (Hwf : wf m) (Hfetch : fetches big ExceptionHandler m i m1)
    (Hnext : aget (registers m) NextPCReg = Some next)
    (Ha : aget (registers m) (rs i) = Some a) (Hb : aget (registers m) (rt i) = Some b)
    (Hop : trapping i a b = Some (d, v)) :
  OneInstruction big ExceptionHandler m
  = if decide (in_s32 v)
    then Ok (tt, with_registers (retired [(d, v)] (add32 next 4) 0 0) m1)
    else RaiseException ExceptionHandler OverflowException 0 m1.
Proof.
  destruct (fetches_keeps _ _ _ _ _ Hwf Hfetch) as (Hwf1 & Hregs & _ & Hi).
  rewrite <- Hregs in Ha, Hb.
  destruct (exec_trapping i (add32 next 4) m1 a b d v Hwf1 Hi Ha Hb Hop) as [Hd Hex].
  case_decide.
  - eapply OneInstruction_retires; [done|done|done|done| |exact Hex].
    constructor; [|done]. simpl. reg_range.
  - eapply raise_fetched; [done|by rewrite Hregs|done].
Qed.

(** C31.  [MULT], [MULTU], [DIV] and [DIVU] leave in [HiReg] and
    [LoReg] the 64-bit product, or the remainder and the quotient (rounded
    towards zero, and both zero for a divisor of zero), of the signed or the
    unsigned values, and change no other general register. *)
Theorem muldiv_correct m m1 i a b next
    (Hwf : wf m) (Hfetch : fetches big ExceptionHandler m i m1)
    (Hnext : aget (registers m) NextPCReg = Some next)
    (Ha : aget (registers m) (rs i) = Some a) (Hb : aget (registers m) (rt i) = Some b)
    (Hop : opCode i ∈ [OP_MULT; OP_MULTU; OP_DIV; OP_DIVU])
    (Hdiv : ¬ (opCode i = OP_DIV ∧ a = - 2 ^ 31 ∧ b = -1)) :
  ∃ hi lo writes, OneInstruction big ExceptionHandler m
      = Ok (tt, with_registers (retired writes (add32 next 4) 0 0) m1)
    ∧ (writes = [(HiReg, hi); (LoReg, lo)] ∨ writes = [(LoReg, lo); (HiReg, hi)])
    ∧ in_s32 hi ∧ in_s32 lo
    ∧ (opCode i = OP_MULT → hi * 2 ^ 32 + u32 lo = a * b)
    ∧ (opCode i = OP_MULTU → u32 hi * 2 ^ 32 + u32 lo = u32 a * u32 b)
    ∧ (opCode i = OP_DIV → (lo, hi) = if b =? 0 then (0, 0) else (Z.quot a b, Z.rem a b))
    ∧ (opCode i = OP_DIVU → (u32 lo, u32 hi)
         = if b =? 0 then (0, 0) else (u32 a / u32 b, u32 a mod u32 b)).
Proof.
  destruct (fetches_keeps _ _ _ _ _ Hwf Hfetch) as (Hwf1 & Hregs & _ & Hi).
  pose proof Hi as (_ & Hrs & Hrt & _).
  destruct (wf_regs_read (registers m) (rs i)) as (a' & Ha' & Har); [apply Hwf|reg_range|].
  destruct (wf_regs_read (registers m) (rt i)) as (b' & Hb' & Hbr); [apply Hwf|reg_range|].
  assert (a' = a) as -> by congruence. assert (b' = b) as -> by congruence.
  rewrite <- Hregs in Ha, Hb.
  assert (Hra := reg_get m1 _ _ Ha). assert (Hrb := reg_get m1 _ _ Hb).
  assert (zlen (registers m1) = NumTotalRegs) as Hlen by apply Hwf1.
  (* from the writes of the case to the instruction *)
  assert (∀ d1 v1 d2 v2, (d1, d2) = (HiReg, LoReg) ∨ (d1, d2) = (LoReg, HiReg) →
    exec big ExceptionHandler i (add32 next 4) m1
    = (set_reg d1 v1 ;; set_reg d2 v2 ;; mret (Next (add32 next 4) 0 0)) m1 →
    OneInstruction big ExceptionHandler m
    = Ok (tt, with_registers (retired [(d1, v1); (d2, v2)] (add32 next 4) 0 0) m1)) as Hend.
  { intros d1 v1 d2 v2 Hd Hex.
    assert (32 ≤ d1 < 34 ∧ 32 ≤ d2 < 34) as [Hd1 Hd2].
    { unfold HiReg, LoReg in Hd. by destruct Hd as [[= -> ->]|[= -> ->]]. }
    eapply OneInstruction_retires; [done|done|done|exact Hwf1| |].
    { repeat constructor; simpl; reg_range. }
    rewrite Hex. mrun by (apply set_reg_Ok; rewrite Hlen; reg_range).
    by mrun by (apply set_reg_Ok; simpl; rewrite zlen_insert, Hlen; reg_range). }
  destruct (Mult_correct a b Har Hbr) as [Hs Hu].
  rewrite !elem_of_cons, elem_of_nil in Hop.
  destruct i as [op rs0 rt0 rd0 ext]. cbn [opCode rs rt rd extra] in *.
  unfold exec in Hend. destruct Hop as [E|[E|[E|[E|[]]]]]; subst op.
  - destruct (Mult a b true) as [hi lo] eqn:Em. destruct Hs as (Hh & Hl & Hp).
    exists hi, lo, [(HiReg, hi); (LoReg, lo)]. split; [|split_and!; by auto].
    apply Hend; [by left|]. switch_case. repeat (mrun; cbv beta). by rewrite Em.
  - destruct (Mult a b false) as [hi lo] eqn:Em. destruct Hu as (Hh & Hl & Hp).
    exists hi, lo, [(HiReg, hi); (LoReg, lo)]. split; [|split_and!; by auto].
    apply Hend; [by left|]. switch_case. repeat (mrun; cbv beta). by rewrite Em.
  - assert (exec big ExceptionHandler (Instr OP_DIV rs0 rt0 rd0 ext) (add32 next 4) m1
      = (if b =? 0 then set_reg LoReg 0 ;; set_reg HiReg 0 ;; mret (Next (add32 next 4) 0 0)
         else if (a =? - 2 ^ 31) && (b =? -1) then fail DivOverflow
         else set_reg LoReg (Z.quot a b) ;; set_reg HiReg (Z.rem a b) ;;
              mret (Next (add32 next 4) 0 0)) m1) as Hex
      by (unfold exec; switch_case; repeat (mrun; cbv beta); reflexivity).
    unfold exec in Hex. case (Z.eqb_spec b 0) in Hex |- *.
    + exists 0, 0, [(LoReg, 0); (HiReg, 0)].
      split; [|split_and!; try done; by auto with s32]. apply Hend; [by right|exact Hex].
    + assert (¬ (a = - 2 ^ 31 ∧ b = -1)) by tauto.
      replace ((a =? - 2 ^ 31) && (b =? -1)) with false in Hex by lia.
      exists (Z.rem a b), (Z.quot a b), [(LoReg, Z.quot a b); (HiReg, Z.rem a b)].
      split; [|split_and!; by auto using in_s32_rem, in_s32_quot].
      apply Hend; [by right|exact Hex].
  - assert (exec big ExceptionHandler (Instr OP_DIVU rs0 rt0 rd0 ext) (add32 next 4) m1
      = (if u32 b =? 0 then set_reg LoReg 0 ;; set_reg HiReg 0 ;; mret (Next (add32 next 4) 0 0)
         else set_reg LoReg (s32 (u32 a / u32 b)) ;; set_reg HiReg (s32 (u32 a mod u32 b)) ;;
              mret (Next (add32 next 4) 0 0)) m1) as Hex
      by (unfold exec; switch_case; repeat (mrun; cbv beta); reflexivity).
    unfold exec in Hex.
    assert (u32 b = 0 ↔ b = 0) as Hub.
    { rewrite u32_of_s32 by done. unfold in_s32 in Hbr. case (Z.ltb_spec b 0); lia. }
    pose proof (u32_range a) as Hua. pose proof (u32_range b) as Hubr. unfold in_u32 in *.
    case (Z.eqb_spec b 0); intros Hb0.
    + replace (u32 b =? 0) with true in Hex by lia.
      exists 0, 0, [(LoReg, 0); (HiReg, 0)].
      split; [|split_and!; try done; by auto with s32]. apply Hend; [by right|exact Hex].
    + replace (u32 b =? 0) with false in Hex by lia. assert (0 < u32 b) as Hpos by lia.
      pose proof (Z.mod_pos_bound (u32 a) (u32 b) Hpos).
      assert (0 ≤ u32 a / u32 b < 2 ^ 32) as Hq.
      { split; [apply Z.div_pos; lia|]. apply Z.div_lt_upper_bound; nia. }
      eexists (s32 (u32 a mod u32 b)), (s32 (u32 a / u32 b)), [(LoReg, _); (HiReg, _)].
      split; [apply Hend; [by right|exact Hex]|].
      split; [by right|split; [apply s32_range|split; [apply s32_range|]]].
      split; [done|]. split; [done|]. split; [done|]. intros _.
      rewrite !u32_s32, (u32_id (u32 a / u32 b)), (u32_id (u32 a mod u32 b)) by (unfold in_u32; lia).
      done.
Qed.
End arith_facts.

(** ** Branches and jumps *)

(** The registers an instruction links into, and the address it goes to after
    its delay slot; [next] is the address of the delay slot, whose region of
    256 megabytes a jump does not leave. *)
Definition control (i : Instruction) (next a b : Z) : option (list (Z * Z) * Z) :=
  let fall := add32 next 4 in
  let target := add32 next (shl32 (extra i) 2) in
  let jump := s32 (Z.lor (Z.land (u32 next) 0xf0000000) (shl32 (extra i) 2)) in
  let op := opCode i in
  if op =? OP_BEQ then Some ([], if a =? b then target else fall)
  else if op =? OP_BNE then Some ([], if a =? b then fall else target)
  else if op =? OP_BGEZ then Some ([], if 0 <=? a then target else fall)
  else if op =? OP_BGTZ then Some ([], if 0 <? a then target else fall)
  else if op =? OP_BLEZ then Some ([], if a <=? 0 then target else fall)
  else if op =? OP_BLTZ then Some ([], if a <? 0 then target else fall)
  else if op =? OP_BGEZAL then Some ([(R31, fall)], if 0 <=? a then target else fall)
  else if op =? OP_BLTZAL then Some ([(R31, fall)], if a <? 0 then target else fall)
  else if op =? OP_J then Some ([], jump)
  else if op =? OP_JAL then Some ([(R31, fall)], jump)
  else if op =? OP_JR then Some ([], a)
  else if op =? OP_JALR then Some ([(rd i, fall)], a)
  else None.

(** A jump whose delay slot is not the last word of a region. *)
Definition in_region (i : Instruction) (next : Z) : Prop :=
  opCode i ∈ [OP_J; OP_JAL] →
  Z.land (u32 next) 0xf0000000 = Z.land (u32 (add32 next 4)) 0xf0000000.

Section control_facts.
Context {K : Type} (big : bool) (ExceptionHandler : ExceptionType → M (Machine K) unit).
Implicit Types m : Machine K.

Lemma sign_spec a : in_s32 a → sign a = (a <? 0).
Proof.
  intros Ha. unfold sign, SIGN_BIT. change 0x80000000 with (2 ^ 31).
  rewrite ctrue_land_bit, u32_testbit by done. change (31 <? 32) with true.
  by rewrite andb_true_l, in_s32_sign.
Qed.

Lemma branch_target_Ok i m next :
  reg NextPCReg m = Ok (next, m) →
  branch_target i m = Ok (add32 next (shl32 (extra i) 2), m).
Proof. intros H. unfold branch_target. by mrun. Qed.

Lemma exec_control i m a b next writes target :
  wf m → wf_instr i → aget (registers m) NextPCReg = Some next →
  aget (registers m) (rs i) = Some a → aget (registers m) (rt i) = Some b →
  control i next a b = Some (writes, target) →
  (∀ p, p ∈ writes → p.1 ≠ rs i) → in_region i next →
  exec big ExceptionHandler i (add32 next 4) m
  = Ok (Next target 0 0,
        with_registers (λ r, foldl (λ r p, <[Z.to_nat p.1 := p.2]> r) r writes) m)
  ∧ Forall (λ p, 0 ≤ p.1 < 34) writes.
Proof.
  intros Hwf (Hop & Hrs & Hrt & Hrd & Hex & Hsh) Hn Ha Hb Hc Hne Hreg. unfold in_region in Hreg.
  assert (zlen (registers m) = NumTotalRegs) as Hlen by apply Hwf.
  destruct (wf_regs_read (registers m) (rs i)) as (a' & Ha' & Har); [apply Hwf|reg_range|].
  assert (a' = a) as -> by congruence.
  assert (Hra := reg_get m _ _ Ha). assert (Hrb := reg_get m _ _ Hb).
  assert (Hrn := reg_get m _ _ Hn).
  assert (with_registers (λ r : list Z, r) m = m) as Hid by by destruct m.
  (* a case that links register [d] and reads [rs] afterwards *)
  assert (∀ d v, 0 ≤ d < NumGPRegs →
    set_reg d v m = Ok (tt, with_registers (<[Z.to_nat d := v]>) m)) as Hset.
  { intros. apply set_reg_Ok. rewrite Hlen. reg_range. }
  assert (∀ d v, 0 ≤ d < NumGPRegs → d ≠ rs i →
    reg (rs i) (with_registers (<[Z.to_nat d := v]>) m)
    = Ok (a, with_registers (<[Z.to_nat d := v]>) m)) as Hra'.
  { intros. apply reg_get. simpl. rewrite aget_insert_ne by lia. done. }
  assert (∀ d v, 0 ≤ d < NumGPRegs →
    reg NextPCReg (with_registers (<[Z.to_nat d := v]>) m)
    = Ok (next, with_registers (<[Z.to_nat d := v]>) m)) as Hrn'.
  { intros. apply reg_get. simpl. rewrite aget_insert_ne by reg_range. done. }
  pose proof (sign_spec a Har) as Hsign.
  destruct i as [op rs0 rt0 rd0 ext]. unfold control in Hc. cbn [opCode rs rt rd extra] in *.
  replace (0 <=? a) with (negb (a <? 0)) in Hc by lia.
  unfold exec. cbv zeta in Hc.
  repeat match type of Hc with
  | context [op =? ?o] => destruct (Z.eqb_spec op o) as [->|?]; [|]
  end; [..|discriminate Hc]; injection Hc as <- <-;
  (split; [|first [exact (Forall_nil_2 _)
                 | constructor; [cbn [fst]; reg_range|exact (Forall_nil_2 _)]]]);
  switch_case; cbn [foldl fst snd]; rewrite ?Hid; repeat (mrun; cbv beta);
  try (assert (HR := Hne _ ltac:(left)); cbn [fst] in HR;
       (mrun by (mrun; cbv beta; apply Hset; unfold R31; reg_range)); cbv beta);
  try (mrun by (apply Hra'; [unfold R31; reg_range|done]); cbv beta);
  rewrite ?Hsign, ?if_negb;
  repeat match goal with |- context [if ?c then _ else _] => destruct c end;
  try (mrun by (apply branch_target_Ok; first [exact Hrn | apply Hrn'; unfold R31; reg_range]));
  first [reflexivity | by rewrite Hreg by (by repeat constructor)].
Qed.

(** C33.  Every branch and jump goes, after the instruction in its
    delay slot, where the architecture sends it: to the target when its
    condition on the register values holds, and otherwise past the delay slot;
    the linking ones leave the address past the delay slot in their link
    register.  Two cases are left out: an instruction that links into the
    register it reads, which the architecture leaves undefined, and [J] and
    [JAL] with their delay slot in the last word of a region of 256 megabytes,
    which the simulator sends into the next region ([jump_leaves_region]). *)
Theorem control_correct m m1 i a b next writes target
    (Hwf : wf m) (Hfetch : fetches big ExceptionHandler m i m1)
    (Hnext : aget (registers m) NextPCReg = Some next)
    (Ha : aget (registers m) (rs i) = Some a) (Hb : aget (registers m) (rt i) = Some b)
    (Hop : control i next a b = Some (writes, target))
    (Hlink : ∀ p, p ∈ writes → p.1 ≠ rs i) (Hregion : in_region i next) :
  OneInstruction big ExceptionHandler m
  = Ok (tt, with_registers (retired writes target 0 0) m1)
  ∧ ∃ r, registers (with_registers (retired writes target 0 0) m1) = r
      ∧ aget r PCReg = Some next ∧ aget r NextPCReg = Some target.
Proof.
  destruct (fetches_keeps _ _ _ _ _ Hwf Hfetch) as (Hwf1 & Hregs & _ & Hi).
  rewrite <- Hregs in Ha, Hb. pose proof Hnext as Hnext1. rewrite <- Hregs in Hnext1.
  destruct (exec_control i m1 a b next writes target Hwf1 Hi Hnext1 Ha Hb Hop Hlink Hregion) as [Hex Hw].
  split.
  { eapply OneInstruction_retires; [done|done|done|done| |done].
    eapply list.Forall_impl; [exact Hw|]. simpl. intros p Hp. reg_range. }
  eexists. split; [reflexivity|]. simpl. apply retired_pc; [by apply wf_loadable, Hwf1|done|reg_range|done].
Qed.

Lemma region_bit j : 0 ≤ j → Z.testbit 0xf0000000 j = (28 <=? j) && (j <? 32).
Proof.
  intros Hj. change 0xf0000000 with (Z.shiftl (Z.ones 4) 28).
  rewrite Z.shiftl_spec, Z.testbit_ones by lia. lia.
Qed.

Lemma index_low x j : 0 ≤ x < 2 ^ 26 → 28 ≤ j → Z.testbit (IndexToAddr x) j = false.
Proof.
  intros Hx Hj. assert (0 ≤ IndexToAddr x < 2 ^ 28).
  { unfold IndexToAddr, shl32. rewrite Z.shiftl_mul_pow2 by done. rewrite s32_id; unfold in_s32; lia. }
  apply Z.bits_above_log2; [lia|]. destruct (decide (IndexToAddr x = 0)) as [->|]; [simpl; lia|].
  assert (Z.log2 (IndexToAddr x) < 28) by (apply Z.log2_lt_pow2; lia). lia.
Qed.

Lemma regions_inj x y e :
  (∀ j, 28 ≤ j → Z.testbit e j = false) →
  s32 (Z.lor (Z.land x 0xf0000000) e) = s32 (Z.lor (Z.land y 0xf0000000) e) →
  Z.land y 0xf0000000 = Z.land x 0xf0000000.
Proof.
  intros He H. apply Z.bits_inj'. intros j Hj. rewrite !Z.land_spec, region_bit by done.
  destruct (Z.leb_spec 28 j), (Z.ltb_spec j 32); simpl; rewrite ?andb_false_r, ?andb_true_r; try done.
  assert (Hb := f_equal (λ z, Z.testbit z j) H). cbv beta in Hb.
  rewrite !s32_testbit_low, !Z.lor_spec, !Z.land_spec, region_bit, He in Hb by lia.
  destruct (Z.leb_spec 28 j), (Z.ltb_spec j 32); try lia.
  by rewrite !andb_true_r, !orb_false_r in Hb.
Qed.

(** The simulator takes the region of a jump from the address behind the delay
    slot. *)
Lemma jump_leaves_region m i next
    (Hop : opCode i = OP_J) (Hnext : Z.land (u32 next) 0xf0000000 ≠ Z.land (u32 (add32 next 4)) 0xf0000000)
    (Hextra : 0 ≤ extra i < 2 ^ 26) :
  ∃ t target, exec big ExceptionHandler i (add32 next 4) m = Ok (Next t 0 0, m)
    ∧ control i next 0 0 = Some ([], target) ∧ t ≠ target.
Proof.
  destruct i as [op rs0 rt0 rd0 ext]. cbn [opCode extra] in *. subst op. do 2 eexists.
  split; [reflexivity|]. split; [reflexivity|]. cbn [extra].
  contradict Hnext. by apply (regions_inj _ _ (IndexToAddr ext) (λ j, index_low ext j Hextra)).
Qed.
End control_facts.
