(* ===== verification/MipsTrap.v ===== *)
(** * Precise traps and delayed loads of the interpreter

    [OneInstruction_precise]: an instruction either completes, or hands the
    kernel the registers and the memory it started with.  [load_delayed]: what
    a load leaves behind, and when it arrives. *)
From S2P Require Import Prelude Word Machine Mips.

Section precise.
Context {K : Type} (big : bool) (ExceptionHandler : ExceptionType → M (Machine K) unit).
Implicit Types m s : Machine K.

(** [s] holds the registers and the memory of [m]. *)
Definition same m s : Prop :=
  wf s ∧ registers s = registers m ∧ mainMemory s = mainMemory m.

(** The machine [m'] comes from a trap that started with the registers and the
    memory of [m]. *)
Definition trapped_from m m' : Prop :=
  ∃ e a mt, same m mt ∧ RaiseException ExceptionHandler e a mt = Ok (tt, m').

(** [s] has the registers that no instruction writes before the end. *)
Definition agrees m s : Prop :=
  zlen (registers s) = zlen (registers m)
  ∧ aget (registers s) LoadReg = aget (registers m) LoadReg
  ∧ aget (registers s) NextPCReg = aget (registers m) NextPCReg.

(** The outcomes of a case of the switch: a trap from where it started, or a
    [break] that leaves [NextPCReg] alone; or it stops the simulator. *)
Definition clean m (r : res (outcome * Machine K)) : Prop :=
  match r with
  | Ok (Return, m') => trapped_from m m'
  | Ok (Next _ lr _, m') => agrees m m' ∧ 0 ≤ lr < NumGPRegs
  | Fault _ => True
  end.

Lemma same_agrees m s : same m s → agrees m s.
Proof. intros (_ & H & _). unfold agrees. by rewrite H. Qed.

Lemma clean_next m s pc lr lv :
  agrees m s → 0 ≤ lr < NumGPRegs → clean m ((mret (Next pc lr lv) : M _ _) s).
Proof. by split. Qed.

Lemma clean_raise m s e a :
  same m s → clean m ((RaiseException ExceptionHandler e a ;; mret Return) s).
Proof.
  intros Hs. unfold mbind, M_bind.
  destruct (RaiseException ExceptionHandler e a s) as [[[] m']|] eqn:E; [|done].
  by exists e, a, s.
Qed.

Lemma clean_reg m s i k : (∀ v, clean m (k v s)) → clean m ((reg i ≫= k) s).
Proof.
  intros Hk. unfold reg, mbind, M_bind, get, lift. destruct (aread (registers s) i); [apply Hk|done].
Qed.

Lemma clean_set m s i v k :
  agrees m s → 0 ≤ i → i ≠ LoadReg → i ≠ NextPCReg → (∀ s', agrees m s' → clean m (k tt s')) →
  clean m ((set_reg i v ≫= k) s).
Proof.
  intros Ha Hi Hne1 Hne2 Hk. unfold set_reg, mbind, M_bind, get, lift, modify.
  destruct (awrite (registers s) i v) as [r|] eqn:E; [|done].
  apply awrite_Ok in E as [_ ->]. apply Hk. unfold agrees in *. simpl.
  by rewrite zlen_insert, !aget_insert_ne.
Qed.

Lemma clean_assert m s b k : clean m (k tt s) → clean m ((lift (ASSERT b) ≫= k) s).
Proof. intros Hk. by destruct b. Qed.

Lemma clean_if m (b : bool) (x y : M (Machine K) outcome) s :
  clean m (x s) → clean m (y s) → clean m ((if b then x else y) s).
Proof. by destruct b. Qed.

Lemma clean_read m s addr size (k : option Z → M (Machine K) outcome) :
  same m s → size = 1 ∨ size = 2 ∨ size = 4 →
  (∀ m', k None m' = Ok (Return, m')) →
  (∀ v s', same m s' → clean m (k (Some v) s')) →
  clean m ((ReadMem big ExceptionHandler addr size ≫= k) s).
Proof.
  intros Hs Hsz Hnone Hk. pose proof Hs as ((Hr & Hm & Ht) & Hregs & Hmem).
  unfold mbind at 1, M_bind. rewrite ReadMem_spec by done.
  destruct (translation s addr size false) as [x|[[r e] pa]].
  - unfold mbind, M_bind.
    destruct (RaiseException ExceptionHandler x addr s) as [[[] m']|] eqn:E; [|done].
    cbn. rewrite Hnone. by exists x, addr, s.
  - apply Hk. split; [by apply wf_update_entry|].
    by rewrite registers_update_entry, mainMemory_update_entry.
Qed.

Lemma clean_reading m s addr size k :
  same m s → size = 1 ∨ size = 2 ∨ size = 4 →
  (∀ v s', same m s' → clean m (k v s')) →
  clean m (reading big ExceptionHandler addr size k s).
Proof. intros. by apply clean_read. Qed.

Lemma clean_write m s addr size v pcAfter :
  same m s → size = 1 ∨ size = 2 ∨ size = 4 →
  clean m ((ok ← WriteMem big ExceptionHandler addr size v;
            if (ok : bool) then mret (Next pcAfter 0 0) else mret Return) s).
Proof.
  intros Hs Hsz. pose proof Hs as ((Hr & Hm & Ht) & Hregs & Hmem).
  unfold mbind at 1, M_bind. rewrite WriteMem_spec by done.
  destruct (translation s addr size true) as [x|[[r e] pa]].
  - unfold mbind, M_bind.
    destruct (RaiseException ExceptionHandler x addr s) as [[[] m']|] eqn:E; [|done].
    by exists x, addr, s.
  - split; [|reg_range]. unfold agrees. simpl. by rewrite registers_update_entry, Hregs.
Qed.
End precise.

(** One step of a case of the switch. *)
Ltac clean_step :=
  lazymatch goal with
  | |- clean _ _ ((mret (Next _ _ _)) _) => apply clean_next; [by eauto using same_agrees|reg_range]
  | |- clean _ _ ((if _ then _ else _) _) => apply clean_if
  | |- clean _ _ ((RaiseException _ _ _ ≫= _) _) => apply clean_raise; done
  | |- clean _ _ ((reg _ ≫= _) _) => apply clean_reg; intros ?
  | |- clean _ _ ((set_reg _ _ ≫= _) _) =>
      apply clean_set; [by eauto using same_agrees|reg_range|reg_range|reg_range|intros ? ?]
  | |- clean _ _ (reading _ _ _ _ _ _) =>
      apply clean_reading; [done|by auto|intros ? ? ?]
  | |- clean _ _ ((WriteMem _ _ _ _ _ ≫= _) _) => apply clean_write; [done|by auto]
  | |- clean _ _ ((lift (ASSERT _) ≫= _) _) => apply clean_assert
  | |- clean _ _ (fail _ _) => exact I
  | |- clean _ _ (((_ ≫= _) ≫= _) _) => rewrite M_bind_assoc
  | |- clean _ _ (((if _ then _ else _) ≫= _) _) => rewrite M_bind_if
  | |- clean _ _ ((mret _ ≫= _) _) => rewrite M_ret_bind
  | |- clean _ _ ((let '(_, _) := ?p in _) _) => destruct p
  end.
Ltac clean_steps := repeat (clean_step; cbn beta iota).

Section precise_groups.
Context {K : Type} (big : bool) (ExceptionHandler : ExceptionType → M (Machine K) unit).
Context (m s : Machine K) (i : Instruction) (pcAfter : Z) (otherwise : M (Machine K) outcome).
Hypothesis (Hs : same m s) (Hi : wf_instr i).
Hypothesis Hother : clean ExceptionHandler m (otherwise s).

Lemma clean_add_and :
  clean ExceptionHandler m (exec_add_and ExceptionHandler i pcAfter otherwise s).
Proof.
  destruct Hi as (_ & ? & ? & ? & _). unfold exec_add_and. cbv zeta. by clean_steps.
Qed.

Lemma clean_branch : clean ExceptionHandler m (exec_branch i pcAfter otherwise s).
Proof.
  destruct Hi as (_ & ? & ? & ? & _). unfold exec_branch, branch_target. cbv zeta.
  by clean_steps.
Qed.

Lemma clean_div_jump : clean ExceptionHandler m (exec_div_jump i pcAfter otherwise s).
Proof.
  destruct Hi as (_ & ? & ? & ? & _). unfold exec_div_jump. cbv zeta. by clean_steps.
Qed.

Lemma clean_load :
  clean ExceptionHandler m (exec_load big ExceptionHandler i pcAfter otherwise s).
Proof.
  destruct Hi as (_ & ? & ? & ? & _). unfold exec_load, address, merge_base. cbv zeta.
  by clean_steps.
Qed.

Lemma clean_hilo_logic : clean ExceptionHandler m (exec_hilo_logic i pcAfter otherwise s).
Proof.
  destruct Hi as (_ & ? & ? & ? & _). unfold exec_hilo_logic. cbv zeta. by clean_steps.
Qed.

Lemma clean_store :
  clean ExceptionHandler m (exec_store big ExceptionHandler i pcAfter otherwise s).
Proof.
  destruct Hi as (_ & ? & ? & ? & _). unfold exec_store, address. cbv zeta. by clean_steps.
Qed.

Lemma clean_shift_sub :
  clean ExceptionHandler m (exec_shift_sub ExceptionHandler i pcAfter otherwise s).
Proof.
  destruct Hi as (_ & ? & ? & ? & _). unfold exec_shift_sub. cbv zeta. by clean_steps.
Qed.

Lemma clean_store_partial :
  clean ExceptionHandler m (exec_store_partial big ExceptionHandler i pcAfter otherwise s).
Proof.
  destruct Hi as (_ & ? & ? & ? & _). unfold exec_store_partial, address. cbv zeta.
  by clean_steps.
Qed.

Lemma clean_rest :
  clean ExceptionHandler m (exec_rest ExceptionHandler i pcAfter otherwise s).
Proof.
  destruct Hi as (_ & ? & ? & ? & _). unfold exec_rest. cbv zeta. by clean_steps.
Qed.
End precise_groups.

Section precise_instruction.
Context {K : Type} (big : bool) (ExceptionHandler : ExceptionType → M (Machine K) unit).
Implicit Types m : Machine K.

Lemma clean_exec m s i pcAfter :
  same m s → wf_instr i →
  clean ExceptionHandler m (exec big ExceptionHandler i pcAfter s).
Proof.
  intros Hs Hi. unfold exec, exec_switch.
  apply clean_add_and; [done|done|]. apply clean_branch; [done|done|].
  apply clean_div_jump; [done|done|]. apply clean_load; [done|done|].
  apply clean_hilo_logic; [done|done|]. apply clean_store; [done|done|].
  apply clean_shift_sub; [done|done|]. apply clean_store_partial; [done|done|].
  apply clean_rest; [done|done|]. done.
Qed.

(** C3.  Exceptions are precise.  When [OneInstruction] returns, the instruction
    either completed, and the next one is the one in its delay slot; or the
    kernel's handler was started (for the fetch, a misaligned or failing
    access, an overflow, a system call or an illegal instruction) on a machine
    with the registers and the memory the instruction had started with, so
    that it can be executed again. *)
Theorem OneInstruction_precise m m'
    (Hwf : wf m) (Hrun : OneInstruction big ExceptionHandler m = Ok (tt, m')) :
  trapped_from ExceptionHandler m m' ∨
  ∃ i m1 next pcAfter lr lv m2, fetches big ExceptionHandler m i m1
    ∧ aget (registers m) NextPCReg = Some next
    ∧ exec big ExceptionHandler i (add32 next 4) m1 = Ok (Next pcAfter lr lv, m2)
    ∧ m' = with_registers (retired [] pcAfter lr lv) m2
    ∧ aget (registers m') PCReg = Some next ∧ aget (registers m') NextPCReg = Some pcAfter.
Proof.
  pose proof Hwf as (Hr & Hm & Ht).
  destruct (wf_regs_read _ PCReg Hr) as (pc & Hpc & _); [reg_range|].
  destruct (wf_regs_read _ NextPCReg Hr) as (next & Hn & _); [reg_range|].
  unfold OneInstruction in Hrun. rewrite (M_bind_step _ _ _ _ _ (reg_get _ _ _ Hpc)) in Hrun.
  apply M_bind_Ok in Hrun as ([raw|] & m1 & Hrd & Hrun).
  - assert (Hsame : same m m1).
    { destruct (ReadMem_keeps _ _ _ _ _ _ _ Hwf ltac:(auto) Hrd) as (? & ? & ? & _). done. }
    destruct (Decode_total (u32 raw)) as (i & Hdec & Hi). rewrite Hdec in Hrun.
    rewrite (M_bind_step _ _ _ i m1) in Hrun by done.
    assert (aget (registers m1) NextPCReg = Some next) as Hn1.
    { destruct Hsame as (_ & -> & _). done. }
    rewrite (M_bind_step _ _ _ _ _ (reg_get _ _ _ Hn1)) in Hrun.
    apply M_bind_Ok in Hrun as (o & m2 & Hexec & Hrun).
    pose proof (clean_exec m m1 i (add32 next 4) Hsame Hi) as Hclean. rewrite Hexec in Hclean.
    destruct o as [|pcAfter lr lv]; [left; injection Hrun as <-; exact Hclean|right].
    destruct Hclean as [(Hlen & Hl & Hn2) Hlr].
    assert (loadable (registers m2)) as Hload.
    { destruct (wf_loadable _ Hr) as [Hlen0 Hl0]. split; [by rewrite Hlen|by rewrite Hl]. }
    pose proof (advance_Ok m2 pcAfter lr lv [] Hload ltac:(done)) as Hadv.
    assert (with_registers (λ r, foldl (λ r p, <[Z.to_nat p.1 := p.2]> r) r []) m2 = m2) as Hid
      by (by destruct m2).
    rewrite Hid in Hadv. rewrite Hadv in Hrun. injection Hrun as <-.
    rewrite Hn in Hn2. destruct (retired_pc [] pcAfter lr lv _ next Hload Hn2 Hlr ltac:(done)).
    exists i, m1, next, pcAfter, lr, lv, m2. split; [by exists pc, raw|]. done.
  - left. injection Hrun as <-. rewrite ReadMem_spec in Hrd by (done || auto).
    destruct (translation m pc 4 false) as [x|[[r e] pa]]; [|done].
    apply M_bind_Ok in Hrd as ([] & m2 & Hraise & [= <-]). by exists x, pc, m.
Qed.

(** The accesses of the load instructions: the size, and the value that
    arrives in the register for what [ReadMem] gives. *)
Definition load (op v : Z) : option (Z * Z) :=
  if op =? OP_LB then Some (1, v)
  else if op =? OP_LBU then Some (1, v mod 2 ^ 8)
  else if op =? OP_LH then Some (2, if v <? 2 ^ 15 then v else v - 2 ^ 16)
  else if op =? OP_LHU then Some (2, v)
  else if op =? OP_LW then Some (4, v)
  else None.

Lemma ReadMem_value m addr size v m' :
  wf m → size = 1 ∨ size = 2 ∨ size = 4 →
  ReadMem big ExceptionHandler addr size m = Ok (Some v, m') →
  misaligned addr size = false ∧ (size = 1 → -128 ≤ v < 128) ∧ (size = 2 → 0 ≤ v < 2 ^ 16).
Proof.
  intros Hwf Hs. pose proof Hwf as (Hr & Hm & Ht).
  pose proof (translation_bounds m addr size false) as Hb.
  rewrite ReadMem_spec by done. destruct (translation m addr size false) as [x|[[r e] pa]] eqn:E.
  { intros (? & ? & _ & H)%M_bind_Ok. done. }
  specialize (Hb _ _ _ Hs eq_refl). intros [= <- <-].
  split; [unfold translation in E; by destruct (misaligned addr size)|].
  destruct (bytes_at_ok m pa size Hm) as [Hl Hok]; [lia|lia|lia|].
  split; intros ->; [apply s8_range|].
  pose proof (of_le_range _ Hok) as Hran. unfold zlen in Hran. rewrite Hl in Hran. exact Hran.
Qed.

(** The high bits of a small negative number are all set. *)
Lemma neg_high_bit v k i : - 2 ^ k ≤ v < 0 → 0 ≤ k ≤ i → Z.testbit v i = true.
Proof.
  intros Hv Hi. rewrite Z.testbit_eqb by lia. apply Z.eqb_eq.
  pose proof (Z.pow_le_mono_r 2 k i ltac:(lia) ltac:(lia)).
  rewrite <- (Z.div_unique v (2 ^ i) (-1) (v + 2 ^ i)); [done|left; lia|lia].
Qed.

Lemma lor_sign_byte v :
  -128 ≤ v < 128 →
  (if ctrue (Z.land v 0x80) then s32 (Z.lor v 0xffffff00) else Z.land v 0xff) = v.
Proof.
  intros Hv. change 0x80 with (2 ^ 7). rewrite ctrue_land_bit by done.
  destruct (decide (v < 0)) as [Hneg|Hpos].
  - rewrite (neg_high_bit v 7) by (simpl; lia).
    assert (Z.lor v 0xffffff00 = v) as ->; [|apply s32_id; unfold in_s32; lia].
    apply Z.bits_inj'. intros n Hn. rewrite Z.lor_spec.
    destruct (decide (n < 8)).
    + change 0xffffff00 with (Z.shiftl 0xffffff 8).
      rewrite Z.shiftl_spec, (Z.testbit_neg_r _ (n - 8)) by lia. apply orb_false_r.
    + by rewrite (neg_high_bit v 7) by (simpl; lia).
  - assert (Z.testbit v 7 = false) as ->.
    { rewrite Z.testbit_eqb by done. apply Z.eqb_neq. rewrite Z.div_small by (simpl; lia). done. }
    change 0xff with (Z.ones 8). rewrite Z.land_ones by done. apply Z.mod_small. simpl. lia.
Qed.

Lemma lor_sign_half v :
  0 ≤ v < 2 ^ 16 →
  (if ctrue (Z.land v 0x8000) then s32 (Z.lor v 0xffff0000) else Z.land v 0xffff)
  = if v <? 2 ^ 15 then v else v - 2 ^ 16.
Proof.
  intros Hv. change 0x8000 with (2 ^ 15). rewrite ctrue_land_bit by done.
  change 0xffff0000 with (0xffff * 2 ^ 16). rewrite lor_add by done.
  change 0xffff with (Z.ones 16). rewrite Z.land_ones, Z.mod_small by done.
  rewrite Z.testbit_eqb by done. unfold s32. change (2 ^ 16) with 65536 in *.
  change (2 ^ 15) with 32768. change (2 ^ 31) with 2147483648.
  change (2 ^ 32) with 4294967296. change (Z.ones 16) with 65535.
  case (Z.ltb_spec v 32768); case (Z.eqb_spec ((v / 32768) mod 2) 1); intros; dlia.
Qed.

Lemma exec_load_Ok m m' i pcAfter a v size w :
  wf m → wf_instr i → aget (registers m) (rs i) = Some a →
  load (opCode i) v = Some (size, w) →
  ReadMem big ExceptionHandler (add32 a (extra i)) size m = Ok (Some v, m') →
  exec big ExceptionHandler i pcAfter m = Ok (Next pcAfter (rt i) w, m').
Proof.
  intros Hwf (Hop & _) Ha Hl Hrd.
  assert (size = 1 ∨ size = 2 ∨ size = 4) as Hs.
  { unfold load in Hl. repeat case_match; naive_solver. }
  destruct (ReadMem_value _ _ _ _ _ Hwf Hs Hrd) as (Hmis & Hv1 & Hv2).
  destruct i as [op rs0 rt0 rd0 ext]. cbn [opCode rs rt rd extra] in *.
  assert (Hra := reg_get m _ _ Ha).
  assert (∀ (i : Instruction), rs i = rs0 → extra i = ext →
    address i m = Ok (add32 a ext, m)) as Haddr.
  { intros i <- <-. unfold address. by mrun. }
  unfold misaligned in Hmis. unfold load in Hl. unfold exec.
  repeat match type of Hl with
  | context [op =? ?o] => destruct (Z.eqb_spec op o) as [->|?]; [|]
  end; [..|discriminate Hl]; injection Hl as <- <-; switch_case;
    (mrun by (by apply Haddr)); cbv beta.
  - unfold reading. mrun. cbv beta iota. rewrite andb_true_r.
    by rewrite lor_sign_byte by auto.
  - unfold reading. mrun. cbv beta iota. rewrite andb_false_r.
    change 255 with (Z.ones 8). by rewrite Z.land_ones.
  - simpl in Hmis. rewrite Hmis. unfold reading. mrun. cbv beta iota. rewrite andb_true_r.
    by rewrite lor_sign_half by auto.
  - simpl in Hmis. rewrite Hmis. unfold reading. mrun. cbv beta iota. rewrite andb_false_r.
    change 65535 with (Z.ones 16). rewrite (Z.land_ones v 16) by done.
    by rewrite Z.mod_small by (by apply Hv2).
  - simpl in Hmis. rewrite orb_false_r in Hmis. rewrite Hmis. unfold reading. by mrun.
Qed.

(** A load puts the sign- or zero-extended value it reads in the
    load delay slot: the instruction behind it does not see it yet, whatever
    that instruction writes the value is in the register after it. *)
Theorem load_delayed m m1 m2 i a v size w next
    (Hwf : wf m) (Hfetch : fetches big ExceptionHandler m i m1)
    (Hnext : aget (registers m) NextPCReg = Some next)
    (Ha : aget (registers m) (rs i) = Some a)
    (Hload : load (opCode i) v = Some (size, w))
    (Hread : ReadMem big ExceptionHandler (add32 a (extra i)) size m1 = Ok (Some v, m2)) :
  OneInstruction big ExceptionHandler m
  = Ok (tt, with_registers (retired [] (add32 next 4) (rt i) w) m2)
  ∧ aget (retired [] (add32 next 4) (rt i) w (registers m2)) (rt i)
    = aget (delayed 0 0 (registers m)) (rt i)
  ∧ ∀ writes pcAfter lr lv, rt i ≠ 0 → Forall (λ p, 0 ≤ p.1 < 34) writes →
    aget (retired writes pcAfter lr lv
           (retired [] (add32 next 4) (rt i) w (registers m2))) (rt i) = Some w.
Proof.
  destruct (fetches_keeps _ _ _ _ _ Hwf Hfetch) as (Hwf1 & Hregs & _ & Hi).
  assert (size = 1 ∨ size = 2 ∨ size = 4) as Hs.
  { unfold load in Hload. repeat case_match; naive_solver. }
  destruct (ReadMem_keeps _ _ _ _ _ _ _ Hwf1 Hs Hread) as (Hwf2 & Hregs2 & _ & _).
  rewrite <- Hregs in Ha. pose proof Hi as (_ & _ & Hrt & _).
  pose proof (exec_load_Ok m1 m2 i (add32 next 4) a v size w Hwf1 Hi Ha Hload Hread) as Hex.
  split; [|split].
  - eapply OneInstruction_retires; [done|done|done|exact Hwf2|by constructor|].
    cbn [foldl]. rewrite Hex. by destruct m2.
  - rewrite Hregs2, Hregs. pose proof (proj1 Hwf) as (Hlen & _ & _ & l & Hl & Hlr).
    unfold retired. cbn [foldl]. rewrite !aget_insert_ne by reg_range.
    unfold delayed. rewrite Hl. simpl default. change 0%nat with (Z.to_nat 0).
    destruct (decide (rt i = 0)) as [->|].
    { rewrite !aget_insert_eq; [done|rewrite !zlen_insert; reg_range..]. }
    by rewrite !(aget_insert_ne _ 0), !(aget_insert_ne _ LoadValueReg),
      !(aget_insert_ne _ LoadReg) by reg_range.
  - intros writes pcAfter lr lv Hrt0 Hw. rewrite Hregs2, Hregs.
    apply retired_load; [apply wf_loadable, Hwf|done|reg_range|done].
Qed.
End precise_instruction.
