(* ===== verification/MipsDemo.v ===== *)
(** * The properties of the interpreter on concrete programs

    A machine with one instruction at address 0, [r1] and [r2] loaded, on
    which the theorems of [Mips] and [MipsTrap] are applied. *)
From S2P Require Import Prelude Word Machine Mips MipsTrap.

(** The instruction [word] in frame 5, which page 0 maps. *)
Definition demo_cpu (word r1 r2 : Z) : Machine unit :=
  with_registers (λ r, <[35%nat := 4]> (<[2%nat := r2]> (<[1%nat := r1]> r)))
    (with_memory (splice 640 (bytes_le 4 word)) demo).

(** The same once page 0 is marked used. *)
Definition demo_used (word r1 r2 : Z) : Machine unit :=
  update_entry (demo_cpu word r1 r2) (InTable 1 0) (TE 0 5 true false true false false).

Lemma demo_length : Z.of_nat (length (mainMemory demo)) = 4096.
Proof. destruct wf_demo as (_ & [H _] & _). exact H. Qed.

Lemma demo_cpu_mem word : wf_mem (splice 640 (bytes_le 4 word) (mainMemory demo)).
Proof.
  split.
  - unfold zlen. rewrite length_splice; [apply wf_mem_init|].
    rewrite length_bytes_le. pose proof demo_length. lia.
  - apply Forall_splice; [apply bytes_le_ok|apply wf_mem_init].
Qed.

Lemma wf_demo_cpu word r1 r2 : in_s32 r1 → in_s32 r2 → wf (demo_cpu word r1 r2).
Proof.
  intros H1 H2. split; [|split; [apply demo_cpu_mem|apply wf_demo]].
  change (wf_regs (<[Z.to_nat 35 := 4]> (<[Z.to_nat 2 := r2]> (<[Z.to_nat 1 := r1]>
            (registers demo))))).
  apply wf_regs_write; [|reg_range|reg_range|unfold in_s32; lia].
  apply wf_regs_write; [|reg_range|reg_range|done].
  apply wf_regs_write; [apply wf_regs_init|reg_range|reg_range|done].
Qed.

Lemma demo_value word r1 r2 :
  value_of 4 (bytes_at (demo_cpu word r1 r2) 640 4) = s32 word.
Proof.
  unfold bytes_at. change (mainMemory (demo_cpu word r1 r2))
    with (splice 640 (bytes_le 4 word) (mainMemory demo)).
  pose proof (slice_splice_eq 640 (bytes_le 4 word) (mainMemory demo)) as Hs.
  rewrite length_bytes_le in Hs. change (Z.to_nat 640) with 640%nat.
  change (Z.to_nat 4) with 4%nat. rewrite Hs by (pose proof demo_length; lia).
  unfold value_of. cbn [Z.eqb Pos.eqb]. rewrite of_le_bytes_le.
  change (256 ^ Z.of_nat 4) with (2 ^ 32). apply s32_u32.
Qed.

Lemma demo_read word r1 r2 :
  ReadMem false null_handler 0 4 (demo_cpu word r1 r2)
  = Ok (Some (s32 word), demo_used word r1 r2).
Proof.
  rewrite ReadMem_spec; [|apply demo_cpu_mem|apply wf_demo|auto].
  change (translation (demo_cpu word r1 r2) 0 4 false)
    with (inr (A := ExceptionType) (InTable 1 0, TE 0 5 true false false false false, 640)).
  cbn iota. by rewrite demo_value.
Qed.

Lemma demo_read_used word r1 r2 :
  ReadMem false null_handler 0 4 (demo_used word r1 r2)
  = Ok (Some (s32 word), demo_used word r1 r2).
Proof.
  unfold demo_used at 1.
  rewrite ReadMem_spec; [|rewrite mainMemory_update_entry; apply demo_cpu_mem
                         |apply wf_tr_update_entry, wf_demo|auto].
  fold (demo_used word r1 r2).
  change (translation (demo_used word r1 r2) 0 4 false)
    with (inr (A := ExceptionType) (InTable 1 0, TE 0 5 true false true false false, 640)).
  cbn iota. unfold bytes_at, demo_used at 1. rewrite mainMemory_update_entry.
  fold (bytes_at (demo_cpu word r1 r2) 640 4). by rewrite demo_value.
Qed.

Lemma demo_fetches word r1 r2 i :
  in_u32 word → Decode word = Ok i →
  fetches false null_handler (demo_cpu word r1 r2) i (demo_used word r1 r2).
Proof.
  intros Hw Hi. exists 0, (s32 word). split; [reflexivity|]. split; [apply demo_read|].
  by rewrite u32_s32, u32_id.
Qed.

(** [op rs = 1, rt = 2, rd = 3] with function [fn], and [op rt = 2, imm(rs = 1)]. *)
Definition word_r (fn : Z) : Z := 2 ^ 21 + 2 * 2 ^ 16 + 3 * 2 ^ 11 + fn.
Definition word_i (op imm : Z) : Z := op * 2 ^ 26 + 2 ^ 21 + 2 * 2 ^ 16 + imm.

Ltac word_ok := unfold in_u32, word_r, word_i; lia.

Lemma Mult_correct_witness :
  ∃ hi lo, Mult (-3) 7 true = (hi, lo) ∧ hi * 2 ^ 32 + u32 lo = -21.
Proof.
  assert (in_s32 (-3)) as Ha by (unfold in_s32; lia).
  assert (in_s32 7) as Hb by (unfold in_s32; lia).
  destruct (Mult_correct (-3) 7 Ha Hb) as [H _].
  destruct (Mult (-3) 7 true) as [hi lo]. destruct H as (_ & _ & H).
  exists hi, lo. split; [reflexivity|exact H].
Defined.

Lemma OneInstruction_safe_witness :
  wp (OneInstruction false null_handler) (demo_cpu (word_r 33) 5 6) (λ _ m', wf m').
Proof.
  assert (wf (demo_cpu (word_r 33) 5 6)) as Hwf by (apply wf_demo_cpu; unfold in_s32; lia).
  refine (OneInstruction_safe false null_handler (demo_cpu (word_r 33) 5 6) Hwf _).
  intros pc raw m1 i Hpc Hrd Hdec (a & b & _ & _ & Hop).
  assert (pc = 0) as -> by (vm_compute in Hpc; congruence).
  rewrite demo_read in Hrd. injection Hrd as <- _.
  change (Decode (u32 (s32 (word_r 33)))) with (Ok (Instr OP_ADDU 1 2 3 0)) in Hdec.
  injection Hdec as <-. destruct Hop as [[Hop _]|[Hop _]]; [discriminate Hop|].
  simpl in Hop. rewrite !elem_of_cons, elem_of_nil in Hop.
  destruct Hop as [H|[H|[H|[H|[]]]]]; discriminate H.
Defined.

Lemma alu_correct_witness :
  OneInstruction false null_handler (demo_cpu (word_r 33) 5 6)
  = Ok (tt, with_registers (retired [(3, 11)] 8 0 0) (demo_used (word_r 33) 5 6)).
Proof.
  refine (alu_correct false null_handler (demo_cpu (word_r 33) 5 6)
    (demo_used (word_r 33) 5 6) (Instr OP_ADDU 1 2 3 0) 5 6 3 11 4 _ _ _ _ _ _ _).
  - apply wf_demo_cpu; unfold in_s32; lia.
  - apply demo_fetches; [word_ok|reflexivity].
  - reflexivity.
  - reflexivity.
  - reflexivity.
  - rewrite !not_elem_of_cons. split_and!; try discriminate. apply not_elem_of_nil.
  - reflexivity.
Defined.

(** [OR r3, r1, r2] on 4 and 3 writes 4. *)
Lemma alu_wrong_witness :
  ∃ v w, OneInstruction false null_handler (demo_cpu (word_r 37) 4 3)
         = Ok (tt, with_registers (retired [(3, v)] 8 0 0) (demo_used (word_r 37) 4 3))
    ∧ v ≠ w ∧ alu (Instr OP_OR 1 2 3 0) 4 3 = Some (3, w).
Proof.
  destruct (alu_wrong false null_handler (demo_cpu (word_r 37) 4 3)
    (demo_used (word_r 37) 4 3) (Instr OP_OR 1 2 3 0) 4 3 4) as (v & w & Hrun & Hw & Hiff).
  - apply wf_demo_cpu; unfold in_s32; lia.
  - apply demo_fetches; [word_ok|reflexivity].
  - reflexivity.
  - reflexivity.
  - reflexivity.
  - left.
  - exists v, w. split; [exact Hrun|]. split; [|exact Hw].
    intros Heq. apply Hiff in Heq. discriminate Heq.
Defined.

(** [ADD] of the largest [int] and 1 traps. *)
Lemma overflow_exact_witness :
  OneInstruction false null_handler (demo_cpu (word_r 32) (2 ^ 31 - 1) 1)
  = RaiseException null_handler OverflowException 0 (demo_used (word_r 32) (2 ^ 31 - 1) 1).
Proof.
  rewrite (overflow_exact false null_handler (demo_cpu (word_r 32) (2 ^ 31 - 1) 1)
    (demo_used (word_r 32) (2 ^ 31 - 1) 1) (Instr OP_ADD 1 2 3 0) (2 ^ 31 - 1) 1 3 (2 ^ 31) 4).
  - rewrite decide_False; [reflexivity|]. unfold in_s32. lia.
  - apply wf_demo_cpu; unfold in_s32; lia.
  - apply demo_fetches; [word_ok|reflexivity].
  - reflexivity.
  - reflexivity.
  - reflexivity.
  - reflexivity.
Defined.

(** [DIV] of -7 by 2 gives -3 and leaves -1. *)
Lemma muldiv_correct_witness :
  ∃ hi lo writes, OneInstruction false null_handler (demo_cpu (word_r 26) (-7) 2)
      = Ok (tt, with_registers (retired writes 8 0 0) (demo_used (word_r 26) (-7) 2))
    ∧ (lo, hi) = (-3, -1).
Proof.
  destruct (muldiv_correct false null_handler (demo_cpu (word_r 26) (-7) 2)
    (demo_used (word_r 26) (-7) 2) (Instr OP_DIV 1 2 3 0) (-7) 2 4)
    as (hi & lo & ws & Hrun & _ & _ & _ & _ & _ & Hdiv & _).
  - apply wf_demo_cpu; unfold in_s32; lia.
  - apply demo_fetches; [word_ok|reflexivity].
  - reflexivity.
  - reflexivity.
  - reflexivity.
  - right. right. left.
  - intros (_ & H & _). discriminate H.
  - exists hi, lo, ws. split; [exact Hrun|exact (Hdiv eq_refl)].
Defined.

(** [BEQ r1, r2, 5] on equal registers goes to 4 + 20. *)
Lemma control_correct_witness :
  OneInstruction false null_handler (demo_cpu (word_i 4 5) 9 9)
  = Ok (tt, with_registers (retired [] 24 0 0) (demo_used (word_i 4 5) 9 9))
  ∧ ∃ r, registers (with_registers (retired [] 24 0 0) (demo_used (word_i 4 5) 9 9)) = r
      ∧ aget r PCReg = Some 4 ∧ aget r NextPCReg = Some 24.
Proof.
  refine (control_correct false null_handler (demo_cpu (word_i 4 5) 9 9)
    (demo_used (word_i 4 5) 9 9) (Instr OP_BEQ 1 2 0 5) 9 9 4 [] 24 _ _ _ _ _ _ _ _).
  - apply wf_demo_cpu; unfold in_s32; lia.
  - apply demo_fetches; [word_ok|reflexivity].
  - reflexivity.
  - reflexivity.
  - reflexivity.
  - reflexivity.
  - intros p Hp. by apply elem_of_nil in Hp.
  - intros _. reflexivity.
Defined.

(** A system call: the handler returns at once. *)
Definition demo_syscall : Machine unit :=
  let m := trapped 0 (demo_used (word_r 12) 0 0) in
  MkMachine (mainMemory m) (registers m) (tlb m) (pageTable m) (pageTableSize m) (tables m)
    UserMode (kernel m).

Lemma demo_syscall_run :
  OneInstruction false null_handler (demo_cpu (word_r 12) 0 0) = Ok (tt, demo_syscall).
Proof.
  rewrite (OneInstruction_fetched false null_handler _ (Instr OP_SYSCALL 1 2 3 0)
    (demo_used (word_r 12) 0 0) 4); [| |reflexivity].
  2: { apply demo_fetches; [word_ok|reflexivity]. }
  unfold exec. switch_case.
  erewrite M_bind_step; [|erewrite M_bind_step;
    [reflexivity|rewrite RaiseException_run; [reflexivity| |unfold in_s32; lia]]].
  { reflexivity. }
  unfold demo_used. rewrite registers_update_entry.
  refine (proj1 (wf_demo_cpu (word_r 12) 0 0 _ _)); unfold in_s32; lia.
Qed.

Lemma exec_switch_syscall {K} big h pcAfter d r1 r2 r3 e :
  @exec_switch K big h (Instr OP_SYSCALL r1 r2 r3 e) pcAfter d
  = (RaiseException h SyscallException 0 ;; mret Return).
Proof. reflexivity. Qed.

Lemma demo_pc word r1 r2 pc :
  aget (registers (demo_cpu word r1 r2)) PCReg = Some pc → pc = 0.
Proof. intros Hpc. change (Some 0 = Some pc) in Hpc. congruence. Qed.

Lemma demo_decode_syscall i : Decode (word_r 12) = Ok i → i = Instr OP_SYSCALL 1 2 3 0.
Proof.
  intros Hdec. change (Decode (word_r 12)) with (Ok (Instr OP_SYSCALL 1 2 3 0)) in Hdec.
  congruence.
Qed.

Lemma exec_syscall_traps next pcAfter lr lv m1 (m2 : Machine unit) :
  exec false null_handler (Instr OP_SYSCALL 1 2 3 0) (add32 next 4) m1
  ≠ Ok (Next pcAfter lr lv, m2).
Proof.
  intros Hex. unfold exec in Hex.
  rewrite (exec_switch_syscall _ _ _ _ 1 2 3 0) in Hex.
  apply M_bind_Ok in Hex as (? & ? & _ & Hex). injection Hex.
  intros _ H. discriminate H.
Qed.

Lemma demo_syscall_traps i m1 next pcAfter lr lv m2 :
  fetches false null_handler (demo_cpu (word_r 12) 0 0) i m1 →
  exec false null_handler i (add32 next 4) m1 ≠ Ok (Next pcAfter lr lv, m2).
Proof.
  intros (pc & raw & Hpc & Hrd & Hdec). rewrite (demo_pc _ _ _ _ Hpc), demo_read in Hrd.
  assert (raw = s32 (word_r 12)) as -> by congruence.
  rewrite u32_s32, u32_id in Hdec by word_ok. rewrite (demo_decode_syscall i Hdec).
  apply exec_syscall_traps.
Qed.

Lemma OneInstruction_precise_witness :
  trapped_from null_handler (demo_cpu (word_r 12) 0 0) demo_syscall.
Proof.
  assert (wf (demo_cpu (word_r 12) 0 0)) as Hwf by (apply wf_demo_cpu; unfold in_s32; lia).
  destruct (OneInstruction_precise false null_handler (demo_cpu (word_r 12) 0 0) demo_syscall
    Hwf demo_syscall_run) as [H|(i & m1 & next & pa & lr & lv & m2 & Hf & _ & Hex & _)].
  - exact H.
  - destruct (demo_syscall_traps i m1 next pa lr lv m2 Hf Hex).
Defined.

(** [LW r2, 0(r1)] of the word it is made of. *)
Lemma load_delayed_witness :
  OneInstruction false null_handler (demo_cpu (word_i 35 0) 0 7)
  = Ok (tt, with_registers (retired [] 8 2 (s32 (word_i 35 0))) (demo_used (word_i 35 0) 0 7))
  ∧ aget (retired [] 8 2 (s32 (word_i 35 0)) (registers (demo_used (word_i 35 0) 0 7))) 2
    = aget (delayed 0 0 (registers (demo_cpu (word_i 35 0) 0 7))) 2.
Proof.
  destruct (load_delayed false null_handler (demo_cpu (word_i 35 0) 0 7)
    (demo_used (word_i 35 0) 0 7) (demo_used (word_i 35 0) 0 7) (Instr OP_LW 1 2 0 0) 0
    (s32 (word_i 35 0)) 4 (s32 (word_i 35 0)) 4) as (H1 & H2 & _).
  - apply wf_demo_cpu; unfold in_s32; lia.
  - apply demo_fetches; [word_ok|reflexivity].
  - reflexivity.
  - reflexivity.
  - reflexivity.
  - exact (demo_read_used (word_i 35 0) 0 7).
  - split; [exact H1|exact H2].
Defined.
