(* ===== verification/Execute.v ===== *)
(** * bin/execute.c, bin/system.c: the stand-alone MIPS interpreter

    The interpreter of bin/ runs a MIPS program without the kernel: it has
    registers and memory of its own, and passes system calls to the host.
    The names of registers fields and operation codes are those of bin/instr.h
    and bin/encode.h.  The trace that its flags ask for is left out. *)
From S2P Require Import Prelude Word.

(** ** bin/instr.h *)

Definition rd (i : Z) : Z := Z.land (Z.shiftr i 11) 0x1f.
Definition rt (i : Z) : Z := Z.land (Z.shiftr i 16) 0x1f.
Definition rs (i : Z) : Z := Z.land (Z.shiftr i 21) 0x1f.
Definition shamt (i : Z) : Z := Z.land (Z.shiftr i 6) 0x1f.
Definition immed (i : Z) : Z :=
  if ctrue (Z.land i 0x8000) then Z.lor i (- 0x8000) else Z.land i 0x7fff.

(** ** bin/encode.h *)

Definition I_SPECIAL := 0.
Definition I_BCOND := 1.
Definition I_J := 2.
Definition I_JAL := 3.
Definition I_BEQ := 4.
Definition I_BNE := 5.
Definition I_BLEZ := 6.
Definition I_BGTZ := 7.
Definition I_ADDI := 8.
Definition I_ADDIU := 9.
Definition I_SLTI := 10.
Definition I_SLTIU := 11.
Definition I_ANDI := 12.
Definition I_ORI := 13.
Definition I_XORI := 14.
Definition I_LUI := 15.
Definition I_COP0 := 16.
Definition I_COP1 := 17.
Definition I_COP2 := 18.
Definition I_COP3 := 19.
Definition I_LB := 32.
Definition I_LH := 33.
Definition I_LWL := 34.
Definition I_LW := 35.
Definition I_LBU := 36.
Definition I_LHU := 37.
Definition I_LWR := 38.
Definition I_SB := 40.
Definition I_SH := 41.
Definition I_SWL := 42.
Definition I_SW := 43.
Definition I_SWR := 46.
Definition I_LWC0 := 48.
Definition I_LWC1 := 49.
Definition I_LWC2 := 50.
Definition I_LWC3 := 51.
Definition I_SWC0 := 56.
Definition I_SWC1 := 57.
Definition I_SWC2 := 58.
Definition I_SWC3 := 59.

Definition I_SLL := 0.
Definition I_SRL := 2.
Definition I_SRA := 3.
Definition I_SLLV := 4.
Definition I_SRLV := 6.
Definition I_SRAV := 7.
Definition I_JR := 8.
Definition I_JALR := 9.
Definition I_SYSCALL := 12.
Definition I_BREAK := 13.
Definition I_MFHI := 16.
Definition I_MTHI := 17.
Definition I_MFLO := 18.
Definition I_MTLO := 19.
Definition I_MULT := 24.
Definition I_MULTU := 25.
Definition I_DIV := 26.
Definition I_DIVU := 27.
Definition I_ADD := 32.
Definition I_ADDU := 33.
Definition I_SUB := 34.
Definition I_SUBU := 35.
Definition I_AND := 36.
Definition I_OR := 37.
Definition I_XOR := 38.
Definition I_NOR := 39.
Definition I_SLT := 42.
Definition I_SLTU := 43.

Definition I_BLTZ := 0.
Definition I_BGEZ := 1.
Definition I_BLTZAL := 16.
Definition I_BGEZAL := 17.

(** ** bin/int.h *)

Definition MEMSIZE : Z := 2 ^ 24.
Definition memoffset : Z := 0x10000000.

(** [mem] is static, so it is zero where nothing has been written; its index
    is the offset from the start of the array.  [world] is the host. *)
Record State (W : Type) := MkState {
  Reg : list Z;
  HI : Z;
  LO : Z;
  mem : gmap Z Z;
  pc : Z;
  npc : Z;
  world : W
}.
Arguments MkState {W} _ _ _ _ _ _ _.
Arguments Reg {W} _.
Arguments HI {W} _.
Arguments LO {W} _.
Arguments mem {W} _.
Arguments pc {W} _.
Arguments npc {W} _.
Arguments world {W} _.

(** What the system calls ask of the host.  An address of the program comes
    as its offset in [mem] ([u_to_int_addr]); the host may read and write
    there. *)
Class Host (W : Type) := {
  os_read : Z → Z → Z → M (gmap Z Z * W) Z;
  os_write : Z → Z → Z → M (gmap Z Z * W) Z;
  os_open : Z → Z → Z → M (gmap Z Z * W) Z;
  os_lseek : Z → Z → Z → M (gmap Z Z * W) Z;
  os_ioctl : Z → Z → Z → M (gmap Z Z * W) Z;
  os_fstat : Z → Z → M (gmap Z Z * W) Z;
  os_getpagesize : M (gmap Z Z * W) Z
}.

Section execute.
Context {W : Type} `{!Host W}.
#[local] Abbreviation S := (State W).

(** ** Registers and memory *)

Definition reg (r : Z) : M S Z := s ← get; lift (aread (Reg s) r).
Definition set_reg (r v : Z) : M S unit :=
  s ← get;
  l ← lift (awrite (Reg s) r v);
  put (MkState l (HI s) (LO s) (mem s) (pc s) (npc s) (world s)).
Definition set_HI (v : Z) : M S unit :=
  modify (λ s, MkState (Reg s) v (LO s) (mem s) (pc s) (npc s) (world s)).
Definition set_LO (v : Z) : M S unit :=
  modify (λ s, MkState (Reg s) (HI s) v (mem s) (pc s) (npc s) (world s)).
Definition set_npc (v : Z) : M S unit :=
  modify (λ s, MkState (Reg s) (HI s) (LO s) (mem s) (pc s) v (world s)).

(** [(mem-memoffset)[addr]] and the [n - 1] bytes behind it. *)
Definition offset (addr : Z) (n : nat) : res Z :=
  let o := u32 (addr - memoffset) in
  if o + Z.of_nat n <=? MEMSIZE then Ok o else Fault OutOfBounds.
Definition bytes_at (m : gmap Z Z) (o : Z) (n : nat) : list Z :=
  (λ k, default 0 (m !! k)) <$> seqZ o (Z.of_nat n).
Fixpoint put_bytes (o : Z) (bs : list Z) (m : gmap Z Z) : gmap Z Z :=
  match bs with
  | [] => m
  | b :: bs' => <[o := b]> (put_bytes (o + 1) bs' m)
  end.

Definition load (addr : Z) (n : nat) : M S Z :=
  o ← lift (offset addr n);
  gets (λ s, of_le (bytes_at (mem s) o n)).
Definition store_bytes (addr : Z) (bs : list Z) : M S unit :=
  o ← lift (offset addr (length bs));
  modify (λ s, MkState (Reg s) (HI s) (LO s) (put_bytes o bs (mem s)) (pc s) (npc s) (world s)).

Definition fetch (addr : Z) : M S Z := v ← load addr 4; mret (s32 v).
Definition sfetch (addr : Z) : M S Z :=
  v ← load addr 2; mret (if v <? 2 ^ 15 then v else v - 2 ^ 16).
Definition usfetch (addr : Z) : M S Z := load addr 2.
Definition cfetch (addr : Z) : M S Z := v ← load addr 1; mret (s8 v).
Definition ucfetch (addr : Z) : M S Z := load addr 1.
Definition store (addr i : Z) : M S unit := store_bytes addr (bytes_le 4 i).
Definition sstore (addr i : Z) : M S unit := store_bytes addr (bytes_le 2 i).
Definition cstore (addr i : Z) : M S unit := store_bytes addr (bytes_le 1 i).

(** An instruction ends with [None], or with the code of the [exit] it calls. *)
Definition go (m : M S unit) : M S (option Z) := m ;; mret None.
Definition exit (code : Z) : M S (option Z) := mret (Some code).
Definition u : M S (option Z) := exit 2.

(** ** bin/system.c *)

Definition u_to_int_addr (ptr : Z) : Z := u32 (ptr - memoffset).
Definition u_to_int_fd (fd : Z) : Z := fd.

Definition host (call : M (gmap Z Z * W) Z) : M S Z :=
  s ← get;
  '(r, (m, w)) ← lift (call (mem s, world s));
  put (MkState (Reg s) (HI s) (LO s) m (pc s) (npc s) w) ;;
  mret (s32 r).

Definition IOCPARM_MASK : Z := 0x7f.
(** The request of an [ioctl] for a terminal with 8 bytes of parameters. *)
Definition ioctl_request (o1 : Z) : Z :=
  let size := Z.land (Z.shiftr o1 16) IOCPARM_MASK in
  let ioctl_group := s8 (Z.land (Z.shiftr o1 8) 0x00ff) in
  if (ioctl_group =? 116) && (size =? 8) then
    Z.lor (Z.land o1 (Z.lnot (Z.shiftl IOCPARM_MASK 16))) (Z.shiftl 6 16)
  else o1.

Definition system_trap : M S (option Z) :=
  syscallno ← reg 2;
  o0 ← reg 4;
  o1 ← reg 5;
  o2 ← reg 6;
  if syscallno =? 1 then exit 0
  else if syscallno =? 3 then
    go (r ← host (os_read (u_to_int_fd o0) (u_to_int_addr o1) o2); set_reg 1 r)
  else if syscallno =? 4 then
    go (r ← host (os_write (u_to_int_fd o0) (u_to_int_addr o1) o2); set_reg 1 r)
  else if syscallno =? 5 then
    go (r ← host (os_open (u_to_int_addr o0) o1 o2); set_reg 1 r)
  else if syscallno =? 6 then go (set_reg 1 0)
  else if syscallno =? 17 then
    go (set_reg 1 (s32 (add32 (Z.quot o0 8192) 1 * 8192)))
  else if syscallno =? 19 then
    go (r ← host (os_lseek (u_to_int_fd o0) o1 o2); set_reg 1 r)
  else if syscallno =? 54 then
    go (r ← host (os_ioctl (u_to_int_fd o0) (ioctl_request o1) (u_to_int_addr o2));
        set_reg 1 r ;; set_reg 1 0)
  else if syscallno =? 62 then go (r ← host (os_fstat o1 o2); set_reg 1 r)
  else if syscallno =? 64 then go (r ← host os_getpagesize; set_reg 1 r)
  else exit 2.

Definition system_break : M S (option Z) := system_trap.

(** ** bin/execute.c: the instructions

    A shift by a register takes the five low bits of its count, as the shift
    instructions of the host do, and a division that has no result stops the
    interpreter. *)

Definition div_mul (instr op : Z) (otherwise : M S (option Z)) : M S (option Z) :=
  if op =? I_MULT then go (
    t1 ← reg (rs instr);
    t2 ← reg (rt instr);
    let '(t1, neg) := if t1 <? 0 then (sub32 0 t1, true) else (t1, false) in
    let '(t2, neg) := if t2 <? 0 then (sub32 0 t2, negb neg) else (t2, neg) in
    let lo := s32 (t1 * t2) in
    let t1l := Z.land t1 0xffff in
    let t1h := Z.land (Z.shiftr t1 16) 0xffff in
    let t2l := Z.land t2 0xffff in
    let t2h := Z.land (Z.shiftr t2 16) 0xffff in
    let hi := add32 (add32 (s32 (t1h * t2h)) (Z.shiftr (s32 (t1h * t2l)) 16))
                (Z.shiftr (s32 (t2h * t1l)) 16) in
    if neg then
      let lo := add32 (Z.lnot lo) 1 in
      set_LO lo ;;
      set_HI (if lo =? 0 then add32 (Z.lnot hi) 1 else Z.lnot hi)
    else set_LO lo ;; set_HI hi)
  else if op =? I_MULTU then go (
    t1 ← reg (rs instr);
    t2 ← reg (rt instr);
    let t1l := Z.land t1 0xffff in
    let t1h := Z.land (Z.shiftr t1 16) 0xffff in
    let t2l := Z.land t2 0xffff in
    let t2h := Z.land (Z.shiftr t2 16) 0xffff in
    set_LO (s32 (t1 * t2)) ;;
    set_HI (add32 (add32 (s32 (t1h * t2h)) (Z.shiftr (s32 (t1h * t2l)) 16))
              (Z.shiftr (s32 (t2h * t1l)) 16)))
  else if op =? I_DIV then go (
    a ← reg (rs instr);
    b ← reg (rt instr);
    if (b =? 0) || (a =? - 2 ^ 31) && (b =? -1) then fail DivOverflow
    else
      set_LO (Z.quot a b) ;;
      set_HI (Z.rem a b))
  else if op =? I_DIVU then go (
    a ← reg (rs instr);
    b ← reg (rt instr);
    if u32 b =? 0 then fail DivOverflow
    else
      set_LO (s32 (u32 a / u32 b)) ;;
      set_HI (s32 (u32 a mod u32 b)))
  else otherwise.

(** [Reg[rd(instr)] = f] of the registers [rs] and [rt]. *)
Definition to_rd (instr : Z) (f : Z → Z → Z) : M S (option Z) :=
  go (a ← reg (rs instr); b ← reg (rt instr); set_reg (rd instr) (f a b)).

Definition special (instr xpc : Z) : M S (option Z) :=
  let op := Z.land instr 0x3f in
  if op =? I_SLL then to_rd instr (λ _ b, shl32 b (shamt instr))
  else if op =? I_SRL then to_rd instr (λ _ b, s32 (Z.shiftr (u32 b) (shamt instr)))
  else if op =? I_SRA then to_rd instr (λ _ b, Z.shiftr b (shamt instr))
  else if op =? I_SLLV then to_rd instr (λ a b, shl32 b (Z.land a 0x1f))
  else if op =? I_SRLV then to_rd instr (λ a b, s32 (Z.shiftr (u32 b) (Z.land a 0x1f)))
  else if op =? I_SRAV then to_rd instr (λ a b, Z.shiftr b (Z.land a 0x1f))
  else if op =? I_JR then go (a ← reg (rs instr); set_npc a)
  else if op =? I_JALR then
    go (a ← reg (rs instr); set_npc a ;; set_reg (rd instr) (add32 xpc 8))
  else if op =? I_SYSCALL then system_trap
  else if op =? I_BREAK then system_break
  else if op =? I_MFHI then go (s ← get; set_reg (rd instr) (HI s))
  else if op =? I_MTHI then go (a ← reg (rs instr); set_HI a)
  else if op =? I_MFLO then go (s ← get; set_reg (rd instr) (LO s))
  else if op =? I_MTLO then go (a ← reg (rs instr); set_LO a)
  else div_mul instr op (
    if (op =? I_ADD) || (op =? I_ADDU) then to_rd instr (λ a b, add32 a b)
    else if (op =? I_SUB) || (op =? I_SUBU) then to_rd instr (λ a b, sub32 a b)
    else if op =? I_AND then to_rd instr (λ a b, Z.land a b)
    else if op =? I_OR then to_rd instr (λ a b, Z.lor a b)
    else if op =? I_XOR then to_rd instr (λ a b, Z.lxor a b)
    else if op =? I_NOR then to_rd instr (λ a b, Z.lnot (Z.lor a b))
    else if op =? I_SLT then to_rd instr (λ a b, Z.b2z (a <? b))
    else if op =? I_SLTU then to_rd instr (λ a b, Z.b2z (u32 a <? u32 b))
    else u).

(** [if (c) npc = xpc + 4 + (immed(instr)<<2)]. *)
Definition branch_if (c : bool) (instr xpc : Z) : M S unit :=
  when c (set_npc (add32 (add32 xpc 4) (shl32 (immed instr) 2))).

Definition bcond (instr xpc : Z) : M S (option Z) :=
  let op := rt instr in
  if op =? I_BLTZ then go (a ← reg (rs instr); branch_if (a <? 0) instr xpc)
  else if op =? I_BGEZ then go (a ← reg (rs instr); branch_if (0 <=? a) instr xpc)
  else if op =? I_BLTZAL then
    go (set_reg 31 (add32 xpc 8) ;; a ← reg (rs instr); branch_if (a <? 0) instr xpc)
  else if op =? I_BGEZAL then
    go (set_reg 31 (add32 xpc 8) ;; a ← reg (rs instr); branch_if (0 <=? a) instr xpc)
  else u.

Definition jump_target (instr xpc : Z) : Z :=
  s32 (Z.lor (Z.land (u32 xpc) 0xf0000000) (Z.shiftl (Z.land instr 0x03ffffff) 2)).

(** [Reg[rt(instr)] = f] of the register [rs]. *)
Definition to_rt (instr : Z) (f : Z → Z) : M S (option Z) :=
  go (a ← reg (rs instr); set_reg (rt instr) (f a)).

(** [Reg[rt(instr)] = access(Reg[rs(instr)] + immed(instr))]. *)
Definition load_to (instr : Z) (access : Z → M S Z) : M S (option Z) :=
  go (a ← reg (rs instr); v ← access (add32 a (immed instr)); set_reg (rt instr) v).
Definition store_from (instr : Z) (access : Z → Z → M S unit) : M S (option Z) :=
  go (a ← reg (rs instr); v ← reg (rt instr); access (add32 a (immed instr)) v).

Definition load_left (instr : Z) : M S unit :=
  a ← reg (rs instr);
  let i := add32 a (immed instr) in
  v ← reg (rt instr);
  set_reg (rt instr) (Z.land v (Z.shiftr (-1) (8 * Z.land (- i) 0x03))) ;;
  w ← fetch (Z.land (u32 i) 0xfffffffc);
  v ← reg (rt instr);
  set_reg (rt instr) (Z.lor v (shl32 w (8 * Z.land i 0x03))).

Definition load_right (instr : Z) : M S unit :=
  a ← reg (rs instr);
  let i := add32 a (immed instr) in
  v ← reg (rt instr);
  set_reg (rt instr) (Z.land v (shl32 (-1) (8 * Z.land i 0x03))) ;;
  when (Z.land i 0x03 =? 0) (set_reg (rt instr) 0) ;;
  w ← fetch (Z.land (u32 i) 0xfffffffc);
  v ← reg (rt instr);
  set_reg (rt instr) (Z.lor v (Z.shiftr w (8 * Z.land (- i) 0x03))).

Definition memory (instr op : Z) : M S (option Z) :=
  if op =? I_LB then load_to instr cfetch
  else if op =? I_LH then load_to instr sfetch
  else if op =? I_LWL then go (load_left instr)
  else if op =? I_LW then load_to instr fetch
  else if op =? I_LBU then load_to instr ucfetch
  else if op =? I_LHU then load_to instr usfetch
  else if op =? I_LWR then go (load_right instr)
  else if op =? I_SB then store_from instr cstore
  else if op =? I_SH then store_from instr sstore
  else if op =? I_SWL then u
  else if op =? I_SW then store_from instr store
  else if op =? I_SWR then u
  else if bool_decide (op ∈ [I_LWC0; I_LWC1; I_LWC2; I_LWC3; I_SWC0; I_SWC1; I_SWC2; I_SWC3;
                             I_COP0; I_COP1; I_COP2; I_COP3]) then exit 2
  else u.

(** [switch ((instr>>26) & 0x3f)]. *)
Definition instruction (instr xpc : Z) : M S (option Z) :=
  let op := Z.land (Z.shiftr instr 26) 0x3f in
  if op =? I_SPECIAL then special instr xpc
  else if op =? I_BCOND then bcond instr xpc
  else if op =? I_J then go (set_npc (jump_target instr xpc))
  else if op =? I_JAL then
    go (set_reg 31 (add32 xpc 8) ;; set_npc (jump_target instr xpc))
  else if op =? I_BEQ then
    go (a ← reg (rs instr); b ← reg (rt instr); branch_if (a =? b) instr xpc)
  else if op =? I_BNE then
    go (a ← reg (rs instr); b ← reg (rt instr); branch_if (negb (a =? b)) instr xpc)
  else if op =? I_BLEZ then go (a ← reg (rs instr); branch_if (a <=? 0) instr xpc)
  else if op =? I_BGTZ then go (a ← reg (rs instr); branch_if (0 <? a) instr xpc)
  else if (op =? I_ADDI) || (op =? I_ADDIU) then to_rt instr (λ a, add32 a (immed instr))
  else if op =? I_SLTI then to_rt instr (λ a, Z.b2z (a <? immed instr))
  else if op =? I_SLTIU then to_rt instr (λ a, Z.b2z (u32 a <? u32 (immed instr)))
  else if op =? I_ANDI then to_rt instr (λ a, Z.land a (immed instr))
  else if op =? I_ORI then to_rt instr (λ a, Z.lor a (immed instr))
  else if op =? I_XORI then to_rt instr (λ a, Z.lxor a (immed instr))
  else if op =? I_LUI then go (set_reg (rt instr) (shl32 instr 16))
  else memory instr op.

(** One round of the loop. *)
Definition round : M S (option Z) :=
  s ← get;
  let xpc := pc s in
  put (MkState (Reg s) (HI s) (LO s) (mem s) (npc s) (add32 (npc s) 4) (world s)) ;;
  instr ← fetch xpc;
  set_reg 0 0 ;;
  if negb (instr =? 0) then instruction instr xpc else mret None.

(** [n] rounds at most; the program ends with the code of [exit]. *)
Fixpoint rounds (n : nat) : M S Z :=
  match n with
  | O => fail OutOfFuel
  | Datatypes.S n' =>
      r ← round;
      match r with Some code => mret code | None => rounds n' end
  end.

(** The arguments, as strings of bytes without their terminator. *)
Fixpoint setup_args (aci ai : Z) (argv : list (list Z)) : M S unit :=
  match argv with
  | [] => mret tt
  | a :: argv =>
      store_bytes ai (a ++ [0]) ;;
      store aci ai ;;
      setup_args (add32 aci 4) (add32 ai (zlen a + 1)) argv
  end.

Definition runprogram (n : nat) (startpc : Z) (argv : list (list Z)) : M S Z :=
  modify (λ s, MkState (Reg s) (HI s) (LO s) (mem s) startpc (add32 startpc 4) (world s)) ;;
  let i := MEMSIZE - 1024 + memoffset in
  set_reg 29 i ;;
  store i (zlen argv) ;;
  let aci := add32 i 4 in
  setup_args aci (add32 aci 32) argv ;;
  rounds n.
End execute.

(** ** The debug aids of bin/execute.c *)

Definition ilog2_step (mask l : Z) (il : Z * Z) : Z * Z :=
  let j := s32 (Z.land (u32 il.1) mask) in
  if negb (j =? 0) then (j, il.2 + l) else il.

Definition ilog2 (i : Z) : Z :=
  if i =? 0 then 0
  else
    (ilog2_step 0xaaaaaaaa 1
      (ilog2_step 0xcccccccc 2
        (ilog2_step 0xf0f0f0f0 4
          (ilog2_step 0xff00ff00 8
            (ilog2_step 0xffff0000 16 (i, 1)))))).2.

(** *** Histograms *)

Definition NH : Z := 32.
Definition NNN : Z := 33.

Record Histograms := MkHistograms {
  hists : list (list Z);
  hoflo : list Z;
  htotal : list Z
}.

Definition Histograms_init : Histograms :=
  MkHistograms (replicate (Z.to_nat NH) (replicate (Z.to_nat NNN) 0))
    (replicate (Z.to_nat NH) 0) (replicate (Z.to_nat NH) 0).

(** [++l[i]]. *)
Definition increment (l : list Z) (i : Z) : res (list Z) :=
  v ← aread l i; awrite l i (add32 v 1).

Definition henters (n hist : Z) (h : Histograms) : res Histograms :=
  h ← (if (0 <=? n) && (n <? NNN) then
         row ← aread (hists h) hist;
         row ← increment row n;
         hs ← awrite (hists h) hist row;
         Ok (MkHistograms hs (hoflo h) (htotal h))
       else
         o ← increment (hoflo h) hist;
         Ok (MkHistograms (hists h) o (htotal h)));
  t ← increment (htotal h) hist;
  Ok (MkHistograms (hists h) (hoflo h) t).

Definition NNNN : Z := 64.

(** [hist], of [NNNN] elements. *)
Definition henter (n : Z) (hist : list Z) : res (list Z) :=
  if (0 <=? n) && (n <? NNNN) then increment hist n else Ok hist.
