(* ===== verification/ExecuteSpec.v ===== *)
(** * The two interpreters implement the same instructions

    machine/mipssim.cc and bin/execute.c decode and execute the same machine
    language with different code.  [Mips.alu] and [Mips.control] say what the
    architecture defines for the instructions that only compute and for the
    branches; here the interpreter of bin/execute.c is proved against them. *)
From S2P Require Import Prelude Word Machine Mips Execute.

(** ** Decoding *)

Lemma field_s32 w k n :
  0 ≤ k → 0 ≤ n → k + n ≤ 32 →
  Z.land (Z.shiftr (s32 w) k) (Z.ones n) = Z.land (Z.shiftr w k) (Z.ones n).
Proof.
  intros Hk Hn Hkn. apply Z.bits_inj'. intros j Hj. rewrite !Z.land_spec.
  destruct (decide (j < n)).
  - rewrite !Z.shiftr_spec, s32_testbit_low by lia. done.
  - by rewrite Z.ones_spec_high, !andb_false_r by lia.
Qed.

Lemma rd_s32 w : Execute.rd (s32 w) = Z.land (Z.shiftr w 11) 0x1f.
Proof. apply (field_s32 w 11 5); lia. Qed.
Lemma rt_s32 w : Execute.rt (s32 w) = Z.land (Z.shiftr w 16) 0x1f.
Proof. apply (field_s32 w 16 5); lia. Qed.
Lemma rs_s32 w : Execute.rs (s32 w) = Z.land (Z.shiftr w 21) 0x1f.
Proof. apply (field_s32 w 21 5); lia. Qed.
Lemma shamt_s32 w : shamt (s32 w) = Z.land (Z.shiftr w 6) 0x1f.
Proof. apply (field_s32 w 6 5); lia. Qed.
Lemma op_s32 w : Z.land (Z.shiftr (s32 w) 26) 0x3f = Z.land (Z.shiftr w 26) 0x3f.
Proof. apply (field_s32 w 26 6); lia. Qed.
Lemma low_s32 w n : 0 ≤ n ≤ 32 → Z.land (s32 w) (Z.ones n) = Z.land w (Z.ones n).
Proof. intros Hn. rewrite <- (Z.shiftr_0_r (s32 w)), <- (Z.shiftr_0_r w). apply (field_s32 w 0 n); lia. Qed.

(** The operand of the instructions with a constant, in both interpreters. *)
Definition sign_extended (w : Z) : Z := let m := w mod 2 ^ 16 in if m <? 2 ^ 15 then m else m - 2 ^ 16.

Lemma ctrue_bit15 w : ctrue (Z.land w 0x8000) = negb (w mod 2 ^ 16 <? 2 ^ 15).
Proof.
  change 0x8000 with (2 ^ 15). rewrite ctrue_land_bit, Z.testbit_eqb by done.
  change (2 ^ 15) with 32768. change (2 ^ 16) with 65536.
  case (Z.ltb_spec (w mod 65536) 32768); intros H; simpl; [apply Z.eqb_neq|apply Z.eqb_eq]; dlia.
Qed.

Lemma mod_mod_le a n m : 0 ≤ n ≤ m → (a mod 2 ^ m) mod 2 ^ n = a mod 2 ^ n.
Proof.
  intros H. rewrite <- !Z.land_ones by lia. rewrite <- Z.land_assoc. f_equal.
  apply Z.bits_inj'. intros j Hj. rewrite Z.land_spec, !Z.testbit_ones by lia. lia.
Qed.

Lemma immed_s32 w : immed (s32 w) = sign_extended w.
Proof.
  assert ((s32 w) mod 2 ^ 16 = w mod 2 ^ 16) as H16.
  { rewrite <- (mod_mod_le _ 16 32), s32_mod, mod_mod_le by lia. done. }
  unfold immed. rewrite ctrue_bit15. unfold sign_extended. rewrite H16.
  destruct (w mod 2 ^ 16 <? 2 ^ 15) eqn:E; simpl negb; cbv iota.
  - change 0x7fff with (Z.ones 15). rewrite Z.land_ones by done.
    rewrite <- (mod_mod_le (s32 w) 15 16), H16, Z.mod_small; [done| |lia].
    pose proof (Z.mod_pos_bound w (2 ^ 16)). lia.
  - change (- 0x8000) with (Z.lnot (Z.ones 15)).
    rewrite <- (Z.lnot_involutive (s32 w)), <- Z.lnot_land, Z.land_ones by done.
    rewrite <- (mod_mod_le (Z.lnot (s32 w)) 15 16) by lia.
    replace (Z.lnot (s32 w) mod 2 ^ 16) with (2 ^ 16 - 1 - w mod 2 ^ 16).
    + pose proof (Z.mod_pos_bound w (2 ^ 16) eq_refl). unfold Z.lnot.
      rewrite Z.mod_small; lia.
    + rewrite <- H16. unfold Z.lnot. change (2 ^ 16) with 65536. dlia.
Qed.

Lemma extra_IFMT w :
  (let extra := Z.land w 0xffff in
   if ctrue (Z.land extra 0x8000) then s32 (Z.lor extra 0xffff0000) else extra) = sign_extended w.
Proof.
  cbv zeta. change 0xffff with (Z.ones 16). rewrite Z.land_ones, ctrue_bit15, Z.mod_mod by done.
  unfold sign_extended. pose proof (Z.mod_pos_bound w (2 ^ 16) eq_refl) as Hm.
  destruct (w mod 2 ^ 16 <? 2 ^ 15) eqn:E; [done|]. simpl negb. cbv iota.
  change 0xffff0000 with (0xffff * 2 ^ 16). rewrite lor_add by done.
  rewrite <- (s32_id (w mod 2 ^ 16 - 2 ^ 16)) by (unfold in_s32; lia). apply s32_eq_mod.
  rewrite <- (Z_mod_plus_full (w mod 2 ^ 16 - 2 ^ 16) 1 (2 ^ 32)). f_equal. lia.
Qed.

(** The tests on known operation codes, and the entries of the tables. *)
Ltac number t := lazymatch t with Z0 => idtac | Zpos _ => idtac | _ => is_const t end.
Ltac known H :=
  repeat match type of H with
  | context [aread ?t ?k] =>
      number k; let r := eval vm_compute in (aread t k) in change (aread t k) with r in H
  | context [?x =? ?y] =>
      number x; number y; let r := eval vm_compute in (x =? y) in change (x =? y) with r in H
  end; cbn [mbind res_bind orb] in H.
Ltac known_goal :=
  repeat match goal with
  | |- context [?x =? ?y] =>
      number x; number y; let r := eval vm_compute in (x =? y) in change (x =? y) with r
  end; cbn [orb].
Ltac six x :=
  let o := fresh "o" in
  pose proof (land_ones_range x 6 ltac:(done));
  change (Z.ones 6) with 0x3f in *; set (o := Z.land x 0x3f) in *; clearbody o;
  destruct o as [|o|o]; [|
    repeat match goal with p : positive |- _ => destruct p as [p|p|]; try (exfalso; lia) end
    |exfalso; lia].

(** ** One round *)

Section rounds.
Context {W : Type} `{!Host W}.
#[local] Abbreviation S := (Execute.State W).
Implicit Types s : S.

Definition regs_ok (r : list Z) : Prop := zlen r = 32 ∧ Forall in_s32 r.

(** The word at the program counter, unsigned. *)
Definition fetches_word s (w : Z) : Prop :=
  ∃ o, offset (pc s) 4 = Ok o ∧ w = of_le (bytes_at (mem s) o 4) ∧ in_u32 w.

Definition with_reg (f : list Z → list Z) s : S :=
  MkState (f (Execute.Reg s)) (HI s) (LO s) (mem s) (pc s) (npc s) (world s).
Definition with_npc (t : Z) s : S :=
  MkState (Execute.Reg s) (HI s) (LO s) (mem s) (pc s) t (world s).

(** The state in which an instruction is executed. *)
Definition advanced s : S :=
  MkState (<[0%nat := 0]> (Execute.Reg s)) (HI s) (LO s) (mem s) (npc s) (add32 (npc s) 4) (world s).

Lemma reg_in_range s r v : aget (Execute.Reg s) r = Some v → Execute.reg r s = Ok (v, s).
Proof. intros H. unfold Execute.reg, get, lift, mbind, M_bind. apply aread_Ok in H. by rewrite H. Qed.

Lemma set_reg_Ok' s r v : zlen (Execute.Reg s) = 32 → 0 ≤ r < 32 →
  Execute.set_reg r v s = Ok (tt, with_reg <[Z.to_nat r := v]> s).
Proof.
  intros Hl Hr. unfold Execute.set_reg, get, lift, put, mbind, M_bind.
  by rewrite awrite_total by lia.
Qed.

Lemma round_fetched s w :
  fetches_word s w → zlen (Execute.Reg s) = 32 →
  round s = (if negb (s32 w =? 0) then instruction (s32 w) (pc s) (advanced s)
             else Ok (None, advanced s)).
Proof.
  intros (o & Ho & -> & _) Hl. unfold round, get, put, mbind, M_bind. cbv beta iota zeta.
  unfold fetch, load, lift, gets, mbind, M_bind. rewrite Ho. cbn [Execute.mem mret M_ret].
  unfold mret, M_ret. rewrite set_reg_Ok' by (done || lia). unfold with_reg. simpl.
  by destruct (s32 _ =? 0).
Qed.

Lemma to_rd_Ok s w f a b :
  zlen (Execute.Reg s) = 32 → aget (Execute.Reg s) (Execute.rs (s32 w)) = Some a →
  aget (Execute.Reg s) (Execute.rt (s32 w)) = Some b →
  to_rd (s32 w) f s = Ok (None, with_reg <[Z.to_nat (Execute.rd (s32 w)) := f a b]> s).
Proof.
  intros Hl Ha%reg_in_range Hb%reg_in_range. unfold to_rd, go. rewrite M_bind_assoc.
  rewrite (M_bind_step _ _ _ _ _ Ha), M_bind_assoc, (M_bind_step _ _ _ _ _ Hb).
  rewrite (M_bind_step _ _ s tt (with_reg <[Z.to_nat (Execute.rd (s32 w)) := f a b]> s)); [done|].
  apply set_reg_Ok'; [done|]. unfold Execute.rd. apply (land_ones_range _ 5); lia.
Qed.

Lemma to_rt_Ok s w f a :
  zlen (Execute.Reg s) = 32 → aget (Execute.Reg s) (Execute.rs (s32 w)) = Some a →
  to_rt (s32 w) f s = Ok (None, with_reg <[Z.to_nat (Execute.rt (s32 w)) := f a]> s).
Proof.
  intros Hl Ha%reg_in_range. unfold to_rt, go. rewrite M_bind_assoc.
  rewrite (M_bind_step _ _ _ _ _ Ha).
  rewrite (M_bind_step _ _ s tt (with_reg <[Z.to_nat (Execute.rt (s32 w)) := f a]> s)); [done|].
  apply set_reg_Ok'; [done|]. unfold Execute.rt. apply (land_ones_range _ 5); lia.
Qed.

(** A case distinction over the values of a field of six bits. *)
Lemma six_bits x (P : Z → Prop) :
  Forall P (seqZ 0 64) → P (Z.land x 0x3f).
Proof.
  intros H. rewrite list.Forall_forall in H. apply H, elem_of_seqZ.
  pose proof (land_ones_range x 6 ltac:(done)) as Hx. change (Z.ones 6) with 0x3f in Hx. lia.
Qed.

(** The instructions of [Mips.alu] and their operation codes, as the tables
    of machine/mipssim.cc and the cases of bin/execute.c have them. *)
Definition signed_immediate (i : Instruction) : Prop :=
  opCode i ∈ [OP_ANDI; OP_ORI; OP_XORI] → 0 ≤ extra i.

Lemma Decode_word w i : Decode w = Ok i →
  Mips.rs i = Execute.rs (s32 w) ∧ Mips.rt i = Execute.rt (s32 w) ∧ Mips.rd i = Execute.rd (s32 w).
Proof.
  rewrite rs_s32, rt_s32, rd_s32. unfold Decode. cbv zeta.
  destruct (aread opTable _) as [[op fm]|]; [|done]. simpl.
  destruct (if op =? SPECIAL then _ else _) as [op'|]; [|done]. simpl. by intros [= <-].
Qed.

Lemma instruction_special s w xpc i a b d v :
  Z.land (Z.shiftr w 26) 0x3f = I_SPECIAL → Decode w = Ok i →
  zlen (Execute.Reg s) = 32 → in_s32 a → in_s32 b →
  aget (Execute.Reg s) (Mips.rs i) = Some a → aget (Execute.Reg s) (Mips.rt i) = Some b →
  alu i a b = Some (d, v) →
  special (s32 w) xpc s = Ok (None, with_reg <[Z.to_nat d := v]> s).
Proof.
  intros Ho HD Hl Ha' Hb' Ha Hb Halu.
  destruct (Decode_word w i HD) as (Hrs & Hrt & Hrd). rewrite Hrs in Ha. rewrite Hrt in Hb.
  unfold Decode in HD. rewrite Ho in HD. known HD. cbv zeta in HD.
  rewrite <- rs_s32, <- rt_s32, <- rd_s32, <- shamt_s32 in HD.
  unfold special, div_mul. change 0x3f with (Z.ones 6). rewrite low_s32 by lia.
  change (Z.ones 6) with 0x3f. 
  pose proof (Z.mod_pos_bound a 32 eq_refl) as Hmod.
  assert (0 ≤ shamt (s32 w)) as Hsh by (unfold shamt; apply (land_ones_range _ 5); lia).
  six w; known HD; injection HD as <-; unfold alu in Halu; cbn [opCode extra Mips.rd Mips.rt] in Halu;
    known Halu; try discriminate Halu; injection Halu as <- <-; known_goal;
    rewrite (to_rd_Ok s w _ a b Hl Ha Hb); do 4 f_equal;
    unfold add32, sub32, shl32;
    rewrite ?(land_31 a), ?Z.shiftl_mul_pow2, ?Z.shiftr_div_pow2 by lia;
    first [done | unfold Z.lnot; lia].
Qed.

Lemma sign_extended_cases w :
  sign_extended w mod 2 ^ 16 = w mod 2 ^ 16 ∧ (0 ≤ sign_extended w → sign_extended w = sign_extended w mod 2 ^ 16).
Proof.
  unfold sign_extended. change (2 ^ 16) with 65536. change (2 ^ 15) with 32768.
  destruct (w mod 65536 <? 32768) eqn:E; dlia.
Qed.

Lemma lui_s32 w : shl32 (s32 w) 16 = s32 (sign_extended w * 2 ^ 16).
Proof.
  unfold shl32. rewrite Z.shiftl_mul_pow2 by done. apply s32_eq_mod.
  change (2 ^ 32) with (2 ^ 16 * 2 ^ 16). rewrite !Z.mul_mod_distr_r by done. f_equal.
  rewrite (proj1 (sign_extended_cases w)), <- (mod_mod_le (s32 w) 16 32), s32_mod, mod_mod_le by lia.
  done.
Qed.

(** The instructions that only compute. *)
Lemma instruction_alu s w xpc i a b d v :
  Decode w = Ok i → zlen (Execute.Reg s) = 32 → in_s32 a → in_s32 b →
  aget (Execute.Reg s) (Mips.rs i) = Some a → aget (Execute.Reg s) (Mips.rt i) = Some b →
  alu i a b = Some (d, v) → signed_immediate i →
  instruction (s32 w) xpc s = Ok (None, with_reg <[Z.to_nat d := v]> s).
Proof.
  intros HD Hl Ha' Hb' Ha Hb Halu Hsi.
  unfold instruction. cbv zeta. rewrite op_s32.
  destruct (Z.eqb_spec (Z.land (Z.shiftr w 26) 0x3f) I_SPECIAL) as [Ho|Ho].
  { by apply (instruction_special s w xpc i a b d v). }
  destruct (Decode_word w i HD) as (Hrs & Hrt & Hrd). rewrite Hrs in Ha. rewrite Hrt in Hb.
  pose proof (sign_extended_cases w) as [Hse1 Hse2].
  unfold Decode in HD. cbv zeta in HD. rewrite extra_IFMT in HD.
  rewrite <- rs_s32, <- rt_s32, <- rd_s32, <- shamt_s32 in HD.
  set (o := Z.land (Z.shiftr w 26) 0x3f) in *.
  pose proof (land_ones_range (Z.shiftr w 26) 6 ltac:(done)) as Hor. change (Z.ones 6) with 0x3f in Hor.
  fold o in Hor. clearbody o.
  destruct o as [|o|o]; [by destruct Ho|
    repeat match goal with p : positive |- _ => destruct p as [p|p|]; try (exfalso; lia) end
    |exfalso; lia].
  all: known HD; try (injection HD as <-).
  all: try (unfold alu in Halu; cbn [opCode extra Mips.rd Mips.rt] in Halu; known Halu; discriminate Halu).
  8: { exfalso. clear - Halu. revert Halu.
    repeat match goal with |- context [Z.land w 0x1f0000 =? ?k] => destruct (Z.land w 0x1f0000 =? k) end;
    discriminate. }
  all: unfold alu in Halu; cbn [opCode extra Mips.rd Mips.rt] in Halu; known Halu; injection Halu as <- <-;
    known_goal.
  1: { (* LUI *)
    rewrite <- lui_s32. unfold go.
    rewrite (M_bind_step _ _ s tt (with_reg <[Z.to_nat (Execute.rt (s32 w)) := shl32 (s32 w) 16]> s)); [done|].
    apply set_reg_Ok'; [done|]. unfold Execute.rt. apply (land_ones_range _ 5); lia. }
  all: rewrite (to_rt_Ok s w _ a Hl Ha), immed_s32; do 4 f_equal; try done.
  all: rewrite <- Hse2; [done|]; apply Hsi; cbn [opCode]; by repeat constructor.
Qed.

(** *** Branches and jumps *)

Lemma bcond_field w : Z.land w 0x1f0000 = Execute.rt (s32 w) * 65536.
Proof.
  rewrite rt_s32. change 0x1f0000 with (Z.shiftl (Z.ones 5) 16). rewrite land_field by done.
  change 0x1f with (Z.ones 5). by rewrite Z.land_ones, Z.shiftr_div_pow2.
Qed.

Lemma jump_target_s32 w xpc next :
  Z.land (u32 xpc) 0xf0000000 = Z.land (u32 next) 0xf0000000 →
  jump_target (s32 w) xpc
  = s32 (Z.lor (Z.land (u32 next) 0xf0000000) (shl32 (Z.land w 0x3ffffff) 2)).
Proof.
  intros H. unfold jump_target, shl32. rewrite H. change 0x03ffffff with (Z.ones 26).
  rewrite low_s32 by lia. do 2 f_equal. symmetry. apply s32_id.
  pose proof (land_ones_range w 26 ltac:(done)). rewrite Z.shiftl_mul_pow2 by done.
  unfold in_s32. lia.
Qed.

Lemma set_npc_Ok s t : set_npc t s = Ok (tt, with_npc t s).
Proof. done. Qed.
Lemma branch_if_Ok s c w xpc next t :
  next = add32 xpc 4 → npc s = add32 next 4 →
  t = (if c : bool then add32 next (shl32 (sign_extended w) 2) else add32 next 4) →
  branch_if c (s32 w) xpc s = Ok (tt, with_npc t s).
Proof.
  intros -> Hn ->. unfold branch_if. rewrite immed_s32. destruct c; [done|].
  simpl. unfold mret, M_ret, with_npc. rewrite <- Hn. by destruct s.
Qed.
Lemma link_Ok s r : zlen (Execute.Reg s) = 32 → 0 ≤ r < 32 → ∀ v,
  Execute.set_reg r v s = Ok (tt, with_reg <[Z.to_nat r := v]> s).
Proof. intros. by apply set_reg_Ok'. Qed.

Lemma add32_8 xpc next : next = add32 xpc 4 → add32 xpc 8 = add32 next 4.
Proof.
  intros ->. unfold add32. apply s32_eq_mod. rewrite <- (Zplus_mod_idemp_l (s32 _)), s32_mod, Zplus_mod_idemp_l.
  f_equal. lia.
Qed.

(** The registers that [control] links. *)
Definition linked (writes : list (Z * Z)) (r : list Z) : list Z :=
  foldl (λ r p, <[Z.to_nat p.1 := p.2]> r) r writes.

Lemma with_reg_id s : with_reg (linked []) s = s.
Proof. by destruct s. Qed.

(** A branch, behind the link if there is one. *)
Lemma go_branch s1 s w xpc next c t a (test : Z → bool) :
  next = add32 xpc 4 → npc s1 = add32 next 4 → Execute.reg (Execute.rs (s32 w)) s1 = Ok (a, s1) →
  test a = c →
  t = (if c : bool then add32 next (shl32 (sign_extended w) 2) else add32 next 4) →
  s = with_npc t s1 →
  go (a ← Execute.reg (Execute.rs (s32 w)); branch_if (test a) (s32 w) xpc) s1 = Ok (None, s).
Proof.
  intros Hn Hs Ha <- Ht ->. unfold go. rewrite M_bind_assoc, (M_bind_step _ _ _ _ _ Ha).
  by rewrite (M_bind_step _ _ _ _ _ (branch_if_Ok _ _ _ _ _ _ Hn Hs Ht)).
Qed.

Section control.
Context (s : S) (w xpc next a b : Z) (i : Instruction).
Hypothesis (HD : Decode w = Ok i) (Hl : zlen (Execute.Reg s) = 32).
Hypothesis (Hnext : next = add32 xpc 4) (Hnpc : npc s = add32 next 4).
Hypothesis (Ha : aget (Execute.Reg s) (Mips.rs i) = Some a).
Hypothesis (Hb : aget (Execute.Reg s) (Mips.rt i) = Some b).

Lemma special_control writes target :
  Z.land (Z.shiftr w 26) 0x3f = I_SPECIAL → control i next a b = Some (writes, target) →
  special (s32 w) xpc s = Ok (None, with_npc target (with_reg (linked writes) s)).
Proof.
  intros Ho Hc. destruct (Decode_word w i HD) as (Hrs & Hrt & Hrd). rewrite Hrs in Ha.
  apply reg_in_range in Ha. clear Hrs Hb.
  revert HD. intros HD'. unfold Decode in HD'. rewrite Ho in HD'. known HD'. cbv zeta in HD'.
  unfold special, div_mul. change 0x3f with (Z.ones 6). rewrite low_s32 by lia.
  change (Z.ones 6) with 0x3f.
  six w; known HD'; injection HD' as <-; unfold control in Hc; cbn [opCode extra Mips.rd Mips.rt] in Hc;
    cbv zeta in Hc; known Hc; try discriminate Hc; injection Hc as <- <-; known_goal; unfold go;
    rewrite M_bind_assoc, (M_bind_step _ _ _ _ _ Ha); cbv beta.
  - rewrite M_bind_assoc, (M_bind_step _ _ _ _ _ (set_npc_Ok s a)).
    rewrite (add32_8 _ _ Hnext).
    rewrite (M_bind_step _ _ _ _ _ (link_Ok (with_npc a s) (Execute.rd (s32 w)) Hl
      ltac:(unfold Execute.rd; apply (land_ones_range _ 5); lia) _)).
    rewrite rd_s32. done.
  - by rewrite (M_bind_step _ _ _ _ _ (set_npc_Ok s a)), with_reg_id.
Qed.

Lemma bcond_control writes target :
  Z.land (Z.shiftr w 26) 0x3f = I_BCOND → control i next a b = Some (writes, target) →
  (∀ p, p ∈ writes → p.1 ≠ Mips.rs i) →
  bcond (s32 w) xpc s = Ok (None, with_npc target (with_reg (linked writes) s)).
Proof.
  intros Ho Hc Hne. destruct (Decode_word w i HD) as (Hrs & Hrt & Hrd). rewrite Hrs in Ha, Hne.
  revert HD. intros HD'. unfold Decode in HD'. rewrite Ho in HD'. known HD'. cbv zeta in HD'.
  rewrite bcond_field, extra_IFMT in HD'. clear Hrt Hrd Hrs Hb.
  pose proof (land_ones_range (Z.shiftr (s32 w) 16) 5 ltac:(done)) as Hr. fold (Execute.rt (s32 w)) in Hr.
  change (Z.land (Z.shiftr (s32 w) 16) (Z.ones 5)) with (Execute.rt (s32 w)) in Hr.
  unfold bcond. set (r := Execute.rt (s32 w)) in *. clearbody r.
  unfold control in Hc. cbv zeta in Hc.
  replace (r * 65536 =? 0) with (r =? 0) in HD' by lia.
  replace (r * 65536 =? 0x10000) with (r =? 1) in HD' by lia.
  replace (r * 65536 =? 0x100000) with (r =? 16) in HD' by lia.
  replace (r * 65536 =? 0x110000) with (r =? 17) in HD' by lia.
  change I_BLTZ with 0. change I_BGEZ with 1. change I_BLTZAL with 16. change I_BGEZAL with 17.
  destruct (r =? 0); [|destruct (r =? 1); [|destruct (r =? 16); [|destruct (r =? 17)]]];
    injection HD' as <-; cbn [opCode extra Mips.rs Mips.rd Mips.rt] in Hc, Ha, Hne; known Hc;
    try discriminate Hc; injection Hc as <- <-.
  - rewrite with_reg_id. eapply (go_branch s _ w xpc next (a <? 0) _ a (λ a, a <? 0)); try done. by apply reg_in_range.
  - rewrite with_reg_id. eapply (go_branch s _ w xpc next (0 <=? a) _ a (λ a, 0 <=? a)); try done. by apply reg_in_range.
  - pose proof (Hne _ ltac:(left)) as HR. cbn [fst] in HR. unfold go. rewrite M_bind_assoc.
    rewrite (add32_8 _ _ Hnext), (M_bind_step _ _ _ _ _ (link_Ok s 31 Hl ltac:(lia) _)).
    eapply (go_branch _ _ w xpc next (a <? 0) _ a (λ a, a <? 0)); try done. apply reg_in_range. simpl.
    by rewrite (aget_insert_ne _ 31) by (lia || done).
  - pose proof (Hne _ ltac:(left)) as HR. cbn [fst] in HR. unfold go. rewrite M_bind_assoc.
    rewrite (add32_8 _ _ Hnext), (M_bind_step _ _ _ _ _ (link_Ok s 31 Hl ltac:(lia) _)).
    eapply (go_branch _ _ w xpc next (0 <=? a) _ a (λ a, 0 <=? a)); try done. apply reg_in_range. simpl.
    by rewrite (aget_insert_ne _ 31) by (lia || done).
Qed.

(** A branch that reads both registers. *)
Lemma go_branch2 c test t :
  Execute.reg (Execute.rs (s32 w)) s = Ok (a, s) → Execute.reg (Execute.rt (s32 w)) s = Ok (b, s) →
  test a b = c → t = (if c : bool then add32 next (shl32 (sign_extended w) 2) else add32 next 4) →
  go (a ← Execute.reg (Execute.rs (s32 w)); b ← Execute.reg (Execute.rt (s32 w));
      branch_if (test a b) (s32 w) xpc) s = Ok (None, with_npc t s).
Proof.
  intros Ha' Hb' <- Ht. unfold go. rewrite M_bind_assoc, (M_bind_step _ _ _ _ _ Ha').
  cbv beta. rewrite M_bind_assoc, (M_bind_step _ _ _ _ _ Hb').
  by rewrite (M_bind_step _ _ _ _ _ (branch_if_Ok _ _ _ _ _ _ Hnext Hnpc Ht)).
Qed.

Lemma instruction_control writes target :
  control i next a b = Some (writes, target) → (∀ p, p ∈ writes → p.1 ≠ Mips.rs i) →
  (opCode i ∈ [OP_J; OP_JAL] → Z.land (u32 xpc) 0xf0000000 = Z.land (u32 next) 0xf0000000) →
  instruction (s32 w) xpc s = Ok (None, with_npc target (with_reg (linked writes) s)).
Proof.
  intros Hc Hne Hj. unfold instruction. cbv zeta. rewrite op_s32.
  destruct (Z.eqb_spec (Z.land (Z.shiftr w 26) 0x3f) I_SPECIAL) as [Ho|Ho]; [by apply special_control|].
  destruct (Z.eqb_spec (Z.land (Z.shiftr w 26) 0x3f) I_BCOND) as [Ho1|Ho1]; [by apply bcond_control|].
  destruct (Decode_word w i HD) as (Hrs & Hrt & Hrd). rewrite Hrs in Ha. rewrite Hrt in Hb.
  apply reg_in_range in Ha, Hb. clear Hrs Hrt Hrd Hne.
  revert HD. intros HD'. unfold Decode in HD'. cbv zeta in HD'. rewrite extra_IFMT in HD'.
  rewrite <- rs_s32, <- rt_s32, <- rd_s32, <- shamt_s32 in HD'.
  set (o := Z.land (Z.shiftr w 26) 0x3f) in *.
  pose proof (land_ones_range (Z.shiftr w 26) 6 ltac:(done)) as Hor. change (Z.ones 6) with 0x3f in Hor.
  fold o in Hor. clearbody o.
  destruct o as [|o|o]; [by destruct Ho|
    repeat match goal with p : positive |- _ => destruct p as [p|p|]; try (exfalso; lia) end
    |exfalso; lia].
  all: try (by destruct Ho1).
  all: known HD'; injection HD' as <-.
  all: unfold control in Hc; cbn [opCode extra Mips.rd Mips.rt Mips.rs] in Hc, Hj; cbv zeta in Hc; known Hc;
    try discriminate Hc; injection Hc as <- <-; known_goal.
  all: rewrite ?with_reg_id.
  - by eapply (go_branch s _ w xpc next (0 <? a) _ a (λ a, 0 <? a)).
  - eapply (go_branch2 _ (λ a b, negb (a =? b))); [done|done|reflexivity|]. by destruct (a =? b).
  - rewrite <- (jump_target_s32 w xpc next) by (apply Hj; by repeat constructor).
    unfold go. rewrite M_bind_assoc, (add32_8 _ _ Hnext).
    by rewrite (M_bind_step _ _ _ _ _ (link_Ok s 31 Hl ltac:(lia) _)).
  - by eapply (go_branch s _ w xpc next (a <=? 0) _ a (λ a, a <=? 0)).
  - by eapply (go_branch2 _ (λ a b, a =? b)).
  - by rewrite <- (jump_target_s32 w xpc next) by (apply Hj; by repeat constructor).
Qed.
End control.

(** The register 0 reads as 0, and every register holds an [int]. *)
Definition operands s (i : Instruction) (a b : Z) : Prop :=
  aget (<[0%nat := 0]> (Execute.Reg s)) (Mips.rs i) = Some a
  ∧ aget (<[0%nat := 0]> (Execute.Reg s)) (Mips.rt i) = Some b.

Lemma regs_ok_get r k v : regs_ok r → aget r k = Some v → in_s32 v.
Proof. intros [_ Hr]. unfold aget. case_match; [|done]. intros Hv. by eapply list.Forall_lookup_1. Qed.

Lemma regs_ok_0 r : regs_ok r → regs_ok (<[0%nat := 0]> r).
Proof.
  intros [Hl Hr]. split; [unfold zlen in *; by rewrite length_insert|].
  by apply list.Forall_insert.
Qed.


(** *** The constants of the logical operations *)

(** What the architecture and what this interpreter compute for [ANDI], [ORI]
    and [XORI] with a constant whose bit 15 is set. *)
Lemma eq_iff_high x y :
  Z.land x (Z.ones 16) = Z.land y (Z.ones 16) → x = y ↔ Z.shiftr x 16 = Z.shiftr y 16.
Proof.
  rewrite !Z.land_ones, !Z.shiftr_div_pow2 by done. intros H. split; [by intros ->|]. intros Hd.
  rewrite (Z_div_mod_eq_full x (2 ^ 16)), (Z_div_mod_eq_full y (2 ^ 16)). by rewrite H, Hd.
Qed.

Lemma land_high a m k : Z.land (Z.land a m) k = Z.land (Z.land a k) (Z.land m k).
Proof. apply Z.bits_inj'. intros j _. rewrite !Z.land_spec. by repeat destruct (Z.testbit _ _). Qed.
Lemma lor_high a m k : Z.land (Z.lor a m) k = Z.lor (Z.land a k) (Z.land m k).
Proof. apply Z.bits_inj'. intros j _. rewrite ?Z.lor_spec, ?Z.land_spec, ?Z.lor_spec, ?Z.land_spec. by repeat destruct (Z.testbit _ _). Qed.
Lemma lxor_high a m k : Z.land (Z.lxor a m) k = Z.lxor (Z.land a k) (Z.land m k).
Proof. apply Z.bits_inj'. intros j _. rewrite ?Z.lxor_spec, ?Z.land_spec, ?Z.lxor_spec, ?Z.land_spec. by repeat destruct (Z.testbit _ _). Qed.

Lemma low16_mod m : Z.land (m mod 2 ^ 16) (Z.ones 16) = Z.land m (Z.ones 16).
Proof. by rewrite !Z.land_ones, Z.mod_mod. Qed.

Lemma negative_immediate a imm :
  in_s32 a → - 2 ^ 15 ≤ imm < 0 →
  (Z.land a imm = Z.land a (imm mod 2 ^ 16) ↔ 0 ≤ a < 2 ^ 16)
  ∧ (Z.lor a imm = Z.lor a (imm mod 2 ^ 16) ↔ - 2 ^ 16 ≤ a < 0)
  ∧ Z.lxor a imm ≠ Z.lxor a (imm mod 2 ^ 16).
Proof.
  intros Ha Hi.
  assert (Z.shiftr imm 16 = -1) as H1 by (rewrite Z.shiftr_div_pow2 by done; change (2 ^ 16) with 65536; dlia).
  assert (Z.shiftr (imm mod 2 ^ 16) 16 = 0) as H2.
  { rewrite Z.shiftr_div_pow2 by done. change (2 ^ 16) with 65536. dlia. }
  pose proof (Z_div_mod_eq_full a (2 ^ 16)) as Hda. pose proof (Z.mod_pos_bound a (2 ^ 16) eq_refl) as Hma.
  split; [|split].
  - rewrite eq_iff_high by (by rewrite (land_high a imm), (land_high a (imm mod 2 ^ 16)), low16_mod).
    rewrite !Z.shiftr_land, H1, H2, Z.land_m1_r, Z.land_0_r, Z.shiftr_div_pow2 by done.
    clear - Hda Hma. lia.
  - rewrite eq_iff_high by (by rewrite (lor_high a imm), (lor_high a (imm mod 2 ^ 16)), low16_mod).
    rewrite !Z.shiftr_lor, H1, H2, Z.lor_m1_r, Z.lor_0_r, Z.shiftr_div_pow2 by done.
    clear - Hda Hma. lia.
  - intros H. rewrite eq_iff_high in H by (by rewrite (lxor_high a imm), (lxor_high a (imm mod 2 ^ 16)), low16_mod).
    rewrite !Z.shiftr_lxor, H1, H2, Z.lxor_m1_r, Z.lxor_0_r in H. unfold Z.lnot in H. lia.
Qed.

(** The instruction writes what [alu_here] says. *)
Definition alu_here (i : Instruction) (a : Z) : Z :=
  if opCode i =? OP_ANDI then Z.land a (extra i)
  else if opCode i =? OP_ORI then Z.lor a (extra i) else Z.lxor a (extra i).

Lemma instruction_immediate s w xpc i a :
  Decode w = Ok i → zlen (Execute.Reg s) = 32 → aget (Execute.Reg s) (Mips.rs i) = Some a →
  opCode i ∈ [OP_ANDI; OP_ORI; OP_XORI] →
  instruction (s32 w) xpc s = Ok (None, with_reg <[Z.to_nat (Mips.rt i) := alu_here i a]> s)
  ∧ - 2 ^ 15 ≤ extra i.
Proof.
  intros HD Hl Ha Hop. unfold instruction. cbv zeta. rewrite op_s32.
  destruct (Decode_word w i HD) as (Hrs & Hrt & _). rewrite Hrs in Ha. rewrite Hrt. clear Hrs Hrt.
  unfold Decode in HD. cbv zeta in HD. rewrite extra_IFMT in HD.
  assert (- 2 ^ 15 ≤ sign_extended w) as Hmin.
  { unfold sign_extended. pose proof (Z.mod_pos_bound w (2 ^ 16) eq_refl).
    destruct (w mod 2 ^ 16 <? 2 ^ 15) eqn:E; lia. }
  rewrite !elem_of_cons, elem_of_nil in Hop.
  set (o := Z.land (Z.shiftr w 26) 0x3f) in *.
  pose proof (land_ones_range (Z.shiftr w 26) 6 ltac:(done)) as Hor. change (Z.ones 6) with 0x3f in Hor.
  fold o in Hor.
  assert (o ≠ I_SPECIAL) as Hs.
  { intros Ho. rewrite Ho in HD. known HD. clear Hor Ho. clearbody o.
    six w; known HD; injection HD as <-; cbn [opCode] in Hop;
      by destruct Hop as [Hop|[Hop|[Hop|[]]]]. }
  clearbody o. destruct o as [|o|o]; [by destruct Hs|
    repeat match goal with p : positive |- _ => destruct p as [p|p|]; try (exfalso; lia) end
    |exfalso; lia].
  all: known HD.
  all: try lazymatch type of HD with context [0x1f0000] =>
    exfalso; clear - HD Hop; injection HD as <-; cbn [opCode] in Hop; revert Hop;
    repeat match goal with |- context [Z.land ?x 0x1f0000 =? ?k] => destruct (Z.land x 0x1f0000 =? k) end;
    by intros [Hop|[Hop|[Hop|[]]]] end.
  all: injection HD as <-; cbn [opCode extra] in Hop |- *;
    try (exfalso; clear - Hop; destruct Hop as [Hop|[Hop|[Hop|[]]]]; vm_compute in Hop; discriminate Hop);
    known_goal; (split; [|done]); rewrite (to_rt_Ok s w _ a Hl Ha), immed_s32; done.
Qed.

(** C40.  The constants of [ANDI], [ORI] and [XORI] should be
    extended with zeros; bin/execute.c extends their sign.  So with a constant
    of [2^15] or more [ANDI] is right only for operands below [2^16], [ORI]
    only for operands whose upper half is all ones, and [XORI] never. *)
Theorem immediate_wrong s w i a b
    (Hr : regs_ok (Execute.Reg s)) (Hw : fetches_word s w) (Hi : Decode w = Ok i)
    (Hab : operands s i a b) (Hop : opCode i ∈ [OP_ANDI; OP_ORI; OP_XORI]) (Hneg : extra i < 0) :
  ∃ v x, round s = Ok (None, with_reg <[Z.to_nat (Mips.rt i) := v]> (advanced s))
    ∧ alu i a b = Some (Mips.rt i, x)
    ∧ (v = x ↔ if opCode i =? OP_ANDI then 0 ≤ a < 2 ^ 16
               else if opCode i =? OP_ORI then - 2 ^ 16 ≤ a < 0 else False).
Proof.
  destruct (regs_ok_0 _ Hr) as [Hl _]. destruct Hab as [Ha Hb].
  assert (in_s32 a) as Has by (eapply regs_ok_get; [by apply regs_ok_0|exact Ha]).
  destruct (instruction_immediate (advanced s) w (pc s) i a Hi Hl Ha Hop) as [Hrun Hmin].
  destruct (negative_immediate a (extra i) Has ltac:(lia)) as (H1 & H2 & H3).
  rewrite (round_fetched s w Hw (proj1 Hr)).
  replace (s32 w =? 0) with false; simpl negb; cbv iota.
  - exists (alu_here i a). rewrite Hrun. unfold alu_here, alu. clear - Hop H1 H2 H3.
    rewrite !elem_of_cons, elem_of_nil in Hop.
    destruct Hop as [E|[E|[E|[]]]]; rewrite E; eexists; (split; [done|]); (split; [reflexivity|]);
      simpl; [exact H1|exact H2|by split].
  - symmetry. apply Z.eqb_neq. intros Hz. destruct Hw as (_ & _ & _ & Hw).
    rewrite <- (u32_id w Hw), <- u32_s32, Hz in Hi. vm_compute in Hi. injection Hi as <-.
    simpl in Hneg. lia.
Qed.
End rounds.

(** ** [ilog2] *)

Section ilog2.
Implicit Types (x y l h base : Z).

(** [x] is, as an unsigned word, in the aligned block of [size] bits from
    [base] on, and its highest bit is that of [x0]; [l] is behind [base]. *)
Definition in_block x0 (size : Z) (il : Z * Z) : Prop :=
  ∃ y base, u32 il.1 = y * 2 ^ base ∧ 0 < y < 2 ^ size ∧ 0 ≤ base ∧ base mod size = 0
    ∧ base + size ≤ 32 ∧ il.2 = base + 1 ∧ Z.log2 (u32 il.1) = Z.log2 (u32 x0).

Definition mask_of h (mask : Z) : bool :=
  bool_decide (0 ≤ mask < 2 ^ 32)
  && forallb (λ j, Bool.eqb (Z.testbit mask j) (Z.odd (j / h))) (seqZ 0 32).

Lemma mask_of_bit h mask j : mask_of h mask = true → 0 ≤ j < 32 → Z.testbit mask j = Z.odd (j / h).
Proof.
  unfold mask_of. intros [_ H]%andb_true_iff Hj. rewrite forallb_forall in H.
  apply eqb_prop, H. apply list_elem_of_In, elem_of_seqZ. lia.
Qed.

Lemma land_block h mask y base :
  mask_of h mask = true → 0 < h → 0 < y < 2 ^ (2 * h) → 0 ≤ base → base mod (2 * h) = 0 →
  base + 2 * h ≤ 32 →
  Z.land (y * 2 ^ base) mask = y / 2 ^ h * 2 ^ (base + h).
Proof.
  intros Hm Hh Hy Hb Hal Hend. apply Z.bits_inj'. intros j Hj. rewrite Z.land_spec.
  rewrite <- !Z.shiftl_mul_pow2, !Z.shiftl_spec, <- Z.shiftr_div_pow2 by lia.
  destruct (decide (j < base)); [by rewrite (Z.testbit_neg_r y), (Z.testbit_neg_r (Z.shiftr y h)) by lia|].
  destruct (decide (base + 2 * h ≤ j)).
  { assert (∀ k, 2 * h ≤ k → Z.testbit y k = false) as Hz.
    { intros k Hk. rewrite <- (Z.mod_small y (2 ^ (2 * h))) by lia. by apply Z.mod_pow2_bits_high; lia. }
    rewrite Z.shiftr_spec by lia. rewrite !Hz by lia. done. }
  rewrite (mask_of_bit h mask) by (done || lia).
  assert (base = 2 * h * (base / (2 * h))) as Hq.
  { pose proof (Z_div_mod_eq_full base (2 * h)). lia. }
  set (q := base / (2 * h)) in *. clearbody q.
  destruct (decide (j < base + h)).
  - replace (j / h) with (2 * q) by (apply (Z.div_unique j h (2 * q) (j - base)); lia).
    rewrite Z.odd_mul, andb_false_r. by rewrite Z.testbit_neg_r by lia.
  - replace (j / h) with (2 * q + 1) by (apply (Z.div_unique j h (2 * q + 1) (j - base - h)); lia).
    rewrite Z.odd_add, Z.odd_mul. simpl. rewrite andb_true_r, Z.shiftr_spec by lia. f_equal. lia.
Qed.

Lemma ilog2_step_block x0 h mask il :
  mask_of h mask = true → 0 < h → in_block x0 (2 * h) il → in_block x0 h (ilog2_step mask h il).
Proof.
  intros Hm Hh (y & base & Hx & Hy & Hb & Hal & Hend & Hl & Hlog).
  assert (base mod h = 0) as Hal'.
  { rewrite (Z_div_mod_eq_full base (2 * h)), Hal. replace (2 * h * (base / (2 * h)) + 0) with (2 * (base / (2 * h)) * h) by lia.
    apply Z.mod_mul. lia. }
  unfold ilog2_step. rewrite Hx, (land_block h) by done. set (yh := y / 2 ^ h).
  pose proof (Z.pow_pos_nonneg 2 h ltac:(lia) ltac:(lia)) as Hph.
  assert (2 ^ (2 * h) = 2 ^ h * 2 ^ h) as Hpow by (rewrite <- Z.pow_add_r by lia; f_equal; lia).
  assert (0 ≤ yh < 2 ^ h) as Hyh.
  { split; [apply Z.div_pos; lia|]. apply Z.div_lt_upper_bound; lia. }
  assert (u32 (yh * 2 ^ (base + h)) = yh * 2 ^ (base + h)) as Hu.
  { apply u32_id. split; [apply Z.mul_nonneg_nonneg; [lia|apply Z.pow_nonneg; lia]|].
    apply Z.lt_le_trans with (2 ^ h * 2 ^ (base + h)).
    - apply Z.mul_lt_mono_pos_r; [apply Z.pow_pos_nonneg; lia|lia].
    - rewrite <- Z.pow_add_r by lia. apply Z.pow_le_mono_r; lia. }
  assert (s32 (yh * 2 ^ (base + h)) = 0 ↔ yh = 0) as Hzero.
  { split; [|intros ->; by rewrite Z.mul_0_l]. intros H.
    pose proof (u32_s32 (yh * 2 ^ (base + h))) as E. rewrite H, Hu in E. change (u32 0) with 0 in E.
    pose proof (Z.pow_pos_nonneg 2 (base + h) ltac:(lia) ltac:(lia)). nia. }
  destruct (Z.eqb_spec (s32 (yh * 2 ^ (base + h))) 0) as [Hz|Hz]; simpl negb; cbv iota.
  - apply Hzero in Hz. exists y, base. split; [done|].
    assert (y < 2 ^ h).
    { destruct (decide (y < 2 ^ h)) as [|Hge]; [done|]. exfalso.
      assert (1 ≤ y / 2 ^ h); [|lia]. apply Z.div_le_lower_bound; lia. }
    split; [lia|]. split; [done|]. split; [done|]. split; [lia|]. done.
  - rewrite Hzero in Hz. exists yh, (base + h). simpl. rewrite u32_s32, Hu.
    split; [done|]. split; [lia|]. split; [lia|].
    split. { rewrite <- Z.add_mod_idemp_l, Hal', Z.add_0_l, Z.mod_same by lia. done. }
    split; [lia|]. split; [lia|].
    rewrite <- Hlog, Hx, !Z.log2_mul_pow2 by lia. unfold yh.
    rewrite <- Z.shiftr_div_pow2, Z.log2_shiftr by lia.
    assert (h ≤ Z.log2 y); [|lia]. apply Z.log2_le_pow2; [lia|].
    destruct (decide (2 ^ h ≤ y)); [done|]. exfalso. apply Hz. apply Z.div_small. lia.
Qed.

(** [ilog2] of an [int], read as an unsigned number, is the number
    of its binary digits: one more than the logarithm, and 0 for 0.  (The
    comment in front of it lists other values, such as 1 for 2.) *)
Theorem ilog2_correct i (Hi : in_s32 i) :
  ilog2 i = if i =? 0 then 0 else Z.log2 (u32 i) + 1.
Proof.
  unfold ilog2. destruct (Z.eqb_spec i 0) as [|Hi0]; [done|].
  assert (in_block i 32 (i, 1)) as H.
  { exists (u32 i), 0. simpl. pose proof (u32_range i) as Hr. unfold in_u32 in Hr.
    assert (u32 i ≠ 0) by (intros H0; apply Hi0; by apply u32_inj_s32).
    split; [lia|]. split; [lia|]. split; [lia|]. split; [done|]. split; [lia|]. done. }
  apply (ilog2_step_block i 16 0xffff0000) in H; [|done|lia].
  apply (ilog2_step_block i 8 0xff00ff00) in H; [|done|lia].
  apply (ilog2_step_block i 4 0xf0f0f0f0) in H; [|done|lia].
  apply (ilog2_step_block i 2 0xcccccccc) in H; [|done|lia].
  apply (ilog2_step_block i 1 0xaaaaaaaa) in H; [|done|lia].
  destruct H as (y & base & Hx & Hy & Hb & _ & _ & Hl & Hlog). rewrite Hl, <- Hlog, Hx.
  assert (y = 1) as -> by lia. rewrite Z.mul_1_l, Z.log2_pow2 by lia. done.
Qed.

Lemma ilog2_correct_witness : in_s32 1000 ∧ ilog2 1000 = 10.
Proof. split; [done|]. rewrite (ilog2_correct 1000) by done. reflexivity. Defined.
End ilog2.

(** ** Concrete programs *)

(** A host that answers no request. *)
#[local] Instance no_host : Host unit := {
  os_read _ _ _ := fail AssertFailed;
  os_write _ _ _ := fail AssertFailed;
  os_open _ _ _ := fail AssertFailed;
  os_lseek _ _ _ := fail AssertFailed;
  os_ioctl _ _ _ := fail AssertFailed;
  os_fstat _ _ := fail AssertFailed;
  os_getpagesize := mret 4096
}.

(** A program at the start of the memory, and the first registers. *)
Definition demo (program : list Z) (regs : list Z) : Execute.State unit :=
  MkState (regs ++ replicate (32 - length regs) 0) 0 0
    (put_bytes 0 (words_bytes program) ∅) memoffset (memoffset + 4) tt.

(** The sum of the numbers up to 10 ends in register 3, and the program exits. *)
Definition sum_program : list Z :=
  [0x24030000; 0x2404000a; 0x00641821; 0x2484ffff; 0x1480fffd; 0; 0x24020001; 0x0000000c].

Example sum_program_runs :
  match runprogram 100 memoffset [[97; 46; 111]] (demo sum_program []) with
  | Ok (code, s) => code = 0 ∧ aget (Execute.Reg s) 3 = Some 55
  | Fault _ => False
  end.
Proof. vm_compute. done. Qed.

Ltac demo_ok :=
  repeat match goal with
  | |- regs_ok _ => split; [done|simpl; repeat constructor; unfold in_s32; lia]
  | |- fetches_word _ _ => exists 0; split; [reflexivity|split; [reflexivity|done]]
  end.


(** [andi $2, $1, 0x8000] of [-1]. *)
Lemma immediate_wrong_witness :
  ∃ v x, round (demo [0x30228000] [0; -1])
    = Ok (None, with_reg <[2%nat := v]> (advanced (demo [0x30228000] [0; -1])))
    ∧ alu (Instr OP_ANDI 1 2 16 (-32768)) (-1) 0 = Some (2, x)
    ∧ (v = x ↔ 0 ≤ -1 < 2 ^ 16).
Proof.
  apply (immediate_wrong (demo [0x30228000] [0; -1]) 0x30228000 (Instr OP_ANDI 1 2 16 (-32768)) (-1) 0);
    demo_ok; [reflexivity|done|by repeat constructor|done].
Defined.
