(* ===== verification/Coro.v ===== *)
(** * Kernel code that runs on a thread

    A kernel routine that may lose the processor in its middle (it calls
    [Thread::Sleep], [Thread::Yield] or enables interrupts) is not a function
    from state to state.  It is a value of [code S F A]: what is left to do of
    a routine that works on the kernel state [S] and ends with an [A]; [F] is
    the type of the functions it calls through pointers.  The sequential
    routines, in the monad [M S] of the prelude, are embedded with [run].

    [step] executes one operation of the thread that has the processor and
    switches threads; [eval] executes one thread up to its next context
    switch.  [cwp] states that code ends, without a switch, and with what. *)
From S2P Require Import Prelude.
From Stdlib Require Import FunctionalExtensionality.

(** The address of a [Thread] object. *)
Definition tid := positive.

(** [Act m k] executes [m] and goes on with what it answers.  [Loop body st k] is a
    loop with the local variables [st]: it repeats [body] on them until it
    answers [inr x], and goes on with [x].  [CallFun f k]
    calls the function [f] through a pointer, [CallYield k] calls
    [currentThread->Yield()]: these calls are constructors because what they
    call can make the same calls again.  [SWITCH old next k] is the context
    switch of switch.s: [k] is what [old] does when it runs again. *)
Inductive code (S F A : Type) : Type :=
  | Ret (a : A)
  | Act (X : Type) (m : M S X) (k : X → code S F A)
  | Loop (V X : Type) (body : V → code S F (V + X)) (st : V) (k : X → code S F A)
  | CallFun (f : F) (k : code S F A)
  | CallYield (k : code S F A)
  | SWITCH (old next : tid) (k : code S F A).
Arguments Ret {S F A} a.
Arguments Act {S F A X} m k.
Arguments Loop {S F A V X} body st k.
Arguments CallFun {S F A} f k.
Arguments CallYield {S F A} k.
Arguments SWITCH {S F A} old next k.

Fixpoint code_bind {S F A B} (k : A → code S F B) (c : code S F A) : code S F B :=
  match c with
  | Ret a => k a
  | Act m f => Act m (λ x, code_bind k (f x))
  | Loop b st f => Loop b st (λ x, code_bind k (f x))
  | CallFun f c' => CallFun f (code_bind k c')
  | CallYield c' => CallYield (code_bind k c')
  | SWITCH old next c' => SWITCH old next (code_bind k c')
  end.

#[export] Instance code_mret S F : MRet (code S F) := λ A a, Ret a.
#[export] Instance code_mbind S F : MBind (code S F) := λ A B, code_bind.

(** A sequential routine as a step of a thread. *)
Definition run {S F A} (m : M S A) : code S F A := Act m Ret.

(** A loop with local variables, [while ((x = c) == NULL) ;] and
    [while (c) ;]. *)
Definition iterate {S F V X} (body : V → code S F (V + X)) (st : V) : code S F X :=
  Loop body st Ret.
Definition until {S F X} (c : code S F (option X)) : code S F X :=
  iterate (λ _ : unit, r ← c; mret (match r with Some x => inr x | None => inl tt end)) tt.
Definition while {S F} (c : code S F bool) : code S F unit :=
  iterate (λ _ : unit, b ← c; mret (if b : bool then inl tt else inr tt)) tt.

(** [if (b) c]. *)
Definition cwhen {S F} (b : bool) (c : code S F unit) : code S F unit :=
  if b then c else Ret tt.

Lemma code_bind_assoc {S F A B C} (c : code S F A) (f : A → code S F B) (g : B → code S F C) :
  (c ≫= f) ≫= g = c ≫= (λ x, f x ≫= g).
Proof.
  unfold mbind, code_mbind. revert f g.
  induction c as [A a|A X m k IH|A V X c _ st k IH|A h c IH|A c IH|A o n c IH];
    intros f g; simpl; try done; f_equal; auto; extensionality x; apply IH.
Qed.

Section exec.
Context {S F : Type}.
(** [Thread::Yield], and what the functions do that are called by pointer. *)
Variable yield : code S F unit.
Variable call : F → code S F unit.
(** [start t] answers what a thread does that has not run before, and notes
    that it runs now; [None] when it has run before. *)
Variable start : tid → M S (option (code S F unit)).
(** The thread that executes. *)
Variable me : tid.

(** ** One thread, up to its next context switch

    A switch of the thread to itself goes on at once. *)

Inductive outcome (A : Type) :=
  | Done (a : A) (s : S)
  | Switching (old next : tid) (k : code S F A) (s : S)
  | Failed (f : fault)
  | NoFuel.
Arguments Done {A} a s.
Arguments Switching {A} old next k s.
Arguments Failed {A} f.
Arguments NoFuel {A}.

(** One more round of a loop. *)
Definition unroll {V X A} (body : V → code S F (V + X)) (st : V) (k : X → code S F A)
    : code S F A :=
  r ← body st;
  match r with inl st' => Loop body st' k | inr x => k x end.

Fixpoint eval {A} (n : nat) (c : code S F A) (s : S) : outcome A :=
  match n with
  | O => NoFuel
  | Datatypes.S n' =>
      match c with
      | Ret a => Done a s
      | Act m k => match m s with Ok (x, s') => eval n' (k x) s' | Fault f => Failed f end
      | Loop c st k => eval n' (unroll c st k) s
      | CallFun f k => eval n' (call f ;; k) s
      | CallYield k => eval n' (yield ;; k) s
      | SWITCH old next k =>
          match start next s with
          | Ok (None, s') => if decide (old = me ∧ next = me) then eval n' k s' else Switching old next k s
          | _ => Switching old next k s
          end
      end
  end.

Lemma eval_mono {A} n (c : code S F A) s m :
  eval n c s ≠ NoFuel → (n ≤ m)%nat → eval m c s = eval n c s.
Proof.
  revert c s m. induction n as [|n IH]; intros c s [|m] Hn Hm; try done; [lia|].
  simpl in *. destruct c as [a|X act k|V X c st k|f k|k|o nx k]; try (apply IH; [done|lia]); try done.
  - destruct (act s) as [[x s']|]; [|done]. apply IH; [done|lia].
  - destruct (start nx s) as [[[]]|]; try done. case_decide; [|done]. apply IH; [done|lia].
Qed.

Lemma unroll_bind {V X A B} (body : V → code S F (V + X)) st (k : X → code S F A)
    (f : A → code S F B) :
  unroll body st (λ x, code_bind f (k x)) = code_bind f (unroll body st k).
Proof.
  unfold unroll. change (code_bind f ?d) with (d ≫= f). rewrite code_bind_assoc.
  f_equal. extensionality r. by destruct r.
Qed.

Lemma call_bind {A B} (c : code S F unit) (k : code S F A) (f : A → code S F B) :
  (c ;; code_bind f k) = code_bind f (c ;; k).
Proof. change (code_bind f (c ;; k)) with ((c ;; k) ≫= f). by rewrite code_bind_assoc. Qed.

(** What is evaluated before a continuation, and the continuation. *)
Lemma eval_bind_Done {A B} n (c : code S F A) s a s' (k : A → code S F B) :
  eval n c s = Done a s' → ∃ j, ∀ m, eval (j + m) (c ≫= k) s = eval m (k a) s'.
Proof.
  unfold mbind, code_mbind. revert c s.
  induction n as [|n IH]; intros c s H; [done|].
  destruct c as [b|X act f|V X c st f|f c|c|o nx c]; simpl in H.
  - injection H as -> ->. by exists 0%nat.
  - destruct (act s) as [[x s1]|] eqn:E; [|done]. destruct (IH _ _ H) as [j Hj].
    exists (Datatypes.S j). intros m. simpl. by rewrite E.
  - destruct (IH _ _ H) as [j Hj]. exists (Datatypes.S j). intros m. simpl.
    by rewrite unroll_bind.
  - destruct (IH _ _ H) as [j Hj]. exists (Datatypes.S j). intros m. simpl.
    by rewrite call_bind.
  - destruct (IH _ _ H) as [j Hj]. exists (Datatypes.S j). intros m. simpl.
    by rewrite call_bind.
  - destruct (start nx s) as [[[k0|] s1]|] eqn:E; try done.
    destruct (decide (o = me ∧ nx = me)) eqn:Ed; [|done].
    destruct (IH _ _ H) as [j Hj]. exists (Datatypes.S j). intros m. simpl. by rewrite E, Ed.
Qed.

Lemma eval_bind_Switching {A B} n (c : code S F A) s old next k0 s' (k : A → code S F B) :
  eval n c s = Switching old next k0 s' →
  eval n (c ≫= k) s = Switching old next (k0 ≫= k) s'.
Proof.
  unfold mbind, code_mbind. revert c s.
  induction n as [|n IH]; intros c s H; [done|].
  destruct c as [b|X act f|V X c st f|f c|c|o nx c]; simpl in H |- *.
  - done.
  - destruct (act s) as [[x s1]|]; [|done]. by apply IH.
  - rewrite unroll_bind. by apply IH.
  - rewrite call_bind. by apply IH.
  - rewrite call_bind. by apply IH.
  - destruct (start nx s) as [[[k1|] s1]|]; try (by injection H as -> -> -> ->).
    case_decide; [by apply IH|]. by injection H as -> -> -> ->.
Qed.

(** *** Executions that lose the processor

    [returns c s a s']: the code [c], started in [s], has come to its end with
    [a] and [s'], and whenever it had lost the processor it went on in some
    state, whatever the other threads had made of it. *)
Inductive returns {A} : code S F A → S → A → S → Prop :=
  | returns_done n c s a s' : eval n c s = Done a s' → returns c s a s'
  | returns_switching n c s old next k s1 s2 a s' :
      eval n c s = Switching old next k s1 → returns k s2 a s' → returns c s a s'.

(** An evaluation of two parts is one of the first part, and of the second
    when the first one is done. *)
Lemma eval_bind_inv {A B} n (c : code S F A) s (k : A → code S F B) :
  match eval n (c ≫= k) s with
  | Done b s' => ∃ m a s1, eval n c s = Done a s1 ∧ eval m (k a) s1 = Done b s'
  | Switching old next k' s' =>
      (∃ k0, eval n c s = Switching old next k0 s' ∧ k' = k0 ≫= k)
      ∨ ∃ m a s1, eval n c s = Done a s1 ∧ eval m (k a) s1 = Switching old next k' s'
  | _ => True
  end.
Proof.
  unfold mbind, code_mbind. revert c s. induction n as [|n IH]; intros c s; [done|].
  destruct c as [b|X act f|V X c st f|f c|c|o nx c]; cbn [code_bind eval].
  - change (match eval (Datatypes.S n) (k b) s with
      | Done b0 s' => ∃ m a s1, @Done A b s = Done a s1 ∧ eval m (k a) s1 = Done b0 s'
      | Switching old next k' s' =>
          (∃ k0, @Done A b s = Switching old next k0 s' ∧ k' = code_bind k k0)
          ∨ ∃ m a s1, @Done A b s = Done a s1 ∧ eval m (k a) s1 = Switching old next k' s'
      | _ => True end).
    destruct (eval (Datatypes.S n) (k b) s) eqn:E; try done; [|right]; by exists (Datatypes.S n), b, s.
  - destruct (act s) as [[x s1]|]; [apply IH|done].
  - rewrite unroll_bind. apply IH.
  - rewrite call_bind. apply IH.
  - rewrite call_bind. apply IH.
  - destruct (start nx s) as [[[k0|] s1]|]; try (left; by eexists).
    case_decide; [apply IH|left; by eexists].
Qed.

Lemma returns_bind_inv {A B} (c : code S F A) (k : A → code S F B) s b s' :
  returns (c ≫= k) s b s' → ∃ a s1, returns c s a s1 ∧ returns (k a) s1 b s'.
Proof.
  remember (c ≫= k) as d eqn:Hd. intros H. revert c Hd.
  induction H as [n d s b s' He|n d s old next k' s1 s2 b s' He Hr IH]; intros c ->.
  - pose proof (eval_bind_inv n c s k) as Hi. rewrite He in Hi. destruct Hi as (m & a & s1 & H1 & H2).
    exists a, s1. split; by eapply returns_done.
  - pose proof (eval_bind_inv n c s k) as Hi. rewrite He in Hi. destruct Hi as [(k0 & H1 & ->)|(m & a & s3 & H1 & H2)].
    + destruct (IH _ eq_refl) as (a & s3 & Ha & Hk). exists a, s3. split; [|done]. by eapply returns_switching.
    + exists a, s3. split; [by eapply returns_done|by eapply returns_switching].
Qed.

Lemma returns_ret_inv {A} (a b : A) s s' : returns (mret a) s b s' → a = b ∧ s = s'.
Proof.
  inversion 1 as [n c s0 a0 s0' He|n c s0 old next k s1 s2 a0 s0' He]; subst; destruct n; try done.
  by injection He as -> ->.
Qed.

Lemma returns_run_inv {A} (m : M S A) s a s' : returns (run m) s a s' → m s = Ok (a, s').
Proof.
  inversion 1 as [n c s0 a0 s0' He|n c s0 old next k s1 s2 a0 s0' He]; subst.
  - destruct n as [|[|n]]; [done| |]; simpl in He; destruct (m s) as [[x s1]|]; congruence.
  - destruct n as [|[|n]]; [done| |]; simpl in He; destruct (m s) as [[x s3]|]; discriminate He.
Qed.

(** ** Total correctness of code that does not lose the processor

    [cwp c s Q]: started in [s], the code [c] ends, without a fault and
    without a context switch, with a value and a state that satisfy [Q]. *)
Definition cwp {A} (c : code S F A) (s : S) (Q : A → S → Prop) : Prop :=
  ∃ n a s', eval n c s = Done a s' ∧ Q a s'.

Lemma cwp_ret {A} (a : A) s (Q : A → S → Prop) : Q a s → cwp (mret a) s Q.
Proof. intros H. by exists 1%nat, a, s. Qed.

Lemma cwp_mono {A} (c : code S F A) s (Q Q' : A → S → Prop) :
  cwp c s Q → (∀ a s', Q a s' → Q' a s') → cwp c s Q'.
Proof. intros (n & a & s' & H & Hq) HQ. exists n, a, s'. auto. Qed.

Lemma cwp_bind {A B} (c : code S F A) (k : A → code S F B) s Q :
  cwp c s (λ a s', cwp (k a) s' Q) → cwp (c ≫= k) s Q.
Proof.
  intros (n & a & s' & H & m & b & s'' & H' & Hq).
  destruct (eval_bind_Done n c s a s' k H) as [j Hj].
  exists (j + m)%nat, b, s''. by rewrite Hj.
Qed.

Lemma cwp_run {A} (m : M S A) s Q : wp m s Q → cwp (run m) s Q.
Proof. intros (a & s' & H & Hq)%wp_elim. exists 2%nat, a, s'. simpl. by rewrite H. Qed.

(** A sequential step in front. *)
Lemma cwp_act {A B} (m : M S A) a s s' (k : A → code S F B) Q :
  m s = Ok (a, s') → cwp (k a) s' Q → cwp (run m ≫= k) s Q.
Proof. intros H Hk. apply cwp_bind, cwp_run, wp_elim. eauto. Qed.

Lemma cwp_loop {V X A} (body : V → code S F (V + X)) st (k : X → code S F A) s Q :
  cwp (body st) s (λ r s', match r with
                           | inl st' => cwp (Loop body st' k) s' Q
                           | inr x => cwp (k x) s' Q end) →
  cwp (Loop body st k) s Q.
Proof.
  intros H. assert (cwp (unroll body st k) s Q) as (n & a & s' & He & Hq).
  { apply cwp_bind. eapply cwp_mono; [exact H|]. by intros [st'|x] s'. }
  by exists (Datatypes.S n), a, s'.
Qed.

Lemma cwp_iterate {V X} (body : V → code S F (V + X)) st s Q :
  cwp (body st) s (λ r s', match r with
                           | inl st' => cwp (iterate body st') s' Q
                           | inr x => Q x s' end) →
  cwp (iterate body st) s Q.
Proof.
  intros H. apply cwp_loop. eapply cwp_mono; [exact H|]. intros [st'|x] s' Hx; [done|].
  by apply cwp_ret.
Qed.

Lemma cwp_until {X} (c : code S F (option X)) s Q :
  cwp c s (λ r s', match r with Some x => Q x s' | None => cwp (until c) s' Q end) →
  cwp (until c) s Q.
Proof.
  intros H. apply cwp_iterate, cwp_bind. eapply cwp_mono; [exact H|].
  intros [x|] s' Hx; by apply cwp_ret.
Qed.

Lemma cwp_while (c : code S F bool) s Q :
  cwp c s (λ b s', if b : bool then cwp (while c) s' Q else Q tt s') →
  cwp (while c) s Q.
Proof.
  intros H. apply cwp_iterate, cwp_bind. eapply cwp_mono; [exact H|].
  intros [|] s' Hb; by apply cwp_ret.
Qed.

Lemma cwp_yield {A} (k : code S F A) s Q :
  cwp yield s (λ _ s', cwp k s' Q) → cwp (CallYield k) s Q.
Proof.
  intros H. destruct (cwp_bind _ (λ _, k) _ _ H) as (n & a & s' & He & Hq).
  by exists (Datatypes.S n), a, s'.
Qed.

Lemma cwp_call {A} f (k : code S F A) s Q :
  cwp (call f) s (λ _ s', cwp k s' Q) → cwp (CallFun f k) s Q.
Proof.
  intros H. destruct (cwp_bind _ (λ _, k) _ _ H) as (n & a & s' & He & Hq).
  by exists (Datatypes.S n), a, s'.
Qed.

Lemma cwp_det {A} (c : code S F A) s (Q Q' : A → S → Prop) :
  cwp c s Q → cwp c s Q' → cwp c s (λ a s', Q a s' ∧ Q' a s').
Proof.
  intros (n & a & s' & H & Hq) (m & b & s'' & H' & Hq').
  assert (eval (n + m) c s = Done a s') as H1
    by (rewrite (eval_mono n); [done|by rewrite H|lia]).
  assert (eval (n + m) c s = Done b s'') as H2
    by (rewrite (eval_mono m); [done|by rewrite H'|lia]).
  rewrite H1 in H2. injection H2 as <- <-. by exists n, a, s'.
Qed.

(** ** All the threads *)

Record config := Config {
  state : S;
  running : code S F unit;
  suspended : gmap tid (code S F unit)
}.

(** One operation of the running thread.  A thread never returns from its
    outermost function. *)
Definition step (c : config) : res config :=
  match running c with
  | Ret _ => Fault OutOfBounds
  | Act m k =>
      '(x, s) ← m (state c);
      Ok (Config s (k x) (suspended c))
  | Loop b st k => Ok (Config (state c) (unroll b st k) (suspended c))
  | CallFun f k => Ok (Config (state c) (call f ;; k) (suspended c))
  | CallYield k => Ok (Config (state c) (yield ;; k) (suspended c))
  | SWITCH old next k =>
      let conts := <[old := k]> (suspended c) in
      '(new, s) ← start next (state c);
      match new with
      | Some k' => Ok (Config s k' conts)
      | None =>
          k' ← deref (conts !! next);
          Ok (Config s k' conts)
      end
  end.

Fixpoint steps (n : nat) (c : config) : res config :=
  match n with
  | O => Ok c
  | Datatypes.S n' => c' ← step c; steps n' c'
  end.

Lemma steps_app n m c c' : steps n c = Ok c' → steps (n + m) c = steps m c'.
Proof.
  revert c. induction n as [|n IH]; intros c H; simpl in *; [by injection H as ->|].
  destruct (step c) as [c1|]; [|done]. by apply IH.
Qed.

(** What ends without a switch is executed by the steps, and leaves what the
    other threads do as it is. *)
Lemma cwp_steps {A} (c : code S F A) s Q (k : A → code S F unit) conts :
  cwp c s Q →
  ∃ n a s' conts', steps n (Config s (c ≫= k) conts) = Ok (Config s' (k a) conts')
    ∧ Q a s' ∧ ∀ t, t ≠ me → conts' !! t = conts !! t.
Proof.
  intros (n & a & s' & H & Hq).
  enough (∃ m conts', steps m (Config s (c ≫= k) conts) = Ok (Config s' (k a) conts')
            ∧ ∀ t, t ≠ me → conts' !! t = conts !! t) as (m & conts' & Hm & Ho)
    by (by exists m, a, s', conts').
  clear Hq. unfold mbind, code_mbind. revert c s conts H.
  induction n as [|n IH]; intros c s conts H; [done|].
  destruct c as [b|X act f|V X c st f|f c|c|o nx c]; simpl in H.
  - injection H as -> ->. by exists 0%nat, conts.
  - destruct (act s) as [[x s1]|] eqn:E; [|done].
    destruct (IH _ _ conts H) as (m & conts' & Hm & Ho).
    exists (Datatypes.S m), conts'. split; [|done]. simpl. unfold step. simpl. by rewrite E.
  - destruct (IH _ _ conts H) as (m & conts' & Hm & Ho).
    exists (Datatypes.S m), conts'. split; [|done]. simpl. by rewrite unroll_bind.
  - destruct (IH _ _ conts H) as (m & conts' & Hm & Ho).
    exists (Datatypes.S m), conts'. split; [|done]. simpl. by rewrite call_bind.
  - destruct (IH _ _ conts H) as (m & conts' & Hm & Ho).
    exists (Datatypes.S m), conts'. split; [|done]. simpl. by rewrite call_bind.
  - destruct (start nx s) as [[[k0|] s1]|] eqn:E; try done.
    case_decide as Hd; [|done]. destruct Hd as [-> ->].
    destruct (IH _ _ (<[me := code_bind k c]> conts) H) as (m & conts' & Hm & Ho).
    exists (Datatypes.S m), conts'. split.
    + simpl. unfold step. simpl. rewrite E. simpl. by rewrite lookup_insert_eq.
    + intros t Ht. rewrite Ho by done. by apply lookup_insert_ne.
Qed.
End exec.
Arguments Done {S F A} a s.
Arguments Switching {S F A} old next k s.
Arguments Failed {S F A} f.
Arguments NoFuel {S F A}.
Arguments Config {S F} state running suspended.
Arguments state {S F} _.
Arguments running {S F} _.
Arguments suspended {S F} _.
