(* ===== verification/Interrupt.v ===== *)
(** * machine/interrupt.cc, machine/stats.cc: simulated time and interrupts

    The hardware state is the statistics (simulated time among them) and the
    queue of pending interrupts.  The kernel state [S] it is part of, and the
    type [F] of the interrupt handlers (the function with its argument), are
    parameters: the class [HasHardware] says how the hardware sits in [S]. *)
From S2P Require Import Prelude Word NList Machine Coro.

(** ** machine/stats.h *)

Definition UserTick : Z := 1.
Definition SystemTick : Z := 10.
Definition RotationTime : Z := 500.
Definition SeekTime : Z := 500.
Definition ConsoleTime : Z := 100.
Definition NetworkTime : Z := 100.
Definition TimerTicks : Z := 100.

Record Statistics := MkStats {
  totalTicks : Z;
  idleTicks : Z;
  systemTicks : Z;
  userTicks : Z;
  numDiskReads : Z;
  numDiskWrites : Z;
  numConsoleCharsRead : Z;
  numConsoleCharsWritten : Z;
  numPageFaults : Z;
  numPacketsSent : Z;
  numPacketsRecvd : Z
}.

Definition Statistics_new : Statistics := MkStats 0 0 0 0 0 0 0 0 0 0 0.

(** ** machine/interrupt.h *)

Inductive IntStatus := IntOff | IntOn.
#[export] Instance IntStatus_eq_dec : EqDecision IntStatus.
Proof. solve_decision. Defined.

Inductive IntType :=
  | TimerInt | DiskInt | ConsoleWriteInt | ConsoleReadInt | NetworkSendInt | NetworkRecvInt.
#[export] Instance IntType_eq_dec : EqDecision IntType.
Proof. solve_decision. Defined.

#[export] Instance MachineStatus_eq_dec : EqDecision MachineStatus.
Proof. solve_decision. Defined.

(** [handler] is the function pointer with its argument [arg]. *)
Record PendingInterrupt (F : Type) := MkPending {
  handler : F;
  when_ : Z;
  type_ : IntType
}.
Arguments MkPending {F} _ _ _.
Arguments handler {F} _.
Arguments when_ {F} _.
Arguments type_ {F} _.

Record Interrupt (F : Type) := MkInterrupt {
  level : IntStatus;
  pending : Spec.alist (PendingInterrupt F);
  inHandler : bool;
  yieldOnReturn : bool;
  status_ : MachineStatus
}.
Arguments MkInterrupt {F} _ _ _ _ _.
Arguments level {F} _.
Arguments pending {F} _.
Arguments inHandler {F} _.
Arguments yieldOnReturn {F} _.
Arguments status_ {F} _.

Record Hardware (F : Type) := MkHardware { interrupt : Interrupt F; stats : Statistics }.
Arguments MkHardware {F} _ _.
Arguments interrupt {F} _.
Arguments stats {F} _.

Definition Interrupt_new {F} : Interrupt F :=
  MkInterrupt IntOff Spec.empty false false SystemMode.

(** The hardware as a part of a kernel state. *)
Class HasHardware (S F : Type) := {
  hw : S → Hardware F;
  set_hw : Hardware F → S → S;
  hw_set_hw : ∀ h s, hw (set_hw h s) = h;
  set_hw_set_hw : ∀ h h' s, set_hw h (set_hw h' s) = set_hw h s;
  set_hw_hw : ∀ s, set_hw (hw s) s = s
}.

#[export] Instance Hardware_self F : HasHardware (Hardware F) F :=
  Build_HasHardware (Hardware F) F (λ h, h) (λ h _, h)
    (λ _ _, eq_refl) (λ _ _ _, eq_refl) (λ _, eq_refl).

Section interrupt.
Context {S F : Type} `{!HasHardware S F}.

(** ** The sequential operations *)

Definition on_interrupt (f : Interrupt F → Interrupt F) : M S unit :=
  modify (λ s, set_hw (MkHardware (f (interrupt (hw s))) (stats (hw s))) s).
Definition on_stats (f : Statistics → Statistics) : M S unit :=
  modify (λ s, set_hw (MkHardware (interrupt (hw s)) (f (stats (hw s)))) s).

Definition set_level (l : IntStatus) (i : Interrupt F) : Interrupt F :=
  MkInterrupt l (pending i) (inHandler i) (yieldOnReturn i) (status_ i).
Definition set_pending (p : Spec.alist (PendingInterrupt F)) (i : Interrupt F) : Interrupt F :=
  MkInterrupt (level i) p (inHandler i) (yieldOnReturn i) (status_ i).
Definition set_inHandler (b : bool) (i : Interrupt F) : Interrupt F :=
  MkInterrupt (level i) (pending i) b (yieldOnReturn i) (status_ i).
Definition set_yieldOnReturn (b : bool) (i : Interrupt F) : Interrupt F :=
  MkInterrupt (level i) (pending i) (inHandler i) b (status_ i).
Definition set_status (st : MachineStatus) (i : Interrupt F) : Interrupt F :=
  MkInterrupt (level i) (pending i) (inHandler i) (yieldOnReturn i) st.

Definition ChangeLevel (old now : IntStatus) : M S unit := on_interrupt (set_level now).

Definition getLevel : M S IntStatus := gets (λ s, level (interrupt (hw s))).
Definition getStatus : M S MachineStatus := gets (λ s, status_ (interrupt (hw s))).
Definition setStatus_ (st : MachineStatus) : M S unit := on_interrupt (set_status st).
Definition now : M S Z := gets (λ s, totalTicks (stats (hw s))).

Definition YieldOnReturn : M S unit :=
  b ← gets (λ s, inHandler (interrupt (hw s)));
  lift (ASSERT b) ;;
  on_interrupt (set_yieldOnReturn true).

(** [pending->SortedInsert(toOccur, when)] and [pending->SortedRemove(&when)]. *)
Definition insert_pending (toOccur : PendingInterrupt F) (when : Z) : M S unit :=
  p ← gets (λ s, pending (interrupt (hw s)));
  p' ← lift (Spec.SortedInsert when toOccur p);
  on_interrupt (set_pending p').
Definition remove_pending : M S (option (Z * PendingInterrupt F)) :=
  p ← gets (λ s, pending (interrupt (hw s)));
  let '(r, p') := Spec.SortedRemove p in
  on_interrupt (set_pending p') ;;
  mret r.

Definition Schedule (handler : F) (fromNow : Z) (type : IntType) : M S unit :=
  t ← now;
  let when := add32 t fromNow in
  lift (ASSERT (0 <? fromNow)) ;;
  insert_pending (MkPending handler when type) when.

Definition system_tick (st : Statistics) : Statistics :=
  MkStats (add32 (totalTicks st) SystemTick) (idleTicks st)
    (add32 (systemTicks st) SystemTick) (userTicks st) (numDiskReads st)
    (numDiskWrites st) (numConsoleCharsRead st) (numConsoleCharsWritten st)
    (numPageFaults st) (numPacketsSent st) (numPacketsRecvd st).
Definition user_tick (st : Statistics) : Statistics :=
  MkStats (add32 (totalTicks st) UserTick) (idleTicks st)
    (systemTicks st) (add32 (userTicks st) UserTick) (numDiskReads st)
    (numDiskWrites st) (numConsoleCharsRead st) (numConsoleCharsWritten st)
    (numPageFaults st) (numPacketsSent st) (numPacketsRecvd st).
(** [idleTicks += (when - totalTicks); totalTicks = when]. *)
Definition idle_until (when : Z) (st : Statistics) : Statistics :=
  MkStats when (add32 (idleTicks st) (sub32 when (totalTicks st)))
    (systemTicks st) (userTicks st) (numDiskReads st)
    (numDiskWrites st) (numConsoleCharsRead st) (numConsoleCharsWritten st)
    (numPageFaults st) (numPacketsSent st) (numPacketsRecvd st).

Definition advance_time : M S unit :=
  st ← getStatus;
  on_stats (if decide (st = SystemMode) then system_tick else user_tick).

(** ** The operations that call handlers or switch threads

    [DelayedLoad00] is [machine->DelayedLoad(0, 0)] when there is a user
    machine. *)

Variable DelayedLoad00 : M S unit.

(** [Halt]: the statistics are printed and the simulation ends. *)
Definition Halt : M S unit := fail Halted.

(** From the test [Check if there is nothing more to do] on. *)
Definition fire (old : MachineStatus) (when : Z) (toOccur : PendingInterrupt F)
    : code S F bool :=
  st ← run getStatus;
  empty ← run (gets (λ s, Spec.IsEmpty (pending (interrupt (hw s)))));
  if bool_decide (st = IdleMode) && bool_decide (type_ toOccur = TimerInt) && (empty : bool) then
    run (insert_pending toOccur when) ;;
    mret false
  else
    run DelayedLoad00 ;;
    run (on_interrupt (set_inHandler true)) ;;
    run (setStatus_ SystemMode) ;;
    CallFun (handler toOccur) (Ret tt) ;;
    run (setStatus_ old) ;;
    run (on_interrupt (set_inHandler false)) ;;
    mret true.

Definition CheckIfDue (advanceClock : bool) : code S F bool :=
  old ← run getStatus;
  l ← run getLevel;
  run (lift (ASSERT (bool_decide (l = IntOff)))) ;;
  r ← run remove_pending;
  match r with
  | None => mret false
  | Some (when, toOccur) =>
      t ← run now;
      if advanceClock && (t <? when) then
        run (on_stats (idle_until when)) ;;
        fire old when toOccur
      else if t <? when then
        run (insert_pending toOccur when) ;;
        mret false
      else fire old when toOccur
  end.

Definition OneTick : code S F unit :=
  old ← run getStatus;
  run advance_time ;;
  run (ChangeLevel IntOn IntOff) ;;
  while (CheckIfDue false) ;;
  run (ChangeLevel IntOff IntOn) ;;
  y ← run (gets (λ s, yieldOnReturn (interrupt (hw s))));
  cwhen y (
    run (on_interrupt (set_yieldOnReturn false)) ;;
    run (setStatus_ SystemMode) ;;
    CallYield (run (setStatus_ old))).

Definition SetLevel (now : IntStatus) : code S F IntStatus :=
  old ← run getLevel;
  h ← run (gets (λ s, inHandler (interrupt (hw s))));
  run (lift (ASSERT (bool_decide (now = IntOff) || negb (h : bool)))) ;;
  run (ChangeLevel old now) ;;
  cwhen (bool_decide (now = IntOn) && bool_decide (old = IntOff)) OneTick ;;
  mret old.

Definition Enable : code S F unit := SetLevel IntOn ;; mret tt.

Definition Idle : code S F unit :=
  run (setStatus_ IdleMode) ;;
  b ← CheckIfDue true;
  if (b : bool) then
    while (CheckIfDue false) ;;
    run (on_interrupt (set_yieldOnReturn false)) ;;
    run (setStatus_ SystemMode)
  else run Halt.
End interrupt.

(** The queue of pending interrupts has a last cell unless it is empty:
    nothing is removed from its middle. *)
Lemma split_key_halves {A} k (l : list (Z * A)) :
  l = (Spec.split_key k l).1 ++ (Spec.split_key k l).2.
Proof.
  induction l as [|kx l IH]; [done|]. simpl. destruct (k <? kx.1); [done|].
  destruct (Spec.split_key k l) as [l1 l2]. simpl in *. by rewrite <- IH.
Qed.

Lemma SortedInsert_total {A} (k : Z) (x : A) a :
  Spec.last_null a = false →
  ∃ l, Spec.SortedInsert k x a = Ok (Spec.AList l false) ∧ l ≡ₚ (k, x) :: Spec.elems a.
Proof.
  intros Hl. unfold Spec.SortedInsert, Spec.push_back. rewrite Hl.
  pose proof (split_key_halves k (Spec.elems a)) as Happ.
  destruct (Spec.split_key k (Spec.elems a)) as [l1 [|y l2]] eqn:E; simpl in Happ.
  - destruct (Spec.elems a); eexists; split; try done. by rewrite Permutation_app_comm.
  - eexists. split; [done|]. rewrite Happ. by rewrite Permutation_middle.
Qed.
