(* ===== verification/Threads.v ===== *)
(** * threads/thread.cc, threads/scheduler.cc: threads and the ready list

    [Kernel F U] is the state of the kernel: the interrupt hardware, the
    threads, the scheduler, the synchronization objects of the file Synch,
    and [U], the rest (the machine and the processes, a disk, ...).  [F] is
    the type of the functions that are called through pointers, each with its
    argument.  What the kernel does to the user program that a thread runs
    goes through the interface [Userland]. *)
From S2P Require Import Prelude Word NList Machine Coro Interrupt.

(** ** Data *)

Inductive ThreadStatus := JUST_CREATED | RUNNING | READY | BLOCKED.
#[export] Instance ThreadStatus_eq_dec : EqDecision ThreadStatus.
Proof. solve_decision. Defined.

Definition STACK_FENCEPOST : Z := 0xdeadbeef.

(** [stack] is the word at the end of the stack, [None] for the [NULL] of the
    main thread.  [machineState] is the first frame that [StackAllocate] makes,
    [None] once the thread has run: then what it does next is kept by [step].
    [space] is the address of an [AddrSpace]. *)
Record Thread (F : Type) := MkThread {
  stack : option Z;
  machineState : option F;
  th_status : ThreadStatus;
  userRegisters : list Z;
  space : option positive
}.
Arguments MkThread {F} _ _ _ _ _.
Arguments stack {F} _.
Arguments machineState {F} _.
Arguments th_status {F} _.
Arguments userRegisters {F} _.
Arguments space {F} _.

(** threads/synch.h *)
Record Semaphore := MkSemaphore { value : Z; queue : Spec.alist tid }.
Record Lock := MkLock { isHeld : bool; lockHolder : option tid; lock_queue : Spec.alist tid }.
Record Condition := MkCondition { blocked : Spec.alist tid }.

(** The global variables of threads/system.h, and the objects that exist. *)
Record Kernel (F U : Type) := MkKernel {
  hardware : Hardware F;
  currentThread : tid;
  threadToBeDestroyed : option tid;
  readyList : Spec.alist tid;
  threads : gmap tid (Thread F);
  semaphores : gmap positive Semaphore;
  locks : gmap positive Lock;
  conditions : gmap positive Condition;
  user : U
}.
Arguments MkKernel {F U} _ _ _ _ _ _ _ _ _.
Arguments hardware {F U} _.
Arguments currentThread {F U} _.
Arguments threadToBeDestroyed {F U} _.
Arguments readyList {F U} _.
Arguments threads {F U} _.
Arguments semaphores {F U} _.
Arguments locks {F U} _.
Arguments conditions {F U} _.
Arguments user {F U} _.

Section setters.
Context {F U : Type}.
Implicit Types k : Kernel F U.

Definition set_hardware (h : Hardware F) k : Kernel F U :=
  MkKernel h (currentThread k) (threadToBeDestroyed k) (readyList k) (threads k)
    (semaphores k) (locks k) (conditions k) (user k).
Definition set_currentThread (t : tid) k : Kernel F U :=
  MkKernel (hardware k) t (threadToBeDestroyed k) (readyList k) (threads k)
    (semaphores k) (locks k) (conditions k) (user k).
Definition set_threadToBeDestroyed (t : option tid) k : Kernel F U :=
  MkKernel (hardware k) (currentThread k) t (readyList k) (threads k)
    (semaphores k) (locks k) (conditions k) (user k).
Definition set_readyList (l : Spec.alist tid) k : Kernel F U :=
  MkKernel (hardware k) (currentThread k) (threadToBeDestroyed k) l (threads k)
    (semaphores k) (locks k) (conditions k) (user k).
Definition set_threads (ts : gmap tid (Thread F)) k : Kernel F U :=
  MkKernel (hardware k) (currentThread k) (threadToBeDestroyed k) (readyList k) ts
    (semaphores k) (locks k) (conditions k) (user k).
Definition set_semaphores (ss : gmap positive Semaphore) k : Kernel F U :=
  MkKernel (hardware k) (currentThread k) (threadToBeDestroyed k) (readyList k) (threads k)
    ss (locks k) (conditions k) (user k).
Definition set_locks (ls : gmap positive Lock) k : Kernel F U :=
  MkKernel (hardware k) (currentThread k) (threadToBeDestroyed k) (readyList k) (threads k)
    (semaphores k) ls (conditions k) (user k).
Definition set_conditions (cs : gmap positive Condition) k : Kernel F U :=
  MkKernel (hardware k) (currentThread k) (threadToBeDestroyed k) (readyList k) (threads k)
    (semaphores k) (locks k) cs (user k).
Definition set_user (u : U) k : Kernel F U :=
  MkKernel (hardware k) (currentThread k) (threadToBeDestroyed k) (readyList k) (threads k)
    (semaphores k) (locks k) (conditions k) u.
End setters.

#[export] Instance Kernel_hardware F U : HasHardware (Kernel F U) F :=
  Build_HasHardware (Kernel F U) F hardware set_hardware
    (λ _ _, eq_refl) (λ _ _ _, eq_refl) (λ k, match k with MkKernel _ _ _ _ _ _ _ _ _ => eq_refl end).

(** What threads ask of the user programs: the registers of the machine,
    [machine->DelayedLoad(0, 0)] and [space->RestoreState()]. *)
Class Userland (U : Type) := {
  user_ReadRegister : Z → M U Z;
  user_WriteRegister : Z → Z → M U unit;
  user_DelayedLoad00 : M U unit;
  user_RestoreState : positive → M U unit
}.

(** A kernel without user programs has no machine. *)
#[export] Instance no_user : Userland unit := {
  user_ReadRegister _ := fail NullDeref;
  user_WriteRegister _ _ := fail NullDeref;
  user_DelayedLoad00 := mret tt;
  user_RestoreState _ := fail NullDeref
}.

Section threads.
Context {F U : Type} `{!Userland U}.
#[local] Abbreviation K := (Kernel F U).
#[local] Abbreviation kcode := (code (Kernel F U) F).

(** ** Access to the state *)

Definition thread (t : tid) : M K (Thread F) := k ← get; lift (deref (threads k !! t)).
Definition set_thread (t : tid) (th : Thread F) : M K unit :=
  thread t ;; modify (λ k, set_threads (<[t := th]> (threads k)) k).
Definition current : M K tid := gets currentThread.

Definition on_user {A} (m : M U A) : M K A :=
  k ← get;
  '(a, u) ← lift (m (user k));
  modify (set_user u) ;;
  mret a.

Definition setStatus (t : tid) (st : ThreadStatus) : M K unit :=
  th ← thread t;
  set_thread t (MkThread (stack th) (machineState th) st (userRegisters th) (space th)).

(** The interrupt operations on this state. *)
Definition OneTick : kcode unit := Interrupt.OneTick (on_user user_DelayedLoad00).
Definition SetLevel (l : IntStatus) : kcode IntStatus :=
  Interrupt.SetLevel (on_user user_DelayedLoad00) l.
Definition Enable : kcode unit := Interrupt.Enable (on_user user_DelayedLoad00).
Definition Idle : kcode unit := Interrupt.Idle (on_user user_DelayedLoad00).

(** ** Thread objects *)

(** [new Thread(name)]: the registers are not initialised. *)
Definition Thread_new (garbage : list Z) : M K tid :=
  k ← get;
  let t := fresh (dom (threads k)) in
  modify (set_threads (<[t := MkThread None None JUST_CREATED garbage None]> (threads k))) ;;
  mret t.

Definition Thread_delete (t : tid) : M K unit :=
  thread t ;;
  cur ← current;
  lift (ASSERT (bool_decide (t ≠ cur))) ;;
  modify (λ k, set_threads (delete t (threads k)) k).

Definition StackAllocate (t : tid) (func : F) : M K unit :=
  th ← thread t;
  set_thread t (MkThread (Some STACK_FENCEPOST) (Some func) (th_status th)
                  (userRegisters th) (space th)).

Definition CheckOverflow (t : tid) : M K unit :=
  th ← thread t;
  match stack th with
  | Some w => lift (ASSERT (w =? STACK_FENCEPOST))
  | None => mret tt
  end.

Definition set_userRegisters (t : tid) (r : list Z) : M K unit :=
  th ← thread t;
  set_thread t (MkThread (stack th) (machineState th) (th_status th) r (space th)).

Definition SaveUserState (t : tid) : M K unit :=
  for_range 0 NumTotalRegs (λ i,
    v ← on_user (user_ReadRegister i);
    th ← thread t;
    r ← lift (awrite (userRegisters th) i v);
    set_userRegisters t r).

Definition RestoreUserState (t : tid) : M K unit :=
  for_range 0 NumTotalRegs (λ i,
    th ← thread t;
    v ← lift (aread (userRegisters th) i);
    on_user (user_WriteRegister i v)).

(** ** threads/scheduler.cc *)

Definition on_readyList {A} (f : Spec.alist tid → res (A * Spec.alist tid)) : M K A :=
  k ← get;
  '(a, l) ← lift (f (readyList k));
  modify (set_readyList l) ;;
  mret a.

Definition ReadyToRun (t : tid) : M K unit :=
  setStatus t READY ;;
  on_readyList (λ l, l' ← Spec.Append t l; Ok (tt, l')).

Definition FindNextToRun : M K (option tid) :=
  on_readyList (λ l, Ok (Spec.Remove l)).

(** [delete threadToBeDestroyed], when there is one. *)
Definition delete_carcass : M K unit :=
  d ← gets threadToBeDestroyed;
  match d with
  | Some t => Thread_delete t ;; modify (set_threadToBeDestroyed None)
  | None => mret tt
  end.

Definition restore_user : M K unit :=
  cur ← current;
  th ← thread cur;
  match space th with
  | Some sp => RestoreUserState cur ;; on_user (user_RestoreState sp)
  | None => mret tt
  end.

Definition save_user : M K unit :=
  cur ← current;
  th ← thread cur;
  match space th with
  | Some _ => SaveUserState cur
  | None => mret tt
  end.

Definition Run (nextThread : tid) : kcode unit :=
  oldThread ← run current;
  run save_user ;;
  run (CheckOverflow oldThread) ;;
  run (modify (set_currentThread nextThread)) ;;
  run (setStatus nextThread RUNNING) ;;
  SWITCH oldThread nextThread (
    run delete_carcass ;;
    run restore_user).

(** The names of the ready threads, in order. *)
Definition Scheduler_Print : M K (list tid) := gets (λ k, Spec.Mapcar (readyList k)).

Definition RemoveThread (t : tid) : M K unit :=
  on_readyList (λ l, Spec.RemoveByElement t l) ;;
  modify (set_threadToBeDestroyed (Some t)).

(** ** threads/thread.cc *)

Definition Fork (t : tid) (func : F) : kcode unit :=
  run (StackAllocate t func) ;;
  oldLevel ← SetLevel IntOff;
  run (ReadyToRun t) ;;
  SetLevel oldLevel ;;
  mret tt.

Definition is_current (t : tid) : M K unit :=
  cur ← current; lift (ASSERT (bool_decide (t = cur))).

(** [while ((nextThread = scheduler->FindNextToRun()) == NULL)
       interrupt->Idle();] *)
Definition next_thread : kcode tid :=
  until (
    next ← run FindNextToRun;
    match next with
    | Some t => mret (Some t)
    | None => Idle ;; mret None
    end).

Definition Sleep (t : tid) : kcode unit :=
  run (is_current t) ;;
  l ← run getLevel;
  run (lift (ASSERT (bool_decide (l = IntOff)))) ;;
  run (setStatus t BLOCKED) ;;
  next ← next_thread;
  Run next.

Definition Finish (t : tid) : kcode unit :=
  SetLevel IntOff ;;
  run (is_current t) ;;
  run (modify (λ k, set_threadToBeDestroyed (Some (currentThread k)) k)) ;;
  Sleep t.

Definition Yield (t : tid) : kcode unit :=
  oldLevel ← SetLevel IntOff;
  run (is_current t) ;;
  next ← run FindNextToRun;
  match next with
  | Some n => run (ReadyToRun t) ;; Run n
  | None => mret tt
  end ;;
  SetLevel oldLevel ;;
  mret tt.

(** [currentThread->Yield()], [currentThread->Sleep()]. *)
Definition current_Yield : kcode unit := t ← run current; Yield t.
Definition current_Sleep : kcode unit := t ← run current; Sleep t.

Definition ThreadFinish : kcode unit := t ← run current; Finish t.
Definition InterruptEnable : kcode unit := Enable.

(** The first frame of a thread, as [StackAllocate] sets it up. *)
Definition ThreadRoot (func : F) : kcode unit :=
  InterruptEnable ;;
  CallFun func (Ret tt) ;;
  ThreadFinish.

(** What a thread does that has not run before. *)
Definition start (t : tid) : M K (option (kcode unit)) :=
  th ← thread t;
  match machineState th with
  | Some func =>
      set_thread t (MkThread (stack th) None (th_status th) (userRegisters th) (space th)) ;;
      mret (Some (ThreadRoot func))
  | None => mret None
  end.
End threads.
