(* ===== verification/Synch.v ===== *)
(** * threads/synch.cc, threads/synchlist.cc: semaphores, locks, conditions

    The objects are in the maps [semaphores], [locks] and [conditions] of the
    kernel state, under their addresses.  Locks and conditions are those of
    the build flag [CHANGED].  A method called on an address where there is
    no object faults. *)
From S2P Require Import Prelude Word NList Machine Coro Interrupt Threads.

Section synch.
Context {F U : Type} `{!Userland U}.
#[local] Abbreviation K := (Kernel F U).
#[local] Abbreviation kcode := (code (Kernel F U) F).

(** ** Access to the objects *)

Definition get_semaphore (s : positive) : M K Semaphore :=
  k ← get; lift (deref (semaphores k !! s)).
Definition put_semaphore (s : positive) (x : Semaphore) : M K unit :=
  modify (λ k, set_semaphores (<[s := x]> (semaphores k)) k).
Definition get_lock (l : positive) : M K Lock :=
  k ← get; lift (deref (locks k !! l)).
Definition put_lock (l : positive) (x : Lock) : M K unit :=
  modify (λ k, set_locks (<[l := x]> (locks k)) k).
Definition get_condition (c : positive) : M K Condition :=
  k ← get; lift (deref (conditions k !! c)).
Definition put_condition (c : positive) (x : Condition) : M K unit :=
  modify (λ k, set_conditions (<[c := x]> (conditions k)) k).

(** [if (thread != NULL) scheduler->ReadyToRun(thread)]. *)
Definition wake (t : option tid) : M K unit :=
  match t with Some t => ReadyToRun t | None => mret tt end.

(** ** Semaphores *)

Definition Semaphore_new (initialValue : Z) : M K positive :=
  k ← get;
  let s := fresh (dom (semaphores k)) in
  put_semaphore s (MkSemaphore initialValue Spec.empty) ;;
  mret s.

Definition queue_current (s : positive) : M K unit :=
  x ← get_semaphore s;
  cur ← current;
  q ← lift (Spec.Append cur (queue x));
  put_semaphore s (MkSemaphore (value x) q).

Definition decrement (s : positive) : M K unit :=
  x ← get_semaphore s;
  put_semaphore s (MkSemaphore (sub32 (value x) 1) (queue x)).

Definition P (s : positive) : kcode unit :=
  oldLevel ← SetLevel IntOff;
  while (
    x ← run (get_semaphore s);
    if value x =? 0 then
      run (queue_current s) ;;
      current_Sleep ;;
      mret true
    else mret false) ;;
  run (decrement s) ;;
  SetLevel oldLevel ;;
  mret tt.

Definition remove_waiter (s : positive) : M K (option tid) :=
  x ← get_semaphore s;
  let '(t, q) := Spec.Remove (queue x) in
  put_semaphore s (MkSemaphore (value x) q) ;;
  mret t.

Definition increment (s : positive) : M K unit :=
  x ← get_semaphore s;
  put_semaphore s (MkSemaphore (add32 (value x) 1) (queue x)).

Definition V (s : positive) : kcode unit :=
  oldLevel ← SetLevel IntOff;
  run (t ← remove_waiter s; wake t) ;;
  run (increment s) ;;
  SetLevel oldLevel ;;
  mret tt.

(** ** Locks *)

Definition Lock_new : M K positive :=
  k ← get;
  let l := fresh (dom (locks k)) in
  put_lock l (MkLock false None Spec.empty) ;;
  mret l.

Definition isHeldByCurrentThread (l : positive) : M K bool :=
  x ← get_lock l;
  cur ← current;
  mret (bool_decide (lockHolder x = Some cur)).

Definition queue_on_lock (l : positive) : M K unit :=
  x ← get_lock l;
  cur ← current;
  q ← lift (Spec.Append cur (lock_queue x));
  put_lock l (MkLock (isHeld x) (lockHolder x) q).

Definition take_lock (l : positive) : M K unit :=
  x ← get_lock l;
  cur ← current;
  put_lock l (MkLock true (Some cur) (lock_queue x)).

Definition Acquire (l : positive) : kcode unit :=
  oldLevel ← SetLevel IntOff;
  while (
    x ← run (get_lock l);
    if isHeld x then
      run (queue_on_lock l) ;;
      current_Sleep ;;
      mret true
    else mret false) ;;
  run (take_lock l) ;;
  SetLevel oldLevel ;;
  mret tt.

Definition free_lock (l : positive) : M K unit :=
  x ← get_lock l;
  let '(t, q) := Spec.Remove (lock_queue x) in
  put_lock l (MkLock (isHeld x) (lockHolder x) q) ;;
  wake t ;;
  put_lock l (MkLock false None q).

(** Releasing a lock that another thread holds prints a message. *)
Definition Release (l : positive) : kcode unit :=
  oldLevel ← SetLevel IntOff;
  mine ← run (isHeldByCurrentThread l);
  cwhen mine (run (free_lock l)) ;;
  SetLevel oldLevel ;;
  mret tt.

(** ** Condition variables *)

Definition Condition_new : M K positive :=
  k ← get;
  let c := fresh (dom (conditions k)) in
  put_condition c (MkCondition Spec.empty) ;;
  mret c.

Definition block_current (c : positive) : M K unit :=
  x ← get_condition c;
  cur ← current;
  q ← lift (Spec.Append cur (blocked x));
  put_condition c (MkCondition q).

Definition Wait (c conditionLock : positive) : kcode unit :=
  oldLevel ← SetLevel IntOff;
  mine ← run (isHeldByCurrentThread conditionLock);
  cwhen mine (
    Release conditionLock ;;
    run (block_current c) ;;
    current_Sleep ;;
    Acquire conditionLock) ;;
  SetLevel oldLevel ;;
  mret tt.

Definition wake_one (c : positive) : M K unit :=
  x ← get_condition c;
  let '(t, q) := Spec.Remove (blocked x) in
  put_condition c (MkCondition q) ;;
  wake t.

Definition Signal (c conditionLock : positive) : kcode unit :=
  oldLevel ← SetLevel IntOff;
  mine ← run (isHeldByCurrentThread conditionLock);
  cwhen mine (run (wake_one c)) ;;
  SetLevel oldLevel ;;
  mret tt.

Definition Broadcast (c conditionLock : positive) : kcode unit :=
  oldLevel ← SetLevel IntOff;
  mine ← run (isHeldByCurrentThread conditionLock);
  cwhen mine (
    while (
      x ← run (get_condition c);
      if Spec.IsEmpty (blocked x) then mret false
      else run (wake_one c) ;; mret true)) ;;
  SetLevel oldLevel ;;
  mret tt.
End synch.

(** ** threads/synchlist.cc *)

Record SynchList (A : Type) := MkSynchList {
  list_ : Spec.alist A;
  list_lock : positive;
  listEmpty : positive
}.
Arguments MkSynchList {A} _ _ _.
Arguments list_ {A} _.
Arguments list_lock {A} _.
Arguments listEmpty {A} _.

(** Where the rest of the kernel keeps its synchronized lists. *)
Class HasSynchLists (U A : Type) := {
  synchlists : U → gmap positive (SynchList A);
  set_synchlists : gmap positive (SynchList A) → U → U
}.

Section synchlist.
Context {F U A : Type} `{!Userland U, !HasSynchLists U A}.
#[local] Abbreviation K := (Kernel F U).
#[local] Abbreviation kcode := (code (Kernel F U) F).

Definition get_list (p : positive) : M K (SynchList A) :=
  k ← get; lift (deref (synchlists (user k) !! p)).
Definition put_list (p : positive) (l : Spec.alist A) : M K unit :=
  x ← get_list p;
  modify (λ k, set_user (set_synchlists
    (<[p := MkSynchList l (list_lock x) (listEmpty x)]> (synchlists (user k))) (user k)) k).

Definition SynchList_new : M K positive :=
  lock ← Lock_new;
  cond ← Condition_new;
  k ← get;
  let p := fresh (dom (synchlists (user k))) in
  modify (λ k, set_user (set_synchlists
    (<[p := MkSynchList Spec.empty lock cond]> (synchlists (user k))) (user k)) k) ;;
  mret p.

Definition list_append (p : positive) (item : A) : M K unit :=
  x ← get_list p;
  l ← lift (Spec.Append item (list_ x));
  put_list p l.

Definition SynchList_Append (p : positive) (item : A) : kcode unit :=
  x ← run (get_list p);
  Acquire (list_lock x) ;;
  run (list_append p item) ;;
  Signal (listEmpty x) (list_lock x) ;;
  Release (list_lock x).

Definition list_remove (p : positive) : M K A :=
  x ← get_list p;
  let '(item, l) := Spec.Remove (list_ x) in
  put_list p l ;;
  lift (ASSERT (bool_decide (is_Some item))) ;;
  lift (deref item).

Definition SynchList_Remove (p : positive) : kcode A :=
  x ← run (get_list p);
  Acquire (list_lock x) ;;
  while (
    y ← run (get_list p);
    if Spec.IsEmpty (list_ y) then Wait (listEmpty x) (list_lock x) ;; mret true
    else mret false) ;;
  item ← run (list_remove p);
  Release (list_lock x) ;;
  mret item.

(** [func] is called on the items in order. *)
Fixpoint call_on (func : A → F) (items : list A) : kcode unit :=
  match items with
  | [] => mret tt
  | a :: items' => CallFun (func a) (call_on func items')
  end.

Definition SynchList_Mapcar (p : positive) (func : A → F) : kcode unit :=
  x ← run (get_list p);
  Acquire (list_lock x) ;;
  y ← run (get_list p);
  call_on func (Spec.Mapcar (list_ y)) ;;
  Release (list_lock x).
End synchlist.
