(* ===== verification/Alone.v ===== *)
(** * A thread that waits for devices

    The rules to execute kernel code of a thread [t] that is the only one that
    can run: what it does to the interrupts, the clock, the ready list, the
    semaphores, the locks and the rest of the kernel, up to [Thread::Sleep],
    the idle loop, the interrupts of the devices and their handlers, and the
    switch of the thread to itself.  The drivers of devices (the disk, the
    console) are proved with them. *)
From S2P Require Import Prelude Word NList Machine Coro Interrupt Threads Synch.

(** The interrupt hardware when [l] is the level, in mode [m], with the
    pending interrupts [p]; [h] says if a handler runs. *)
Definition int {F} (l : IntStatus) (h : bool) (m : MachineStatus)
    (p : list (Z * PendingInterrupt F)) : Interrupt F := MkInterrupt l (Spec.AList p false) h false m.

(** The next state takes the name of the one before. *)
Ltac next_state k Hk := clear dependent k; intros k Hk; cbv beta.

Section alone.
Context {F U : Type} `{!Userland U}.
#[local] Abbreviation K := (Kernel F U).
#[local] Abbreviation kcode := (code (Kernel F U) F).
Variables (yield : kcode unit) (call : F → kcode unit).
(** The thread and its registers, [sk] being the word at the end of its stack;
    and the condition variables, which these rules leave alone. *)
Variables (t : tid) (sk : option Z) (regs : list Z) (cds : gmap positive Condition).
#[local] Abbreviation cwp := (Coro.cwp yield call start t).

Definition stack_ok : Prop := match sk with Some w => w = STACK_FENCEPOST | None => True end.

(** What matters of a state: the interrupts, the time, the ready list, the
    status of the thread, the semaphores, the locks, and a property of the
    rest. *)
Record alone (k : K) (i : Interrupt F) (T : Z) (rl : Spec.alist tid) (ts : ThreadStatus)
    (sems : gmap positive Semaphore) (lks : gmap positive Lock) (Pu : U → Prop) : Prop := Alone {
  at_int : interrupt (hardware k) = i;
  at_time : totalTicks (stats (hardware k)) = T;
  at_cur : currentThread k = t;
  at_none : threadToBeDestroyed k = None;
  at_ready : readyList k = rl;
  at_thread : threads k !! t = Some (MkThread sk None ts regs None);
  at_sems : semaphores k = sems;
  at_locks : locks k = lks;
  at_conds : conditions k = cds;
  at_user : Pu (user k)
}.

(** [machine->DelayedLoad(0, 0)] on the user machine, if there is one, does
    not change what [Pu] says. *)
Definition stable (Pu : U → Prop) : Prop :=
  ∀ u, Pu u → ∃ u', user_DelayedLoad00 u = Ok (tt, u') ∧ Pu u'.

#[local] Abbreviation waiting := (Spec.AList [(0, t)] false : Spec.alist tid).

(** ** Single operations, in front of the rest [c] *)

Lemma cwp_switch_self {A} (c : kcode A) k (Q : A → K → Prop) :
  start t k = Ok (None, k) → cwp c k Q → cwp (SWITCH t t c) k Q.
Proof.
  intros Hs (n & a & k' & He & HQ). exists (Datatypes.S n), a, k'. simpl. rewrite Hs.
  by rewrite decide_True.
Qed.

Lemma cwp_ok {A} (m : M K A) a k k' (Q : A → K → Prop) :
  m k = Ok (a, k') → Q a k' → cwp (run m) k Q.
Proof. intros Hm HQ. apply cwp_run, wp_elim. eauto. Qed.

Lemma op_get {A B} (g : K → A) (c : A → kcode B) k (Q : B → K → Prop) :
  cwp (c (g k)) k Q → cwp (run (gets g) ≫= c) k Q.
Proof. intros H. by eapply cwp_act. Qed.

Lemma op_assert {B} (b : bool) (c : unit → kcode B) k (Q : B → K → Prop) :
  b = true → cwp (c tt) k Q → cwp (run (lift (ASSERT b)) ≫= c) k Q.
Proof. intros -> H. by eapply cwp_act. Qed.

(** A sequential routine, operation by operation. *)
Lemma cwp_run_bind {A B C} (m : M K A) (f : A → M K B) (c : B → kcode C) k (Q : C → K → Prop) :
  cwp (run m ≫= λ x, run (f x) ≫= c) k Q → cwp (run (m ≫= f) ≫= c) k Q.
Proof.
  intros (n & a & k' & He & HQ). destruct n as [|n]; [done|]. simpl in He.
  destruct (m k) as [[x k1]|] eqn:Em; [|done]. destruct n as [|n]; [done|]. simpl in He.
  destruct (f x k1) as [[y k2]|] eqn:Ef; [|done].
  exists (Datatypes.S n), a, k'. split; [|done]. simpl. unfold mbind at 1, M_bind. by rewrite Em, Ef.
Qed.

Lemma cwp_run_ret {A C} (a : A) (c : A → kcode C) k (Q : C → K → Prop) :
  cwp (c a) k Q → cwp (run (mret a) ≫= c) k Q.
Proof. intros H. by eapply cwp_act. Qed.

Section ops.
Context {B : Type} (Q : B → K → Prop) (k : K) (i : Interrupt F) (T : Z) (rl : Spec.alist tid).
Context (ts : ThreadStatus) (sems : gmap positive Semaphore) (lks : gmap positive Lock) (Pu : U → Prop).
Hypothesis Hk : alone k i T rl ts sems lks Pu.

Lemma op_interrupt i' f (c : unit → kcode B) :
  f i = i' → (∀ k', alone k' i' T rl ts sems lks Pu → cwp (c tt) k' Q) →
  cwp (run (on_interrupt f) ≫= c) k Q.
Proof. destruct Hk. intros Hf H. eapply cwp_act; [reflexivity|]. apply H. by constructor; simpl; subst. Qed.

Lemma op_read {X} (g : Interrupt F → X) x (c : X → kcode B) :
  g i = x → cwp (c x) k Q → cwp (run (gets (λ s : K, g (interrupt (hw s)))) ≫= c) k Q.
Proof. destruct Hk. intros Hg H. apply op_get. simpl. by subst. Qed.

Lemma op_stats f T' (c : unit → kcode B) :
  (∀ st, totalTicks st = T → totalTicks (f st) = T') →
  (∀ k', alone k' i T' rl ts sems lks Pu → cwp (c tt) k' Q) →
  cwp (run (on_stats f) ≫= c) k Q.
Proof.
  destruct Hk. intros Hg H. eapply cwp_act; [reflexivity|]. apply H. constructor; simpl; subst; auto.
Qed.

Lemma op_DelayedLoad (c : unit → kcode B) :
  stable Pu → (∀ k', alone k' i T rl ts sems lks Pu → cwp (c tt) k' Q) →
  cwp (run (on_user user_DelayedLoad00) ≫= c) k Q.
Proof.
  destruct Hk. intros Hst H. destruct (Hst _ at_user0) as (u & Hu & Hp). eapply cwp_act.
  - unfold on_user, get, lift, modify, mbind, M_bind. rewrite Hu. reflexivity.
  - apply H. by constructor.
Qed.

Lemma op_current (c : tid → kcode B) : cwp (c t) k Q → cwp (run current ≫= c) k Q.
Proof. destruct Hk. intros H. apply op_get. by rewrite at_cur0. Qed.

Lemma op_is_current (c : unit → kcode B) : cwp (c tt) k Q → cwp (run (is_current t) ≫= c) k Q.
Proof.
  destruct Hk. intros H. eapply cwp_act; [|exact H].
  unfold is_current, current, gets, lift, mbind, M_bind. by rewrite at_cur0, bool_decide_true.
Qed.

Lemma op_setStatus st (c : unit → kcode B) :
  (∀ k', alone k' i T rl st sems lks Pu → cwp (c tt) k' Q) →
  cwp (run (setStatus t st) ≫= c) k Q.
Proof.
  destruct Hk. intros H. eapply cwp_act.
  - unfold setStatus, set_thread, thread, get, lift, modify, mbind, M_bind.
    rewrite at_thread0. cbn. rewrite at_thread0. reflexivity.
  - apply H. constructor; simpl; rewrite ?lookup_insert_eq; done.
Qed.

(** What changes the rest only. *)
Lemma op_user {X} (m : M U X) x (Pu' : U → Prop) (c : X → kcode B) :
  (∀ u, Pu u → ∃ u', m u = Ok (x, u') ∧ Pu' u') →
  (∀ k', alone k' i T rl ts sems lks Pu' → cwp (c x) k' Q) →
  cwp (run (on_user m) ≫= c) k Q.
Proof.
  destruct Hk. intros Hm H. destruct (Hm _ at_user0) as (u & Hu & Hp). eapply cwp_act.
  - unfold on_user, get, lift, modify, mbind, M_bind. rewrite Hu. reflexivity.
  - apply H. by constructor.
Qed.

Lemma op_get_semaphore s x (c : Semaphore → kcode B) :
  sems !! s = Some x → cwp (c x) k Q → cwp (run (get_semaphore s) ≫= c) k Q.
Proof.
  destruct Hk. intros Hs H. eapply cwp_act; [|exact H].
  unfold get_semaphore, get, lift, mbind, M_bind. by rewrite at_sems0, Hs.
Qed.

Lemma op_queue_current s v (c : unit → kcode B) :
  sems !! s = Some (MkSemaphore v Spec.empty) →
  (∀ k', alone k' i T rl ts (<[s := MkSemaphore v waiting]> sems) lks Pu → cwp (c tt) k' Q) →
  cwp (run (queue_current s) ≫= c) k Q.
Proof.
  destruct Hk. intros Hs H. eapply cwp_act.
  - unfold queue_current, get_semaphore, put_semaphore, current, gets, get, lift, modify, mbind, M_bind.
    rewrite at_sems0, Hs. cbn. rewrite at_cur0. reflexivity.
  - apply H. constructor; simpl; try done. by rewrite at_sems0.
Qed.

Lemma op_decrement s v q (c : unit → kcode B) :
  sems !! s = Some (MkSemaphore v q) →
  (∀ k', alone k' i T rl ts (<[s := MkSemaphore (sub32 v 1) q]> sems) lks Pu → cwp (c tt) k' Q) →
  cwp (run (decrement s) ≫= c) k Q.
Proof.
  destruct Hk. intros Hs H. eapply cwp_act.
  - unfold decrement, get_semaphore, put_semaphore, get, lift, modify, mbind, M_bind.
    rewrite at_sems0, Hs. reflexivity.
  - apply H. constructor; simpl; try done. by rewrite at_sems0.
Qed.

Lemma op_increment s v q (c : unit → kcode B) :
  sems !! s = Some (MkSemaphore v q) →
  (∀ k', alone k' i T rl ts (<[s := MkSemaphore (add32 v 1) q]> sems) lks Pu → cwp (c tt) k' Q) →
  cwp (run (increment s) ≫= c) k Q.
Proof.
  destruct Hk. intros Hs H. eapply cwp_act.
  - unfold increment, get_semaphore, put_semaphore, get, lift, modify, mbind, M_bind.
    rewrite at_sems0, Hs. reflexivity.
  - apply H. constructor; simpl; try done. by rewrite at_sems0.
Qed.
End ops.

Ltac op_int Hk i k' Hk' := eapply (op_interrupt _ _ _ _ _ _ _ _ _ Hk i); [reflexivity|]; intros k' Hk'; cbv beta.
Ltac reads Hk g := eapply (op_read _ _ _ _ _ _ _ _ _ Hk g); [reflexivity|]; cbv beta.

(** ** The queue of pending interrupts *)

Lemma op_insert_pending {B} x w p p' l h m k T rl ts sems lks Pu (c : unit → kcode B) Q :
  alone k (int l h m p) T rl ts sems lks Pu →
  Spec.SortedInsert w x (Spec.AList p false) = Ok (Spec.AList p' false) →
  (∀ k', alone k' (int l h m p') T rl ts sems lks Pu → cwp (c tt) k' Q) →
  cwp (run (insert_pending x w) ≫= c) k Q.
Proof.
  intros [Hi] Hs H. eapply cwp_act.
  - unfold insert_pending, gets, lift, on_interrupt, modify, mbind, M_bind. simpl. rewrite Hi.
    cbn [pending int]. rewrite Hs. reflexivity.
  - apply H. constructor; simpl; try done. by rewrite Hi.
Qed.

Lemma op_Schedule {B} f n ty p p' l h m k T rl ts sems lks Pu (c : unit → kcode B) Q :
  alone k (int l h m p) T rl ts sems lks Pu → 0 < n →
  Spec.SortedInsert (add32 T n) (MkPending f (add32 T n) ty) (Spec.AList p false)
  = Ok (Spec.AList p' false) →
  (∀ k', alone k' (int l h m p') T rl ts sems lks Pu → cwp (c tt) k' Q) →
  cwp (run (Schedule f n ty) ≫= c) k Q.
Proof.
  intros Hk Hn Hs H. unfold Schedule. apply cwp_run_bind, op_get. simpl hw.
  rewrite (at_time _ _ _ _ _ _ _ _ Hk). cbv zeta. apply cwp_run_bind, op_assert; [lia|].
  by eapply op_insert_pending.
Qed.

Lemma op_remove_pending {B} l h m p k T rl ts sems lks Pu (c : _ → kcode B) Q :
  alone k (int l h m p) T rl ts sems lks Pu →
  (∀ k', alone k' (int l h m (tail p)) T rl ts sems lks Pu → cwp (c (head p)) k' Q) →
  cwp (run remove_pending ≫= c) k Q.
Proof.
  intros [Hi] H. destruct p as [|[w x] p].
  - eapply cwp_act.
    + unfold remove_pending, gets, on_interrupt, modify, mbind, M_bind. simpl. rewrite Hi. reflexivity.
    + apply H. constructor; simpl; try done. by rewrite Hi.
  - eapply cwp_act.
    + unfold remove_pending, gets, on_interrupt, modify, mbind, M_bind. simpl. rewrite Hi. reflexivity.
    + apply H. constructor; simpl; try done. rewrite Hi. unfold set_pending, int. simpl. by destruct p.
Qed.

(** *** [CheckIfDue] *)

#[local] Abbreviation CheckDue := (CheckIfDue (on_user user_DelayedLoad00)).

Lemma CheckIfDue_none adv h m k T rl ts sems lks Pu (Q : bool → K → Prop) :
  alone k (int IntOff h m []) T rl ts sems lks Pu →
  (∀ k', alone k' (int IntOff h m []) T rl ts sems lks Pu → Q false k') →
  cwp (CheckDue adv) k Q.
Proof.
  intros Hk HQ. unfold CheckIfDue. reads Hk (@status_ F). reads Hk (@level F).
  apply op_assert; [done|]. cbv beta. eapply op_remove_pending; [exact Hk|]. intros k1 H1.
  by apply cwp_ret, HQ.
Qed.

(** The first one is not due: it goes back, behind others of its time. *)
Lemma CheckIfDue_later h m w x p p' k T rl ts sems lks Pu (Q : bool → K → Prop) :
  alone k (int IntOff h m ((w, x) :: p)) T rl ts sems lks Pu → T < w →
  Spec.SortedInsert w x (Spec.AList p false) = Ok (Spec.AList p' false) →
  (∀ k', alone k' (int IntOff h m p') T rl ts sems lks Pu → Q false k') →
  cwp (CheckDue false) k Q.
Proof.
  intros Hk Hw Hs HQ. unfold CheckIfDue. reads Hk (@status_ F). reads Hk (@level F).
  apply op_assert; [done|]. cbv beta. eapply op_remove_pending; [exact Hk|].
  next_state k Hk. cbn [head tail] in *. cbv iota beta.
  apply op_get. simpl hw. rewrite (at_time _ _ _ _ _ _ _ _ Hk).
  replace (T <? w) with true by lia. cbn [andb].
  eapply op_insert_pending; [exact Hk|exact Hs|]. next_state k Hk. by apply cwp_ret, HQ.
Qed.

(** The first one happens: the clock goes on to its time when [adv] asks for
    it, and its handler runs. *)
Lemma CheckIfDue_fire adv m w x p k T rl ts sems lks Pu (Q : bool → K → Prop) :
  alone k (int IntOff false m ((w, x) :: p)) T rl ts sems lks Pu →
  stable Pu → type_ x ≠ TimerInt → adv = true ∨ w ≤ T →
  (∀ k1, alone k1 (int IntOff true SystemMode p) (Z.max T w) rl ts sems lks Pu →
     cwp (call (handler x)) k1 (λ _ k2, ∃ p' T' rl' ts' sems' lks' Pu',
       alone k2 (int IntOff true SystemMode p') T' rl' ts' sems' lks' Pu'
       ∧ ∀ k3, alone k3 (int IntOff false m p') T' rl' ts' sems' lks' Pu' → Q true k3)) →
  cwp (CheckDue adv) k Q.
Proof.
  intros Hk Hst Hty Hadv HQ. unfold CheckIfDue. reads Hk (@status_ F). reads Hk (@level F).
  apply op_assert; [done|]. cbv beta. eapply op_remove_pending; [exact Hk|].
  next_state k Hk. cbn [head tail] in *. cbv iota beta.
  apply op_get. simpl hw. rewrite (at_time _ _ _ _ _ _ _ _ Hk).
  assert (∀ k, alone k (int IntOff false m p) (Z.max T w) rl ts sems lks Pu →
    cwp (fire (on_user user_DelayedLoad00) m w x) k Q) as Hfire.
  { clear k Hk. intros k Hk. unfold fire. reads Hk (@status_ F).
    reads Hk (λ i : Interrupt F, Spec.IsEmpty (pending i)).
    rewrite (bool_decide_false (type_ x = TimerInt)) by done. rewrite andb_false_r. cbn [andb].
    eapply op_DelayedLoad; [exact Hk|done|]. next_state k Hk.
    op_int Hk (@int F IntOff true m p) k1 H1. op_int H1 (@int F IntOff true SystemMode p) k2 H2.
    apply cwp_bind, cwp_call. eapply cwp_mono; [by apply HQ|].
    intros _ k3 (p' & T' & rl' & ts' & sems' & lks' & Pu' & H3 & Hend). cbv beta. apply cwp_ret. cbv beta.
    op_int H3 (@int F IntOff true m p') k4 H4. op_int H4 (@int F IntOff false m p') k5 H5.
    by apply cwp_ret, Hend. }
  destruct (Z.ltb_spec T w) as [Hlt|Hle].
  - destruct Hadv as [->|?]; [|lia]. cbn [andb].
    eapply (op_stats _ _ _ _ _ _ _ _ _ Hk _ (Z.max T w)); [intros st _; simpl; lia|].
    next_state k Hk. by apply Hfire.
  - rewrite andb_false_r. apply Hfire. by rewrite Z.max_l by lia.
Qed.

(** ** The clock *)

Lemma op_advance {B} l h p k T rl ts sems lks Pu (c : unit → kcode B) Q :
  alone k (int l h SystemMode p) T rl ts sems lks Pu →
  (∀ k', alone k' (int l h SystemMode p) (add32 T SystemTick) rl ts sems lks Pu → cwp (c tt) k' Q) →
  cwp (run advance_time ≫= c) k Q.
Proof.
  intros [Hi HT] H. eapply cwp_act.
  - unfold advance_time, getStatus, gets, on_stats, modify, mbind, M_bind. simpl. rewrite Hi. reflexivity.
  - apply H. constructor; simpl; try done. by rewrite <- HT.
Qed.

(** [OneTick], given what happens to the interrupts that are due. *)
Lemma OneTick_due k p T rl ts sems lks Pu (Q : unit → K → Prop) :
  alone k (int IntOn false SystemMode p) T rl ts sems lks Pu →
  (∀ k1, alone k1 (int IntOff false SystemMode p) (add32 T SystemTick) rl ts sems lks Pu →
     cwp (while (CheckDue false)) k1 (λ _ k2, ∃ p' T' rl' ts' sems' lks' Pu',
       alone k2 (int IntOff false SystemMode p') T' rl' ts' sems' lks' Pu'
       ∧ ∀ k3, alone k3 (int IntOn false SystemMode p') T' rl' ts' sems' lks' Pu' → Q tt k3)) →
  cwp OneTick k Q.
Proof.
  intros Hk Hdue. unfold OneTick, Interrupt.OneTick. reads Hk (@status_ F).
  eapply op_advance; [exact Hk|]. next_state k Hk.
  op_int Hk (@int F IntOff false SystemMode p) k1 H1.
  apply cwp_bind. eapply cwp_mono; [by apply Hdue|].
  intros _ k2 (p' & T' & rl' & ts' & sems' & lks' & Pu' & H2 & Hend). cbv beta.
  op_int H2 (@int F IntOn false SystemMode p') k3 H3. reads H3 (@yieldOnReturn F). by apply cwp_ret, Hend.
Qed.

Lemma while_none h m k T rl ts sems lks Pu (Q : unit → K → Prop) :
  alone k (int IntOff h m []) T rl ts sems lks Pu →
  (∀ k', alone k' (int IntOff h m []) T rl ts sems lks Pu → Q tt k') →
  cwp (while (CheckDue false)) k Q.
Proof. intros Hk HQ. apply cwp_while. by eapply CheckIfDue_none. Qed.

Lemma OneTick_quiet k T rl ts sems lks Pu (Q : unit → K → Prop) :
  alone k (int IntOn false SystemMode []) T rl ts sems lks Pu →
  (∀ k', alone k' (int IntOn false SystemMode []) (add32 T SystemTick) rl ts sems lks Pu → Q tt k') →
  cwp OneTick k Q.
Proof.
  intros Hk HQ. eapply OneTick_due; [exact Hk|]. intros k1 H1. eapply while_none; [exact H1|].
  intros k2 H2. do 7 eexists. split; [exact H2|]. exact HQ.
Qed.

(** Interrupts are turned off, also by a handler, and on again. *)
Lemma SetLevel_off l h m p k T rl ts sems lks Pu (Q : IntStatus → K → Prop) :
  alone k (int l h m p) T rl ts sems lks Pu →
  (∀ k', alone k' (int IntOff h m p) T rl ts sems lks Pu → Q l k') →
  cwp (SetLevel IntOff) k Q.
Proof.
  intros Hk HQ. unfold SetLevel, Interrupt.SetLevel. reads Hk (@level F). reads Hk (@inHandler F).
  apply op_assert; [done|]. cbv beta. op_int Hk (@int F IntOff h m p) k1 H1. by apply cwp_ret, HQ.
Qed.

Lemma SetLevel_on m p k T rl ts sems lks Pu (Q : IntStatus → K → Prop) :
  alone k (int IntOff false m p) T rl ts sems lks Pu →
  (∀ k', alone k' (int IntOn false m p) T rl ts sems lks Pu → cwp OneTick k' (λ _, Q IntOff)) →
  cwp (SetLevel IntOn) k Q.
Proof.
  intros Hk HQ. unfold SetLevel, Interrupt.SetLevel. reads Hk (@level F). reads Hk (@inHandler F).
  apply op_assert; [done|]. cbv beta. op_int Hk (@int F IntOn false m p) k1 H1.
  apply cwp_bind. eapply cwp_mono; [by apply HQ|]. intros [] k2 H2. by apply cwp_ret.
Qed.

Lemma SetLevel_on_quiet k T rl ts sems lks Pu (Q : IntStatus → K → Prop) :
  alone k (int IntOff false SystemMode []) T rl ts sems lks Pu →
  (∀ k', alone k' (int IntOn false SystemMode []) (add32 T SystemTick) rl ts sems lks Pu → Q IntOff k') →
  cwp (SetLevel IntOn) k Q.
Proof. intros Hk HQ. eapply SetLevel_on; [exact Hk|]. intros k1 H1. by eapply OneTick_quiet. Qed.

(** ** Sleeping *)

(** The idle loop, given what the first interrupt and those that are due with
    it do. *)
Lemma Idle_fire k w x p T rl ts sems lks Pu (Q : unit → K → Prop) :
  alone k (int IntOff false SystemMode ((w, x) :: p)) T rl ts sems lks Pu →
  (∀ k1, alone k1 (int IntOff false IdleMode ((w, x) :: p)) T rl ts sems lks Pu →
     cwp (CheckDue true) k1 (λ b k2, b = true ∧
       cwp (while (CheckDue false)) k2 (λ _ k3, ∃ p' T' rl' ts' sems' lks' Pu',
         alone k3 (int IntOff false IdleMode p') T' rl' ts' sems' lks' Pu'
         ∧ ∀ k4, alone k4 (int IntOff false SystemMode p') T' rl' ts' sems' lks' Pu' → Q tt k4))) →
  cwp Idle k Q.
Proof.
  intros Hk HQ. unfold Idle, Interrupt.Idle.
  op_int Hk (@int F IntOff false IdleMode ((w, x) :: p)) k1 H1.
  apply cwp_bind. eapply cwp_mono; [by apply HQ|]. intros b k2 [-> H2]. cbv beta iota.
  apply cwp_bind. eapply cwp_mono; [exact H2|].
  intros _ k3 (p' & T' & rl' & ts' & sems' & lks' & Pu' & H3 & Hend). cbv beta.
  op_int H3 (@int F IntOff false IdleMode p') k4 H4.
  eapply cwp_ok; [reflexivity|]. apply Hend. destruct H4. constructor; simpl; try done. by rewrite at_int0.
Qed.

Lemma FindNextToRun_alone {B} k i T rl ts sems lks Pu (c : option tid → kcode B) Q :
  alone k i T rl ts sems lks Pu →
  (∀ k', alone k' i T (Spec.Remove rl).2 ts sems lks Pu → cwp (c (Spec.Remove rl).1) k' Q) →
  cwp (run FindNextToRun ≫= c) k Q.
Proof.
  intros [] H. eapply cwp_act.
  - unfold FindNextToRun, on_readyList, get, lift, modify, mbind, M_bind. rewrite at_ready0.
    rewrite (surjective_pairing (Spec.Remove rl)). reflexivity.
  - apply H. by constructor.
Qed.

Lemma next_thread_ready k i T ts sems lks Pu (Q : tid → K → Prop) :
  alone k i T waiting ts sems lks Pu →
  (∀ k', alone k' i T Spec.empty ts sems lks Pu → Q t k') → cwp next_thread k Q.
Proof.
  intros Hk HQ. apply cwp_until. eapply FindNextToRun_alone; [exact Hk|]. next_state k Hk.
  cbn [Spec.Remove Spec.SortedRemove Spec.elems fst snd fmap option_fmap option_map].
  by apply cwp_ret, HQ.
Qed.

Lemma next_thread_idle k i T ts sems lks Pu (Q : tid → K → Prop) :
  alone k i T Spec.empty ts sems lks Pu →
  (∀ k1, alone k1 i T Spec.empty ts sems lks Pu → cwp Idle k1 (λ _ k2, cwp next_thread k2 Q)) →
  cwp next_thread k Q.
Proof.
  intros Hk HQ. apply cwp_until. eapply FindNextToRun_alone; [exact Hk|]. next_state k Hk.
  cbn [Spec.Remove Spec.SortedRemove Spec.elems Spec.empty fst snd fmap option_fmap option_map].
  apply cwp_bind. eapply cwp_mono; [by apply HQ|]. intros [] k2 H2. by apply cwp_ret.
Qed.

(** The thread gets the processor back. *)
Lemma Run_self k i T sems lks Pu ts (Q : unit → K → Prop) :
  stack_ok → alone k i T Spec.empty ts sems lks Pu →
  (∀ k', alone k' i T Spec.empty RUNNING sems lks Pu → Q tt k') →
  cwp (Run t) k Q.
Proof.
  intros Hsk Hk HQ. unfold Run. eapply op_current; [exact Hk|]. pose proof Hk as [].
  eapply cwp_act.
  { unfold save_user, current, thread, gets, get, lift, mbind, M_bind. rewrite at_cur0, at_thread0. reflexivity. }
  eapply cwp_act.
  { unfold CheckOverflow, thread, get, lift, mbind, M_bind. rewrite at_thread0. cbn.
    instantiate (1 := k). instantiate (1 := tt). unfold stack_ok in Hsk. destruct sk; [|done]. by subst. }
  eapply cwp_act; [reflexivity|]. cbv beta.
  eapply (op_setStatus _ _ i T Spec.empty ts sems lks Pu); [by constructor|].
  next_state k Hk. pose proof Hk as []. apply cwp_switch_self.
  { unfold start, thread, get, lift, mbind, M_bind. rewrite at_thread0. reflexivity. }
  eapply cwp_act.
  { unfold delete_carcass, gets, mbind, M_bind. rewrite at_none0. reflexivity. }
  eapply cwp_ok; [|by apply HQ].
  unfold restore_user, current, thread, gets, get, lift, mbind, M_bind. rewrite at_cur0, at_thread0. reflexivity.
Qed.

(** The thread sleeps until [next_thread] answers it. *)
Lemma Sleep_alone k m p T rl ts sems lks Pu (Q : unit → K → Prop) :
  stack_ok → alone k (int IntOff false m p) T rl ts sems lks Pu →
  (∀ k1, alone k1 (int IntOff false m p) T rl BLOCKED sems lks Pu →
     cwp next_thread k1 (λ t' k2, t' = t ∧ ∃ i' T' ts' sems' lks' Pu',
       alone k2 i' T' Spec.empty ts' sems' lks' Pu'
       ∧ ∀ k3, alone k3 i' T' Spec.empty RUNNING sems' lks' Pu' → Q tt k3)) →
  cwp current_Sleep k Q.
Proof.
  intros Hsk Hk HQ. unfold current_Sleep. eapply op_current; [exact Hk|]. unfold Sleep.
  eapply op_is_current; [exact Hk|]. reads Hk (@level F). apply op_assert; [done|].
  eapply op_setStatus; [exact Hk|]. next_state k Hk.
  apply cwp_bind. eapply cwp_mono; [by apply HQ|].
  intros t' k2 (-> & i' & T' & ts' & sems' & lks' & Pu' & H2 & Hend). cbv beta. by eapply Run_self.
Qed.

(** ** Semaphores *)

(** [V] by a handler, when the thread waits. *)
Lemma V_waiting s k h m p T v sems lks Pu (Q : unit → K → Prop) :
  alone k (int IntOff h m p) T Spec.empty BLOCKED sems lks Pu →
  sems !! s = Some (MkSemaphore v waiting) →
  (∀ k', alone k' (int IntOff h m p) T waiting READY
           (<[s := MkSemaphore (add32 v 1) Spec.empty]> sems) lks Pu → Q tt k') →
  cwp (V s) k Q.
Proof.
  intros Hk Hs HQ. unfold V. apply cwp_bind. eapply SetLevel_off; [exact Hk|].
  next_state k Hk. pose proof Hk as [].
  eapply cwp_act.
  { unfold remove_waiter, get_semaphore, put_semaphore, wake, ReadyToRun, setStatus, set_thread,
      thread, on_readyList, get, lift, modify, mbind, M_bind.
    rewrite at_sems0, Hs. cbn. rewrite at_thread0. cbn. rewrite at_thread0. cbn. rewrite at_ready0. reflexivity. }
  cbv beta.
  eapply (op_increment _ _ (int IntOff h m p) T waiting READY (<[s := MkSemaphore v Spec.empty]> sems) lks Pu).
  { constructor; simpl; rewrite ?lookup_insert_eq, ?at_sems0; done. }
  { by rewrite lookup_insert_eq. }
  clear dependent k. intros k Hk. rewrite insert_insert_eq in Hk.
  apply cwp_bind. eapply SetLevel_off; [exact Hk|].
  next_state k Hk. by apply cwp_ret, HQ.
Qed.

(** [V] by a handler, when nobody waits. *)
Lemma V_free s k h m p T v rl ts sems lks Pu (Q : unit → K → Prop) :
  alone k (int IntOff h m p) T rl ts sems lks Pu →
  sems !! s = Some (MkSemaphore v Spec.empty) →
  (∀ k', alone k' (int IntOff h m p) T rl ts
           (<[s := MkSemaphore (add32 v 1) Spec.empty]> sems) lks Pu → Q tt k') →
  cwp (V s) k Q.
Proof.
  intros Hk Hs HQ. unfold V. apply cwp_bind. eapply SetLevel_off; [exact Hk|].
  next_state k Hk. pose proof Hk as [].
  eapply cwp_act.
  { unfold remove_waiter, get_semaphore, put_semaphore, wake, get, lift, modify, mbind, M_bind.
    rewrite at_sems0, Hs. reflexivity. }
  cbv beta.
  eapply (op_increment _ _ (int IntOff h m p) T rl ts (<[s := MkSemaphore v Spec.empty]> sems) lks Pu).
  { constructor; simpl; rewrite ?at_sems0; done. }
  { by rewrite lookup_insert_eq. }
  clear dependent k. intros k Hk. rewrite insert_insert_eq in Hk.
  apply cwp_bind. eapply SetLevel_off; [exact Hk|].
  next_state k Hk. by apply cwp_ret, HQ.
Qed.

(** [P], when the value is positive; [OneTick] follows. *)
Lemma P_positive s k p T v sems lks Pu (Q : unit → K → Prop) :
  alone k (int IntOn false SystemMode p) T Spec.empty RUNNING sems lks Pu →
  sems !! s = Some (MkSemaphore v Spec.empty) → v ≠ 0 →
  (∀ k', alone k' (int IntOn false SystemMode p) T Spec.empty RUNNING
           (<[s := MkSemaphore (sub32 v 1) Spec.empty]> sems) lks Pu → cwp OneTick k' Q) →
  cwp (P s) k Q.
Proof.
  intros Hk Hs Hv HQ. unfold P. apply cwp_bind. eapply SetLevel_off; [exact Hk|].
  next_state k Hk. apply cwp_bind, cwp_while. eapply op_get_semaphore; [exact Hk|exact Hs|].
  cbn [value]. replace (v =? 0) with false by lia. apply cwp_ret.
  eapply op_decrement; [exact Hk|exact Hs|]. next_state k Hk.
  apply cwp_bind. eapply SetLevel_on; [exact Hk|]. next_state k Hk.
  eapply cwp_mono; [by apply HQ|]. intros [] k1 H1. by apply cwp_ret.
Qed.

(** [P], when the thread has to wait. *)
Lemma P_wait s k p T sems lks Pu (Q : unit → K → Prop) :
  stack_ok → alone k (int IntOn false SystemMode p) T Spec.empty RUNNING sems lks Pu →
  sems !! s = Some (MkSemaphore 0 Spec.empty) →
  (∀ k1, alone k1 (int IntOff false SystemMode p) T Spec.empty BLOCKED
           (<[s := MkSemaphore 0 waiting]> sems) lks Pu →
     cwp next_thread k1 (λ t' k2, t' = t ∧ ∃ p' T' ts' v sems' lks' Pu',
       alone k2 (int IntOff false SystemMode p') T' Spec.empty ts' sems' lks' Pu'
       ∧ sems' !! s = Some (MkSemaphore v Spec.empty) ∧ v ≠ 0
       ∧ ∀ k3, alone k3 (int IntOn false SystemMode p') T' Spec.empty RUNNING
                 (<[s := MkSemaphore (sub32 v 1) Spec.empty]> sems') lks' Pu' → cwp OneTick k3 Q)) →
  cwp (P s) k Q.
Proof.
  intros Hsk Hk Hs HQ. unfold P. apply cwp_bind. eapply SetLevel_off; [exact Hk|].
  next_state k Hk. apply cwp_bind, cwp_while. eapply op_get_semaphore; [exact Hk|exact Hs|].
  cbn [value]. rewrite Z.eqb_refl. eapply op_queue_current; [exact Hk|exact Hs|].
  next_state k Hk. apply cwp_bind. eapply Sleep_alone; [done|exact Hk|]. intros k1 H1.
  eapply cwp_mono; [by apply HQ|].
  intros t' k2 (-> & p' & T' & ts' & v & sems' & lks' & Pu' & H2 & Hs2 & Hv & Hend).
  split; [done|]. do 6 eexists. split; [exact H2|]. next_state k Hk. cbv beta. apply cwp_ret, cwp_while.
  eapply op_get_semaphore; [exact Hk|exact Hs2|].
  cbn [value]. replace (v =? 0) with false by lia. apply cwp_ret.
  eapply op_decrement; [exact Hk|exact Hs2|]. next_state k Hk.
  apply cwp_bind. eapply SetLevel_on; [exact Hk|]. next_state k Hk.
  eapply cwp_mono; [by apply Hend|]. intros [] k3 H3. by apply cwp_ret.
Qed.

(** ** A lock that no other thread wants *)

Lemma Acquire_free l k T rl ts sems lks Pu (Q : unit → K → Prop) :
  alone k (int IntOn false SystemMode []) T rl ts sems lks Pu →
  lks !! l = Some (MkLock false None Spec.empty) →
  (∀ k', alone k' (int IntOn false SystemMode []) (add32 T SystemTick) rl ts sems
           (<[l := MkLock true (Some t) Spec.empty]> lks) Pu → Q tt k') →
  cwp (Acquire l) k Q.
Proof.
  intros Hk Hl HQ. unfold Acquire. apply cwp_bind. eapply SetLevel_off; [exact Hk|].
  next_state k Hk. pose proof Hk as [].
  apply cwp_bind, cwp_while. eapply cwp_act.
  { unfold get_lock, get, lift, mbind, M_bind. rewrite at_locks0, Hl. reflexivity. }
  cbv beta. cbn [isHeld]. apply cwp_ret. eapply cwp_act.
  { unfold take_lock, get_lock, current, put_lock, gets, get, lift, modify, mbind, M_bind.
    rewrite at_locks0, Hl. cbn. rewrite at_cur0. reflexivity. }
  cbv beta. apply cwp_bind.
  eapply (SetLevel_on_quiet _ T rl ts sems (<[l := MkLock true (Some t) Spec.empty]> lks) Pu).
  { constructor; simpl; rewrite ?at_locks0; done. }
  intros k1 H1. cbv beta. by apply cwp_ret, HQ.
Qed.

Lemma Release_held l k T rl ts sems lks Pu (Q : unit → K → Prop) :
  alone k (int IntOn false SystemMode []) T rl ts sems lks Pu →
  lks !! l = Some (MkLock true (Some t) Spec.empty) →
  (∀ k', alone k' (int IntOn false SystemMode []) (add32 T SystemTick) rl ts sems
           (<[l := MkLock false None Spec.empty]> lks) Pu → Q tt k') →
  cwp (Release l) k Q.
Proof.
  intros Hk Hl HQ. unfold Release. apply cwp_bind. eapply SetLevel_off; [exact Hk|].
  next_state k Hk. pose proof Hk as []. eapply cwp_act.
  { unfold isHeldByCurrentThread, get_lock, current, gets, get, lift, mbind, M_bind.
    rewrite at_locks0, Hl. cbn. rewrite at_cur0. rewrite bool_decide_true by done. reflexivity. }
  cbv beta. cbn [cwhen]. eapply cwp_act.
  { unfold free_lock, get_lock, put_lock, wake, get, lift, modify, mbind, M_bind.
    rewrite at_locks0, Hl. reflexivity. }
  cbv beta. apply cwp_bind.
  eapply (SetLevel_on_quiet _ T rl ts sems (<[l := MkLock false None Spec.empty]> lks) Pu).
  { constructor; simpl; rewrite ?at_locks0; try done. by rewrite insert_insert_eq. }
  intros k1 H1. cbv beta. by apply cwp_ret, HQ.
Qed.
End alone.
