(* ===== verification/Devices.v ===== *)
(** * machine/timer.cc, machine/console.cc: the timer and the console

    Each device sits in the part [U] of the kernel state that its class
    describes, and is driven by the interrupts of the file Interrupt. *)
From S2P Require Import Prelude Word NList Machine Coro Interrupt Threads.

(** ** machine/timer.cc *)

Record Timer (F : Type) := MkTimer { randomize : bool; timer_handler : F }.
Arguments MkTimer {F} _ _.
Arguments randomize {F} _.
Arguments timer_handler {F} _.

(** [Random] is [rand()] of the C library; [TimerHandler] the pointer to the
    function of that name with the timer as its argument. *)
Class HasTimer (U F : Type) := {
  timer : U → option (Timer F);
  set_timer : option (Timer F) → U → U;
  Random : M U Z;
  TimerHandler : F
}.

Section timer.
Context {F U : Type} `{!Userland U, !HasTimer U F}.
#[local] Abbreviation K := (Kernel F U).
#[local] Abbreviation kcode := (code (Kernel F U) F).

Definition TimeOfNextInterrupt (t : Timer F) : M K Z :=
  if randomize t then
    r ← on_user Random;
    mret (add32 1 (Z.rem r (TimerTicks * 2)))
  else mret TimerTicks.

Definition Timer_new (timerHandler : F) (doRandom : bool) : M K unit :=
  let t := MkTimer doRandom timerHandler in
  next ← TimeOfNextInterrupt t;
  Schedule TimerHandler next TimerInt ;;
  on_user (modify (set_timer (Some t))).

(** What [TimerHandler] calls. *)
Definition TimerExpired : kcode unit :=
  u ← run (on_user get);
  t ← run (lift (deref (timer u)));
  next ← run (TimeOfNextInterrupt t);
  run (Schedule TimerHandler next TimerInt) ;;
  CallFun (timer_handler t) (Ret tt).

(** threads/system.cc *)
Definition TimerInterruptHandler : M K unit :=
  st ← getStatus;
  when (bool_decide (st ≠ IdleMode)) YieldOnReturn.
End timer.

(** ** machine/console.cc *)

Definition EOF : Z := -1.

(** [incoming] is a [char], which is signed. *)
Record Console (F : Type) := MkConsole {
  writeHandler : F;
  readHandler : F;
  putBusy : bool;
  incoming : Z
}.
Arguments MkConsole {F} _ _ _ _.
Arguments writeHandler {F} _.
Arguments readHandler {F} _.
Arguments putBusy {F} _.
Arguments incoming {F} _.

(** The UNIX files of the keyboard and of the display: [PollFile] and [Read]
    of one character on [readFileNo], [WriteFile] on [writeFileNo]. *)
Class HasConsole (U F : Type) := {
  console : U → Console F;
  set_console : Console F → U → U;
  PollFile : M U bool;
  ReadChar : M U Z;
  WriteChar : Z → M U unit;
  ConsoleReadPoll : F;
  ConsoleWriteDone : F
}.

Section console.
Context {F U : Type} `{!Userland U, !HasConsole U F}.
#[local] Abbreviation K := (Kernel F U).
#[local] Abbreviation kcode := (code (Kernel F U) F).

Definition the_console : M K (Console F) := gets (λ k, console (user k)).
Definition put_console (c : Console F) : M K unit := on_user (modify (set_console c)).

Definition Console_new (readAvail writeDone : F) : M K unit :=
  put_console (MkConsole writeDone readAvail false EOF) ;;
  Schedule ConsoleReadPoll ConsoleTime ConsoleReadInt.

Definition count_console_read (st : Statistics) : Statistics :=
  MkStats (totalTicks st) (idleTicks st) (systemTicks st) (userTicks st)
    (numDiskReads st) (numDiskWrites st) (add32 (numConsoleCharsRead st) 1)
    (numConsoleCharsWritten st) (numPageFaults st) (numPacketsSent st) (numPacketsRecvd st).
Definition count_console_written (st : Statistics) : Statistics :=
  MkStats (totalTicks st) (idleTicks st) (systemTicks st) (userTicks st)
    (numDiskReads st) (numDiskWrites st) (numConsoleCharsRead st)
    (add32 (numConsoleCharsWritten st) 1) (numPageFaults st) (numPacketsSent st)
    (numPacketsRecvd st).

Definition CheckCharAvail : kcode unit :=
  run (Schedule ConsoleReadPoll ConsoleTime ConsoleReadInt) ;;
  c ← run the_console;
  if negb (incoming c =? EOF) then mret tt
  else
    avail ← run (on_user PollFile);
    if negb (avail : bool) then mret tt
    else
      ch ← run (on_user ReadChar);
      run (put_console (MkConsole (writeHandler c) (readHandler c) (putBusy c) (s8 ch))) ;;
      run (on_stats count_console_read) ;;
      CallFun (readHandler c) (Ret tt).

Definition WriteDone : kcode unit :=
  c ← run the_console;
  run (put_console (MkConsole (writeHandler c) (readHandler c) false (incoming c))) ;;
  run (on_stats count_console_written) ;;
  CallFun (writeHandler c) (Ret tt).

Definition GetChar : M K Z :=
  c ← the_console;
  put_console (MkConsole (writeHandler c) (readHandler c) (putBusy c) EOF) ;;
  mret (incoming c).

Definition PutChar (ch : Z) : M K unit :=
  c ← the_console;
  lift (ASSERT (negb (putBusy c))) ;;
  on_user (WriteChar ch) ;;
  put_console (MkConsole (writeHandler c) (readHandler c) true (incoming c)) ;;
  Schedule ConsoleWriteDone ConsoleTime ConsoleWriteInt.
End console.
