(* ===== verification/ConsoleTest.v ===== *)
(** * userprog/progtest.cc: the test of the console

    [ConsoleTest] echoes what is typed until a [q].  The interrupt handlers
    that it gives to the console wake it up through two semaphores. *)
From S2P Require Import Prelude Word NList Machine Coro Interrupt Threads Synch Devices.

(** The static variables [readAvail] and [writeDone], and the pointers to the
    functions [ReadAvail] and [WriteDone]. *)
Class HasConsoleTest (U F : Type) := {
  has_console :: HasConsole U F;
  readAvail : U → option positive;
  writeDone : U → option positive;
  set_readAvail : option positive → U → U;
  set_writeDone : option positive → U → U;
  ReadAvail : F;
  WriteDone_ : F
}.

Section consoletest.
Context {F U : Type} `{!Userland U, !HasConsoleTest U F}.
#[local] Abbreviation K := (Kernel F U).
#[local] Abbreviation kcode := (code (Kernel F U) F).

(** The semaphore of a static variable. *)
Definition the_semaphore (var : U → option positive) : M K positive :=
  u ← on_user get; lift (deref (var u)).

(** What [ReadAvail] and [WriteDone] do. *)
Definition read_avail : kcode unit := s ← run (the_semaphore readAvail); V s.
Definition write_done : kcode unit := s ← run (the_semaphore writeDone); V s.

(** One round: [inr] when it returns. *)
Definition echo : kcode (unit + unit) :=
  r ← run (the_semaphore readAvail);
  P r ;;
  ch ← run GetChar;
  run (PutChar ch) ;;
  w ← run (the_semaphore writeDone);
  P w ;;
  mret (if ch =? 113 then inr tt else inl tt).

Definition ConsoleTest : kcode unit :=
  run (Console_new ReadAvail WriteDone_) ;;
  r ← run (Semaphore_new 0);
  run (on_user (modify (set_readAvail (Some r)))) ;;
  w ← run (Semaphore_new 0);
  run (on_user (modify (set_writeDone (Some w)))) ;;
  iterate (λ _, echo) tt.
End consoletest.
