(* ===== verification/ConsoleSpec.v ===== *)
(** * The console echoes what is typed

    [ConsoleTest] of userprog/progtest.cc, through its semaphores, the idle
    loop, the polling and the completion interrupts of the console and the
    switches back, when its thread is the only one that can run. *)
From S2P Require Import Prelude Word NList Machine Coro Interrupt Threads Synch Devices ConsoleTest Alone.

(** What the console expects of the UNIX files of the keyboard and the
    display, and of the variables of the kernel: [con_is r w c i o] says that
    the semaphores are [r] and [w], that the console is [c], that [i] can be
    read and that [o] has been written. *)
Class ConsoleHost (U F : Type) `{!Userland U, !HasConsoleTest U F} := {
  con_is : option positive → option positive → Console F → list Z → list Z → U → Prop;
  con_semaphores r w c i o u : con_is r w c i o u → readAvail u = r ∧ writeDone u = w;
  con_console r w c i o u : con_is r w c i o u → console u = c;
  con_set r w c c' i o u : con_is r w c i o u → con_is r w c' i o (set_console c' u);
  con_set_read r r' w c i o u : con_is r w c i o u → con_is r' w c i o (set_readAvail r' u);
  con_set_write r w w' c i o u : con_is r w c i o u → con_is r w' c i o (set_writeDone w' u);
  con_poll r w c i o u : con_is r w c i o u →
    ∃ u', PollFile u = Ok (bool_decide (i ≠ []), u') ∧ con_is r w c i o u';
  con_read r w c b i o u : con_is r w c (b :: i) o u →
    ∃ u', ReadChar u = Ok (b, u') ∧ con_is r w c i o u';
  con_write r w c i o ch u : con_is r w c i o u →
    ∃ u', WriteChar ch u = Ok (tt, u') ∧ con_is r w c i (o ++ [ch]) u';
  con_DelayedLoad00 r w c i o u : con_is r w c i o u →
    ∃ u', user_DelayedLoad00 u = Ok (tt, u') ∧ con_is r w c i o u'
}.

Section console.
Context {F U : Type} `{!Userland U, !HasConsoleTest U F, !ConsoleHost U F}.
#[local] Abbreviation K := (Kernel F U).
#[local] Abbreviation kcode := (code (Kernel F U) F).
Variables (yield : kcode unit) (call : F → kcode unit).
Hypothesis call_poll : call ConsoleReadPoll = CheckCharAvail.
Hypothesis call_write : call ConsoleWriteDone = WriteDone.
Hypothesis call_read_avail : call ReadAvail = read_avail.
Hypothesis call_write_done : call WriteDone_ = write_done.
Variables (t : tid) (sk : option Z) (regs : list Z) (cds : gmap positive Condition).
Hypothesis Hsk : stack_ok sk.
#[local] Abbreviation cwp := (Coro.cwp yield call start t).
#[local] Abbreviation alone := (alone (F := F) (U := U) t sk regs cds).
#[local] Abbreviation waiting := (Spec.AList [(0, t)] false : Spec.alist tid).

(** ** The state of the thread and of the console *)

(** The thread runs, or waits for the display ([true]) or the keyboard
    ([false]), or has been woken by it. *)
Inductive phase := Running | Waiting (display : bool) | Woken (display : bool).

Definition ready_list (ph : phase) : Spec.alist tid :=
  match ph with Woken _ => waiting | _ => Spec.empty end.
Definition th_state (ph : phase) : ThreadStatus :=
  match ph with Running => RUNNING | Waiting _ => BLOCKED | Woken _ => READY end.
Definition waiters (ph : phase) (display : bool) : Spec.alist tid :=
  match ph with Waiting d => if eqb d display then waiting else Spec.empty | _ => Spec.empty end.

(** The pending interrupts: the next poll at [rp], and the completion of a
    write at [wp]. *)
Definition poll (rp : Z) : Z * PendingInterrupt F := (rp, MkPending ConsoleReadPoll rp ConsoleReadInt).
Definition completion (w : Z) : Z * PendingInterrupt F := (w, MkPending ConsoleWriteDone w ConsoleWriteInt).
Definition completions (wp : option Z) : list (Z * PendingInterrupt F) :=
  match wp with Some w => [completion w] | None => [] end.

Inductive events (rp : Z) : option Z → list (Z * PendingInterrupt F) → Prop :=
  | events_poll : events rp None [poll rp]
  | events_poll_first w : rp ≤ w → events rp (Some w) [poll rp; completion w]
  | events_poll_last w : w ≤ rp → events rp (Some w) [completion w; poll rp].

(** The units of the semaphores: a character has come and has not been waited
    for ([taken]); a write is over and has not been waited for ([owed]). *)
Definition units_read (inc : Z) (taken : bool) : Z :=
  if (inc =? EOF) || taken then 0 else 1.
Definition units_write (wp : option Z) (owed : bool) : Z :=
  if owed && bool_decide (wp = None) then 1 else 0.

(** What has been typed and not yet been taken by [GetChar]. *)
Definition typed (inc : Z) (i : list Z) : list Z := (if inc =? EOF then [] else [inc]) ++ (s8 <$> i).

Definition readable (i : list Z) : Prop := Forall (λ b, s8 b ≠ EOF) i.

Section semaphores.
Variables (ra wd : positive).
Hypothesis ra_wd : ra ≠ wd.

(** The pending interrupts are [p]; at most 100 ticks from now. *)
Record con (l : IntStatus) (h : bool) (m : MachineStatus) (p : list (Z * PendingInterrupt F))
    (ph : phase) (T rp : Z) (wp : option Z) (inc : Z) (i o : list Z) (taken owed : bool) (k : K) : Prop := Con {
  con_alone : ∃ sems lks, alone k (int l h m p) T (ready_list ph) (th_state ph) sems lks
      (con_is (Some ra) (Some wd) (MkConsole WriteDone_ ReadAvail (bool_decide (wp ≠ None)) inc) i o)
    ∧ sems !! ra = Some (MkSemaphore (units_read inc taken) (waiters ph false))
    ∧ sems !! wd = Some (MkSemaphore (units_write wp owed) (waiters ph true));
  con_rp : rp ≤ T + 100;
  con_wp : ∀ w, wp = Some w → w ≤ T + 100;
  con_owed : wp ≠ None → owed = true;
  con_taken : taken = true → inc ≠ EOF;
  con_readable : readable i;
  con_phase : match ph with Waiting false => units_read inc taken = 0 ∧ i ≠ [] ∧ taken = false
                          | Waiting true => units_write wp owed = 0 ∧ owed = true
                          | Woken false => units_read inc taken = 1
                          | Woken true => units_write wp owed = 1 | Running => True end
}.

Lemma con_stable r w c i o : stable (con_is r w c i o).
Proof. intros u Hu. by apply con_DelayedLoad00. Qed.

Lemma op_console {B} k i T rl ts sems lks r w c inp o (g : Console F → kcode B) Q :
  alone k i T rl ts sems lks (con_is r w c inp o) → cwp (g c) k Q →
  cwp (run the_console ≫= g) k Q.
Proof. intros Hk H. apply op_get. by rewrite (con_console _ _ _ _ _ _ (at_user _ _ _ _ _ _ _ _ _ _ _ _ Hk)). Qed.

Lemma op_put_console {B} k i T rl ts sems lks r w c c' inp o (g : unit → kcode B) Q :
  alone k i T rl ts sems lks (con_is r w c inp o) →
  (∀ k', alone k' i T rl ts sems lks (con_is r w c' inp o) → cwp (g tt) k' Q) →
  cwp (run (put_console c') ≫= g) k Q.
Proof.
  intros Hk H. unfold put_console. eapply op_user; [exact Hk| |exact H].
  intros u Hu. exists (set_console c' u). split; [done|by eapply con_set].
Qed.

Lemma op_ReadChar {B} k i T rl ts sems lks r w c b inp o (g : Z → kcode B) Q :
  alone k i T rl ts sems lks (con_is r w c (b :: inp) o) →
  (∀ k', alone k' i T rl ts sems lks (con_is r w c inp o) → cwp (g b) k' Q) →
  cwp (run (on_user ReadChar) ≫= g) k Q.
Proof.
  intros Hk H. eapply (op_user _ _ _ _ _ _ _ _ _ _ _ _ _ _ _ Hk ReadChar b (con_is r w c inp o)); [|exact H].
  intros u Hu. by apply con_read.
Qed.

(** The semaphores as the handlers find them. *)
Lemma op_the_semaphore {B} k i T rl ts sems lks r w c inp o (var : U → option positive) s (g : positive → kcode B) Q :
  alone k i T rl ts sems lks (con_is r w c inp o) → var (user k) = Some s → cwp (g s) k Q →
  cwp (run (the_semaphore var) ≫= g) k Q.
Proof.
  intros Hk Hs H. eapply cwp_act; [|exact H]. unfold the_semaphore, on_user, get, lift, modify, mbind, M_bind.
  simpl. rewrite Hs. unfold set_user. by destruct k.
Qed.

(** *** The queue of pending interrupts *)

Lemma insert_poll T wp :
  (∀ w, wp = Some w → w ≤ T + 100) → in_s32 (T + 100) →
  ∃ p, Spec.SortedInsert (add32 T ConsoleTime) (MkPending ConsoleReadPoll (add32 T ConsoleTime) ConsoleReadInt)
         (Spec.AList (completions wp) false) = Ok (Spec.AList p false) ∧ events (T + 100) wp p.
Proof.
  intros Hw Hr. unfold add32, ConsoleTime. rewrite s32_id by done. destruct wp as [w|].
  - specialize (Hw w eq_refl). exists [completion w; poll (T + 100)]. split; [|by constructor].
    unfold Spec.SortedInsert. simpl. replace (T + 100 <? w) with false by lia. done.
  - exists [poll (T + 100)]. split; [done|constructor].
Qed.

Lemma insert_completion T rp :
  rp ≤ T + 100 → in_s32 (T + 100) →
  Spec.SortedInsert (add32 T ConsoleTime) (MkPending ConsoleWriteDone (add32 T ConsoleTime) ConsoleWriteInt)
    (Spec.AList [poll rp] false) = Ok (Spec.AList [poll rp; completion (T + 100)] false).
Proof.
  intros Hw Hr. unfold add32, ConsoleTime. rewrite s32_id by done.
  unfold Spec.SortedInsert. simpl. replace (T + 100 <? rp) with false by lia. done.
Qed.

(** The first event goes back into the queue. *)
Lemma events_again rp wp p x q :
  events rp wp p → p = x :: q →
  ∃ p', Spec.SortedInsert x.1 x.2 (Spec.AList q false) = Ok (Spec.AList p' false) ∧ events rp wp p'.
Proof.
  intros He ->. inversion He; subst; simpl; unfold Spec.SortedInsert; simpl.
  - eexists. split; [done|constructor].
  - destruct (Z.ltb_spec rp w); simpl; eexists; (split; [done|constructor; lia]).
  - destruct (Z.ltb_spec w rp); simpl; eexists; (split; [done|constructor; lia]).
Qed.

(** ** The handlers *)

Definition clock_ok (T : Z) : Prop := 0 ≤ T ≤ 2 ^ 31 - 2 ^ 16.

Lemma clock_s32 T : clock_ok T → in_s32 (T + 100).
Proof. unfold clock_ok, in_s32. lia. Qed.

(** What a unit for the display or the keyboard does to the phase. *)
Definition woken_by (d : bool) (ph : phase) : phase :=
  match ph with Waiting d' => if eqb d' d then Woken d else ph | _ => ph end.

(** A unit for the semaphore [s]; the thread is woken if it waits for it. *)
Lemma V_unit (d : bool) k m p ph T v sems lks Pu (Q : unit → K → Prop) :
  let s := if d then wd else ra in
  alone k (int IntOff true m p) T (ready_list ph) (th_state ph) sems lks Pu →
  sems !! s = Some (MkSemaphore v (waiters ph d)) →
  (∀ k', alone k' (int IntOff true m p) T (ready_list (woken_by d ph)) (th_state (woken_by d ph))
       (<[s := MkSemaphore (add32 v 1) (waiters (woken_by d ph) d)]> sems) lks Pu → Q tt k') →
  cwp (V s) k Q.
Proof.
  intros s Hk Hs HQ. destruct ph as [|d'|d'].
  - eapply V_free; [exact Hk|exact Hs|exact HQ].
  - cbn [woken_by ready_list th_state waiters] in *. destruct (eqb d' d) eqn:E.
    + eapply V_waiting; [exact Hk|exact Hs|exact HQ].
    + cbn [ready_list th_state waiters] in HQ. rewrite E in HQ. eapply V_free; [exact Hk|exact Hs|exact HQ].
  - eapply V_free; [exact Hk|exact Hs|exact HQ].
Qed.

Lemma fire_poll ph T rp wp inc i o taken owed m k :
  clock_ok T → con IntOff true m (completions wp) ph T rp wp inc i o taken owed k →
  cwp (call ConsoleReadPoll) k (λ _ k', ∃ inc' i' p, events (T + 100) wp p
    ∧ con IntOff true m p (woken_by false ph) T (T + 100) wp inc' i' o taken owed k'
    ∧ typed inc' i' = typed inc i).
Proof.
  intros HT [(sems & lks & Hk & Hr & Hw) Hrp Hwp Howed Htaken Hread Hph].
  rewrite call_poll. unfold CheckCharAvail.
  destruct (insert_poll T wp Hwp (clock_s32 T HT)) as (p & Hp & Hev).
  eapply op_Schedule; [exact Hk|done|exact Hp|]. next_state k Hk.
  eapply op_console; [exact Hk|]. cbn [incoming].
  assert (woken_by false ph = ph → ∀ k, alone k (int IntOff true m p) T (ready_list ph) (th_state ph) sems lks
      (con_is (Some ra) (Some wd) (MkConsole WriteDone_ ReadAvail (bool_decide (wp ≠ None)) inc) i o) →
    ∃ inc' i' p, events (T + 100) wp p
      ∧ con IntOff true m p (woken_by false ph) T (T + 100) wp inc' i' o taken owed k
      ∧ typed inc' i' = typed inc i) as Hsame.
  { intros -> k' Hk'. exists inc, i, p. split; [done|]. split; [|done].
    constructor; try done. by exists sems, lks. }
  destruct (Z.eqb_spec inc EOF) as [->|Hinc]; simpl negb; cbv iota.
  - eapply op_user; [exact Hk|intros u Hu; by apply con_poll|]. next_state k Hk.
    destruct i as [|b i].
    + simpl. apply cwp_ret, Hsame; [|done]. destruct ph as [|[]|]; try done. by destruct Hph as (_ & ? & _).
    + simpl bool_decide. cbv iota. simpl negb. cbv iota.
      eapply op_ReadChar; [exact Hk|]. next_state k Hk.
      eapply op_put_console; [exact Hk|]. next_state k Hk.
      eapply op_stats; [exact Hk|intros st Hst; exact Hst|]. next_state k Hk.
      cbn [Devices.readHandler]. apply cwp_call. rewrite call_read_avail. unfold read_avail.
      eapply op_the_semaphore; [exact Hk| |].
      { by destruct (con_semaphores _ _ _ _ _ _ (at_user _ _ _ _ _ _ _ _ _ _ _ _ Hk)) as [-> _]. }
      eapply (V_unit false); [exact Hk|exact Hr|]. next_state k Hk. apply cwp_ret.
      assert (taken = false) as -> by (destruct taken; [by destruct (Htaken eq_refl)|done]).
      apply list.Forall_cons in Hread as [Hb Hi].
      exists (s8 b), i, p. split; [done|]. split; [constructor; try done|].
      * do 2 eexists. split; [exact Hk|]. split.
        -- rewrite lookup_insert_eq. unfold units_read. replace (s8 b =? EOF) with false by lia. done.
        -- rewrite lookup_insert_ne by done. rewrite Hw. by destruct ph as [|[]|].
      * unfold woken_by. destruct ph as [|[]|[]]; simpl; try done; unfold units_read;
          by replace (s8 b =? EOF) with false by lia.
      * unfold typed. simpl. by replace (s8 b =? EOF) with false by lia.
  - apply cwp_ret, Hsame; [|done]. destruct ph as [|[]|]; try done. destruct Hph as (Hu & _ & ->).
    unfold units_read in Hu. by replace (inc =? EOF) with false in Hu by lia.
Qed.

Lemma fire_completion ph T rp w inc i o taken owed m k :
  clock_ok T → con IntOff true m [poll rp] ph T rp (Some w) inc i o taken owed k →
  cwp (call ConsoleWriteDone) k (λ _ k',
    con IntOff true m [poll rp] (woken_by true ph) T rp None inc i o taken owed k').
Proof.
  intros HT [(sems & lks & Hk & Hr & Hw) Hrp Hwp Howed Htaken Hread Hph].
  rewrite call_write. unfold WriteDone. rewrite (Howed ltac:(done)) in *.
  eapply op_console; [exact Hk|]. eapply op_put_console; [exact Hk|]. next_state k Hk.
  eapply op_stats; [exact Hk|intros st Hst; exact Hst|]. next_state k Hk.
  cbn [Devices.writeHandler]. apply cwp_call. rewrite call_write_done. unfold write_done.
  eapply op_the_semaphore; [exact Hk| |].
  { by destruct (con_semaphores _ _ _ _ _ _ (at_user _ _ _ _ _ _ _ _ _ _ _ _ Hk)) as [_ ->]. }
  eapply (V_unit true); [exact Hk|exact Hw|]. next_state k Hk. apply cwp_ret.
  constructor; try done.
  - do 2 eexists. split; [exact Hk|]. split.
    + rewrite lookup_insert_ne by done. rewrite Hr. by destruct ph as [|[]|].
    + by rewrite lookup_insert_eq.
  - unfold woken_by. destruct ph as [|[]|[]]; simpl; try done; by destruct Hph.
Qed.

(** ** The interrupts that are due *)

Definition sched (l : IntStatus) (h : bool) (m : MachineStatus) (ph : phase) (T rp : Z)
    (wp : option Z) (inc : Z) (i o : list Z) (taken owed : bool) (k : K) : Prop :=
  ∃ p, events rp wp p ∧ con l h m p ph T rp wp inc i o taken owed k.

(** Nothing is due. *)
Definition drained (T rp : Z) (wp : option Z) : Prop := T < rp ∧ ∀ w, wp = Some w → T < w.

#[local] Abbreviation CheckDue := (CheckIfDue (on_user user_DelayedLoad00)).

(** The hardware and the time of a state change. *)
Lemma con_move l h m p ph T rp wp inc i o taken owed k :
  con l h m p ph T rp wp inc i o taken owed k →
  ∃ sems lks c, alone k (int l h m p) T (ready_list ph) (th_state ph) sems lks
      (con_is (Some ra) (Some wd) c i o)
    ∧ ∀ l' h' m' p' T' k', T ≤ T' →
        alone k' (int l' h' m' p') T' (ready_list ph) (th_state ph) sems lks
          (con_is (Some ra) (Some wd) c i o) →
        con l' h' m' p' ph T' rp wp inc i o taken owed k'.
Proof.
  intros [(sems & lks & Hk & Hr & Hw) Hrp Hwp]. do 3 eexists. split; [exact Hk|].
  intros l' h' m' p' T' k' HT Hk'. constructor; try done.
  - by exists sems, lks.
  - lia.
  - intros w Hw'. specialize (Hwp w Hw'). lia.
Qed.

(** What the first event of the queue does, at its time or later. *)
Definition fired (m : MachineStatus) (ph : phase) (T rp : Z) (wp : option Z) (inc : Z) (i o : list Z)
    (taken owed : bool) (when : Z) (k : K) : Prop :=
  (when = rp ∧ (∀ w, wp = Some w → rp ≤ w) ∧ ∃ inc' i', typed inc' i' = typed inc i
     ∧ sched IntOff false m (woken_by false ph) T (T + 100) wp inc' i' o taken owed k)
  ∨ (wp = Some when ∧ when ≤ rp ∧ sched IntOff false m (woken_by true ph) T rp None inc i o taken owed k).

Lemma check_fire adv m x rest ph T rp wp inc i o taken owed k (Q : bool → K → Prop) :
  con IntOff false m (x :: rest) ph T rp wp inc i o taken owed k → events rp wp (x :: rest) →
  adv = true ∨ x.1 ≤ T → clock_ok (Z.max T x.1) →
  (∀ k', fired m ph (Z.max T x.1) rp wp inc i o taken owed x.1 k' → Q true k') →
  cwp (CheckDue adv) k Q.
Proof.
  intros Hcon Hev Hadv Hclk HQ. destruct (con_move _ _ _ _ _ _ _ _ _ _ _ _ _ _ Hcon)
    as (sems & lks & c & Hk & Hmove). destruct x as [w x]. cbn [fst] in *.
  eapply CheckIfDue_fire; [exact Hk|apply con_stable| |exact Hadv|].
  { inversion Hev; subst; done. }
  intros k1 H1. assert (Hc1 := Hmove _ _ _ _ (Z.max T w) k1 ltac:(lia) H1). clear Hmove Hk Hcon.
  assert (x = snd (poll rp) ∧ w = rp ∧ rest = completions wp ∧ (∀ w, wp = Some w → rp ≤ w)
    ∨ x = snd (completion w) ∧ wp = Some w ∧ rest = [poll rp] ∧ w ≤ rp)
    as [(-> & -> & -> & Hle)|(-> & -> & -> & Hle)].
  { inversion Hev; subst.
    - left. by split.
    - left. split; [done|]. split; [done|]. split; [done|]. by intros ? [= <-].
    - right. by split. }
  - cbn [snd poll handler]. eapply cwp_mono; [by apply (fire_poll _ _ _ _ _ _ _ _ _ _ _ Hclk Hc1)|].
    intros [] k2 (inc' & i' & p & Hp & Hc2 & Hty).
    destruct (con_move _ _ _ _ _ _ _ _ _ _ _ _ _ _ Hc2) as (sems2 & lks2 & c2 & H2 & Hmove).
    do 7 eexists. split; [exact H2|]. intros k3 H3. apply HQ. left. split; [done|]. split; [done|].
    exists inc', i'. split; [done|]. exists p. split; [done|]. eapply Hmove; [lia|exact H3].
  - cbn [snd completion handler]. eapply cwp_mono; [by apply (fire_completion _ _ _ _ _ _ _ _ _ _ _ Hclk Hc1)|].
    intros [] k2 Hc2. destruct (con_move _ _ _ _ _ _ _ _ _ _ _ _ _ _ Hc2) as (sems2 & lks2 & c2 & H2 & Hmove).
    do 7 eexists. split; [exact H2|]. intros k3 H3. apply HQ. right. split; [done|]. split; [done|].
    exists [poll rp]. split; [constructor|]. eapply Hmove; [lia|exact H3].
Qed.

(** One test in a loop: the first event happens if it is due. *)
Lemma check_due m ph T rp wp inc i o taken owed k (Q : bool → K → Prop) :
  clock_ok T → sched IntOff false m ph T rp wp inc i o taken owed k →
  (∀ k' when, when ≤ T → fired m ph T rp wp inc i o taken owed when k' → Q true k') →
  (∀ k', drained T rp wp → sched IntOff false m ph T rp wp inc i o taken owed k' → Q false k') →
  cwp (CheckDue false) k Q.
Proof.
  intros Hclk (p & Hev & Hcon) HQt HQf. destruct p as [|x rest]; [inversion Hev|].
  destruct (decide (x.1 ≤ T)) as [Hle|Hgt].
  - eapply check_fire; [exact Hcon|exact Hev|by right|by rewrite Z.max_l by lia|].
    intros k' Hf. rewrite Z.max_l in Hf by lia. by eapply HQt.
  - destruct (events_again _ _ _ _ _ Hev eq_refl) as (p' & Hins & Hev').
    destruct (con_move _ _ _ _ _ _ _ _ _ _ _ _ _ _ Hcon) as (sems & lks & c & Hk & Hmove).
    destruct x as [w x]. eapply CheckIfDue_later; [exact Hk|simpl in Hgt; lia|exact Hins|].
    intros k' H'. apply HQf; [|exists p'; split; [done|]; eapply Hmove; [lia|exact H']].
    inversion Hev; subst; simpl in Hgt; (split; [lia|]); intros w' [= <-]; lia.
Qed.

(** After the loop nothing is due. *)
Definition settled (m : MachineStatus) (ph : phase) (T rp : Z) (wp : option Z) (inc : Z) (i o : list Z)
    (taken owed : bool) (k : K) : Prop :=
  ∃ ph' rp' wp' inc' i', drained T rp' wp' ∧ typed inc' i' = typed inc i
    ∧ sched IntOff false m ph' T rp' wp' inc' i' o taken owed k
    ∧ (ph' = ph ∨ ∃ d, ph = Waiting d ∧ ph' = Woken d)
    ∧ (wp' = wp ∨ wp' = None) ∧ (rp' = rp ∨ rp' = T + 100).

Lemma woken_cases d ph : woken_by d ph = ph ∨ ∃ d', ph = Waiting d' ∧ woken_by d ph = Woken d'.
Proof. destruct ph as [|[]|]; destruct d; simpl; eauto. Qed.

Definition due (T rp : Z) (wp : option Z) : nat :=
  (if decide (rp ≤ T) then 1 else 0) + (match wp with Some w => if decide (w ≤ T) then 1 else 0 | None => 0 end).

Lemma while_due n : ∀ m ph T rp wp inc i o taken owed k,
  due T rp wp = n → clock_ok T → sched IntOff false m ph T rp wp inc i o taken owed k →
  cwp (while (CheckDue false)) k (λ _, settled m ph T rp wp inc i o taken owed).
Proof.
  induction n as [n IH] using lt_wf_ind. intros m ph T rp wp inc i o taken owed k Hn Hclk Hs.
  apply cwp_while. eapply check_due; [done|exact Hs| |].
  - intros k' when Hw [(-> & _ & inc' & i' & Hty & Hs')|(-> & _ & Hs')].
    + eapply cwp_mono; [eapply (IH (due T (T + 100) wp)); [|done|exact Hclk|exact Hs']|].
      { subst n. unfold due. repeat case_decide; try lia; destruct wp; lia. }
      intros _ k2 (ph2 & rp2 & wp2 & inc2 & i2 & Hd & Hty2 & Hs2 & Hph & Hwp & Hrp).
      exists ph2, rp2, wp2, inc2, i2. split; [done|]. split; [congruence|]. split; [done|].
      split; [|split; [done|right; lia]].
      destruct (woken_cases false ph) as [E|(d & E1 & E2)]; [by rewrite E in Hph|].
      right. exists d. split; [done|]. rewrite E2 in Hph. destruct Hph as [?|(? & ? & ?)]; [done|done].
    + eapply cwp_mono; [eapply (IH (due T rp None)); [|done|exact Hclk|exact Hs']|].
      { subst n. unfold due. repeat case_decide; lia. }
      intros _ k2 (ph2 & rp2 & wp2 & inc2 & i2 & Hd & Hty2 & Hs2 & Hph & Hwp & Hrp).
      exists ph2, rp2, wp2, inc2, i2. split; [done|]. split; [done|]. split; [done|].
      split; [|split; [right; by destruct Hwp|done]].
      destruct (woken_cases true ph) as [E|(d & E1 & E2)]; [by rewrite E in Hph|].
      right. exists d. split; [done|]. rewrite E2 in Hph. destruct Hph as [?|(? & ? & ?)]; [done|done].
  - intros k' Hd Hs'. exists ph, rp, wp, inc, i. eauto 10.
Qed.

Lemma sched_move l h m ph T rp wp inc i o taken owed k :
  sched l h m ph T rp wp inc i o taken owed k →
  ∃ p sems lks c, alone k (int l h m p) T (ready_list ph) (th_state ph) sems lks
      (con_is (Some ra) (Some wd) c i o)
    ∧ ∀ l' h' m' T' k', T ≤ T' →
        alone k' (int l' h' m' p) T' (ready_list ph) (th_state ph) sems lks
          (con_is (Some ra) (Some wd) c i o) →
        sched l' h' m' ph T' rp wp inc i o taken owed k'.
Proof.
  intros (p & Hev & Hcon). destruct (con_move _ _ _ _ _ _ _ _ _ _ _ _ _ _ Hcon) as (sems & lks & c & Hk & Hmove).
  exists p, sems, lks, c. split; [done|]. intros. exists p. split; [done|]. by eapply Hmove.
Qed.

(** A tick of the clock while the thread runs. *)
Lemma OneTick_con T rp wp inc i o taken owed k (Q : unit → K → Prop) :
  0 ≤ T → clock_ok (T + 10) → sched IntOn false SystemMode Running T rp wp inc i o taken owed k →
  (∀ k' rp' wp' inc' i', drained (T + 10) rp' wp' → typed inc' i' = typed inc i →
     wp' = wp ∨ wp' = None →
     sched IntOn false SystemMode Running (T + 10) rp' wp' inc' i' o taken owed k' → Q tt k') →
  cwp OneTick k Q.
Proof.
  intros HT Hclk Hs HQ. destruct (sched_move _ _ _ _ _ _ _ _ _ _ _ _ _ Hs) as (p & sems & lks & c & Hk & Hmove).
  eapply OneTick_due; [exact Hk|]. intros k1 H1.
  unfold add32, SystemTick in H1. rewrite s32_id in H1 by (unfold clock_ok, in_s32 in *; lia).
  eapply cwp_mono; [eapply while_due; [done|exact Hclk|eapply Hmove; [|exact H1]; lia]|].
  intros _ k2 (ph2 & rp2 & wp2 & inc2 & i2 & Hd & Hty2 & Hs2 & Hph & Hwp & _).
  assert (ph2 = Running) as -> by (by destruct Hph as [?|(? & ? & _)]).
  destruct (sched_move _ _ _ _ _ _ _ _ _ _ _ _ _ Hs2) as (p2 & sems2 & lks2 & c2 & H2 & Hmove2).
  do 7 eexists. split; [exact H2|]. intros k3 H3.
  eapply HQ; [exact Hd|exact Hty2|exact Hwp|]. eapply Hmove2; [|exact H3]. lia.
Qed.

(** ** Waiting *)

Definition sem_of (d : bool) : positive := if d then wd else ra.
Definition units (d : bool) (wp : option Z) (inc : Z) (taken owed : bool) : Z :=
  if d then units_write wp owed else units_read inc taken.

Lemma units_cases d wp inc taken owed : units d wp inc taken owed = 0 ∨ units d wp inc taken owed = 1.
Proof. destruct d; simpl; unfold units_read, units_write; case_match; auto. Qed.

(** A unit is taken. *)
Lemma con_take d l h m p ph T rp wp inc i o taken owed k :
  ph = Running ∨ ph = Woken d → units d wp inc taken owed = 1 →
  con l h m p ph T rp wp inc i o taken owed k →
  ∃ sems lks c, alone k (int l h m p) T (ready_list ph) (th_state ph) sems lks
      (con_is (Some ra) (Some wd) c i o)
    ∧ sems !! sem_of d = Some (MkSemaphore 1 Spec.empty)
    ∧ ∀ l' m' k3, alone k3 (int l' false m' p) T Spec.empty RUNNING
          (<[sem_of d := MkSemaphore 0 Spec.empty]> sems) lks (con_is (Some ra) (Some wd) c i o) →
        con l' false m' p Running T rp wp inc i o (taken || negb d) (owed && negb d) k3.
Proof.
  intros Hph Hu [(sems & lks & Hk & Hr & Hw) Hrp Hwp Howed Htaken Hread _].
  assert (∀ d', waiters ph d' = Spec.empty) as Hq by (intros d'; by destruct Hph as [->| ->]).
  rewrite Hq in Hr, Hw. do 3 eexists. split; [exact Hk|]. destruct d; simpl in *.
  - split; [by rewrite Hw, Hu|]. intros l' m' k3 H3.
    unfold units_write in Hu. destruct owed; [|done]. simpl in Hu.
    destruct (decide (wp = None)) as [->|]; [|by rewrite bool_decide_false in Hu].
    rewrite orb_false_r. constructor; try done.
    do 2 eexists. split; [exact H3|]. split; [|by apply lookup_insert_eq].
    by rewrite lookup_insert_ne.
  - split; [by rewrite Hr, Hu|]. intros l' m' k3 H3. rewrite orb_true_r, andb_true_r.
    unfold units_read in Hu. destruct (Z.eqb_spec inc EOF); [done|].
    constructor; try done.
    do 2 eexists. split; [exact H3|]. split.
    + rewrite lookup_insert_eq. unfold units_read. by rewrite orb_true_r.
    + by rewrite lookup_insert_ne.
Qed.

(** The idle loop: the event that the thread waits for happens, or a poll
    before it. *)
Lemma Idle_con d T rp wp inc i o taken owed k (Q : unit → K → Prop) :
  0 ≤ T → clock_ok (T + 100) → drained T rp wp → (d = false → wp = None) →
  sched IntOff false SystemMode (Waiting d) T rp wp inc i o taken owed k →
  (∀ k' ph' T' rp' wp' inc' i', T < T' ≤ T + 100 → drained T' rp' wp' → typed inc' i' = typed inc i →
     wp' = wp ∨ wp' = None → sched IntOff false SystemMode ph' T' rp' wp' inc' i' o taken owed k' →
     ph' = Woken d ∨ (d = true ∧ ph' = Waiting true ∧ ∃ w, wp' = Some w ∧ w < rp' ∧ rp ≤ w) →
     Q tt k') →
  cwp Idle k Q.
Proof.
  intros HT Hclk Hd Hwp Hs HQ. destruct Hs as (p & Hev & Hcon). destruct p as [|x rest]; [inversion Hev|].
  destruct (con_move _ _ _ _ _ _ _ _ _ _ _ _ _ _ Hcon) as (sems & lks & c & Hk & Hmove).
  assert (T < x.1 ≤ T + 100) as Hx.
  { destruct Hd as [Hd1 Hd2]. pose proof (con_rp _ _ _ _ _ _ _ _ _ _ _ _ _ _ Hcon).
    pose proof (con_wp _ _ _ _ _ _ _ _ _ _ _ _ _ _ Hcon) as Hw.
    inversion Hev; subst; simpl; try lia. specialize (Hd2 _ eq_refl). specialize (Hw _ eq_refl). lia. }
  pose proof (con_wp _ _ _ _ _ _ _ _ _ _ _ _ _ _ Hcon) as Hw100.
  destruct x as [w0 x]. cbn [fst] in Hx. eapply Idle_fire; [exact Hk|]. intros k1 H1.
  eapply check_fire; [eapply Hmove; [|exact H1]; lia|exact Hev|by left|
    cbn [fst]; rewrite Z.max_r by lia; unfold clock_ok in *; lia|].
  cbn [fst]. rewrite Z.max_r by lia. intros k2 Hf. split; [done|].
  assert (clock_ok w0) as Hclk0 by (unfold clock_ok in *; lia).
  destruct Hf as [(-> & Hle & inc' & i' & Hty & Hs')|(-> & Hle & Hs')].
  - eapply cwp_mono; [eapply while_due; [done|exact Hclk0|exact Hs']|].
    intros _ k3 (ph3 & rp3 & wp3 & inc3 & i3 & Hd3 & Hty3 & Hs3 & Hph & Hwp3 & Hrp3).
    destruct (sched_move _ _ _ _ _ _ _ _ _ _ _ _ _ Hs3) as (p3 & sems3 & lks3 & c3 & H3 & Hmove3).
    do 7 eexists. split; [exact H3|]. intros k4 H4.
    eapply (HQ k4 ph3 rp rp3 wp3 inc3 i3); [lia|done|congruence|done|eapply Hmove3; [|exact H4]; lia|].
    destruct d; simpl in Hph.
    + destruct Hph as [->|(d' & [= <-] & ->)]; [|by left]. right. split; [done|]. split; [done|].
      destruct Hs3 as (p' & _ & Hc3). pose proof (con_phase _ _ _ _ _ _ _ _ _ _ _ _ _ _ Hc3) as [Hu Ho].
      unfold units_write in Hu. rewrite Ho in Hu. destruct wp3 as [w|]; [|done].
      exists w. split; [done|]. destruct Hwp3 as [<-|]; [|done]. specialize (Hle w eq_refl).
      specialize (Hw100 w eq_refl). destruct Hd3 as [Hd3 _]. lia.
    + left. by destruct Hph as [?|(? & ? & _)].
  - eapply cwp_mono; [eapply while_due; [done|exact Hclk0|exact Hs']|].
    intros _ k3 (ph3 & rp3 & wp3 & inc3 & i3 & Hd3 & Hty3 & Hs3 & Hph & Hwp3 & Hrp3).
    destruct (sched_move _ _ _ _ _ _ _ _ _ _ _ _ _ Hs3) as (p3 & sems3 & lks3 & c3 & H3 & Hmove3).
    do 7 eexists. split; [exact H3|]. intros k4 H4.
    eapply (HQ k4 ph3 w0 rp3 wp3 inc3 i3); [lia|done|done|by destruct Hwp3; auto|eapply Hmove3; [|exact H4]; lia|].
    destruct d; [|by specialize (Hwp eq_refl)]. left. simpl in Hph. by destruct Hph as [?|(? & ? & _)].
Qed.

(** The thread sleeps for the keyboard or the display, and is the next one. *)
Lemma next_thread_con d T rp wp inc i o taken owed k (Q : tid → K → Prop) :
  0 ≤ T → clock_ok (T + 200) → drained T rp wp → (d = false → wp = None) →
  sched IntOff false SystemMode (Waiting d) T rp wp inc i o taken owed k →
  (∀ k' p T' rp' wp' inc' i', T < T' ≤ T + 200 → typed inc' i' = typed inc i →
     wp' = wp ∨ wp' = None → events rp' wp' p →
     (∃ sems lks c, alone k' (int IntOff false SystemMode p) T' Spec.empty READY sems lks
        (con_is (Some ra) (Some wd) c i' o)
      ∧ sems !! sem_of d = Some (MkSemaphore 1 Spec.empty)
      ∧ ∀ l' m' k3, alone k3 (int l' false m' p) T' Spec.empty RUNNING
            (<[sem_of d := MkSemaphore 0 Spec.empty]> sems) lks (con_is (Some ra) (Some wd) c i' o) →
          con l' false m' p Running T' rp' wp' inc' i' o (taken || negb d) (owed && negb d) k3) → Q t k') →
  cwp next_thread k Q.
Proof.
  intros HT Hclk Hd Hwp Hs HQ.
  assert (∀ k' T' rp' wp' inc' i', T < T' ≤ T + 200 → typed inc' i' = typed inc i →
     wp' = wp ∨ wp' = None →
     sched IntOff false SystemMode (Woken d) T' rp' wp' inc' i' o taken owed k' → cwp next_thread k' Q) as Hend.
  { intros k' T' rp' wp' inc' i' HT' Hty Hwp' (p & Hev & Hcon).
    destruct (con_take d _ _ _ _ _ _ _ _ _ _ _ _ _ _ (or_intror eq_refl)
      ltac:(pose proof (con_phase _ _ _ _ _ _ _ _ _ _ _ _ _ _ Hcon); by destruct d) Hcon)
      as (sems & lks & c & Hk & Hsem & Htake).
    eapply next_thread_ready; [exact Hk|]. intros k1 H1. eapply HQ; [exact HT'|exact Hty|exact Hwp'|exact Hev|].
    by exists sems, lks, c. }
  destruct (sched_move _ _ _ _ _ _ _ _ _ _ _ _ _ Hs) as (p & sems & lks & c & Hk & Hmove).
  eapply next_thread_idle; [exact Hk|]. intros k1 H1.
  eapply Idle_con; [exact HT|unfold clock_ok in *; lia|exact Hd|exact Hwp|eapply Hmove; [|exact H1]; lia|].
  intros k2 ph2 T2 rp2 wp2 inc2 i2 HT2 Hd2 Hty2 Hwp2 Hs2 [->|(-> & -> & w & -> & Hw1 & Hw2)].
  - apply (Hend _ T2 rp2 wp2 inc2 i2); [lia|done..].
  - clear Hmove Hk H1. destruct (sched_move _ _ _ _ _ _ _ _ _ _ _ _ _ Hs2) as (p2 & sems2 & lks2 & c2 & H2 & Hmove).
    eapply next_thread_idle; [exact H2|]. intros k3 H3.
    eapply (Idle_con true T2); [lia|unfold clock_ok in *; lia|exact Hd2|done|eapply Hmove; [|exact H3]; lia|].
    intros k4 ph4 T4 rp4 wp4 inc4 i4 HT4 Hd4 Hty4 Hwp4 Hs4 [->|(_ & _ & w' & Hw' & _ & Hw3)].
    + apply (Hend _ T4 rp4 wp4 inc4 i4); [lia|congruence| |done]. destruct Hwp4 as [->|]; auto.
    + exfalso. destruct Hwp4 as [E|E]; rewrite E in Hw'; [injection Hw' as <-; lia|done].
Qed.

(** [P] on one of the two semaphores. *)
Lemma P_con (d : bool) T rp wp inc i o taken owed k (Q : unit → K → Prop) :
  0 ≤ T → clock_ok (T + 210) → drained T rp wp →
  (if d then owed = true else taken = false ∧ owed = false ∧ typed inc i ≠ []) →
  sched IntOn false SystemMode Running T rp wp inc i o taken owed k →
  (∀ k' T' rp' wp' inc' i', T < T' ≤ T + 210 → drained T' rp' wp' → typed inc' i' = typed inc i →
     sched IntOn false SystemMode Running T' rp' wp' inc' i' o (taken || negb d) (owed && negb d) k' →
     Q tt k') →
  cwp (P (sem_of d)) k Q.
Proof.
  intros HT Hclk Hd Hpre (p & Hev & Hcon) HQ. destruct (units_cases d wp inc taken owed) as [Hu|Hu].
  - pose proof Hcon as [(sems & lks & Hk & Hr & Hw) Hrp Hwp Howed Htaken Hread _].
    assert (sems !! sem_of d = Some (MkSemaphore 0 Spec.empty)) as Hs
      by (destruct d; simpl in Hu |- *; by rewrite <- Hu).
    eapply P_wait; [exact Hsk|exact Hk|exact Hs|]. intros k1 H1.
    eapply (next_thread_con d T rp wp inc i o taken owed); [done|unfold clock_ok in *; lia|done| | |].
    + intros ->. destruct Hpre as (_ & -> & _). destruct wp; [|done]. by specialize (Howed ltac:(done)).
    + exists p. split; [done|]. constructor; try done.
      * do 2 eexists. split; [exact H1|]. destruct d; simpl in *.
        -- split; [by rewrite lookup_insert_ne|]. by rewrite lookup_insert_eq, Hu.
        -- split; [by rewrite lookup_insert_eq, Hu|]. by rewrite lookup_insert_ne.
      * destruct d; simpl in Hu; [done|]. destruct Hpre as (-> & _ & Hty). split; [done|]. split; [|done].
        unfold units_read in Hu. unfold typed in Hty. destruct (inc =? EOF); [|done]. by destruct i.
    + intros k2 p2 T2 rp2 wp2 inc2 i2 HT2 Hty2 Hwp2 Hev2 (sems2 & lks2 & c2 & H2 & Hs2 & Htake).
      split; [done|]. do 3 eexists. exists 1. do 3 eexists.
      split; [exact H2|]. split; [exact Hs2|]. split; [done|]. intros k3 H3.
      apply Htake in H3. eapply (OneTick_con T2); [lia|unfold clock_ok in *; lia|by exists p2|].
      intros k4 rp4 wp4 inc4 i4 Hd4 Hty4 Hwp4 Hs4. eapply HQ; [|exact Hd4| |exact Hs4]; [lia|congruence].
  - destruct (con_take d _ _ _ _ _ _ _ _ _ _ _ _ _ _ (or_introl eq_refl) Hu Hcon)
      as (sems & lks & c & Hk & Hsem & Htake).
    eapply P_positive; [exact Hk|exact Hsem|done|]. intros k1 H1. apply Htake in H1.
    eapply (OneTick_con T); [done|unfold clock_ok in *; lia|by exists p|].
    intros k4 rp4 wp4 inc4 i4 Hd4 Hty4 Hwp4 Hs4. eapply HQ; [|exact Hd4|exact Hty4|exact Hs4]; lia.
Qed.

(** ** The echo *)

Lemma GetChar_con {B} T rp wp inc i o owed k (c : Z → kcode B) (Q : B → K → Prop) :
  sched IntOn false SystemMode Running T rp wp inc i o true owed k →
  (∀ k', sched IntOn false SystemMode Running T rp wp EOF i o false owed k' → cwp (c inc) k' Q) →
  cwp (run GetChar ≫= c) k Q.
Proof.
  intros (p & Hev & [(sems & lks & Hk & Hr & Hw) Hrp Hwp Howed Htaken Hread Hph]) H.
  unfold GetChar. apply cwp_run_bind. eapply op_console; [exact Hk|].
  apply cwp_run_bind. eapply op_put_console; [exact Hk|]. next_state k Hk. apply cwp_run_ret.
  apply H. exists p. split; [done|]. constructor; try done. do 2 eexists. split; [exact Hk|].
  split; [|done]. rewrite Hr. unfold units_read. by rewrite orb_true_r.
Qed.

Lemma PutChar_con {B} T rp inc i o taken k ch (c : unit → kcode B) (Q : B → K → Prop) :
  clock_ok T → drained T rp None → sched IntOn false SystemMode Running T rp None inc i o taken false k →
  (∀ k' rp', drained T rp' (Some (T + 100)) →
     sched IntOn false SystemMode Running T rp' (Some (T + 100)) inc i (o ++ [ch]) taken true k' →
     cwp (c tt) k' Q) →
  cwp (run (PutChar ch) ≫= c) k Q.
Proof.
  intros Hclk [Hd _] (p & Hev & [(sems & lks & Hk & Hr & Hw) Hrp Hwp Howed Htaken Hread Hph]) H.
  assert (p = [poll rp]) as -> by (by inversion Hev).
  unfold PutChar. apply cwp_run_bind. eapply op_console; [exact Hk|].
  apply cwp_run_bind, op_assert; [done|]. apply cwp_run_bind.
  eapply (op_user _ _ _ _ _ _ _ _ _ _ _ _ _ _ _ Hk (WriteChar ch) tt
    (con_is (Some ra) (Some wd) _ i (o ++ [ch]))); [intros u Hu; by apply con_write|].
  next_state k Hk. apply cwp_run_bind. eapply op_put_console; [exact Hk|]. next_state k Hk.
  eapply op_Schedule; [exact Hk|done|by apply insert_completion, clock_s32|]. next_state k Hk.
  apply (H k rp); [split; [done|intros w [= <-]; lia]|].
  exists [poll rp; completion (T + 100)]. split; [constructor; lia|]. constructor; try done.
  - do 2 eexists. split; [exact Hk|]. done.
  - intros w [= <-]. lia.
Qed.
(** Between two rounds: [stream] is what has been typed and not echoed yet. *)
Definition echoing (T : Z) (stream o : list Z) (k : K) : Prop :=
  ∃ rp inc i, drained T rp None ∧ typed inc i = stream
    ∧ sched IntOn false SystemMode Running T rp None inc i o false false k.

Lemma sched_idle l h m ph T rp wp inc i o taken k :
  sched l h m ph T rp wp inc i o taken false k → wp = None.
Proof.
  intros (p & _ & Hcon). pose proof (con_owed _ _ _ _ _ _ _ _ _ _ _ _ _ _ Hcon) as Ho.
  destruct wp; [|done]. by specialize (Ho ltac:(done)).
Qed.

Lemma sched_sem (d : bool) {B} l h m ph T rp wp inc i o taken owed k (c : positive → kcode B) Q :
  sched l h m ph T rp wp inc i o taken owed k → cwp (c (sem_of d)) k Q →
  cwp (run (the_semaphore (if d then writeDone else readAvail)) ≫= c) k Q.
Proof.
  intros (p & _ & [(sems & lks & Hk & _) _ _ _ _ _ _]). eapply op_the_semaphore; [exact Hk|].
  destruct (con_semaphores _ _ _ _ _ _ (at_user _ _ _ _ _ _ _ _ _ _ _ _ Hk)) as [Hr Hw]. by destruct d.
Qed.

Lemma echo_round ch rest T o k (Q : unit + unit → K → Prop) :
  0 ≤ T → clock_ok (T + 420) → echoing T (ch :: rest) o k →
  (∀ k' T', T < T' ≤ T + 420 → echoing T' rest (o ++ [ch]) k' →
     Q (if ch =? 113 then inr tt else inl tt) k') →
  cwp echo k Q.
Proof.
  intros HT Hclk (rp & inc & i & Hd & Hty & Hs) HQ. unfold echo.
  eapply (sched_sem false); [exact Hs|]. apply cwp_bind.
  eapply (P_con false T); [done|unfold clock_ok in *; lia|exact Hd|by rewrite Hty|exact Hs|].
  clear dependent k. intros k T1 rp1 wp1 inc1 i1 HT1 Hd1 Hty1 Hs1. simpl in Hs1.
  pose proof (sched_idle _ _ _ _ _ _ _ _ _ _ _ _ Hs1) as ->.
  assert (inc1 = ch ∧ s8 <$> i1 = rest) as [-> Hrest].
  { destruct Hs1 as (p & _ & Hcon). pose proof (con_taken _ _ _ _ _ _ _ _ _ _ _ _ _ _ Hcon eq_refl).
    rewrite Hty in Hty1. unfold typed in Hty1. replace (inc1 =? EOF) with false in Hty1 by lia.
    by injection Hty1 as -> ->. }
  eapply GetChar_con; [exact Hs1|]. clear dependent k. intros k Hs2.
  eapply (PutChar_con T1); [unfold clock_ok in *; lia|exact Hd1|exact Hs2|]. clear dependent k. intros k rp3 Hd3 Hs3.
  eapply (sched_sem true); [exact Hs3|]. apply cwp_bind.
  eapply (P_con true T1); [lia|unfold clock_ok in *; lia|exact Hd3|done|exact Hs3|].
  clear dependent k. intros k T4 rp4 wp4 inc4 i4 HT4 Hd4 Hty4 Hs4. simpl in Hs4.
  pose proof (sched_idle _ _ _ _ _ _ _ _ _ _ _ _ Hs4) as ->.
  apply cwp_ret, (HQ k T4); [lia|]. exists rp4, inc4, i4. split; [done|]. split; [|done].
  by rewrite Hty4.
Qed.

Lemma echo_loop cs rest : ∀ T o k,
  0 ≤ T → clock_ok (T + 420 * (zlen cs + 1)) → 113 ∉ cs → echoing T (cs ++ 113 :: rest) o k →
  cwp (iterate (λ _, echo) tt) k (λ _ k', ∃ T', echoing T' rest (o ++ cs ++ [113]) k'
    ∧ T ≤ T' ≤ T + 420 * (zlen cs + 1)).
Proof.
  induction cs as [|ch cs IH]; intros T o k HT Hclk Hq He; apply cwp_iterate.
  - eapply (echo_round 113 rest T); [done|by change (zlen _) with 0 in Hclk|exact He|]. intros k1 T1 HT1 He1.
    simpl. exists T1. split; [done|]. change (zlen _) with 0. lia.
  - apply list.not_elem_of_cons in Hq as [Hch Hq].
    assert (zlen (ch :: cs) = zlen cs + 1) as Hlen by (unfold zlen; simpl; lia).
    assert (0 ≤ zlen cs) as Hpos by (unfold zlen; lia). rewrite Hlen in *.
    eapply (echo_round ch _ T); [done|unfold clock_ok in *; lia|exact He|]. intros k1 T1 HT1 He1.
    replace (ch =? 113) with false by lia.
    eapply cwp_mono; [apply (IH T1); [lia|unfold clock_ok in *; lia|done|exact He1]|].
    intros _ k2 (T2 & He2 & HT2). exists T2. rewrite <- app_assoc in He2. split; [done|lia].
Qed.
End semaphores.

(** ** From the start *)

Lemma op_Semaphore_new {B} v k i T rl ts sems lks Pu (c : positive → kcode B) Q :
  alone k i T rl ts sems lks Pu →
  (∀ s k', s ∉ dom sems → alone k' i T rl ts (<[s := MkSemaphore v Spec.empty]> sems) lks Pu → cwp (c s) k' Q) →
  cwp (run (Semaphore_new v) ≫= c) k Q.
Proof.
  intros [Hi] H. eapply cwp_act.
  { unfold Semaphore_new, put_semaphore, get, modify, mbind, M_bind. reflexivity. }
  apply (H (fresh (dom (semaphores k)))).
  - subst. apply is_fresh.
  - constructor; simpl; subst; done.
Qed.

(** C10.  The test of the console echoes what is typed.  While no
    other thread is ready and no interrupt is pending, [ConsoleTest] returns
    (through its two semaphores, the idle loop, the polls of the keyboard, the
    completion interrupts of the display and the switches back), no assertion
    of the console, of the threads or of the interrupts fails; the characters
    up to the first [q] have been written, once each and in their order, with
    the [q], and nothing else; what was typed after it is still to be read; and
    it takes at most 420 ticks for each character, as long as the clock stays
    in its range. *)
Theorem ConsoleTest_echoes cs rest k T sems lks r w c i o
    (Hk : alone k (int IntOn false SystemMode []) T Spec.empty RUNNING sems lks (con_is r w c i o))
    (Hread : readable i) (Htyped : s8 <$> i = cs ++ 113 :: rest) (Hcs : 113 ∉ cs)
    (HT : 0 ≤ T) (Hend : T + 420 * (zlen cs + 1) ≤ 2 ^ 31 - 2 ^ 16) :
  cwp ConsoleTest k (λ _ k', ∃ T' p sems' lks' r' w' (c' : Console F) i',
    alone k' (int IntOn false SystemMode p) T' Spec.empty RUNNING sems' lks'
      (con_is r' w' c' i' (o ++ cs ++ [113]))
    ∧ typed (incoming c') i' = rest
    ∧ T ≤ T' ≤ T + 420 * (zlen cs + 1)).
Proof.
  assert (0 ≤ zlen cs) as Hpos by (unfold zlen; lia).
  unfold ConsoleTest, Console_new. apply cwp_run_bind.
  eapply op_put_console; [exact Hk|]. next_state k Hk.
  eapply op_Schedule; [exact Hk|done|reflexivity|]. next_state k Hk.
  eapply op_Semaphore_new; [exact Hk|]. intros ra. clear dependent k. intros k _ Hk.
  eapply op_user; [exact Hk|intros u Hu; eexists; split; [reflexivity|by eapply con_set_read]|]. next_state k Hk.
  eapply op_Semaphore_new; [exact Hk|]. intros wd. clear dependent k. intros k Hwd Hk.
  eapply op_user; [exact Hk|intros u Hu; eexists; split; [reflexivity|by eapply con_set_write]|]. next_state k Hk.
  assert (ra ≠ wd) as Hne by (intros <-; apply Hwd; rewrite dom_insert_L; set_solver).
  unfold add32, ConsoleTime in Hk. rewrite s32_id in Hk by (unfold in_s32; lia).
  eapply cwp_mono; [apply (echo_loop ra wd Hne cs rest T o); [done|unfold clock_ok; lia|done|]|].
  - exists (T + 100), EOF, i. split; [split; [lia|done]|]. split; [done|].
    exists [poll (T + 100)]. split; [constructor|]. constructor; try done.
    do 2 eexists. split; [exact Hk|]. by rewrite lookup_insert_ne, !lookup_insert_eq.
  - intros _ k' (T' & (rp & inc & i' & _ & Hty & p & _ & Hcon) & HT').
    destruct (con_alone _ _ _ _ _ _ _ _ _ _ _ _ _ _ _ _ Hcon) as (sems' & lks' & Hk' & _).
    do 8 eexists. split; [exact Hk'|]. split; [exact Hty|done].
Qed.
End console.

(** ** A kernel with a console, and one thread *)

Inductive con_fun := ConsoleReadPoll_ | ConsoleWriteDone_ | ReadAvail_ | WriteDone__.

Record ConUser := MkConUser {
  cu_console : Console con_fun;
  cu_read : option positive;
  cu_write : option positive;
  cu_in : list Z;
  cu_out : list Z
}.

#[local] Instance con_userland : Userland ConUser := {
  user_ReadRegister _ := fail NullDeref;
  user_WriteRegister _ _ := fail NullDeref;
  user_DelayedLoad00 := mret tt;
  user_RestoreState _ := fail NullDeref
}.

Definition cu_ReadChar : M ConUser Z := λ u,
  match cu_in u with
  | b :: i => Ok (b, MkConUser (cu_console u) (cu_read u) (cu_write u) i (cu_out u))
  | [] => Fault AssertFailed
  end.

#[local] Instance con_hasconsole : HasConsole ConUser con_fun := {
  console := cu_console;
  set_console c u := MkConUser c (cu_read u) (cu_write u) (cu_in u) (cu_out u);
  PollFile u := Ok (bool_decide (cu_in u ≠ []), u);
  ReadChar := cu_ReadChar;
  WriteChar ch u := Ok (tt, MkConUser (cu_console u) (cu_read u) (cu_write u) (cu_in u) (cu_out u ++ [ch]));
  ConsoleReadPoll := ConsoleReadPoll_;
  ConsoleWriteDone := ConsoleWriteDone_
}.

#[local] Instance con_hastest : HasConsoleTest ConUser con_fun := {
  has_console := con_hasconsole;
  readAvail := cu_read;
  writeDone := cu_write;
  set_readAvail r u := MkConUser (cu_console u) r (cu_write u) (cu_in u) (cu_out u);
  set_writeDone w u := MkConUser (cu_console u) (cu_read u) w (cu_in u) (cu_out u);
  ReadAvail := ReadAvail_;
  WriteDone_ := WriteDone__
}.

#[local] Instance con_host : ConsoleHost ConUser con_fun.
Proof.
  refine {| con_is r w c i o u := u = MkConUser c r w i o |}; intros; subst; simpl; unfold mret, M_ret; eauto.
Defined.

Definition con_call (f : con_fun) : code (Kernel con_fun ConUser) con_fun unit :=
  match f with
  | ConsoleReadPoll_ => CheckCharAvail
  | ConsoleWriteDone_ => WriteDone
  | ReadAvail_ => read_avail
  | WriteDone__ => write_done
  end.

Definition con_kernel : Kernel con_fun ConUser :=
  MkKernel (MkHardware (int IntOn false SystemMode []) Statistics_new) 1%positive None Spec.empty
    {[1%positive := MkThread None None RUNNING [] None]} ∅ ∅ ∅
    (MkConUser (MkConsole WriteDone__ ReadAvail_ false EOF) None None [104; 105; 113; 33] []).

(** [hi] and [q] are echoed, [!] is not. *)
Lemma ConsoleTest_echoes_witness :
  cwp (F := con_fun) current_Yield con_call start 1%positive ConsoleTest con_kernel (λ _ k',
    ∃ T' p sems' lks' r' w' (c' : Console con_fun) i',
      alone 1%positive None [] ∅ k' (int IntOn false SystemMode p) T' Spec.empty RUNNING sems' lks'
        (con_is r' w' c' i' ([] ++ [104; 105] ++ [113]))
      ∧ typed (incoming c') i' = [33] ∧ 0 ≤ T' ≤ 0 + 420 * (zlen [104; 105] + 1)).
Proof.
  apply (@ConsoleTest_echoes con_fun ConUser con_userland con_hastest con_host current_Yield con_call
    eq_refl eq_refl eq_refl eq_refl 1%positive None [] ∅ I [104; 105] [33] con_kernel 0 ∅ ∅ None None
    (MkConsole WriteDone__ ReadAvail_ false EOF) [104; 105; 113; 33] []).
  - by constructor.
  - by repeat constructor.
  - done.
  - by apply (bool_decide_unpack _).
  - done.
  - done.
Defined.
