(* ===== verification/ThreadTest.v ===== *)
(** * threads/threadtest.cc, threads/system.cc: programs of kernel threads

    The test programs of the threads assignment, one Module for each choice
    of the build flags: [NoSemaphores] (HW1_NOSEMAPHORES), [Semaphores]
    (HW1_SEMAPHORES), [Locks] (HW1_LOCKS), [Elevator] (HW1_ELEVATOR) and
    [Plain] (none), and the start of a kernel of threads, [Initialize]. *)
From S2P Require Import Prelude Word NList Machine Coro Interrupt Threads Synch Devices.

(** What the programs print. *)
Inductive event :=
  | Sees (which val : Z)
  | Final (which val : Z)
  | Looped (which num : Z)
  | ElevatorReady | ElevatorStopped | ElevatorArrives (floor : Z)
  | PassengersOut | PassengersIn | ElevatorClosed (floor : Z)
  | FindsClosed (id : Z) | Wants (id from to : Z)
  | GetsIn (id from to floor : Z) | GetsOut (id from to floor : Z)
  | IllegalFloors (atFloor toFloor : Z).

(** The functions called through pointers, with their arguments. *)
Inductive test_fun :=
  | SimpleThread_ (which : Z)
  | ElevatorThread_ (num_floors : Z)
  | PassengerThread_ (p : positive)
  | TimerHandler_
  | TimerInterruptHandler_ (dummy : Z).

Inductive DIRECTION := UP | DOWN | IDLE | CLOSE.
#[export] Instance DIRECTION_eq_dec : EqDecision DIRECTION.
Proof. solve_decision. Defined.

Record Passenger := MkPassenger {
  at_floor : Z; to_floor : Z; id : Z; p_direction : DIRECTION
}.

(** The global variables of the elevator; the lists are [None] when they are
    not allocated. *)
Record elevator_vars := MkElevator {
  max_floors : Z;
  current_floor : Z;
  room : Z;
  direction : DIRECTION;
  waiting_list : option (list Z);
  going_list : option (list Z);
  broadcast_count : Z;
  token : Z;
  passengers : gmap positive Passenger
}.

(** The global variables of the programs, the timer, how often [rand()] was
    called, and what was printed, the last first. *)
Record test_state := MkTest {
  SharedVariable : Z;
  count : Z;
  testnum : Z;
  elevator : elevator_vars;
  test_timer : option (Timer test_fun);
  rand_calls : nat;
  output : list event
}.

#[export] Instance test_userland : Userland test_state := {
  user_ReadRegister _ := fail NullDeref;
  user_WriteRegister _ _ := fail NullDeref;
  user_DelayedLoad00 := mret tt;
  user_RestoreState _ := fail NullDeref
}.

(** [rand n] is what the [n]th call of [rand()] answers. *)
Class Rand := rand : nat → Z.

#[export] Instance test_has_timer `{!Rand} : HasTimer test_state test_fun := {
  timer := test_timer;
  set_timer t u := MkTest (SharedVariable u) (count u) (testnum u) (elevator u) t
                     (rand_calls u) (output u);
  Random u := Ok (rand (rand_calls u),
                  MkTest (SharedVariable u) (count u) (testnum u) (elevator u)
                    (test_timer u) (Datatypes.S (rand_calls u)) (output u));
  TimerHandler := TimerHandler_
}.

Section test.
Context `{!Rand}.
#[local] Abbreviation K := (Kernel test_fun test_state).
#[local] Abbreviation kcode := (code (Kernel test_fun test_state) test_fun).

(** ** Access to the global variables *)

Definition var {A} (f : test_state → A) : M K A := gets (λ k, f (user k)).
Definition set_SharedVariable (v : Z) : M K unit :=
  on_user (modify (λ u, MkTest v (count u) (testnum u) (elevator u) (test_timer u)
                          (rand_calls u) (output u))).
Definition set_count (v : Z) : M K unit :=
  on_user (modify (λ u, MkTest (SharedVariable u) v (testnum u) (elevator u) (test_timer u)
                          (rand_calls u) (output u))).
Definition set_testnum (v : Z) : M K unit :=
  on_user (modify (λ u, MkTest (SharedVariable u) (count u) v (elevator u) (test_timer u)
                          (rand_calls u) (output u))).
Definition printf (e : event) : M K unit :=
  on_user (modify (λ u, MkTest (SharedVariable u) (count u) (testnum u) (elevator u)
                          (test_timer u) (rand_calls u) (e :: output u))).

(** [currentThread->Yield()]. *)
Definition yield_ : kcode unit := CallYield (Ret tt).

(** [for (num = 0; num < 5; num++) body]. *)
Fixpoint rounds (n : nat) (num : Z) (body : Z → kcode unit) : kcode unit :=
  match n with
  | O => mret tt
  | Datatypes.S n' => body num ;; rounds n' (num + 1) body
  end.

Definition final_value (which : Z) : kcode unit :=
  val ← run (var SharedVariable);
  run (printf (Final which val)).
End test.

(** ** HW1_NOSEMAPHORES *)
Module NoSemaphores.
Section program.
Context `{!Rand}.
#[local] Abbreviation kcode := (code (Kernel test_fun test_state) test_fun).

Definition SimpleThread (which : Z) : kcode unit :=
  rounds 5 0 (λ _,
    val ← run (var SharedVariable);
    run (printf (Sees which val)) ;;
    yield_ ;;
    run (set_SharedVariable (add32 val 1)) ;;
    yield_) ;;
  final_value which.
End program.
End NoSemaphores.

(** The addresses of the global semaphores and locks. *)
Definition sp : positive := 1.
Definition mx : positive := 2.
Definition br : positive := 3.
Definition lk : positive := 1.

Section barrier.
Context `{!Rand}.
#[local] Abbreviation kcode := (code (Kernel test_fun test_state) test_fun).

(** The barrier of both programs. *)
Definition barrier : kcode unit :=
  P mx ;;
  c ← run (var count);
  run (set_count (add32 c 1)) ;;
  V mx ;;
  c ← run (var count);
  n ← run (var testnum);
  cwhen (c =? n) (V br) ;;
  P br ;;
  V br.
End barrier.

(** ** HW1_SEMAPHORES *)
Module Semaphores.
Section program.
Context `{!Rand}.
#[local] Abbreviation kcode := (code (Kernel test_fun test_state) test_fun).

Definition SimpleThread (which : Z) : kcode unit :=
  rounds 5 0 (λ _,
    P sp ;;
    val ← run (var SharedVariable);
    run (printf (Sees which val)) ;;
    yield_ ;;
    run (set_SharedVariable (add32 val 1)) ;;
    V sp ;;
    yield_) ;;
  barrier ;;
  final_value which.
End program.
End Semaphores.

(** ** HW1_LOCKS *)
Module Locks.
Section program.
Context `{!Rand}.
#[local] Abbreviation kcode := (code (Kernel test_fun test_state) test_fun).

Definition SimpleThread (which : Z) : kcode unit :=
  rounds 5 0 (λ _,
    Acquire lk ;;
    val ← run (var SharedVariable);
    run (printf (Sees which val)) ;;
    yield_ ;;
    run (set_SharedVariable (add32 val 1)) ;;
    Release lk ;;
    yield_) ;;
  barrier ;;
  final_value which.
End program.
End Locks.

(** ** [CHANGED] only *)
Module Plain.
Section program.
Context `{!Rand}.
#[local] Abbreviation kcode := (code (Kernel test_fun test_state) test_fun).

Definition SimpleThread (which : Z) : kcode unit :=
  rounds 5 0 (λ num,
    run (printf (Looped which num)) ;;
    yield_).
End program.
End Plain.

(** ** Starting and running the programs *)

Section main.
Context `{!Rand}.
#[local] Abbreviation K := (Kernel test_fun test_state).
#[local] Abbreviation kcode := (code (Kernel test_fun test_state) test_fun).
(** The [SimpleThread] of the build. *)
Variable SimpleThread : Z → kcode unit.

Fixpoint fork_threads (n : nat) (i : Z) : kcode unit :=
  match n with
  | O => mret tt
  | Datatypes.S n' =>
      t ← run (Thread_new []);
      Fork t (SimpleThread_ i) ;;
      fork_threads n' (i + 1)
  end.

Definition ThreadTest (n : Z) : kcode unit :=
  run (set_testnum (add32 n 1)) ;;
  fork_threads (Z.to_nat n) 1 ;;
  SimpleThread 0.

(** What the functions do; those of the elevator are not in this build. *)
Definition test_call (f : test_fun) : kcode unit :=
  match f with
  | SimpleThread_ which => SimpleThread which
  | TimerHandler_ => TimerExpired
  | TimerInterruptHandler_ _ => run TimerInterruptHandler
  | ElevatorThread_ _ | PassengerThread_ _ => run (fail NullDeref)
  end.

(** threads/system.cc, as far as a kernel of threads goes; [-rs] sets
    [randomYield]. *)
Definition Initialize (randomYield : bool) : kcode unit :=
  run (when randomYield (Timer_new (TimerInterruptHandler_ 0) true)) ;;
  run (modify (set_threadToBeDestroyed None)) ;;
  t ← run (Thread_new []);
  run (modify (set_currentThread t)) ;;
  run (setStatus t RUNNING) ;;
  Enable.

(** threads/main.cc: the thread of [main] finishes at its end. *)
Definition main (randomYield : bool) : kcode unit :=
  Initialize randomYield ;;
  ThreadTest 4 ;;
  ThreadFinish.

(** Before [main]: the global objects are constructed. *)
Definition test_vars : test_state :=
  MkTest 0 0 1 (MkElevator 0 1 5 UP None None 0 0 ∅) None 0 [].
Definition boot : K :=
  MkKernel (MkHardware Interrupt_new Statistics_new) 1%positive None Spec.empty ∅
    {[ sp := MkSemaphore 1 Spec.empty; mx := MkSemaphore 1 Spec.empty;
       br := MkSemaphore 0 Spec.empty ]}
    {[ lk := MkLock false None Spec.empty ]} ∅ test_vars.

Definition test_step : config (S := K) (F := test_fun) → res config :=
  step current_Yield test_call start.

(** At most [n] steps: the state they lead to, and how the program ended. *)
Fixpoint execute (n : nat) (c : config) : K * option fault :=
  match n with
  | O => (state c, None)
  | Datatypes.S n' =>
      match test_step c with
      | Ok c' => execute n' c'
      | Fault f => (state c, Some f)
      end
  end.

(** What the program prints and how it ends. *)
Definition prints (n : nat) (randomYield : bool) : list event * option fault :=
  let '(k, r) := execute n (Config boot (main randomYield) ∅) in
  (reverse (output (user k)), r).
End main.
