(* ===== verification/Elevator.v ===== *)
(** * threads/threadtest.cc, HW1_ELEVATOR: the elevator

    One thread for the elevator, one for each passenger, with a lock and four
    condition variables.  The shared variables are the [elevator_vars] of the
    file ThreadTest; the numbers are [unsigned int]. *)
From S2P Require Import Prelude Word NList Machine Coro Interrupt Threads Synch Devices ThreadTest.

Definition capacity : Z := 5.

(** ** The floors as indices

    Going up, floor [f] has index [f]; going down, [2 * max_floors - f]. *)

Definition map_floor (max_floors : Z) (d : DIRECTION) (f : Z) : Z :=
  if bool_decide (d = UP) || (f =? 1) then f
  else u32 (2 * max_floors - f).

Definition realNextFloor (max_floors next_floor : Z) : Z :=
  if u32 (max_floors - 1) <? next_floor then u32 (2 * max_floors - next_floor)
  else next_floor.

(** Someone waits at index [j] and there is room, or wants to get out there. *)
Definition stop_at (room : Z) (waiting going : list Z) (j : Z) : res bool :=
  w ← (if room =? 0 then Ok false else w ← aread waiting j; Ok (negb (w =? 0)));
  if w : bool then Ok true
  else g ← aread going j; Ok (negb (g =? 0)).

(** The [do] loop from index [j] on; [fuel] rounds are enough when it is the
    number of indices. *)
Fixpoint search_floor (fuel : nat) (max_floors room : Z) (waiting going : list Z) (i j : Z)
    : res Z :=
  match fuel with
  | O => Fault OutOfFuel
  | Datatypes.S fuel' =>
      stop ← stop_at room waiting going j;
      if stop : bool then Ok j
      else
        let j := u32 (j + 1) mod u32 (2 * max_floors - 1) in
        if j =? i then Ok j
        else search_floor fuel' max_floors room waiting going i j
  end.

Definition searchNextFloor (e : elevator_vars) (d : DIRECTION) (f room : Z) : res Z :=
  waiting ← deref (waiting_list e);
  going ← deref (going_list e);
  let i := map_floor (max_floors e) d f in
  search_floor (length going) (max_floors e) room waiting going i i.

(** The addresses of the global objects. *)
Definition elevator_lk : positive := 1.
Definition token_lk : positive := 2.
Definition passenger_out_cd : positive := 1.
Definition passenger_in_cd : positive := 2.
Definition elevator_active_cd : positive := 3.
Definition finish_broadcast_cd : positive := 4.

Section elevator.
Context `{!Rand}.
#[local] Abbreviation K := (Kernel test_fun test_state).
#[local] Abbreviation kcode := (code (Kernel test_fun test_state) test_fun).

(** ** Access to the shared variables *)

Definition elev : M K elevator_vars := var elevator.
Definition put_elev (e : elevator_vars) : M K unit :=
  on_user (modify (λ u, MkTest (SharedVariable u) (count u) (testnum u) e (test_timer u)
                          (rand_calls u) (output u))).
Definition on_elev (f : elevator_vars → elevator_vars) : M K unit := e ← elev; put_elev (f e).

Definition set_floor (f : Z) (e : elevator_vars) : elevator_vars :=
  MkElevator (max_floors e) f (room e) (direction e) (waiting_list e) (going_list e)
    (broadcast_count e) (token e) (passengers e).
Definition set_room (r : Z) (e : elevator_vars) : elevator_vars :=
  MkElevator (max_floors e) (current_floor e) r (direction e) (waiting_list e) (going_list e)
    (broadcast_count e) (token e) (passengers e).
Definition set_direction (d : DIRECTION) (e : elevator_vars) : elevator_vars :=
  MkElevator (max_floors e) (current_floor e) (room e) d (waiting_list e) (going_list e)
    (broadcast_count e) (token e) (passengers e).
Definition set_lists (w g : option (list Z)) (e : elevator_vars) : elevator_vars :=
  MkElevator (max_floors e) (current_floor e) (room e) (direction e) w g
    (broadcast_count e) (token e) (passengers e).
Definition set_broadcast_count (n : Z) (e : elevator_vars) : elevator_vars :=
  MkElevator (max_floors e) (current_floor e) (room e) (direction e) (waiting_list e)
    (going_list e) n (token e) (passengers e).
Definition set_token (t : Z) (e : elevator_vars) : elevator_vars :=
  MkElevator (max_floors e) (current_floor e) (room e) (direction e) (waiting_list e)
    (going_list e) (broadcast_count e) t (passengers e).
Definition set_passengers (ps : gmap positive Passenger) (e : elevator_vars) : elevator_vars :=
  MkElevator (max_floors e) (current_floor e) (room e) (direction e) (waiting_list e)
    (going_list e) (broadcast_count e) (token e) ps.

(** [list[i] += d]. *)
Definition add_to (l : option (list Z)) (i d : Z) : res (option (list Z)) :=
  l ← deref l;
  x ← aread l i;
  l' ← awrite l i (u32 (x + d));
  Ok (Some l').
Definition add_waiting (i d : Z) : M K unit :=
  e ← elev;
  w ← lift (add_to (waiting_list e) i d);
  put_elev (set_lists w (going_list e) e).
Definition add_going (i d : Z) : M K unit :=
  e ← elev;
  g ← lift (add_to (going_list e) i d);
  put_elev (set_lists (waiting_list e) g e).

(** The number of waiting passengers. *)
Definition total_waiting : M K Z :=
  e ← elev;
  w ← lift (deref (waiting_list e));
  mret (foldl (λ acc x, u32 (acc + x)) 0 (take (Z.to_nat (2 * max_floors e - 1)) w)).

(** ** The elevator *)

(** The doors are open: the passengers get out, then in. *)
Definition serve : kcode unit :=
  e ← run elev;
  run (printf (ElevatorArrives (current_floor e))) ;;
  run (printf PassengersOut) ;;
  run (on_elev (λ e, set_broadcast_count (u32 (capacity - room e)) e)) ;;
  Broadcast passenger_out_cd elevator_lk ;;
  e ← run elev;
  cwhen (negb (broadcast_count e =? 0)) (Wait finish_broadcast_cd elevator_lk) ;;
  run (printf PassengersIn) ;;
  n ← run total_waiting;
  run (on_elev (set_broadcast_count n)) ;;
  Broadcast passenger_in_cd elevator_lk ;;
  e ← run elev;
  cwhen (negb (broadcast_count e =? 0)) (Wait finish_broadcast_cd elevator_lk) ;;
  e ← run elev;
  run (printf (ElevatorClosed (current_floor e))) ;;
  Release elevator_lk.

(** One round of the loop; [false] when the elevator stops. *)
Definition elevator_round : kcode bool :=
  Acquire elevator_lk ;;
  e ← run elev;
  next_floor ← run (lift (searchNextFloor e (direction e) (current_floor e) (room e)));
  let real_next_floor := realNextFloor (max_floors e) next_floor in
  w ← run (lift (deref (waiting_list e)));
  num_waiting ← run (lift (aread w next_floor));
  g ← run (lift (deref (going_list e)));
  num_going ← run (lift (aread g next_floor));
  if (real_next_floor =? current_floor e) && (num_waiting =? 0) && (num_going =? 0) then
    run (on_elev (set_direction CLOSE)) ;;
    run (printf ElevatorStopped) ;;
    run (on_elev (set_lists None None)) ;;
    Release elevator_lk ;;
    mret false
  else if real_next_floor =? current_floor e then
    serve ;;
    mret true
  else
    run (if current_floor e <? real_next_floor
         then on_elev (λ e, set_floor (u32 (current_floor e + 1)) (set_direction UP e))
         else on_elev (λ e, set_floor (u32 (current_floor e - 1)) (set_direction DOWN e))) ;;
    Release elevator_lk ;;
    mret true.

Definition ElevatorThread (num_floors : Z) : kcode unit :=
  Acquire elevator_lk ;;
  Signal elevator_active_cd elevator_lk ;;
  run (on_elev (set_direction UP)) ;;
  run (printf ElevatorReady) ;;
  Release elevator_lk ;;
  yield_ ;;
  while elevator_round.

Definition Elevator (numFloors : Z) : kcode unit :=
  let n := Z.to_nat (2 * numFloors - 1) in
  run (on_elev (λ e, MkElevator (u32 numFloors) 1 (room e) IDLE
         (Some (replicate n 0)) (Some (replicate n 0))
         (broadcast_count e) (token e) (passengers e))) ;;
  t ← run (Thread_new []);
  Fork t (ElevatorThread_ numFloors).

(** ** The passengers *)

Definition passenger (p : positive) : M K Passenger :=
  e ← elev; lift (deref (passengers e !! p)).

(** After each wait: [broadcast_count -= 1], and the last one signals. *)
Definition answer_broadcast : kcode unit :=
  run (on_elev (λ e, set_broadcast_count (u32 (broadcast_count e - 1)) e)) ;;
  e ← run elev;
  cwhen (broadcast_count e =? 0) (Signal finish_broadcast_cd elevator_lk).

(** Waiting to get in, and then to get out. *)
Definition wait_in (p : positive) : kcode bool :=
  Wait passenger_in_cd elevator_lk ;;
  answer_broadcast ;;
  e ← run elev;
  x ← run (passenger p);
  if (current_floor e =? at_floor x) && (0 <? room e) then
    run (on_elev (λ e, set_room (u32 (room e - 1)) e)) ;;
    run (add_waiting (map_floor (max_floors e) (p_direction x) (at_floor x)) (-1)) ;;
    run (add_going (map_floor (max_floors e) (p_direction x) (to_floor x)) 1) ;;
    mret false
  else mret true.

Definition wait_out (p : positive) : kcode bool :=
  Wait passenger_out_cd elevator_lk ;;
  answer_broadcast ;;
  e ← run elev;
  x ← run (passenger p);
  if current_floor e =? to_floor x then
    run (on_elev (λ e, set_room (u32 (room e + 1)) e)) ;;
    run (add_going (map_floor (max_floors e) (p_direction x) (to_floor x)) (-1)) ;;
    run (printf (GetsOut (id x) (at_floor x) (to_floor x) (current_floor e))) ;;
    mret false
  else mret true.

(** From the registration in [waiting_list] on. *)
Definition ride (p : positive) : kcode unit :=
  e ← run elev;
  x ← run (passenger p);
  run (add_waiting (map_floor (max_floors e) (p_direction x) (at_floor x)) 1) ;;
  run (printf (Wants (id x) (at_floor x) (to_floor x))) ;;
  while (wait_in p) ;;
  e ← run elev;
  run (printf (GetsIn (id x) (at_floor x) (to_floor x) (current_floor e))) ;;
  while (wait_out p) ;;
  Release elevator_lk ;;
  run (on_elev (λ e, set_passengers (delete p (passengers e)) e)).

Definition PassengerThread (p : positive) : kcode unit :=
  Acquire elevator_lk ;;
  e ← run elev;
  if bool_decide (direction e = IDLE) then
    Wait elevator_active_cd elevator_lk ;;
    ride p
  else if bool_decide (direction e = CLOSE) then
    x ← run (passenger p);
    run (printf (FindsClosed (id x))) ;;
    Release elevator_lk
  else ride p.

Definition new_passenger (atFloor toFloor id : Z) (d : DIRECTION) : M K positive :=
  e ← elev;
  let p := fresh (dom (passengers e)) in
  put_elev (set_passengers (<[p := MkPassenger atFloor toFloor id d]> (passengers e)) e) ;;
  mret p.

Definition ArrivingGoingFromTo (atFloor toFloor : Z) : kcode unit :=
  e ← run elev;
  if (atFloor <? 1) || (max_floors e <? u32 atFloor) || (toFloor <? 1)
     || (max_floors e <? u32 toFloor) || (atFloor =? toFloor) then
    run (printf (IllegalFloors atFloor toFloor))
  else
    t ← run (Thread_new []);
    Acquire token_lk ;;
    run (on_elev (λ e, set_token (u32 (token e + 1)) e)) ;;
    e ← run elev;
    Release token_lk ;;
    p ← run (new_passenger atFloor toFloor (token e) (if atFloor <? toFloor then UP else DOWN));
    Fork t (PassengerThread_ p).

(** ** The program *)

Definition elevator_call (f : test_fun) : kcode unit :=
  match f with
  | ElevatorThread_ n => ElevatorThread n
  | PassengerThread_ p => PassengerThread p
  | TimerHandler_ => TimerExpired
  | TimerInterruptHandler_ _ => run TimerInterruptHandler
  | SimpleThread_ _ => run (fail NullDeref)
  end.

Fixpoint arrivals (l : list (Z * Z)) : kcode unit :=
  match l with
  | [] => mret tt
  | (a, t) :: l' => ArrivingGoingFromTo a t ;; arrivals l'
  end.

(** threads/main.cc *)
Definition elevator_main (randomYield : bool) : kcode unit :=
  Initialize randomYield ;;
  Elevator 20 ;;
  arrivals [(1, 5); (1, 5); (1, 3); (1, 7); (1, 9); (1, 10); (2, 4); (3, 9); (4, 2); (10, 2);
            (11, 20); (4, 7); (19, 2); (5, 9); (5, 19); (12, 19); (7, 9); (12, 17); (4, 12);
            (4, 12); (20, 1)] ;;
  ThreadFinish.

Definition elevator_boot : K :=
  MkKernel (MkHardware Interrupt_new Statistics_new) 1%positive None Spec.empty ∅ ∅
    {[ elevator_lk := MkLock false None Spec.empty; token_lk := MkLock false None Spec.empty ]}
    {[ passenger_out_cd := MkCondition Spec.empty; passenger_in_cd := MkCondition Spec.empty;
       elevator_active_cd := MkCondition Spec.empty;
       finish_broadcast_cd := MkCondition Spec.empty ]}
    test_vars.

Fixpoint elevator_execute (n : nat) (c : config (S := K) (F := test_fun)) : K * option fault :=
  match n with
  | O => (state c, None)
  | Datatypes.S n' =>
      match step current_Yield elevator_call start c with
      | Ok c' => elevator_execute n' c'
      | Fault f => (state c, Some f)
      end
  end.

Definition elevator_prints (n : nat) (randomYield : bool) : list event * option fault :=
  let '(k, r) := elevator_execute n (Config elevator_boot (elevator_main randomYield) ∅) in
  (reverse (output (user k)), r).
End elevator.
