(* ===== verification/Network.v ===== *)
(** * machine/network.cc, network/post.cc: the network and the post office

    The network sends packets of [MaxWireSize] bytes through a UNIX socket
    and may lose them.  The post office puts a header of its own in front of
    the data, and a thread of the post office distributes what arrives over
    the mail boxes. *)
From Stdlib Require Import QArith.
From S2P Require Import Prelude Word NList Machine Coro Interrupt Threads Synch.
#[local] Open Scope Z_scope.

(** ** Headers *)

(** [PacketHeader] and [MailHeader] have the same fields: [to], [from] and
    the [unsigned length]. *)
Record Header := MkHdr { to : Z; from : Z; hlength : Z }.

Definition HeaderSize : Z := 12.
Definition MaxWireSize : Z := 64.
Definition MaxPacketSize : Z := MaxWireSize - HeaderSize.
Definition MaxMailSize : Z := MaxPacketSize - HeaderSize.

(** A header in memory, on the little-endian host. *)
Definition header_bytes (h : Header) : list Z :=
  bytes_le 4 (to h) ++ bytes_le 4 (from h) ++ bytes_le 4 (hlength h).
Definition header_of_bytes (bs : list Z) : Header :=
  MkHdr (s32 (of_le (slice 0 4 bs))) (s32 (of_le (slice 4 4 bs))) (of_le (slice 8 4 bs)).

(** [bcopy(from, to + at, n)]. *)
Definition bcopy (src : list Z) (dst : list Z) (at_ n : Z) : res (list Z) :=
  if (zlen src <? n) || (zlen dst <? at_ + n) then Fault OutOfBounds
  else Ok (splice (Z.to_nat at_) (take (Z.to_nat n) src) dst).

(** ** machine/network.cc *)

(** [chanceToWork] is a [double]; here it is a rational number. *)
Record Network (F : Type) := MkNetwork {
  ident : Z;
  chanceToWork : Q;
  writeHandler : F;
  readHandler : F;
  sendBusy : bool;
  inHdr : Header;
  inbox : list Z
}.
Arguments MkNetwork {F} _ _ _ _ _ _ _.
Arguments ident {F} _.
Arguments chanceToWork {F} _.
Arguments writeHandler {F} _.
Arguments readHandler {F} _.
Arguments sendBusy {F} _.
Arguments inHdr {F} _.
Arguments inbox {F} _.

(** The socket ([PollSocket], [ReadFromSocket] and [SendToSocket] of
    machine/sysdep.cc), [rand()], what a fresh buffer holds, and the pointers
    to the interrupt handlers. *)
Class HasNetwork (U F : Type) := {
  network : U → Network F;
  set_network : Network F → U → U;
  PollSocket : M U bool;
  ReadFromSocket : M U (list Z);
  SendToSocket : Z → list Z → M U unit;
  Random : M U Z;
  uninit : nat → list Z;
  NetworkReadPoll : F;
  NetworkSendDone : F
}.

Section network.
Context {F U : Type} `{!Userland U, !HasNetwork U F}.
#[local] Abbreviation K := (Kernel F U).
#[local] Abbreviation kcode := (code (Kernel F U) F).

Definition the_network : M K (Network F) := gets (λ k, network (user k)).
Definition put_network (n : Network F) : M K unit := on_user (modify (set_network n)).

Definition Network_new (addr : Z) (reliability : Q) (readAvail writeDone : F) : M K unit :=
  let chance := if negb (Qle_bool 0 reliability) then 0%Q
                else if negb (Qle_bool reliability 1) then 1%Q else reliability in
  put_network (MkNetwork addr chance writeDone readAvail false (MkHdr 0 0 0)
                 (uninit (Z.to_nat MaxPacketSize))) ;;
  Schedule NetworkReadPoll NetworkTime NetworkRecvInt.

Definition count_received (st : Statistics) : Statistics :=
  MkStats (totalTicks st) (idleTicks st) (systemTicks st) (userTicks st)
    (numDiskReads st) (numDiskWrites st) (numConsoleCharsRead st)
    (numConsoleCharsWritten st) (numPageFaults st) (numPacketsSent st)
    (add32 (numPacketsRecvd st) 1).
Definition count_sent (st : Statistics) : Statistics :=
  MkStats (totalTicks st) (idleTicks st) (systemTicks st) (userTicks st)
    (numDiskReads st) (numDiskWrites st) (numConsoleCharsRead st)
    (numConsoleCharsWritten st) (numPageFaults st) (add32 (numPacketsSent st) 1)
    (numPacketsRecvd st).

(** A packet as it comes from the socket. *)
Definition accept_packet (buffer : list Z) : M K unit :=
  n ← the_network;
  let hdr := header_of_bytes buffer in
  lift (ASSERT ((to hdr =? ident n) && (hlength hdr <=? MaxPacketSize))) ;;
  box ← lift (bcopy (drop (Z.to_nat HeaderSize) buffer) (inbox n) 0 (hlength hdr));
  put_network (MkNetwork (ident n) (chanceToWork n) (writeHandler n) (readHandler n)
                 (sendBusy n) hdr box).

Definition CheckPktAvail : kcode unit :=
  run (Schedule NetworkReadPoll NetworkTime NetworkRecvInt) ;;
  n ← run the_network;
  if negb (hlength (inHdr n) =? 0) then mret tt
  else
    avail ← run (on_user PollSocket);
    if negb (avail : bool) then mret tt
    else
      buffer ← run (on_user ReadFromSocket);
      run (accept_packet buffer) ;;
      run (on_stats count_received) ;;
      CallFun (readHandler n) (Ret tt).

Definition SendDone : kcode unit :=
  n ← run the_network;
  run (put_network (MkNetwork (ident n) (chanceToWork n) (writeHandler n) (readHandler n)
                      false (inHdr n) (inbox n))) ;;
  run (on_stats count_sent) ;;
  CallFun (writeHandler n) (Ret tt).

(** The bytes that go through the socket. *)
Definition wire (hdr : Header) (data : list Z) : res (list Z) :=
  let buffer := splice 0 (header_bytes hdr) (uninit (Z.to_nat MaxWireSize)) in
  bcopy data buffer HeaderSize (hlength hdr).

Definition Send (hdr : Header) (data : list Z) : M K unit :=
  n ← the_network;
  lift (ASSERT (negb (sendBusy n) && (0 <? hlength hdr)
                && (hlength hdr <=? MaxPacketSize) && (from hdr =? ident n))) ;;
  Schedule NetworkSendDone NetworkTime NetworkSendInt ;;
  r ← on_user Random;
  if Qle_bool (chanceToWork n * 100) (inject_Z (Z.rem r 100)) then mret tt
  else
    buffer ← lift (wire hdr data);
    on_user (SendToSocket (to hdr) buffer).

(** [data] is the caller's buffer: the header, and the buffer after the call. *)
Definition Receive (data : list Z) : M K (Header * list Z) :=
  n ← the_network;
  let hdr := inHdr n in
  put_network (MkNetwork (ident n) (chanceToWork n) (writeHandler n) (readHandler n)
                 (sendBusy n) (MkHdr (to hdr) (from hdr) 0) (inbox n)) ;;
  if negb (hlength hdr =? 0) then
    data ← lift (bcopy (inbox n) data 0 (hlength hdr));
    mret (hdr, data)
  else mret (hdr, data).
End network.

(** ** network/post.cc *)

(** Only the first [length] bytes of [data] are ever initialised. *)
Record Mail := MkMail { pktHdr : Header; mailHdr : Header; mail_data : list Z }.

Definition Mail_new (pktH mailH : Header) (msgData : list Z) : res Mail :=
  ASSERT (hlength mailH <=? MaxMailSize) ;;
  if zlen msgData <? hlength mailH then Fault OutOfBounds
  else Ok (MkMail pktH mailH (take (Z.to_nat (hlength mailH)) msgData)).

(** A mail box is a synchronized list of mails. *)
Record PostOffice := MkPostOffice {
  netAddr : Z;
  boxes : list positive;
  numBoxes : Z;
  messageAvailable : positive;
  messageSent : positive;
  sendLock : positive
}.

Class HasPostOffice (U F : Type) := {
  has_network :: HasNetwork U F;
  has_mail_lists :: HasSynchLists U Mail;
  postOffice : U → PostOffice;
  set_postOffice : PostOffice → U → U;
  print_got : list Z → Z → Z → M U unit;
  PostalHelper : F;
  ReadAvail : F;
  WriteDone : F
}.

Section post.
Context {F U : Type} `{!Userland U, !HasPostOffice U F}.
#[local] Abbreviation K := (Kernel F U).
#[local] Abbreviation kcode := (code (Kernel F U) F).

Definition Put (box : positive) (pktHdr mailHdr : Header) (data : list Z) : kcode unit :=
  mail ← run (lift (Mail_new pktHdr mailHdr data));
  SynchList_Append box mail.

Definition Get (box : positive) : kcode (Header * Header * list Z) :=
  mail ← SynchList_Remove box;
  mret (pktHdr mail, mailHdr mail, mail_data mail).

Definition the_postOffice : M K PostOffice := gets (λ k, postOffice (user k)).
Fixpoint new_boxes (n : nat) : M K (list positive) :=
  match n with
  | O => mret []
  | Datatypes.S n' =>
      b ← SynchList_new;
      bs ← new_boxes n';
      mret (b :: bs)
  end.

Definition PostOffice_new (addr : Z) (reliability : Q) (nBoxes : Z) : kcode unit :=
  available ← run (Semaphore_new 0);
  sent ← run (Semaphore_new 0);
  lock ← run Lock_new;
  bs ← run (new_boxes (Z.to_nat nBoxes));
  run (on_user (modify (set_postOffice
         (MkPostOffice addr bs nBoxes available sent lock)))) ;;
  run (Network_new addr reliability ReadAvail WriteDone) ;;
  t ← run (Thread_new []);
  Fork t PostalHelper.

(** One round of the loop: the packet that [messageAvailable] announces. *)
Definition deliver (buffer : list Z) : kcode (list Z + unit) :=
  po ← run the_postOffice;
  P (messageAvailable po) ;;
  '(pktHdr, buffer) ← run (Receive buffer);
  let mailHdr := header_of_bytes buffer in
  run (lift (ASSERT ((0 <=? to mailHdr) && (to mailHdr <? numBoxes po)))) ;;
  run (lift (ASSERT (hlength mailHdr <=? MaxMailSize))) ;;
  box ← run (lift (aread (boxes po) (to mailHdr)));
  Put box pktHdr mailHdr (drop (Z.to_nat HeaderSize) buffer) ;;
  mret (inl buffer).

Definition PostalDelivery : kcode unit :=
  iterate deliver (uninit (Z.to_nat MaxPacketSize)).

(** The mail header and the data, as the data of a packet. *)
Definition letter (mailHdr : Header) (data : list Z) : res (list Z) :=
  bcopy data (splice 0 (header_bytes mailHdr) (uninit (Z.to_nat MaxPacketSize)))
    HeaderSize (hlength mailHdr).

Definition PostOffice_Send (pktHdr mailHdr : Header) (data : list Z) : kcode unit :=
  po ← run the_postOffice;
  run (lift (ASSERT (hlength mailHdr <=? MaxMailSize))) ;;
  run (lift (ASSERT ((0 <=? to mailHdr) && (to mailHdr <? numBoxes po)))) ;;
  let pktHdr := MkHdr (to pktHdr) (netAddr po) (u32 (hlength mailHdr + HeaderSize)) in
  buffer ← run (lift (letter mailHdr data));
  Acquire (sendLock po) ;;
  run (Send pktHdr buffer) ;;
  P (messageSent po) ;;
  Release (sendLock po).

Definition PostOffice_Receive (box : Z) : kcode (Header * Header * list Z) :=
  po ← run the_postOffice;
  run (lift (ASSERT ((0 <=? box) && (box <? numBoxes po)))) ;;
  b ← run (lift (aread (boxes po) box));
  '(pktHdr, mailHdr, data) ← Get b;
  run (lift (ASSERT (hlength mailHdr <=? MaxMailSize))) ;;
  mret (pktHdr, mailHdr, data).

Definition IncomingPacket : kcode unit := po ← run the_postOffice; V (messageAvailable po).
Definition PacketSent : kcode unit := po ← run the_postOffice; V (messageSent po).

(** ** network/nettest.cc *)

Definition hello : list Z := [72; 101; 108; 108; 111; 32; 116; 104; 101; 114; 101; 33; 0].
Definition got_it : list Z := [71; 111; 116; 32; 105; 116; 33; 0].

Definition MailTest (farAddr : Z) : kcode unit :=
  PostOffice_Send (MkHdr farAddr 0 0) (MkHdr 0 1 (zlen hello)) hello ;;
  '(inPktHdr, inMailHdr, buffer) ← PostOffice_Receive 0;
  run (on_user (print_got buffer (from inPktHdr) (from inMailHdr))) ;;
  PostOffice_Send (MkHdr (from inPktHdr) 0 0) (MkHdr (from inMailHdr) 1 (zlen got_it)) got_it ;;
  '(inPktHdr, inMailHdr, buffer) ← PostOffice_Receive 1;
  run (on_user (print_got buffer (from inPktHdr) (from inMailHdr))) ;;
  run Halt.
End post.
