(* ===== verification/NetworkSpec.v ===== *)
(** * A mail from the sender's buffer to the receiver's mail box

    What machine/network.cc and network/post.cc do to the bytes of a mail: the
    sender puts two headers in front of them, the receiver takes them off. *)
From Stdlib Require Import QArith.
From S2P Require Import Prelude Word NList Machine Coro Interrupt Threads Synch Network.
#[local] Open Scope Z_scope.

(** ** Headers *)

#[local] Ltac sizes := unfold MaxMailSize, MaxPacketSize, MaxWireSize, HeaderSize in *.

Definition header_ok (h : Header) : Prop := in_s32 (to h) ∧ in_s32 (from h) ∧ in_u32 (hlength h).

Lemma length_header_bytes h : length (header_bytes h) = 12%nat.
Proof. reflexivity. Qed.

Lemma header_of_header_bytes h rest : header_ok h → header_of_bytes (header_bytes h ++ rest) = h.
Proof.
  destruct h as [t f l]. intros (Ht & Hf & Hl). simpl in *. unfold header_of_bytes.
  f_equal; [exact (word_back t Ht)|exact (word_back f Hf)|].
  change (of_le (bytes_le 4 l) = l). rewrite of_le_bytes_le. apply Z.mod_small. exact Hl.
Qed.

Lemma bcopy_Ok src dst a n :
  0 ≤ a → 0 ≤ n ≤ zlen src → a + n ≤ zlen dst →
  bcopy src dst a n = Ok (splice (Z.to_nat a) (take (Z.to_nat n) src) dst).
Proof.
  intros Ha Hn Hd. unfold bcopy.
  replace (zlen src <? n) with false by lia. by replace (zlen dst <? a + n) with false by lia.
Qed.

Lemma splice_front {A} (bs l : list A) : splice 0 bs l = bs ++ drop (length bs) l.
Proof. unfold splice. by rewrite take_0. Qed.

(** The header and the data in a buffer. *)
Lemma framed h data buf n :
  0 ≤ n ≤ zlen data → HeaderSize + n ≤ zlen buf →
  bcopy data (splice 0 (header_bytes h) buf) HeaderSize n
  = Ok (header_bytes h ++ take (Z.to_nat n) data ++ drop (Z.to_nat (HeaderSize + n)) buf).
Proof.
  unfold HeaderSize, zlen. intros Hn Hb.
  assert (0 + length (header_bytes h) ≤ length buf)%nat by (rewrite length_header_bytes; lia).
  rewrite bcopy_Ok by (unfold zlen; rewrite ?length_splice by done; lia).
  change (Z.to_nat 12) with (0 + length (header_bytes h))%nat.
  rewrite splice_splice_adj, splice_front, <- app_assoc; [|rewrite length_header_bytes, length_take; lia].
  rewrite length_app, length_header_bytes, length_take. do 3 f_equal. f_equal. lia.
Qed.

Section network.
Context {F U : Type} `{!Userland U, !HasPostOffice U F}.
#[local] Abbreviation K := (Kernel F U).

(** A buffer of [new char[n]] has [n] bytes. *)
Hypothesis length_uninit : ∀ n, length (uninit n) = n.

Lemma zlen_uninit n : 0 ≤ n → zlen (uninit (Z.to_nat n)) = n.
Proof. intros H. unfold zlen. rewrite length_uninit. lia. Qed.

(** ** The sender *)

Lemma letter_Ok m data :
  0 ≤ hlength m ≤ MaxMailSize → hlength m ≤ zlen data →
  ∃ rest, letter m data = Ok (header_bytes m ++ take (Z.to_nat (hlength m)) data ++ rest)
    ∧ HeaderSize + hlength m + zlen rest = MaxPacketSize.
Proof.
  intros Hm Hd. exists (drop (Z.to_nat (HeaderSize + hlength m)) (uninit (Z.to_nat MaxPacketSize))).
  split; [|unfold zlen; rewrite length_drop, length_uninit; sizes; lia].
  unfold letter. apply framed; [lia|]. rewrite zlen_uninit; sizes; lia.
Qed.

Lemma wire_Ok p payload :
  0 ≤ hlength p ≤ MaxPacketSize → hlength p ≤ zlen payload →
  ∃ rest, wire p payload = Ok (header_bytes p ++ take (Z.to_nat (hlength p)) payload ++ rest)
    ∧ HeaderSize + hlength p + zlen rest = MaxWireSize.
Proof.
  intros Hp Hd. exists (drop (Z.to_nat (HeaderSize + hlength p)) (uninit (Z.to_nat MaxWireSize))).
  split; [|unfold zlen; rewrite length_drop, length_uninit; sizes; lia].
  unfold wire. apply framed; [lia|]. rewrite zlen_uninit; sizes; lia.
Qed.

(** ** The receiver *)

Lemma Mail_new_Ok p m data :
  hlength m ≤ MaxMailSize → hlength m ≤ zlen data →
  Mail_new p m data = Ok (MkMail p m (take (Z.to_nat (hlength m)) data)).
Proof.
  intros Hm Hd. unfold Mail_new. replace (hlength m <=? MaxMailSize) with true by lia. cbn.
  by rewrite (proj2 (Z.ltb_ge _ _)).
Qed.

(** The network after a packet with the header [p] has come. *)
Definition holding (n : Network F) (p : Header) (box : list Z) : Network F :=
  MkNetwork (ident n) (chanceToWork n) (writeHandler n) (readHandler n) (sendBusy n) p box.

Lemma on_user_modify (f : U → U) (k : K) : on_user (modify f) k = Ok (tt, set_user (f (user k)) k).
Proof. done. Qed.

(** A packet is taken into the inbox. *)
Lemma accept_packet_Ok p payload rest (k : K) n :
  network (user k) = n → header_ok p → to p = ident n → hlength p = zlen payload →
  zlen payload ≤ MaxPacketSize → zlen (inbox n) = MaxPacketSize →
  accept_packet (header_bytes p ++ payload ++ rest) k
  = Ok (tt, set_user (set_network (holding n p (payload ++ drop (length payload) (inbox n))) (user k)) k).
Proof.
  intros Hn Hp Hto Hl Hmax Hbox. unfold accept_packet, the_network. rewrite (M_bind_step _ _ _ n k) by (by rewrite <- Hn).
  cbv zeta. rewrite header_of_header_bytes by done.
  rewrite (M_bind_step _ _ _ tt k) by (unfold lift; replace (_ && _) with true by lia; done).
  change (Z.to_nat HeaderSize) with (length (header_bytes p)). rewrite drop_app_length, Hl.
  erewrite M_bind_step; [apply on_user_modify|].
  unfold lift. rewrite bcopy_Ok; [|done|unfold zlen; rewrite length_app; lia|lia].
  unfold zlen. by rewrite Nat2Z.id, take_app_length, splice_front.
Qed.

(** It is copied to the caller, in front of what its buffer held. *)
Lemma Receive_Ok n p box data (k : K) :
  network (user k) = holding n p box → 0 < hlength p → hlength p ≤ zlen box → hlength p ≤ zlen data →
  Receive data k = Ok ((p, take (Z.to_nat (hlength p)) box ++ drop (Z.to_nat (hlength p)) data),
                       set_user (set_network (holding n (MkHdr (to p) (from p) 0) box) (user k)) k).
Proof.
  intros Hn Hp Hb Hd. unfold Receive, the_network.
  rewrite (M_bind_step _ _ _ (holding n p box) k) by (by rewrite <- Hn).
  cbv zeta. cbn [inHdr holding ident chanceToWork Network.writeHandler Network.readHandler sendBusy inbox].
  unfold put_network. rewrite (M_bind_step _ _ _ tt _ (on_user_modify _ k)).
  replace (hlength p =? 0) with false by lia. cbn [negb].
  unfold lift. rewrite bcopy_Ok by lia. rewrite splice_front. unfold mbind, M_bind, mret, M_ret.
  rewrite length_take_le by (unfold zlen in *; lia). done.
Qed.

(** A packet from the wire to the buffer of the postal worker: [buf] is what
    the buffer held before. *)
Lemma packet_received p payload rest buf (k : K) n :
  network (user k) = n → header_ok p → to p = ident n → hlength p = zlen payload →
  0 < zlen payload ≤ MaxPacketSize → zlen (inbox n) = MaxPacketSize → zlen buf = MaxPacketSize →
  ∃ n', accept_packet (header_bytes p ++ payload ++ rest) k = Ok (tt, set_user (set_network n' (user k)) k)
    ∧ ∀ k', network (user k') = n' →
        ∃ k'', Receive buf k' = Ok ((p, payload ++ drop (length payload) buf), k'').
Proof.
  intros Hn Hp Hto Hl Hlen Hbox Hbuf. eexists.
  split; [by apply accept_packet_Ok; try done; lia|]. intros k' Hk'. eexists.
  rewrite (Receive_Ok _ _ _ _ _ Hk'); [|lia|unfold zlen in *; rewrite length_app; lia|lia].
  rewrite Hl. unfold zlen. by rewrite Nat2Z.id, take_app_length.
Qed.

(** The bytes of a mail on the wire: its packet header, its own header and its
    data, and padding. *)
Lemma mail_on_wire mailHdr data p :
  0 ≤ hlength mailHdr ≤ MaxMailSize → hlength mailHdr ≤ zlen data → hlength p = hlength mailHdr + HeaderSize →
  let text := take (Z.to_nat (hlength mailHdr)) data in
  length text = Z.to_nat (hlength mailHdr) ∧ zlen (header_bytes mailHdr ++ text) = hlength p
  ∧ ∃ packet r2, letter mailHdr data = Ok packet
      ∧ wire p packet = Ok (header_bytes p ++ (header_bytes mailHdr ++ text) ++ r2)
      ∧ HeaderSize + hlength p + zlen r2 = MaxWireSize.
Proof.
  intros Hm Hdata Hp text.
  assert (length text = Z.to_nat (hlength mailHdr)) as Htext by (apply length_take_le; unfold zlen in *; lia).
  set (payload := header_bytes mailHdr ++ text).
  assert (zlen payload = hlength p) as Hpay
    by (unfold payload, zlen; rewrite length_app, length_header_bytes, Htext; sizes; lia).
  split; [done|]. split; [done|].
  destruct (letter_Ok mailHdr data ltac:(lia) Hdata) as (r1 & Hletter & Hr1). fold text in Hletter.
  destruct (wire_Ok p (header_bytes mailHdr ++ text ++ r1)) as (r2 & Hwire & Hr2);
    [sizes; lia|unfold zlen in *; rewrite app_assoc, length_app; fold payload; lia|].
  do 2 eexists. split; [exact Hletter|]. split; [|exact Hr2]. rewrite Hwire. do 3 f_equal.
  rewrite app_assoc. apply take_app_length'. fold payload. unfold zlen in *. lia.
Qed.

(** C17.  A mail arrives as it was sent.  What [PostOffice::Send] makes
    of it is a packet of [MaxWireSize] bytes; the network of the machine that it
    is addressed to takes that packet, whatever it had before, and the postal
    worker, whenever it asks for it and whatever its buffer held, gets the
    header of the packet and the header of the mail, and builds the mail with
    the same headers and the same data. *)
Theorem mail_arrives pktHdr mailHdr data buf (k : K) n
    (Hpkt : in_s32 (to pktHdr)) (Hfrom : in_s32 (from pktHdr)) (Hmail : header_ok mailHdr)
    (Hlen : hlength mailHdr ≤ MaxMailSize) (Hdata : hlength mailHdr ≤ zlen data)
    (Hn : network (user k) = n) (Hto : to pktHdr = ident n)
    (Hbox : zlen (inbox n) = MaxPacketSize) (Hbuf : zlen buf = MaxPacketSize) :
  let p := MkHdr (to pktHdr) (from pktHdr) (u32 (hlength mailHdr + HeaderSize)) in
  ∃ packet bytes n',
    letter mailHdr data = Ok packet ∧ wire p packet = Ok bytes ∧ zlen bytes = MaxWireSize
    ∧ accept_packet bytes k = Ok (tt, set_user (set_network n' (user k)) k)
    ∧ ∀ k', network (user k') = n' → ∃ buf' k'',
        Receive buf k' = Ok ((p, buf'), k'')
        ∧ header_of_bytes buf' = mailHdr
        ∧ Mail_new p mailHdr (drop (Z.to_nat HeaderSize) buf')
          = Ok (MkMail p mailHdr (take (Z.to_nat (hlength mailHdr)) data)).
Proof.
  intros p. destruct Hmail as (Hm1 & Hm2 & Hm3). unfold in_u32 in Hm3.
  assert (hlength p = hlength mailHdr + HeaderSize) as Hp
    by (unfold p; simpl; unfold u32; apply Z.mod_small; sizes; lia).
  destruct (mail_on_wire mailHdr data p ltac:(lia) Hdata Hp) as (Htext & Hpay & packet & r2 & Hletter & Hwire & Hr2).
  set (text := take (Z.to_nat (hlength mailHdr)) data) in *. set (payload := header_bytes mailHdr ++ text) in *.
  destruct (packet_received p payload r2 buf k n Hn) as (n' & Ha & Hr);
    [split; [done|]; split; [done|]; unfold in_u32; sizes; lia|done|done|sizes; lia|done|done|].
  do 2 eexists. exists n'. split; [exact Hletter|]. split; [exact Hwire|]. split.
  { unfold zlen in *. rewrite !length_app, length_header_bytes. sizes. lia. }
  split; [exact Ha|]. intros k' Hk'. destruct (Hr k' Hk') as (k'' & ->). do 2 eexists. split; [done|].
  unfold payload. rewrite <- !app_assoc. split; [by apply header_of_header_bytes|].
  change (Z.to_nat HeaderSize) with (length (header_bytes mailHdr)). rewrite drop_app_length.
  assert (hlength mailHdr = Z.of_nat (length text)) as E by lia.
  rewrite Mail_new_Ok; [|done|rewrite E; unfold zlen; rewrite length_app; lia].
  by rewrite <- Htext, take_app_length.
Qed.

End network.

(** ** A machine on the network *)

Inductive net_fun := PostalHelper_ | ReadAvail_ | WriteDone_ | NetworkReadPoll_ | NetworkSendDone_.

#[local] Instance net_hasnetwork : HasNetwork (Network net_fun) net_fun := {
  network n := n;
  set_network n _ := n;
  PollSocket := mret false;
  ReadFromSocket := fail AssertFailed;
  SendToSocket _ _ := mret tt;
  Random := mret 0;
  uninit n := replicate n 170;
  NetworkReadPoll := NetworkReadPoll_;
  NetworkSendDone := NetworkSendDone_
}.

#[local] Instance net_postoffice : HasPostOffice (Network net_fun) net_fun := {
  has_network := net_hasnetwork;
  has_mail_lists := {| synchlists _ := ∅; set_synchlists _ n := n |};
  postOffice _ := MkPostOffice 0 [] 0 1 1 1;
  set_postOffice _ n := n;
  print_got _ _ _ := mret tt;
  PostalHelper := PostalHelper_;
  ReadAvail := ReadAvail_;
  WriteDone := WriteDone_
}.

Definition net_node : Network net_fun :=
  MkNetwork 1 1%Q WriteDone_ ReadAvail_ false (MkHdr 0 0 0) (replicate 52 0).
Definition net_kernel : Kernel net_fun (Network net_fun) :=
  MkKernel (MkHardware (MkInterrupt IntOn Spec.empty false false SystemMode) Statistics_new) 1%positive None
    Spec.empty ∅ ∅ ∅ ∅ net_node.

(** The mail of the test, from machine 0 to machine 1. *)
Lemma mail_arrives_witness :
  let p := MkHdr 1 0 (u32 (13 + HeaderSize)) in
  let m := MkHdr 0 1 13 in
  ∃ packet bytes n',
    letter m hello = Ok packet ∧ wire p packet = Ok bytes ∧ zlen bytes = MaxWireSize
    ∧ accept_packet bytes net_kernel = Ok (tt, set_user (set_network n' net_node) net_kernel)
    ∧ ∀ k', network (user k') = n' → ∃ buf' k'',
        Receive (replicate 52 7) k' = Ok ((p, buf'), k'')
        ∧ header_of_bytes buf' = m
        ∧ Mail_new p m (drop (Z.to_nat HeaderSize) buf') = Ok (MkMail p m (take (Z.to_nat 13) hello)).
Proof.
  apply (@mail_arrives net_fun (Network net_fun) net_postoffice ltac:(intros i; apply length_replicate)
    (MkHdr 1 0 0) (MkHdr 0 1 13) hello (replicate 52 7) net_kernel net_node); try done.
Defined.
