(* ===== verification/PostSpec.v ===== *)
(** * The post office sends a mail

    [PostOffice::Send] of network/post.cc, through the lock, the network, the
    semaphore, the idle loop, the polls of the network, the interrupt at the
    end of the transmission and its two handlers, and the switch back, when
    the thread that calls it is the only one that can run and no packet comes
    in meanwhile. *)
From Stdlib Require Import QArith.
From S2P Require Import Prelude Word NList Machine Coro Interrupt Threads Synch Network NetworkSpec Alone.
#[local] Open Scope Z_scope.

(** What the network expects of the socket and of [rand()], and of the
    variables of the kernel: [net_is po n ls o] says that the post office is
    [po], that the network is [n], that the mail boxes hold [ls], that nothing
    can be received, and that [o] has been sent, each with its destination. *)
Class NetHost (U F : Type) `{!Userland U, !HasPostOffice U F} := {
  net_is : PostOffice → Network F → gmap positive (SynchList Mail) → list (Z * list Z) → U → Prop;
  net_post po n ls o u : net_is po n ls o u → postOffice u = po;
  net_network po n ls o u : net_is po n ls o u → network u = n;
  net_lists po n ls o u : net_is po n ls o u → synchlists u = ls;
  net_set po n n' ls o u : net_is po n ls o u → net_is po n' ls o (set_network n' u);
  net_set_lists po n ls ls' o u : net_is po n ls o u → net_is po n ls' o (set_synchlists ls' u);
  net_poll po n ls o u : net_is po n ls o u → ∃ u', PollSocket u = Ok (false, u') ∧ net_is po n ls o u';
  net_random po n ls o u : net_is po n ls o u → ∃ r u', Random u = Ok (r, u') ∧ net_is po n ls o u';
  net_send po n ls o u a bytes : net_is po n ls o u →
    ∃ u', SendToSocket a bytes u = Ok (tt, u') ∧ net_is po n ls (o ++ [(a, bytes)]) u';
  net_DelayedLoad00 po n ls o u : net_is po n ls o u →
    ∃ u', user_DelayedLoad00 u = Ok (tt, u') ∧ net_is po n ls o u'
}.

Section send.
Context {F U : Type} `{!Userland U, !HasPostOffice U F, !NetHost U F}.
#[local] Abbreviation K := (Kernel F U).
#[local] Abbreviation kcode := (code (Kernel F U) F).
Variables (yield : kcode unit) (call : F → kcode unit).
Hypothesis call_poll : call NetworkReadPoll = CheckPktAvail.
Hypothesis call_send_done : call NetworkSendDone = SendDone.
Hypothesis call_write_done : call WriteDone = PacketSent.
Variables (t : tid) (sk : option Z) (regs : list Z) (cds : gmap positive Condition).
Hypothesis Hsk : stack_ok sk.
#[local] Abbreviation cwp := (Coro.cwp yield call start t).
#[local] Abbreviation alone := (alone (F := F) (U := U) t sk regs cds).
#[local] Abbreviation waiting := (Spec.AList [(0, t)] false : Spec.alist tid).

(** The post office, its mail boxes, and the network, whose flag nothing sets;
    and the semaphores but for [messageSent]. *)
Variables (po : PostOffice) (ls : gmap positive (SynchList Mail)) (n0 : Network F).
Variable (sems0 : gmap positive Semaphore).
Hypothesis n0_write : writeHandler n0 = WriteDone.
Hypothesis n0_idle : sendBusy n0 = false.
Lemma network_eta (n : Network F) :
  MkNetwork (ident n) (chanceToWork n) (writeHandler n) (readHandler n) (sendBusy n) (inHdr n) (inbox n) = n.
Proof. by destruct n. Qed.
Lemma n0_again :
  MkNetwork (ident n0) (chanceToWork n0) (writeHandler n0) (readHandler n0) false (inHdr n0) (inbox n0) = n0.
Proof. rewrite <- n0_idle at 1. apply network_eta. Qed.

(** ** The state of the thread and of the network *)

Inductive phase := Running | Waiting | Woken.

Definition ready_list (ph : phase) : Spec.alist tid :=
  match ph with Woken => waiting | _ => Spec.empty end.
Definition th_state (ph : phase) : ThreadStatus :=
  match ph with Running => RUNNING | Waiting => BLOCKED | Woken => READY end.
Definition waiters (ph : phase) : Spec.alist tid :=
  match ph with Waiting => waiting | _ => Spec.empty end.

(** The pending interrupts: the next poll at [rp], and the end of a
    transmission at [wp]. *)
Definition poll (rp : Z) : Z * PendingInterrupt F := (rp, MkPending NetworkReadPoll rp NetworkRecvInt).
Definition completion (w : Z) : Z * PendingInterrupt F := (w, MkPending NetworkSendDone w NetworkSendInt).
Definition completions (wp : option Z) : list (Z * PendingInterrupt F) :=
  match wp with Some w => [completion w] | None => [] end.

Inductive events (rp : Z) : option Z → list (Z * PendingInterrupt F) → Prop :=
  | events_poll : events rp None [poll rp]
  | events_poll_first w : rp ≤ w → events rp (Some w) [poll rp; completion w]
  | events_poll_last w : w ≤ rp → events rp (Some w) [completion w; poll rp].

(** The units of [messageSent]: a transmission is over and has not been
    waited for. *)
Definition units (wp : option Z) (owed : bool) : Z :=
  if owed && bool_decide (wp = None) then 1 else 0.

(** The pending interrupts are [p]; at most 100 ticks from now. *)
Record net (l : IntStatus) (h : bool) (m : MachineStatus) (p : list (Z * PendingInterrupt F))
    (ph : phase) (T rp : Z) (wp : option Z) (o : list (Z * list Z)) (owed : bool)
    (lks : gmap positive Lock) (k : K) : Prop := Net {
  net_alone : ∃ sems, alone k (int l h m p) T (ready_list ph) (th_state ph) sems lks
      (net_is po n0 ls o)
    ∧ sems = <[messageSent po := MkSemaphore (units wp owed) (waiters ph)]> sems0;
  net_rp : rp ≤ T + 100;
  net_wp : ∀ w, wp = Some w → w ≤ T + 100;
  net_owed : wp ≠ None → owed = true;
  net_phase : match ph with Waiting => units wp owed = 0 ∧ owed = true
                          | Woken => units wp owed = 1 | Running => True end
}.

Lemma net_stable po' n ls' o : stable (net_is po' n ls' o).
Proof. intros u Hu. by apply net_DelayedLoad00. Qed.

Lemma op_network {B} k i T rl ts sems lks n o (g : Network F → kcode B) Q :
  alone k i T rl ts sems lks (net_is po n ls o) → cwp (g n) k Q → cwp (run the_network ≫= g) k Q.
Proof. intros Hk H. apply op_get. by rewrite (net_network _ _ _ _ _ (at_user _ _ _ _ _ _ _ _ _ _ _ _ Hk)). Qed.

Lemma op_postOffice {B} k i T rl ts sems lks n o (g : PostOffice → kcode B) Q :
  alone k i T rl ts sems lks (net_is po n ls o) → cwp (g po) k Q → cwp (run the_postOffice ≫= g) k Q.
Proof. intros Hk H. apply op_get. by rewrite (net_post _ _ _ _ _ (at_user _ _ _ _ _ _ _ _ _ _ _ _ Hk)). Qed.

Lemma op_put_network {B} k i T rl ts sems lks n n' o (g : unit → kcode B) Q :
  alone k i T rl ts sems lks (net_is po n ls o) →
  (∀ k', alone k' i T rl ts sems lks (net_is po n' ls o) → cwp (g tt) k' Q) →
  cwp (run (put_network n') ≫= g) k Q.
Proof.
  intros Hk H. unfold put_network. eapply op_user; [exact Hk| |exact H].
  intros u Hu. exists (set_network n' u). split; [done|by eapply net_set].
Qed.

(** *** The queue of pending interrupts *)

Lemma net_insert_poll T wp :
  (∀ w, wp = Some w → w ≤ T + 100) → in_s32 (T + 100) →
  ∃ p, Spec.SortedInsert (add32 T NetworkTime) (MkPending NetworkReadPoll (add32 T NetworkTime) NetworkRecvInt)
         (Spec.AList (completions wp) false) = Ok (Spec.AList p false) ∧ events (T + 100) wp p.
Proof.
  intros Hw Hr. unfold add32, NetworkTime. rewrite s32_id by done. destruct wp as [w|].
  - specialize (Hw w eq_refl). exists [completion w; poll (T + 100)]. split; [|by constructor].
    unfold Spec.SortedInsert. simpl. replace (T + 100 <? w) with false by lia. done.
  - exists [poll (T + 100)]. split; [done|constructor].
Qed.

Lemma net_insert_completion T rp :
  rp ≤ T + 100 → in_s32 (T + 100) →
  Spec.SortedInsert (add32 T NetworkTime) (MkPending NetworkSendDone (add32 T NetworkTime) NetworkSendInt)
    (Spec.AList [poll rp] false) = Ok (Spec.AList [poll rp; completion (T + 100)] false).
Proof.
  intros Hw Hr. unfold add32, NetworkTime. rewrite s32_id by done.
  unfold Spec.SortedInsert. simpl. replace (T + 100 <? rp) with false by lia. done.
Qed.

Lemma net_events_again rp wp x q :
  events rp wp (x :: q) →
  ∃ p', Spec.SortedInsert x.1 x.2 (Spec.AList q false) = Ok (Spec.AList p' false) ∧ events rp wp p'.
Proof.
  intros He. inversion He; subst; simpl; unfold Spec.SortedInsert; simpl.
  - eexists. split; [done|constructor].
  - destruct (Z.ltb_spec rp w); simpl; eexists; (split; [done|constructor; lia]).
  - destruct (Z.ltb_spec w rp); simpl; eexists; (split; [done|constructor; lia]).
Qed.

(** ** The handlers *)

Definition clock_ok (T : Z) : Prop := 0 ≤ T ≤ 2 ^ 31 - 2 ^ 16.

Lemma net_clock_s32 T : clock_ok T → in_s32 (T + 100).
Proof. unfold clock_ok, in_s32. lia. Qed.

Definition woken (ph : phase) : phase := match ph with Waiting => Woken | _ => ph end.

Lemma net_fire_poll ph T rp wp o owed lks m k :
  clock_ok T → net IntOff true m (completions wp) ph T rp wp o owed lks k →
  cwp (call NetworkReadPoll) k (λ _ k', ∃ p, events (T + 100) wp p
    ∧ net IntOff true m p ph T (T + 100) wp o owed lks k').
Proof.
  intros HT [(sems & Hk & Hs) Hrp Hwp Howed Hph]. rewrite call_poll. unfold CheckPktAvail.
  destruct (net_insert_poll T wp Hwp (net_clock_s32 T HT)) as (p & Hp & Hev).
  eapply op_Schedule; [exact Hk|done|exact Hp|]. next_state k Hk.
  assert (∀ k', alone k' (int IntOff true m p) T (ready_list ph) (th_state ph) sems lks
      (net_is po n0 ls o) →
    ∃ p, events (T + 100) wp p ∧ net IntOff true m p ph T (T + 100) wp o owed lks k') as Hend.
  { intros k' H'. exists p. split; [done|]. constructor; try done. by exists sems. }
  eapply op_network; [exact Hk|]. destruct (negb _); [by apply cwp_ret, Hend|].
  eapply op_user; [exact Hk|intros u Hu; by apply net_poll|]. next_state k Hk. simpl negb. cbv iota.
  by apply cwp_ret, Hend.
Qed.

Lemma net_fire_completion ph T rp w o owed lks m k :
  clock_ok T → net IntOff true m [poll rp] ph T rp (Some w) o owed lks k →
  cwp (call NetworkSendDone) k (λ _ k', net IntOff true m [poll rp] (woken ph) T rp None o owed lks k').
Proof.
  intros HT [(sems & Hk & Hs) Hrp Hwp Howed Hph]. rewrite call_send_done. unfold SendDone.
  rewrite (Howed ltac:(done)) in *.
  eapply op_network; [exact Hk|]. rewrite n0_again. eapply op_put_network; [exact Hk|]. next_state k Hk.
  eapply op_stats; [exact Hk|intros st Hst; exact Hst|]. next_state k Hk.
  rewrite n0_write. apply cwp_call. rewrite call_write_done.
  unfold PacketSent. eapply op_postOffice; [exact Hk|].
  assert (∀ k', alone k' (int IntOff true m [poll rp]) T (ready_list (woken ph)) (th_state (woken ph))
      (<[messageSent po := MkSemaphore 1 Spec.empty]> sems) lks (net_is po n0 ls o) →
    net IntOff true m [poll rp] (woken ph) T rp None o true lks k') as Hend.
  { intros k' H'. constructor; [|done..|by destruct ph]. eexists. split; [exact H'|].
    rewrite Hs, insert_insert_eq. by destruct ph. }
  assert (sems !! messageSent po = Some (MkSemaphore 0 (waiters ph))) as Hv by (by rewrite Hs, lookup_insert_eq).
  destruct ph; simpl waiters in Hv.
  - eapply V_free; [exact Hk|exact Hv|]. intros k' H'. by apply cwp_ret, Hend.
  - eapply V_waiting; [exact Hk|exact Hv|]. intros k' H'. by apply cwp_ret, Hend.
  - eapply V_free; [exact Hk|exact Hv|]. intros k' H'. by apply cwp_ret, Hend.
Qed.

(** ** The interrupts that are due *)

Definition sched (l : IntStatus) (h : bool) (m : MachineStatus) (ph : phase) (T rp : Z)
    (wp : option Z) (o : list (Z * list Z)) (owed : bool) (lks : gmap positive Lock) (k : K) : Prop :=
  ∃ p, events rp wp p ∧ net l h m p ph T rp wp o owed lks k.

(** Nothing is due. *)
Definition drained (T rp : Z) (wp : option Z) : Prop := T < rp ∧ ∀ w, wp = Some w → T < w.

#[local] Abbreviation CheckDue := (CheckIfDue (on_user user_DelayedLoad00)).

(** The hardware, the time and the locks of a state change. *)
Lemma net_move l h m p ph T rp wp o owed lks k :
  net l h m p ph T rp wp o owed lks k →
  ∃ sems n, alone k (int l h m p) T (ready_list ph) (th_state ph) sems lks (net_is po n ls o)
    ∧ ∀ l' h' m' p' T' lks' k', T ≤ T' →
        alone k' (int l' h' m' p') T' (ready_list ph) (th_state ph) sems lks' (net_is po n ls o) →
        net l' h' m' p' ph T' rp wp o owed lks' k'.
Proof.
  intros [(sems & Hk & Hs) Hrp Hwp]. do 2 eexists. split; [exact Hk|].
  intros l' h' m' p' T' lks' k' HT Hk'. constructor; try done.
  - by exists sems.
  - lia.
  - intros w Hw'. specialize (Hwp w Hw'). lia.
Qed.

Lemma net_sched_move l h m ph T rp wp o owed lks k :
  sched l h m ph T rp wp o owed lks k →
  ∃ p sems n, alone k (int l h m p) T (ready_list ph) (th_state ph) sems lks (net_is po n ls o)
    ∧ ∀ l' h' m' T' lks' k', T ≤ T' →
        alone k' (int l' h' m' p) T' (ready_list ph) (th_state ph) sems lks' (net_is po n ls o) →
        sched l' h' m' ph T' rp wp o owed lks' k'.
Proof.
  intros (p & Hev & Hnet). destruct (net_move _ _ _ _ _ _ _ _ _ _ _ _ Hnet) as (sems & n & Hk & Hmove).
  exists p, sems, n. split; [done|]. intros. exists p. split; [done|]. by eapply Hmove.
Qed.

(** What the first event of the queue does, at its time or later. *)
Definition fired (m : MachineStatus) (ph : phase) (T rp : Z) (wp : option Z) (o : list (Z * list Z))
    (owed : bool) (lks : gmap positive Lock) (when : Z) (k : K) : Prop :=
  (when = rp ∧ (∀ w, wp = Some w → rp ≤ w) ∧ sched IntOff false m ph T (T + 100) wp o owed lks k)
  ∨ (wp = Some when ∧ when ≤ rp ∧ sched IntOff false m (woken ph) T rp None o owed lks k).

Lemma net_check_fire adv m x rest ph T rp wp o owed lks k (Q : bool → K → Prop) :
  net IntOff false m (x :: rest) ph T rp wp o owed lks k → events rp wp (x :: rest) →
  adv = true ∨ x.1 ≤ T → clock_ok (Z.max T x.1) →
  (∀ k', fired m ph (Z.max T x.1) rp wp o owed lks x.1 k' → Q true k') →
  cwp (CheckDue adv) k Q.
Proof.
  intros Hnet Hev Hadv Hclk HQ. destruct (net_move _ _ _ _ _ _ _ _ _ _ _ _ Hnet) as (sems & n & Hk & Hmove).
  destruct x as [w x]. cbn [fst] in *.
  eapply CheckIfDue_fire; [exact Hk|apply net_stable| |exact Hadv|].
  { inversion Hev; subst; done. }
  intros k1 H1. assert (Hc1 := Hmove _ _ _ _ (Z.max T w) _ k1 ltac:(lia) H1). clear Hmove Hk Hnet.
  assert (x = snd (poll rp) ∧ w = rp ∧ rest = completions wp ∧ (∀ w, wp = Some w → rp ≤ w)
    ∨ x = snd (completion w) ∧ wp = Some w ∧ rest = [poll rp] ∧ w ≤ rp)
    as [(-> & -> & -> & Hle)|(-> & -> & -> & Hle)].
  { inversion Hev; subst.
    - left. by split.
    - left. split; [done|]. split; [done|]. split; [done|]. by intros ? [= <-].
    - right. by split. }
  - cbn [snd poll handler]. eapply cwp_mono; [by apply (net_fire_poll _ _ _ _ _ _ _ _ _ Hclk Hc1)|].
    intros [] k2 (p & Hp & Hc2).
    destruct (net_move _ _ _ _ _ _ _ _ _ _ _ _ Hc2) as (sems2 & n2 & H2 & Hmove).
    do 7 eexists. split; [exact H2|]. intros k3 H3. apply HQ. left. split; [done|]. split; [done|].
    exists p. split; [done|]. eapply Hmove; [lia|exact H3].
  - cbn [snd completion handler]. eapply cwp_mono; [by apply (net_fire_completion _ _ _ _ _ _ _ _ _ Hclk Hc1)|].
    intros [] k2 Hc2. destruct (net_move _ _ _ _ _ _ _ _ _ _ _ _ Hc2) as (sems2 & n2 & H2 & Hmove).
    do 7 eexists. split; [exact H2|]. intros k3 H3. apply HQ. right. split; [done|]. split; [done|].
    exists [poll rp]. split; [constructor|]. eapply Hmove; [lia|exact H3].
Qed.

(** One test in a loop: the first event happens if it is due. *)
Lemma net_check_due m ph T rp wp o owed lks k (Q : bool → K → Prop) :
  clock_ok T → sched IntOff false m ph T rp wp o owed lks k →
  (∀ k' when, when ≤ T → fired m ph T rp wp o owed lks when k' → Q true k') →
  (∀ k', drained T rp wp → sched IntOff false m ph T rp wp o owed lks k' → Q false k') →
  cwp (CheckDue false) k Q.
Proof.
  intros Hclk (p & Hev & Hnet) HQt HQf. destruct p as [|x rest]; [inversion Hev|].
  destruct (decide (x.1 ≤ T)) as [Hle|Hgt].
  - eapply net_check_fire; [exact Hnet|exact Hev|by right|by rewrite Z.max_l by lia|].
    intros k' Hf. rewrite Z.max_l in Hf by lia. by eapply HQt.
  - destruct (net_events_again _ _ _ _ Hev) as (p' & Hins & Hev').
    destruct (net_move _ _ _ _ _ _ _ _ _ _ _ _ Hnet) as (sems & n & Hk & Hmove).
    destruct x as [w x]. eapply CheckIfDue_later; [exact Hk|simpl in Hgt; lia|exact Hins|].
    intros k' H'. apply HQf; [|exists p'; split; [done|]; eapply Hmove; [lia|exact H']].
    inversion Hev; subst; simpl in Hgt; (split; [lia|]); intros w' [= <-]; lia.
Qed.

(** After the loop nothing is due. *)
Definition settled (m : MachineStatus) (ph : phase) (T rp : Z) (wp : option Z) (o : list (Z * list Z))
    (owed : bool) (lks : gmap positive Lock) (k : K) : Prop :=
  ∃ ph' rp' wp', drained T rp' wp'
    ∧ sched IntOff false m ph' T rp' wp' o owed lks k
    ∧ ph' = (if bool_decide (wp' = wp) then ph else woken ph)
    ∧ (wp' = wp ∨ wp' = None) ∧ (rp' = rp ∨ rp' = T + 100).

Definition due (T rp : Z) (wp : option Z) : nat :=
  (if decide (rp ≤ T) then 1 else 0) + (match wp with Some w => if decide (w ≤ T) then 1 else 0 | None => 0 end).

Lemma net_while_due n : ∀ m ph T rp wp o owed lks k,
  due T rp wp = n → clock_ok T → sched IntOff false m ph T rp wp o owed lks k →
  cwp (while (CheckDue false)) k (λ _, settled m ph T rp wp o owed lks).
Proof.
  induction n as [n IH] using lt_wf_ind. intros m ph T rp wp o owed lks k Hn Hclk Hs.
  apply cwp_while. eapply net_check_due; [done|exact Hs| |].
  - intros k' when Hw [(-> & _ & Hs')|(-> & _ & Hs')].
    + eapply cwp_mono; [eapply (IH (due T (T + 100) wp)); [|done|exact Hclk|exact Hs']|].
      { subst n. unfold due. repeat case_decide; try lia; destruct wp; lia. }
      intros _ k2 (ph2 & rp2 & wp2 & Hd & Hs2 & Hph & Hwp & Hrp).
      exists ph2, rp2, wp2. split_and!; [done..|right; lia].
    + eapply cwp_mono; [eapply (IH (due T rp None)); [|done|exact Hclk|exact Hs']|].
      { subst n. unfold due. repeat case_decide; lia. }
      intros _ k2 (ph2 & rp2 & wp2 & Hd & Hs2 & Hph & Hwp & Hrp).
      assert (wp2 = None) as -> by (by destruct Hwp).
      exists ph2, rp2, None. split_and!; [done|done| |by right|done].
      rewrite Hph. by destruct ph.
  - intros k' Hd Hs'. exists ph, rp, wp. rewrite bool_decide_true by done. split_and!; [done|done|done|by left|by left].
Qed.

(** A tick of the clock while the thread runs. *)
Lemma OneTick_net T rp wp o owed lks k (Q : unit → K → Prop) :
  0 ≤ T → clock_ok (T + 10) → sched IntOn false SystemMode Running T rp wp o owed lks k →
  (∀ k' rp' wp', drained (T + 10) rp' wp' → wp' = wp ∨ wp' = None →
     sched IntOn false SystemMode Running (T + 10) rp' wp' o owed lks k' → Q tt k') →
  cwp OneTick k Q.
Proof.
  intros HT Hclk Hs HQ. destruct (net_sched_move _ _ _ _ _ _ _ _ _ _ _ Hs) as (p & sems & n & Hk & Hmove).
  eapply OneTick_due; [exact Hk|]. intros k1 H1.
  unfold add32, SystemTick in H1. rewrite s32_id in H1 by (unfold clock_ok, in_s32 in *; lia).
  eapply cwp_mono; [eapply net_while_due; [done|exact Hclk|eapply Hmove; [|exact H1]; lia]|].
  intros _ k2 (ph2 & rp2 & wp2 & Hd & Hs2 & Hph & Hwp & _).
  assert (ph2 = Running) as -> by (by destruct (bool_decide _)).
  destruct (net_sched_move _ _ _ _ _ _ _ _ _ _ _ Hs2) as (p2 & sems2 & n2 & H2 & Hmove2).
  do 7 eexists. split; [exact H2|]. intros k3 H3.
  eapply HQ; [exact Hd|exact Hwp|]. eapply Hmove2; [|exact H3]. lia.
Qed.

(** ** The lock *)

Lemma Acquire_net l T rp o owed lks k (Q : unit → K → Prop) :
  0 ≤ T → clock_ok (T + 10) → lks !! l = Some (MkLock false None Spec.empty) →
  sched IntOn false SystemMode Running T rp None o owed lks k →
  (∀ k' rp', drained (T + 10) rp' None →
     sched IntOn false SystemMode Running (T + 10) rp' None o owed
       (<[l := MkLock true (Some t) Spec.empty]> lks) k' → Q tt k') →
  cwp (Acquire l) k Q.
Proof.
  intros HT Hclk Hl Hs HQ. destruct (net_sched_move _ _ _ _ _ _ _ _ _ _ _ Hs) as (p & sems & n & Hk & Hmove).
  unfold Acquire. apply cwp_bind. eapply SetLevel_off; [exact Hk|].
  next_state k Hk. pose proof Hk as [].
  apply cwp_bind, cwp_while. eapply cwp_act.
  { unfold get_lock, get, lift, mbind, M_bind. rewrite at_locks, Hl. reflexivity. }
  cbv beta. cbn [isHeld]. apply cwp_ret. eapply cwp_act.
  { unfold take_lock, get_lock, current, put_lock, gets, get, lift, modify, mbind, M_bind.
    rewrite at_locks, Hl. cbn. rewrite at_cur. reflexivity. }
  cbv beta. apply cwp_bind.
  eapply SetLevel_on with (p := p) (T := T) (rl := ready_list Running) (ts := th_state Running)
    (sems := sems) (lks := <[l := MkLock true (Some t) Spec.empty]> lks) (Pu := net_is po n ls o).
  { constructor; simpl; rewrite ?at_locks; done. }
  intros k1 H1. eapply (OneTick_net T rp None); [done|done|eapply Hmove; [|exact H1]; lia|].
  intros k2 rp2 wp2 Hd Hwp Hs2. assert (wp2 = None) as -> by (by destruct Hwp).
  apply cwp_ret. by eapply HQ.
Qed.

Lemma Release_net l T rp o owed lks k (Q : unit → K → Prop) :
  0 ≤ T → clock_ok (T + 10) → lks !! l = Some (MkLock true (Some t) Spec.empty) →
  sched IntOn false SystemMode Running T rp None o owed lks k →
  (∀ k' rp', drained (T + 10) rp' None →
     sched IntOn false SystemMode Running (T + 10) rp' None o owed
       (<[l := MkLock false None Spec.empty]> lks) k' → Q tt k') →
  cwp (Release l) k Q.
Proof.
  intros HT Hclk Hl Hs HQ. destruct (net_sched_move _ _ _ _ _ _ _ _ _ _ _ Hs) as (p & sems & n & Hk & Hmove).
  unfold Release. apply cwp_bind. eapply SetLevel_off; [exact Hk|].
  next_state k Hk. pose proof Hk as []. eapply cwp_act.
  { unfold isHeldByCurrentThread, get_lock, current, gets, get, lift, mbind, M_bind.
    rewrite at_locks, Hl. cbn. rewrite at_cur. rewrite bool_decide_true by done. reflexivity. }
  cbv beta. cbn [cwhen]. eapply cwp_act.
  { unfold free_lock, get_lock, put_lock, wake, get, lift, modify, mbind, M_bind.
    rewrite at_locks, Hl. reflexivity. }
  cbv beta. apply cwp_bind.
  eapply SetLevel_on with (p := p) (T := T) (rl := ready_list Running) (ts := th_state Running)
    (sems := sems) (lks := <[l := MkLock false None Spec.empty]> lks) (Pu := net_is po n ls o).
  { constructor; simpl; rewrite ?at_locks; try done. by rewrite insert_insert_eq. }
  intros k1 H1. eapply (OneTick_net T rp None); [done|done|eapply Hmove; [|exact H1]; lia|].
  intros k2 rp2 wp2 Hd Hwp Hs2. assert (wp2 = None) as -> by (by destruct Hwp).
  apply cwp_ret. by eapply HQ.
Qed.

(** ** Waiting for the end of the transmission *)

(** The idle loop: the transmission ends, or a poll comes before it. *)
Lemma Idle_net T rp wp o lks k (Q : unit → K → Prop) :
  0 ≤ T → clock_ok (T + 100) → drained T rp wp →
  sched IntOff false SystemMode Waiting T rp wp o true lks k →
  (∀ k' ph' T' rp' wp', T < T' ≤ T + 100 → drained T' rp' wp' → wp' = wp ∨ wp' = None →
     sched IntOff false SystemMode ph' T' rp' wp' o true lks k' →
     ph' = Woken ∧ wp' = None ∨ (ph' = Waiting ∧ ∃ w, wp' = Some w ∧ w < rp' ∧ rp ≤ w) → Q tt k') →
  cwp Idle k Q.
Proof.
  intros HT Hclk Hd Hs HQ. destruct Hs as (p & Hev & Hnet). destruct p as [|x rest]; [inversion Hev|].
  destruct (net_move _ _ _ _ _ _ _ _ _ _ _ _ Hnet) as (sems & n & Hk & Hmove).
  pose proof (net_wp _ _ _ _ _ _ _ _ _ _ _ _ Hnet) as Hw100.
  pose proof (net_phase _ _ _ _ _ _ _ _ _ _ _ _ Hnet) as [Hu _].
  assert (T < x.1 ≤ T + 100) as Hx.
  { destruct Hd as [Hd1 Hd2]. pose proof (net_rp _ _ _ _ _ _ _ _ _ _ _ _ Hnet).
    inversion Hev; subst; simpl; try lia. specialize (Hd2 _ eq_refl). specialize (Hw100 _ eq_refl). lia. }
  destruct x as [w0 x]. cbn [fst] in Hx. eapply Idle_fire; [exact Hk|]. intros k1 H1.
  eapply net_check_fire; [eapply Hmove; [|exact H1]; lia|exact Hev|by left|
    cbn [fst]; rewrite Z.max_r by lia; unfold clock_ok in *; lia|].
  cbn [fst]. rewrite Z.max_r by lia. intros k2 Hf. split; [done|].
  assert (clock_ok w0) as Hclk0 by (unfold clock_ok in *; lia).
  destruct Hf as [(-> & Hle & Hs')|(-> & Hle & Hs')].
  - eapply cwp_mono; [eapply net_while_due; [done|exact Hclk0|exact Hs']|].
    intros _ k3 (ph3 & rp3 & wp3 & Hd3 & Hs3 & Hph & Hwp3 & Hrp3).
    destruct (net_sched_move _ _ _ _ _ _ _ _ _ _ _ Hs3) as (p3 & sems3 & n3 & H3 & Hmove3).
    do 7 eexists. split; [exact H3|]. intros k4 H4.
    eapply (HQ k4 ph3 rp rp3 wp3); [lia|done|done|eapply Hmove3; [|exact H4]; lia|].
    destruct wp as [w|]; [|done].
    destruct Hwp3 as [-> | ->]; [|by left; rewrite Hph].
    right. rewrite bool_decide_true in Hph by done. split; [done|]. exists w. split; [done|].
    specialize (Hle w eq_refl). specialize (Hw100 w eq_refl). destruct Hd3 as [Hd3 _]. lia.
  - eapply cwp_mono; [eapply net_while_due; [done|exact Hclk0|exact Hs']|].
    intros _ k3 (ph3 & rp3 & wp3 & Hd3 & Hs3 & Hph & Hwp3 & Hrp3).
    assert (wp3 = None) as -> by (by destruct Hwp3).
    destruct (net_sched_move _ _ _ _ _ _ _ _ _ _ _ Hs3) as (p3 & sems3 & n3 & H3 & Hmove3).
    do 7 eexists. split; [exact H3|]. intros k4 H4.
    eapply (HQ k4 ph3 w0 rp3 None); [lia|done|by right|eapply Hmove3; [|exact H4]; lia|].
    left. split; [|done]. by rewrite Hph.
Qed.

(** The thread that has been woken is the next one, and takes the unit. *)
Lemma next_thread_net T rp wp o lks k (Q : tid → K → Prop) :
  0 ≤ T → clock_ok (T + 200) → drained T rp wp →
  sched IntOff false SystemMode Waiting T rp wp o true lks k →
  (∀ k' p T' rp' sems, T < T' ≤ T + 200 → events rp' None p →
     alone k' (int IntOff false SystemMode p) T' Spec.empty READY sems lks (net_is po n0 ls o) →
     sems = <[messageSent po := MkSemaphore 1 Spec.empty]> sems0 → rp' ≤ T' + 100 → Q t k') →
  cwp next_thread k Q.
Proof.
  intros HT Hclk Hd Hs HQ.
  assert (∀ k' T' rp', T < T' ≤ T + 200 →
     sched IntOff false SystemMode Woken T' rp' None o true lks k' → cwp next_thread k' Q) as Hend.
  { intros k' T' rp' HT' (p & Hev & [(sems & Hk & Hsem) Hrp _ _ Hu]).
    eapply next_thread_ready; [exact Hk|]. intros k1 H1.
    eapply (HQ k1 p T' rp' sems); [done|done|exact H1| |done].
    by rewrite Hsem, Hu. }
  destruct (net_sched_move _ _ _ _ _ _ _ _ _ _ _ Hs) as (p & sems & n & Hk & Hmove).
  eapply next_thread_idle; [exact Hk|]. intros k1 H1.
  eapply Idle_net; [exact HT|unfold clock_ok in *; lia|exact Hd|eapply Hmove; [|exact H1]; lia|].
  intros k2 ph2 T2 rp2 wp2 HT2 Hd2 Hwp2 Hs2 [[-> ->]|(-> & w & -> & Hw1 & Hw2)].
  - apply (Hend _ T2 rp2); [lia|done].
  - clear Hmove Hk H1. destruct (net_sched_move _ _ _ _ _ _ _ _ _ _ _ Hs2) as (p2 & sems2 & n2 & H2 & Hmove).
    eapply next_thread_idle; [exact H2|]. intros k3 H3.
    eapply (Idle_net T2); [lia|unfold clock_ok in *; lia|exact Hd2|eapply Hmove; [|exact H3]; lia|].
    intros k4 ph4 T4 rp4 wp4 HT4 Hd4 Hwp4 Hs4 [[-> ->]|(_ & w' & Hw' & _ & Hw3)].
    + apply (Hend _ T4 rp4); [lia|done].
    + exfalso. destruct Hwp4 as [E|E]; rewrite E in Hw'; [injection Hw' as <-; lia|done].
Qed.

(** [messageSent->P()] after a transmission has begun. *)
Lemma P_net T rp w o lks k (Q : unit → K → Prop) :
  0 ≤ T → clock_ok (T + 210) → drained T rp (Some w) →
  sched IntOn false SystemMode Running T rp (Some w) o true lks k →
  (∀ k' T' rp', T < T' ≤ T + 210 → drained T' rp' None →
     sched IntOn false SystemMode Running T' rp' None o false lks k' → Q tt k') →
  cwp (P (messageSent po)) k Q.
Proof.
  intros HT Hclk Hd (p & Hev & [(sems & Hk & Hs) Hrp Hwp Howed _]) HQ.
  eapply P_wait; [exact Hsk|exact Hk|by rewrite Hs, lookup_insert_eq|]. intros k1 H1.
  eapply (next_thread_net T rp (Some w) o lks); [done|unfold clock_ok in *; lia|done| |].
  { exists p. split; [done|]. constructor; try done. eexists. split; [exact H1|]. by rewrite Hs, insert_insert_eq. }
  intros k2 p2 T2 rp2 sems2 HT2 Hev2 H2 Hs2 Hrp2. split; [done|].
  do 3 eexists. exists 1. do 3 eexists. split; [exact H2|]. split; [by rewrite Hs2, lookup_insert_eq|]. split; [done|].
  intros k3 H3. eapply (OneTick_net T2 rp2 None o false lks); [lia|unfold clock_ok in *; lia| |].
  - exists p2. split; [done|]. constructor; try done. eexists. split; [exact H3|]. by rewrite Hs2, insert_insert_eq.
  - intros k4 rp4 wp4 Hd4 Hwp4 Hs4. assert (wp4 = None) as -> by (by destruct Hwp4).
    eapply (HQ k4 (T2 + 10)); [lia|exact Hd4|exact Hs4].
Qed.

(** ** The transmission *)

(** The packet is sent, or the network loses it. *)
Definition transmitted (a : Z) (bytes : list Z) (o o' : list (Z * list Z)) : Prop :=
  o' = o ++ [(a, bytes)] ∨ (o' = o ∧ Qle_bool (chanceToWork n0 * 100) (inject_Z 99) = true).

Lemma lossy r : Qle_bool (chanceToWork n0 * 100) (inject_Z (Z.rem r 100)) = true →
  Qle_bool (chanceToWork n0 * 100) (inject_Z 99) = true.
Proof.
  rewrite !Qle_bool_iff. intros H. eapply Qle_trans; [exact H|]. rewrite <- Zle_Qle.
  pose proof (Z.rem_bound_abs r 100 ltac:(done)). lia.
Qed.

Lemma op_Send {B} T rp o lks k hdr payload bytes (c : unit → kcode B) (Q : B → K → Prop) :
  0 ≤ T → clock_ok T → drained T rp None →
  sched IntOn false SystemMode Running T rp None o false lks k →
  0 < hlength hdr ≤ MaxPacketSize → from hdr = ident n0 → wire hdr payload = Ok bytes →
  (∀ k' o', transmitted (to hdr) bytes o o' →
     sched IntOn false SystemMode Running T rp (Some (T + 100)) o' true lks k' → cwp (c tt) k' Q) →
  cwp (run (Send hdr payload) ≫= c) k Q.
Proof.
  intros HT Hclk Hd (p & Hev & [(sems & Hk & Hs) Hrp Hwp Howed _]) Hlen Hfrom Hwire H.
  assert (p = [poll rp]) as -> by (by inversion Hev).
  unfold Send. apply cwp_run_bind. eapply op_network; [exact Hk|]. apply cwp_run_bind. apply op_assert.
  { rewrite n0_idle, Hfrom, Z.eqb_refl. simpl. rewrite andb_true_r. apply andb_true_iff.
    split; [apply Z.ltb_lt; lia|apply Z.leb_le; lia]. }
  apply cwp_run_bind. eapply op_Schedule; [exact Hk|done|apply net_insert_completion; [done|by apply net_clock_s32]|].
  next_state k Hk.
  assert (∀ k' o', transmitted (to hdr) bytes o o' →
    alone k' (int IntOn false SystemMode [poll rp; completion (T + 100)]) T
      (ready_list Running) (th_state Running) sems lks (net_is po n0 ls o') → cwp (c tt) k' Q) as Hend.
  { intros k' o' Ho H'. apply (H k' o' Ho). exists [poll rp; completion (T + 100)]. split; [by constructor|].
    constructor; try done.
    - by exists sems.
    - intros w [= <-]. lia. }
  apply cwp_run_bind.
  destruct (net_random _ _ _ _ _ (at_user _ _ _ _ _ _ _ _ _ _ _ _ Hk)) as (r & u' & Hr & Hu').
  eapply cwp_act.
  { unfold on_user, get, lift, modify, mbind, M_bind. rewrite Hr. reflexivity. }
  assert (alone (set_user u' k) (int IntOn false SystemMode [poll rp; completion (T + 100)]) T
    (ready_list Running) (th_state Running) sems lks (net_is po n0 ls o)) as H1 by (destruct Hk; by constructor).
  clear Hk Hr. revert H1. generalize (set_user u' k). clear k u' Hu'. intros k Hk. cbv beta.
  destruct (Qle_bool _ _) eqn:E.
  - apply cwp_run_ret. apply (Hend k o); [|done]. right. split; [done|]. by apply (lossy r).
  - apply cwp_run_bind. eapply cwp_act; [unfold lift; by rewrite Hwire|]. cbv beta.
    eapply op_user; [exact Hk|intros u Hu; by apply net_send|]. next_state k Hk.
    apply (Hend k (o ++ [(to hdr, bytes)])); [by left|done].
Qed.

(** A buffer of [new char[n]] has [n] bytes. *)
Hypothesis length_uninit : ∀ n, length (uninit n) = n.

Lemma packet_of_mail mailHdr data p :
  0 ≤ hlength mailHdr ≤ MaxMailSize → hlength mailHdr ≤ zlen data → hlength p = hlength mailHdr + HeaderSize →
  ∃ packet bytes, letter mailHdr data = Ok packet ∧ wire p packet = Ok bytes ∧ zlen bytes = MaxWireSize.
Proof.
  intros Hm Hd Hp. destruct (letter_Ok length_uninit mailHdr data Hm Hd) as (r1 & Hletter & Hr1).
  set (packet := header_bytes mailHdr ++ _ ++ r1) in *.
  assert (zlen packet = MaxPacketSize) as Hpacket.
  { unfold packet, zlen in *. rewrite !length_app, length_header_bytes, length_take. unfold HeaderSize in *. lia. }
  destruct (wire_Ok length_uninit p packet) as (r2 & Hwire & Hr2).
  { rewrite Hp. unfold HeaderSize, MaxMailSize, MaxPacketSize, MaxWireSize in *. unfold HeaderSize in *. lia. }
  { rewrite Hp, Hpacket. unfold MaxMailSize, HeaderSize in *. lia. }
  do 2 eexists. split; [exact Hletter|]. split; [exact Hwire|].
  rewrite Hp in Hr2 |- *. unfold zlen in *. rewrite !length_app, length_header_bytes, length_take.
  unfold MaxMailSize, HeaderSize in *. lia.
Qed.

End send.

(** ** A machine on the network, and one thread *)

Inductive po_fun := PostalHelper_ | ReadAvail_ | WriteDone_ | NetworkReadPoll_ | NetworkSendDone_.

Record PoUser := MkPoUser {
  pu_postOffice : PostOffice;
  pu_network : Network po_fun;
  pu_lists : gmap positive (SynchList Mail);
  pu_sent : list (Z * list Z)
}.

#[local] Instance po_userland : Userland PoUser := {
  user_ReadRegister _ := fail NullDeref;
  user_WriteRegister _ _ := fail NullDeref;
  user_DelayedLoad00 := mret tt;
  user_RestoreState _ := fail NullDeref
}.

#[local] Instance po_hasnetwork : HasNetwork PoUser po_fun := {
  network := pu_network;
  set_network n u := MkPoUser (pu_postOffice u) n (pu_lists u) (pu_sent u);
  PollSocket := mret false;
  ReadFromSocket := fail AssertFailed;
  SendToSocket a bytes u := Ok (tt, MkPoUser (pu_postOffice u) (pu_network u) (pu_lists u) (pu_sent u ++ [(a, bytes)]));
  Random := mret 41;
  uninit n := replicate n 170;
  NetworkReadPoll := NetworkReadPoll_;
  NetworkSendDone := NetworkSendDone_
}.

#[local] Instance po_haspostoffice : HasPostOffice PoUser po_fun := {
  has_network := po_hasnetwork;
  has_mail_lists := {| synchlists := pu_lists;
    set_synchlists l u := MkPoUser (pu_postOffice u) (pu_network u) l (pu_sent u) |};
  postOffice := pu_postOffice;
  set_postOffice po u := MkPoUser po (pu_network u) (pu_lists u) (pu_sent u);
  print_got _ _ _ := mret tt;
  PostalHelper := PostalHelper_;
  ReadAvail := ReadAvail_;
  WriteDone := WriteDone_
}.

#[local] Instance po_host : NetHost PoUser po_fun.
Proof.
  refine {| net_is po n ls o u := u = MkPoUser po n ls o |}; intros; subst; simpl; unfold mret, M_ret; eauto.
Defined.

Definition po_call (f : po_fun) : code (Kernel po_fun PoUser) po_fun unit :=
  match f with
  | PostalHelper_ => PostalDelivery
  | ReadAvail_ => IncomingPacket
  | WriteDone_ => PacketSent
  | NetworkReadPoll_ => CheckPktAvail
  | NetworkSendDone_ => SendDone
  end.

Definition po_office : PostOffice := MkPostOffice 0 [] 10 1 2 1.
Definition po_network : Network po_fun :=
  MkNetwork 0 1%Q WriteDone_ ReadAvail_ false (MkHdr 0 0 0) (replicate 52 0).
Definition po_kernel : Kernel po_fun PoUser :=
  MkKernel (MkHardware (int IntOn false SystemMode [(100, MkPending NetworkReadPoll_ 100 NetworkRecvInt)]) Statistics_new)
    1%positive None Spec.empty {[1%positive := MkThread None None RUNNING [] None]}
    {[2%positive := MkSemaphore 0 Spec.empty]} {[1%positive := MkLock false None Spec.empty]} ∅
    (MkPoUser po_office po_network ∅ []).

