(* ===== verification/DeliverSpec.v ===== *)
(** * The postal worker delivers a mail

    A round of [PostOffice::PostalDelivery] of network/post.cc, through the
    semaphore, the network, the checks, and the lock and the condition of the
    mail box, when the worker is the only thread that can run and nothing more
    comes in meanwhile. *)
From Stdlib Require Import QArith.
From S2P Require Import Prelude Word NList Machine Coro Interrupt Threads Synch Network NetworkSpec Alone PostSpec.
#[local] Open Scope Z_scope.

Section deliver.
Context {F U : Type} `{!Userland U, !HasPostOffice U F, !NetHost U F}.
#[local] Abbreviation K := (Kernel F U).
#[local] Abbreviation kcode := (code (Kernel F U) F).
Variables (yield : kcode unit) (call : F → kcode unit).
Hypothesis call_poll : call NetworkReadPoll = CheckPktAvail.
Hypothesis call_send_done : call NetworkSendDone = SendDone.
Hypothesis call_write_done : call WriteDone = PacketSent.
Variables (t : tid) (sk : option Z) (regs : list Z) (cds : gmap positive Condition).
#[local] Abbreviation cwp := (Coro.cwp yield call start t).
#[local] Abbreviation alone := (alone (F := F) (U := U) t sk regs cds).
Variable po : PostOffice.

(** ** The thread runs, and the next event is a poll *)

Definition network_ok (n : Network F) : Prop := writeHandler n = WriteDone ∧ sendBusy n = false.
Definition no_transmission (sems : gmap positive Semaphore) : Prop :=
  sems !! messageSent po = Some (MkSemaphore 0 Spec.empty).

Record at_rest (T rp : Z) (sems : gmap positive Semaphore) (lks : gmap positive Lock)
    (ls : gmap positive (SynchList Mail)) (n : Network F) (o : list (Z * list Z)) (k : K) : Prop := AtRest {
  rest_alone : alone k (int IntOn false SystemMode [poll rp]) T Spec.empty RUNNING sems lks (net_is po n ls o);
  rest_poll : T < rp ≤ T + 100;
  rest_time : 0 ≤ T;
  rest_network : network_ok n;
  rest_sent : no_transmission sems
}.

Lemma rest_sched T rp sems lks ls n o k l h m T' lks' k' :
  at_rest T rp sems lks ls n o k → T ≤ T' →
  alone k' (int l h m [poll rp]) T' Spec.empty RUNNING sems lks' (net_is po n ls o) →
  sched t sk regs cds po ls n sems l h m Running T' rp None o false lks' k'.
Proof.
  intros [_ Hrp _ _ Hs] HT H'. exists [poll rp]. split; [constructor|]. constructor; try done; [|lia].
  exists sems. split; [done|]. by rewrite insert_id.
Qed.

(** A tick of the clock. *)
Lemma OneTick_rest T rp sems lks lks' ls n o k k' (Q : unit → K → Prop) :
  at_rest T rp sems lks ls n o k → clock_ok (T + 10) →
  alone k' (int IntOn false SystemMode [poll rp]) T Spec.empty RUNNING sems lks' (net_is po n ls o) →
  (∀ k2 rp2, at_rest (T + 10) rp2 sems lks' ls n o k2 → Q tt k2) →
  cwp OneTick k' Q.
Proof.
  intros Hr Hclk H' HQ. pose proof Hr as [_ _ HT [Hw Hb] Hs].
  apply (OneTick_net yield call call_poll call_send_done call_write_done t sk regs cds po ls n sems Hw Hb
    T rp None o false lks' k' Q HT Hclk); [eapply rest_sched; [exact Hr|lia|exact H']|].
  intros k2 rp2 wp2 [Hd _] Hwp (p2 & Hev & [(sems2 & H2 & Hsem2) Hrp2 _ _ _]).
  assert (wp2 = None) as -> by (by destruct Hwp). assert (p2 = [poll rp2]) as -> by (by inversion Hev).
  apply (HQ k2 rp2). constructor; [|lia|lia|done|done]. subst sems2.
  simpl units in H2. by rewrite insert_id in H2.
Qed.

(** ** The operations *)

Section ops.
Context (Q : unit → K → Prop) (T rp : Z) (sems : gmap positive Semaphore) (lks : gmap positive Lock).
Context (ls : gmap positive (SynchList Mail)) (n : Network F) (o : list (Z * list Z)) (k : K).
Hypothesis Hr : at_rest T rp sems lks ls n o k.
Hypothesis Hclk : clock_ok (T + 10).

Lemma P_rest s v :
  sems !! s = Some (MkSemaphore v Spec.empty) → v ≠ 0 → s ≠ messageSent po →
  (∀ k' rp', at_rest (T + 10) rp' (<[s := MkSemaphore (sub32 v 1) Spec.empty]> sems) lks ls n o k' → Q tt k') →
  cwp (P s) k Q.
Proof.
  intros Hs Hv Hne HQ. pose proof Hr as [Hk Hrp HT Hn Hsent].
  eapply P_positive; [exact Hk|exact Hs|done|]. intros k1 H1.
  eapply OneTick_rest; [|done|exact H1|exact HQ].
  constructor; [exact H1|done|done|done|]. unfold no_transmission. by rewrite lookup_insert_ne.
Qed.

Lemma Acquire_rest l :
  lks !! l = Some (MkLock false None Spec.empty) →
  (∀ k' rp', at_rest (T + 10) rp' sems (<[l := MkLock true (Some t) Spec.empty]> lks) ls n o k' → Q tt k') →
  cwp (Acquire l) k Q.
Proof.
  intros Hl HQ. pose proof Hr as [Hk Hrp HT [Hw Hb] Hsent].
  apply (Acquire_net yield call call_poll call_send_done call_write_done t sk regs cds po ls n sems Hw Hb
    l T rp o false lks k Q HT Hclk Hl); [eapply rest_sched; [exact Hr|lia|exact Hk]|].
  intros k2 rp2 [Hd _] (p2 & Hev & [(sems2 & H2 & Hsem2) Hrp2 _ _ _]).
  assert (p2 = [poll rp2]) as -> by (by inversion Hev). subst sems2. simpl units in H2.
  rewrite insert_id in H2 by done. apply (HQ k2 rp2). by constructor; [|lia|lia|..].
Qed.

Lemma Release_rest l :
  lks !! l = Some (MkLock true (Some t) Spec.empty) →
  (∀ k' rp', at_rest (T + 10) rp' sems (<[l := MkLock false None Spec.empty]> lks) ls n o k' → Q tt k') →
  cwp (Release l) k Q.
Proof.
  intros Hl HQ. pose proof Hr as [Hk Hrp HT [Hw Hb] Hsent].
  apply (Release_net yield call call_poll call_send_done call_write_done t sk regs cds po ls n sems Hw Hb
    l T rp o false lks k Q HT Hclk Hl); [eapply rest_sched; [exact Hr|lia|exact Hk]|].
  intros k2 rp2 [Hd _] (p2 & Hev & [(sems2 & H2 & Hsem2) Hrp2 _ _ _]).
  assert (p2 = [poll rp2]) as -> by (by inversion Hev). subst sems2. simpl units in H2.
  rewrite insert_id in H2 by done. apply (HQ k2 rp2). by constructor; [|lia|lia|..].
Qed.

(** Nobody waits on the condition. *)
Lemma Signal_rest c l :
  cds !! c = Some (MkCondition Spec.empty) → lks !! l = Some (MkLock true (Some t) Spec.empty) →
  (∀ k' rp', at_rest (T + 10) rp' sems lks ls n o k' → Q tt k') →
  cwp (Signal c l) k Q.
Proof.
  intros Hc Hl HQ. pose proof Hr as [Hk Hrp HT Hn Hsent]. unfold Signal. apply cwp_bind.
  eapply SetLevel_off; [exact Hk|]. intros k1 [Hi HT1 Hcur Hnone Hrl Hth Hsem Hlk Hcd Hu]. eapply cwp_act.
  { unfold isHeldByCurrentThread, get_lock, current, gets, get, lift, mbind, M_bind.
    rewrite Hlk, Hl. cbn. rewrite Hcur. rewrite bool_decide_true by done. reflexivity. }
  cbv beta. cbn [cwhen]. eapply cwp_act.
  { unfold wake_one, get_condition, put_condition, wake, get, lift, modify, mbind, M_bind.
    rewrite Hcd, Hc. reflexivity. }
  cbv beta. apply cwp_bind.
  eapply SetLevel_on with (p := [poll rp]) (T := T) (rl := Spec.empty) (ts := RUNNING)
    (sems := sems) (lks := lks) (cds := cds) (Pu := net_is po n ls o).
  { constructor; simpl; try done. rewrite Hcd. by apply insert_id. }
  intros k2 H2. eapply OneTick_rest; [exact Hr|done|exact H2|].
  intros k3 rp3 H3. by eapply cwp_ret, HQ.
Qed.
End ops.

(** ** The network and the mail box *)

Lemma rest_user {B} T rp sems lks ls ls' n n' o k (m : M U B) (x : B) {C} (c : B → kcode C) (Q : C → K → Prop) :
  at_rest T rp sems lks ls n o k → network_ok n' →
  (∀ u, net_is po n ls o u → ∃ u', m u = Ok (x, u') ∧ net_is po n' ls' o u') →
  (∀ k', at_rest T rp sems lks ls' n' o k' → cwp (c x) k' Q) →
  cwp (run (on_user m) ≫= c) k Q.
Proof.
  intros [Hk Hrp HT Hn Hs] Hn' Hm H. eapply op_user; [exact Hk|exact Hm|]. intros k' H'. apply H.
  by constructor.
Qed.

(** The network is free again for the next packet. *)
Definition taken (n : Network F) : Network F := holding n (MkHdr (to (inHdr n)) (from (inHdr n)) 0) (inbox n).

Lemma op_Receive {B} T rp sems lks ls n o k data (c : _ → kcode B) (Q : B → K → Prop) :
  at_rest T rp sems lks ls n o k →
  0 < hlength (inHdr n) ≤ zlen (inbox n) → hlength (inHdr n) ≤ zlen data →
  (∀ k', at_rest T rp sems lks ls (taken n) o k' →
     cwp (c (inHdr n, take (Z.to_nat (hlength (inHdr n))) (inbox n) ++ drop (Z.to_nat (hlength (inHdr n))) data)) k' Q) →
  cwp (run (Receive data) ≫= c) k Q.
Proof.
  intros Hr Hlen Hdata H. pose proof Hr as [Hk _ _ Hn _]. unfold Receive.
  apply cwp_run_bind. eapply op_network; [exact Hk|]. cbv zeta. unfold put_network.
  apply cwp_run_bind. eapply (rest_user T rp sems lks ls ls n (taken n)); [exact Hr|exact Hn|intros u Hu; exists (set_network (taken n) u)|].
  { split; [done|]. by eapply net_set. }
  intros k' Hr'. cbv beta. replace (hlength (inHdr n) =? 0) with false by lia. cbn [negb].
  apply cwp_run_bind. eapply cwp_act.
  { unfold lift. rewrite bcopy_Ok by lia. rewrite splice_front.
    rewrite length_take_le by (unfold zlen in *; lia). reflexivity. }
  cbv beta. apply cwp_run_ret. by apply H.
Qed.

Lemma op_get_list {B} T rp sems lks ls n o k b x (c : SynchList Mail → kcode B) (Q : B → K → Prop) :
  at_rest T rp sems lks ls n o k → ls !! b = Some x → cwp (c x) k Q → cwp (run (get_list b) ≫= c) k Q.
Proof.
  intros [Hk _ _ _ _] Hb H. destruct Hk. eapply cwp_act; [|exact H].
  unfold get_list, get, lift, deref, mbind, M_bind. erewrite net_lists by done. by rewrite Hb.
Qed.

Lemma op_list_append {B} T rp sems lks ls n o k b q l c0 mail (c : unit → kcode B) (Q : B → K → Prop) :
  at_rest T rp sems lks ls n o k → ls !! b = Some (MkSynchList (Spec.AList q false) l c0) →
  (∀ k', at_rest T rp sems lks (<[b := MkSynchList (Spec.AList (q ++ [(0, mail)]) false) l c0]> ls) n o k' →
     cwp (c tt) k' Q) →
  cwp (run (list_append b mail) ≫= c) k Q.
Proof.
  intros Hr Hb H. pose proof Hr as [[] Hrp HT Hn Hs].
  assert (Spec.Append mail (Spec.AList q false) = Ok (Spec.AList (q ++ [(0, mail)]) false)) as Ha
    by (by destruct q).
  assert (synchlists (user k) = ls) as Hls by (by eapply net_lists).
  eapply cwp_act.
  { unfold list_append, put_list, get_list, get, lift, deref, modify, mbind, M_bind.
    rewrite Hls, Hb. cbn [list_]. rewrite Ha. rewrite Hls, Hb. reflexivity. }
  apply H. constructor; try done. constructor; try done. simpl. rewrite Hls. by eapply net_set_lists.
Qed.

(** The mail box at the address [b] holds the mails [q]; its lock is free, and
    nobody waits for a mail. *)
Definition box_ok (b : positive) (q : list (Z * Mail)) (l c : positive)
    (lks : gmap positive Lock) (ls : gmap positive (SynchList Mail)) : Prop :=
  ls !! b = Some (MkSynchList (Spec.AList q false) l c)
  ∧ lks !! l = Some (MkLock false None Spec.empty) ∧ cds !! c = Some (MkCondition Spec.empty).

Definition put_mail (b : positive) (q : list (Z * Mail)) (l c : positive) (mail : Mail)
    (ls : gmap positive (SynchList Mail)) : gmap positive (SynchList Mail) :=
  <[b := MkSynchList (Spec.AList (q ++ [(0, mail)]) false) l c]> ls.

Lemma SynchList_Append_rest T rp sems lks ls n o k b q l c mail (Q : unit → K → Prop) :
  at_rest T rp sems lks ls n o k → clock_ok (T + 30) → box_ok b q l c lks ls →
  (∀ k' rp', at_rest (T + 30) rp' sems lks (put_mail b q l c mail ls) n o k' → Q tt k') →
  cwp (SynchList_Append b mail) k Q.
Proof.
  intros Hr Hclk (Hb & Hl & Hc) HQ. assert (0 ≤ T) by apply Hr. unfold SynchList_Append.
  eapply op_get_list; [exact Hr|exact Hb|]. cbn [list_lock listEmpty]. apply cwp_bind.
  eapply Acquire_rest; [exact Hr|unfold clock_ok in *; lia|exact Hl|]. clear dependent k rp. intros k rp Hr. cbv beta.
  eapply op_list_append; [exact Hr|exact Hb|]. clear dependent k. intros k Hr. apply cwp_bind.
  eapply Signal_rest; [exact Hr|unfold clock_ok in *; lia|exact Hc|by apply lookup_insert_eq|].
  clear dependent k rp. intros k rp Hr. cbv beta.
  eapply Release_rest; [exact Hr|unfold clock_ok in *; lia|by apply lookup_insert_eq|].
  intros k' rp' Hr'. apply (HQ k' rp'). rewrite insert_insert_eq, insert_id in Hr' by done.
  by replace (T + 30) with (T + 10 + 10 + 10) by lia.
Qed.

(** ** The round of the postal worker *)

(** [deliver] with a packet in the network; [buf] is what the worker's buffer
    held before, [buf'] what it holds then. *)
Lemma deliver_mail T rp sems lks ls n o k v buf b q l c :
  at_rest T rp sems lks ls n o k → clock_ok (T + 40) →
  sems !! messageAvailable po = Some (MkSemaphore v Spec.empty) → v ≠ 0 → messageAvailable po ≠ messageSent po →
  0 < hlength (inHdr n) ≤ zlen (inbox n) → hlength (inHdr n) ≤ zlen buf →
  let buf' := take (Z.to_nat (hlength (inHdr n))) (inbox n) ++ drop (Z.to_nat (hlength (inHdr n))) buf in
  let m := header_of_bytes buf' in
  0 ≤ to m < numBoxes po → hlength m ≤ MaxMailSize → HeaderSize + hlength m ≤ zlen buf' →
  aget (boxes po) (to m) = Some b → box_ok b q l c lks ls →
  cwp (deliver buf) k (λ r k', r = inl buf' ∧ ∃ rp',
    at_rest (T + 40) rp' (<[messageAvailable po := MkSemaphore (sub32 v 1) Spec.empty]> sems) lks
      (put_mail b q l c (MkMail (inHdr n) m (take (Z.to_nat (hlength m)) (drop (Z.to_nat HeaderSize) buf'))) ls)
      (taken n) o k').
Proof.
  intros Hr Hclk Hav Hv Hne Hlen Hbuf buf' m Hto Hm Hfits Hbox Hok. assert (0 ≤ T) by apply Hr.
  unfold deliver. eapply op_postOffice; [apply Hr|]. apply cwp_bind.
  eapply P_rest; [exact Hr|unfold clock_ok in *; lia|exact Hav|exact Hv|exact Hne|].
  clear dependent k rp. intros k rp Hr. cbv beta.
  eapply op_Receive; [exact Hr|exact Hlen|exact Hbuf|]. clear dependent k. intros k Hr. fold buf'. cbv beta iota.
  fold m. apply op_assert; [lia|]. apply op_assert; [lia|].
  eapply cwp_act; [unfold lift, aread; by rewrite Hbox|]. cbv beta. apply cwp_bind. unfold Put.
  eapply cwp_act.
  { unfold lift. rewrite Mail_new_Ok; [reflexivity|done|].
    unfold zlen in *. rewrite length_drop. unfold HeaderSize in *. lia. }
  cbv beta. eapply SynchList_Append_rest; [exact Hr|unfold clock_ok in *; lia|exact Hok|].
  intros k' rp' Hr'. cbv beta. apply cwp_ret. split; [done|]. exists rp'.
  by replace (T + 40) with (T + 10 + 30) by lia.
Qed.

(** ** From the wire to the mail box *)

(** The worker can run; the network is [n]; the mail box for [dest] is at [b],
    and holds the mails [q]. *)
Record worker_ready (T rp : Z) (sems : gmap positive Semaphore) (lks : gmap positive Lock)
    (ls : gmap positive (SynchList Mail)) (n : Network F) (o : list (Z * list Z)) (v dest : Z)
    (b : positive) (q : list (Z * Mail)) (l c : positive) (k : K) : Prop := WorkerReady {
  worker_rest : at_rest T rp sems lks ls n o k;
  worker_clock : clock_ok (T + 40);
  worker_available : sems !! messageAvailable po = Some (MkSemaphore v Spec.empty) ∧ v ≠ 0;
  worker_apart : messageAvailable po ≠ messageSent po;
  worker_dest : 0 ≤ dest < numBoxes po ∧ aget (boxes po) dest = Some b;
  worker_box : box_ok b q l c lks ls
}.

(** 40 ticks later the mail is the last one in its box, the semaphore has been
    taken once, the network is free, and nothing else has changed. *)
Definition mail_put (T : Z) (sems : gmap positive Semaphore) (lks : gmap positive Lock)
    (ls : gmap positive (SynchList Mail)) (n : Network F) (o : list (Z * list Z)) (v : Z)
    (b : positive) (q : list (Z * Mail)) (l c : positive) (mail : Mail) (k : K) : Prop :=
  ∃ rp, at_rest (T + 40) rp (<[messageAvailable po := MkSemaphore (sub32 v 1) Spec.empty]> sems) lks
          (put_mail b q l c mail ls) (taken n) o k.

(** The network [n] of a machine takes the packet, and is [n'] then, ready to
    send. *)
Definition accepts (n : Network F) (bytes : list Z) (n' : Network F) : Prop :=
  network_ok n' ∧ ∀ k : K, network (user k) = n →
    accept_packet bytes k = Ok (tt, set_user (set_network n' (user k)) k).

Lemma packet_delivered p payload rest buf n :
  network_ok n → header_ok p → to p = ident n → hlength p = zlen payload →
  0 < zlen payload ≤ MaxPacketSize → zlen (inbox n) = MaxPacketSize → zlen buf = MaxPacketSize →
  let buf' := payload ++ drop (length payload) buf in
  let m := header_of_bytes buf' in
  hlength m ≤ MaxMailSize →
  ∃ n', accepts n (header_bytes p ++ payload ++ rest) n'
    ∧ ∀ T rp sems lks ls o k v b q l c, worker_ready T rp sems lks ls n' o v (to m) b q l c k →
        cwp (deliver buf) k (λ r k', r = inl buf' ∧ mail_put T sems lks ls n' o v b q l c
          (MkMail p m (take (Z.to_nat (hlength m)) (drop (Z.to_nat HeaderSize) buf'))) k').
Proof.
  intros Hn Hp Hto Hl Hlen Hbox Hbuf buf' m Hm. exists (holding n p (payload ++ drop (length payload) (inbox n))).
  split; [split; [exact Hn|intros k Hk; apply accept_packet_Ok; try done; lia]|].
  intros T rp sems lks ls o k v b q l c [Hr Hclk [Hav Hv] Hne [Hd Hb] Hok].
  assert (take (Z.to_nat (hlength p)) (payload ++ drop (length payload) (inbox n)) = payload) as Htake
    by (rewrite Hl; unfold zlen; by rewrite Nat2Z.id, take_app_length).
  assert (drop (Z.to_nat (hlength p)) buf = drop (length payload) buf) as Hdrop
    by (rewrite Hl; unfold zlen; by rewrite Nat2Z.id).
  pose proof (deliver_mail T rp sems lks ls _ o k v buf b q l c Hr Hclk Hav Hv Hne) as H.
  cbn [inHdr inbox holding] in H. rewrite Htake, Hdrop in H. fold buf' m in H. eapply cwp_mono; [apply H|].
  - unfold zlen in *. rewrite length_app. lia.
  - lia.
  - done.
  - done.
  - assert (zlen buf' = MaxPacketSize) as ->; [|unfold MaxMailSize, HeaderSize in *; lia].
    unfold buf', zlen in *. rewrite length_app, length_drop. lia.
  - done.
  - done.
  - intros r k' [-> Hput]. split; [done|exact Hput].
Qed.

(** C18.  A mail comes to its mail box.  What [PostOffice::Send]
    makes of it is a packet that the network of the machine that it is
    addressed to takes; and a round of [PostOffice::PostalDelivery] there, by
    a worker that is the only thread that can run and has the packet announced
    by its semaphore, returns (through the semaphore, the network, the checks
    of the header, and the lock and the condition of the mail box), without a
    failed assertion, with the mail, its two headers and its data as they were
    sent, at the end of the mail box that its header names; the packet is
    gone from the network, one unit from the semaphore, and the lock is free
    again. *)
Theorem mail_delivered pktHdr mailHdr data buf n
    (length_uninit : ∀ n, length (uninit n) = n)
    (Hpkt : in_s32 (to pktHdr)) (Hfrom : in_s32 (from pktHdr)) (Hmail : header_ok mailHdr)
    (Hlen : hlength mailHdr ≤ MaxMailSize) (Hdata : hlength mailHdr ≤ zlen data)
    (Hn : network_ok n) (Hto : to pktHdr = ident n)
    (Hbox : zlen (inbox n) = MaxPacketSize) (Hbuf : zlen buf = MaxPacketSize) :
  let p := MkHdr (to pktHdr) (from pktHdr) (u32 (hlength mailHdr + HeaderSize)) in
  ∃ packet bytes n', letter mailHdr data = Ok packet ∧ wire p packet = Ok bytes ∧ accepts n bytes n'
    ∧ ∀ T rp sems lks ls o k v b q l c, worker_ready T rp sems lks ls n' o v (to mailHdr) b q l c k →
        cwp (deliver buf) k (λ r k', ∃ buf', r = inl buf' ∧ mail_put T sems lks ls n' o v b q l c
          (MkMail p mailHdr (take (Z.to_nat (hlength mailHdr)) data)) k').
Proof.
  intros p. pose proof Hmail as (_ & _ & Hm3). unfold in_u32 in Hm3.
  assert (hlength p = hlength mailHdr + HeaderSize) as Hp.
  { unfold p. simpl. unfold u32. apply Z.mod_small.
    unfold MaxMailSize, MaxPacketSize, MaxWireSize, HeaderSize in *. lia. }
  destruct (mail_on_wire length_uninit mailHdr data p ltac:(lia) Hdata Hp)
    as (Htext & Hpay & packet & r2 & Hletter & Hwire & Hr2).
  set (text := take (Z.to_nat (hlength mailHdr)) data) in *. set (payload := header_bytes mailHdr ++ text) in *.
  assert (header_of_bytes (payload ++ drop (length payload) buf) = mailHdr) as Hm
    by (unfold payload; rewrite <- app_assoc; by apply header_of_header_bytes).
  destruct (packet_delivered p payload r2 buf n) as (n' & Ha & Hdel); try done; rewrite ?Hm; try done.
  { split; [done|]. split; [done|]. unfold in_u32, MaxMailSize, MaxPacketSize, MaxWireSize, HeaderSize in *. lia. }
  { unfold MaxMailSize, MaxPacketSize, MaxWireSize, HeaderSize in *. lia. }
  rewrite Hm in Hdel. exists packet. eexists. exists n'. do 3 (split; [done|]).
  intros T rp sems lks ls o k v b q l c Hw. eapply cwp_mono; [by eapply Hdel|].
  intros r k' [-> Hput]. eexists. split; [done|]. revert Hput. unfold payload. rewrite <- app_assoc.
  change (Z.to_nat HeaderSize) with (length (header_bytes mailHdr)). rewrite drop_app_length, <- Htext.
  by rewrite take_app_length.
Qed.

(** C34.  The postal worker does not compare the length in the header
    of a mail with that of its packet: a packet that holds nothing but the
    header of a mail, for an existing mail box and with a length up to
    [MaxMailSize], is taken by the network and passes every check of
    [PostOffice::PostalDelivery], and the data of the mail that is put into
    the mail box are bytes that the worker's buffer held before, those of the
    mail that came last. *)
Theorem short_packet_leaks pktHdr mailHdr rest buf n
    (Hn : network_ok n) (Hpkt : header_ok pktHdr) (Hshort : hlength pktHdr = HeaderSize) (Hmail : header_ok mailHdr)
    (Hlen : hlength mailHdr ≤ MaxMailSize) (Hto : to pktHdr = ident n)
    (Hbox : zlen (inbox n) = MaxPacketSize) (Hbuf : zlen buf = MaxPacketSize) :
  ∃ n', accepts n (header_bytes pktHdr ++ header_bytes mailHdr ++ rest) n'
    ∧ ∀ T rp sems lks ls o k v b q l c, worker_ready T rp sems lks ls n' o v (to mailHdr) b q l c k →
        cwp (deliver buf) k (λ r k', ∃ buf', r = inl buf' ∧ mail_put T sems lks ls n' o v b q l c
          (MkMail pktHdr mailHdr (slice (Z.to_nat HeaderSize) (Z.to_nat (hlength mailHdr)) buf)) k').
Proof.
  assert (header_of_bytes (header_bytes mailHdr ++ drop (length (header_bytes mailHdr)) buf) = mailHdr) as Hm
    by (by apply header_of_header_bytes).
  destruct (packet_delivered pktHdr (header_bytes mailHdr) rest buf n) as (n' & Ha & Hdel);
    try done; rewrite ?Hm; try done.
  rewrite Hm in Hdel. exists n'. split; [done|].
  intros T rp sems lks ls o k v b q l c Hw. eapply cwp_mono; [by eapply Hdel|].
  intros r k' [-> Hput]. eexists. split; [done|]. revert Hput.
  change (Z.to_nat HeaderSize) with (length (header_bytes mailHdr)). by rewrite drop_app_length.
Qed.
End deliver.

(** ** A machine with a worker *)

Section worker.
#[local] Existing Instances po_userland po_hasnetwork po_haspostoffice po_host.

(** Four mail boxes; the box 3 holds no mail. *)
Definition worker_office : PostOffice := MkPostOffice 0 [10; 11; 12; 13]%positive 4 3 2 1.
Definition worker_lists : gmap positive (SynchList Mail) := {[13%positive := MkSynchList (Spec.AList [] false) 4 5]}.
Definition worker_kernel (n : Network po_fun) : Kernel po_fun PoUser :=
  MkKernel (MkHardware (int IntOn false SystemMode [(100, MkPending NetworkReadPoll_ 100 NetworkRecvInt)]) Statistics_new)
    1%positive None Spec.empty {[1%positive := MkThread None None RUNNING [] None]}
    {[2%positive := MkSemaphore 0 Spec.empty; 3%positive := MkSemaphore 1 Spec.empty]}
    {[4%positive := MkLock false None Spec.empty]} {[5%positive := MkCondition Spec.empty]}
    (MkPoUser worker_office n worker_lists []).

(** The buffer of the worker holds the 27 bytes of a packet that came before. *)
Definition worker_buffer : list Z := replicate 27 115 ++ replicate 25 0.

Lemma worker_kernel_ready n :
  network_ok n → worker_ready 1%positive None [] {[5%positive := MkCondition Spec.empty]} worker_office 0 100
    {[2%positive := MkSemaphore 0 Spec.empty; 3%positive := MkSemaphore 1 Spec.empty]}
    {[4%positive := MkLock false None Spec.empty]} worker_lists n [] 1 3 13 [] 4 5 (worker_kernel n).
Proof. intros Hn. by constructor. Qed.

(** [hi] and its null character, from machine 1 to the mail box 3 of machine 0. *)
Lemma mail_delivered_witness :
  ∃ k, cwp (F := po_fun) (current_Yield (U := PoUser)) po_call start 1%positive (deliver worker_buffer) k (λ r k', ∃ rp n' sems, 
    at_rest 1%positive None [] {[5%positive := MkCondition Spec.empty]} worker_office 40 rp sems
      {[4%positive := MkLock false None Spec.empty]}
      {[13%positive := MkSynchList (Spec.AList [(0, MkMail (MkHdr 0 1 15) (MkHdr 3 2 3) [104; 105; 0])] false) 4 5]} n' [] k').
Proof.
  destruct (@mail_delivered po_fun PoUser po_userland po_haspostoffice po_host current_Yield po_call
    eq_refl eq_refl eq_refl 1%positive None [] {[5%positive := MkCondition Spec.empty]} worker_office
    (MkHdr 0 1 9) (MkHdr 3 2 3) [104; 105; 0] worker_buffer po_network
    ltac:(intros i; apply length_replicate) ltac:(done) ltac:(done) ltac:(done) ltac:(done) ltac:(done)
    ltac:(done) eq_refl eq_refl eq_refl) as (packet & bytes & n' & _ & _ & [Hn _] & H).
  exists (worker_kernel n'). eapply cwp_mono; [exact (H _ _ _ _ _ _ _ _ _ _ _ _ (worker_kernel_ready n' Hn))|].
  intros r k' (buf' & _ & rp & Hr). do 3 eexists. exact Hr.
Defined.

(** Only a header that announces eight bytes: the mail has eight bytes of the
    packet before. *)
Lemma short_packet_leaks_witness :
  ∃ k, cwp (F := po_fun) (current_Yield (U := PoUser)) po_call start 1%positive (deliver worker_buffer) k (λ r k', ∃ rp n' sems,
    at_rest 1%positive None [] {[5%positive := MkCondition Spec.empty]} worker_office 40 rp sems
      {[4%positive := MkLock false None Spec.empty]}
      {[13%positive := MkSynchList (Spec.AList [(0, MkMail (MkHdr 0 1 12) (MkHdr 3 2 8) (replicate 8 115))] false) 4 5]} n' [] k').
Proof.
  destruct (@short_packet_leaks po_fun PoUser po_userland po_haspostoffice po_host current_Yield po_call
    eq_refl eq_refl eq_refl 1%positive None [] {[5%positive := MkCondition Spec.empty]} worker_office
    (MkHdr 0 1 12) (MkHdr 3 2 8) [] worker_buffer po_network
    ltac:(done) ltac:(done) eq_refl ltac:(done) ltac:(done) eq_refl eq_refl eq_refl) as (n' & [Hn _] & H).
  exists (worker_kernel n'). eapply cwp_mono; [exact (H _ _ _ _ _ _ _ _ _ _ _ _ (worker_kernel_ready n' Hn))|].
  intros r k' (buf' & _ & rp & Hr). do 3 eexists. exact Hr.
Defined.
End worker.
