(* ===== verification/Disk.v ===== *)
(** * machine/disk.cc: the simulated disk

    The disk's contents are the bytes of a UNIX file, behind a magic number.
    A request transfers its sector at once and schedules an interrupt for the
    time the real transfer would end.  [DiskDone] is the handler of that
    interrupt; the file's functions [Read], [WriteFile] and [Lseek] are those
    of machine/sysdep.cc. *)
From S2P Require Import Prelude Word NList Machine Coro Interrupt.

Definition SectorsPerTrack : Z := 32.
Definition NumTracks : Z := 32.
Definition NumSectors : Z := SectorsPerTrack * NumTracks.
Definition MagicNumber : Z := 0x456789ab.
Definition MagicSize : Z := 4.
Definition DiskSize : Z := MagicSize + NumSectors * SectorSize.

(** ** An open UNIX file (machine/sysdep.cc) *)

Record UnixFile := MkUnixFile { fbytes : list Z; foffset : Z }.

(** [lseek] from the start of the file fails for a negative offset. *)
Definition Lseek (offset : Z) (f : UnixFile) : res UnixFile :=
  ASSERT (0 <=? offset) ;; Ok (MkUnixFile (fbytes f) offset).

(** [read] answers fewer bytes only at the end of the file. *)
Definition Read (nBytes : Z) (f : UnixFile) : res (list Z * UnixFile) :=
  ASSERT (foffset f + nBytes <=? zlen (fbytes f)) ;;
  Ok (slice (Z.to_nat (foffset f)) (Z.to_nat nBytes) (fbytes f),
      MkUnixFile (fbytes f) (foffset f + nBytes)).

(** [write] fills the gap behind the old end of the file with zeros. *)
Definition WriteFile (data : list Z) (f : UnixFile) : res UnixFile :=
  let gap := replicate (Z.to_nat (foffset f) - length (fbytes f)) 0 in
  Ok (MkUnixFile (splice (Z.to_nat (foffset f)) data (fbytes f ++ gap))
        (foffset f + zlen data)).

(** The transfers of one sector; [data] points to at least a sector. *)
Definition read_sector (sectorNumber : Z) : M UnixFile (list Z) := λ f,
  f ← Lseek (SectorSize * sectorNumber + MagicSize) f;
  Read SectorSize f.
Definition write_sector (sectorNumber : Z) (data : list Z) : M UnixFile unit := λ f,
  f ← Lseek (SectorSize * sectorNumber + MagicSize) f;
  if zlen data <? SectorSize then Fault OutOfBounds
  else
    f ← WriteFile (take (Z.to_nat SectorSize) data) f;
    Ok (tt, f).

(** ** The disk *)

Record Disk (F : Type) := MkDisk {
  file : UnixFile;
  handler_ : F;
  active : bool;
  lastSector : Z;
  bufferInit : Z
}.
Arguments MkDisk {F} _ _ _ _ _.
Arguments file {F} _.
Arguments handler_ {F} _.
Arguments active {F} _.
Arguments lastSector {F} _.
Arguments bufferInit {F} _.

(** The disk as a part of a kernel state that has the hardware too. *)
Class HasDisk (S F : Type) := {
  disk_hardware :: HasHardware S F;
  disk : S → Disk F;
  set_disk : Disk F → S → S;
  disk_set_disk : ∀ d s, disk (set_disk d s) = d;
  set_disk_set_disk : ∀ d d' s, set_disk d (set_disk d' s) = set_disk d s;
  hw_set_disk : ∀ d s, hw (set_disk d s) = hw s;
  disk_set_hw : ∀ h s, disk (set_hw h s) = disk s;
  set_disk_set_hw : ∀ d h s, set_disk d (set_hw h s) = set_hw h (set_disk d s)
}.

#[export] Instance Disk_self F : HasDisk (Hardware F * Disk F) F :=
  Build_HasDisk (Hardware F * Disk F) F
    (Build_HasHardware (Hardware F * Disk F) F fst (λ h s, (h, snd s))
       (λ _ _, eq_refl) (λ _ _ _, eq_refl) (λ s, match s with (_, _) => eq_refl end))
    snd (λ d s, (fst s, d))
    (λ _ _, eq_refl) (λ _ _ _, eq_refl) (λ _ _, eq_refl) (λ _ _, eq_refl)
    (λ _ _ _, eq_refl).

(** The constructor: [existing] is the file of that name, if there is one. *)
Definition Disk_new {F} (existing : option (list Z)) (callWhenDone : F) : res (Disk F) :=
  f ← match existing with
      | Some bs =>
          '(magicNum, f) ← Read MagicSize (MkUnixFile bs 0);
          ASSERT (bool_decide (of_le magicNum = MagicNumber)) ;;
          Ok f
      | None =>
          f ← WriteFile (bytes_le 4 MagicNumber) (MkUnixFile [] 0);
          f ← Lseek (DiskSize - 4) f;
          WriteFile (bytes_le 4 0) f
      end;
  Ok (MkDisk f callWhenDone false 0 0).

Section disk.
Context {S F : Type} `{!HasDisk S F}.
Variable DiskDone : F.

(** [(seek, *rotation)]. *)
Definition TimeToSeek (newSector : Z) : M S (Z * Z) :=
  s ← get;
  let newTrack := Z.quot newSector SectorsPerTrack in
  let oldTrack := Z.quot (lastSector (disk s)) SectorsPerTrack in
  let seek := s32 (Z.abs (newTrack - oldTrack) * SeekTime) in
  let over := Z.rem (add32 (totalTicks (stats (hw s))) seek) RotationTime in
  mret (seek, if 0 <? over then RotationTime - over else 0).

Definition ModuloDiff (to from : Z) : Z :=
  let toOffset := Z.rem to SectorsPerTrack in
  let fromOffset := Z.rem from SectorsPerTrack in
  Z.rem ((toOffset - fromOffset) + SectorsPerTrack) SectorsPerTrack.

Definition ComputeLatency (newSector : Z) (writing : bool) : M S Z :=
  '(seek, rotation) ← TimeToSeek newSector;
  s ← get;
  let timeAfter := add32 (add32 (totalTicks (stats (hw s))) seek) rotation in
  let buf := bufferInit (disk s) in
  if negb writing && (seek =? 0)
     && (ModuloDiff newSector (Z.quot buf RotationTime)
         <? Z.quot (sub32 timeAfter buf) RotationTime)
  then mret RotationTime
  else
    let rotation := add32 rotation
          (ModuloDiff newSector (Z.quot timeAfter RotationTime) * RotationTime) in
    mret (add32 (add32 seek rotation) RotationTime).

Definition UpdateLast (newSector : Z) : M S unit :=
  '(seek, rotate) ← TimeToSeek newSector;
  modify (λ s,
    let d := disk s in
    set_disk (MkDisk (file d) (handler_ d) (active d) newSector
      (if seek =? 0 then bufferInit d
       else add32 (add32 (totalTicks (stats (hw s))) seek) rotate)) s).

Definition on_file {A} (m : M UnixFile A) : M S A :=
  s ← get;
  let d := disk s in
  '(a, f) ← lift (m (file d));
  modify (set_disk (MkDisk f (handler_ d) (active d) (lastSector d) (bufferInit d))) ;;
  mret a.
Definition set_active (b : bool) : M S unit :=
  modify (λ s,
    let d := disk s in
    set_disk (MkDisk (file d) (handler_ d) b (lastSector d) (bufferInit d)) s).

Definition count_read (st : Statistics) : Statistics :=
  MkStats (totalTicks st) (idleTicks st) (systemTicks st) (userTicks st)
    (add32 (numDiskReads st) 1)
    (numDiskWrites st) (numConsoleCharsRead st) (numConsoleCharsWritten st)
    (numPageFaults st) (numPacketsSent st) (numPacketsRecvd st).
Definition count_write (st : Statistics) : Statistics :=
  MkStats (totalTicks st) (idleTicks st) (systemTicks st) (userTicks st)
    (numDiskReads st)
    (add32 (numDiskWrites st) 1) (numConsoleCharsRead st) (numConsoleCharsWritten st)
    (numPageFaults st) (numPacketsSent st) (numPacketsRecvd st).

Definition check_request (sectorNumber : Z) : M S unit :=
  s ← get;
  lift (ASSERT (negb (active (disk s)))) ;;
  lift (ASSERT ((0 <=? sectorNumber) && (sectorNumber <? NumSectors))).

Definition ReadRequest (sectorNumber : Z) : M S (list Z) :=
  ticks ← ComputeLatency sectorNumber false;
  check_request sectorNumber ;;
  data ← on_file (read_sector sectorNumber);
  set_active true ;;
  UpdateLast sectorNumber ;;
  on_stats count_read ;;
  Schedule DiskDone ticks DiskInt ;;
  mret data.

Definition WriteRequest (sectorNumber : Z) (data : list Z) : M S unit :=
  ticks ← ComputeLatency sectorNumber true;
  check_request sectorNumber ;;
  on_file (write_sector sectorNumber data) ;;
  set_active true ;;
  UpdateLast sectorNumber ;;
  on_stats count_write ;;
  Schedule DiskDone ticks DiskInt.

Definition HandleInterrupt : code S F unit :=
  run (set_active false) ;;
  s ← run get;
  CallFun (handler_ (disk s)) (Ret tt).
End disk.

(** ** The contents of the disk *)

Definition file_sector (f : UnixFile) (n : Z) : list Z :=
  slice (Z.to_nat (SectorSize * n + MagicSize)) (Z.to_nat SectorSize) (fbytes f).

Definition file_ok (f : UnixFile) : Prop :=
  zlen (fbytes f) = DiskSize ∧ Forall byte_ok (fbytes f).

Definition is_sector (data : list Z) : Prop :=
  zlen data = SectorSize ∧ Forall byte_ok data.

Section contents.
Implicit Types (f : UnixFile) (n k : Z) (data : list Z).

Lemma sector_bounds n :
  0 ≤ n < NumSectors →
  0 ≤ SectorSize * n + MagicSize ∧ SectorSize * n + MagicSize + SectorSize ≤ DiskSize.
Proof.
  unfold DiskSize, NumSectors, SectorsPerTrack, NumTracks, SectorSize, MagicSize. lia.
Qed.

Lemma file_sector_ok f n : file_ok f → 0 ≤ n < NumSectors → is_sector (file_sector f n).
Proof.
  intros [Hlen Hok] Hn%sector_bounds. split; [|by apply Forall_slice].
  unfold zlen in *. unfold file_sector. rewrite length_slice; [done|].
  unfold SectorSize, MagicSize in *. lia.
Qed.

Lemma read_sector_Ok f n :
  file_ok f → 0 ≤ n < NumSectors →
  ∃ f', read_sector n f = Ok (file_sector f n, f') ∧ fbytes f' = fbytes f.
Proof.
  intros [Hlen _] Hn%sector_bounds. unfold read_sector, Lseek, Read.
  rewrite (proj2 (Z.leb_le _ _)) by tauto. csimpl. rewrite Hlen.
  rewrite (proj2 (Z.leb_le _ _)) by tauto. csimpl. by eexists.
Qed.

Lemma write_sector_Ok f n data :
  file_ok f → 0 ≤ n < NumSectors → is_sector data →
  ∃ f', write_sector n data f = Ok (tt, f') ∧ file_ok f'
        ∧ ∀ k, 0 ≤ k < NumSectors →
            file_sector f' k = if decide (k = n) then data else file_sector f k.
Proof.
  intros [Hlen Hok] Hn [Hdl Hdok]. pose proof (sector_bounds n Hn) as Hb.
  unfold write_sector, Lseek. rewrite (proj2 (Z.leb_le _ _)) by tauto. csimpl.
  rewrite Hdl. rewrite Z.ltb_irrefl. unfold WriteFile. csimpl.
  rewrite (firstn_all2 data) by (unfold zlen in Hdl; lia).
  replace (Z.to_nat (SectorSize * n + MagicSize) - length (fbytes f))%nat with O
    by (unfold zlen in Hlen; unfold SectorSize in *; lia).
  simpl replicate. rewrite app_nil_r. eexists. split; [done|].
  assert (Z.to_nat (SectorSize * n + MagicSize) + length data ≤ length (fbytes f))%nat as Hfit
    by (unfold zlen, SectorSize in *; lia).
  split; [split; simpl|].
  - unfold zlen in *. by rewrite length_splice.
  - by apply Forall_splice.
  - intros k Hk. unfold file_sector. simpl. pose proof (sector_bounds k Hk) as Hbk.
    replace (Z.to_nat SectorSize) with (length data) by (unfold zlen in Hdl; lia).
    case_decide as He; [subst; by apply slice_splice_eq|].
    unfold zlen in *. unfold SectorSize, MagicSize in *. apply slice_splice_ne; lia.
Qed.
End contents.

(** ** How long a request takes *)

Section timing.
Context {S F : Type} `{!HasDisk S F}.
Implicit Types (s : S).

(** The clock far enough from the end of an [int], and the positions of the
    head ones that [UpdateLast] leaves. *)
Definition timing_ok s : Prop :=
  0 ≤ totalTicks (stats (hw s)) ≤ 2 ^ 31 - 2 ^ 17
  ∧ 0 ≤ lastSector (disk s) < NumSectors
  ∧ 0 ≤ bufferInit (disk s) ≤ 2 ^ 31 - 2 ^ 16.

Definition seek_time s (n : Z) : Z :=
  Z.abs (n / SectorsPerTrack - lastSector (disk s) / SectorsPerTrack) * SeekTime.

(** Sector [n] begins to pass under the head at time [t]. *)
Definition under_head (n t : Z) : Prop :=
  t mod RotationTime = 0
  ∧ (t / RotationTime) mod SectorsPerTrack = n mod SectorsPerTrack.

Lemma seek_time_bounds s n :
  0 ≤ n < NumSectors → 0 ≤ lastSector (disk s) < NumSectors → 0 ≤ seek_time s n ≤ 15500.
Proof.
  unfold seek_time, NumSectors, NumTracks, SectorsPerTrack, SeekTime. intros H1 H2.
  assert (0 ≤ n / 32 < 32) by dlia.
  assert (0 ≤ lastSector (disk s) / 32 < 32) by dlia. lia.
Qed.

Lemma TimeToSeek_Ok s n :
  timing_ok s → 0 ≤ n < NumSectors →
  ∃ rotation,
    TimeToSeek n s = Ok ((seek_time s n, rotation), s) ∧ 0 ≤ rotation < RotationTime
    ∧ (totalTicks (stats (hw s)) + seek_time s n + rotation) mod RotationTime = 0.
Proof.
  intros (Ht & Hl & Hb) Hn. pose proof (seek_time_bounds s n Hn Hl) as Hs.
  unfold TimeToSeek. rewrite (M_bind_step _ _ s s s) by done. cbv zeta.
  replace (s32 (Z.abs (Z.quot n SectorsPerTrack - Z.quot (lastSector (disk s)) SectorsPerTrack) * SeekTime))
    with (seek_time s n).
  2: { unfold seek_time. rewrite !Z.quot_div_nonneg by (unfold SectorsPerTrack; lia).
       symmetry. apply s32_id. fold (seek_time s n). unfold in_s32. lia. }
  unfold add32. rewrite s32_id by (unfold in_s32; lia).
  rewrite Z.rem_mod_nonneg by (unfold RotationTime; lia).
  set (x := totalTicks (stats (hw s)) + seek_time s n) in *.
  assert (0 ≤ x mod RotationTime < RotationTime) as Hm by (apply Z.mod_pos_bound; done).
  unfold RotationTime in *.
  eexists. split; [done|]. destruct (0 <? x mod 500) eqn:E; split; dlia.
Qed.

Lemma ModuloDiff_spec a b :
  0 ≤ a → 0 ≤ b →
  0 ≤ ModuloDiff a b < SectorsPerTrack
  ∧ (b + ModuloDiff a b) mod SectorsPerTrack = a mod SectorsPerTrack.
Proof.
  intros Ha Hb. unfold ModuloDiff, SectorsPerTrack.
  rewrite !(Z.rem_mod_nonneg a), !(Z.rem_mod_nonneg b) by lia.
  rewrite Z.rem_mod_nonneg by dlia. split; dlia.
Qed.

Lemma latency_cases s n writing :
  timing_ok s → 0 ≤ n < NumSectors →
  ∃ ticks, ComputeLatency n writing s = Ok (ticks, s)
    ∧ RotationTime ≤ ticks ≤ 32000
    ∧ ((writing = false ∧ seek_time s n = 0 ∧ ticks = RotationTime)
       ∨ (let from := totalTicks (stats (hw s)) + seek_time s n in
          let start := totalTicks (stats (hw s)) + ticks - RotationTime in
          from ≤ start ∧ under_head n start
          ∧ ∀ t, from ≤ t < start → ¬ under_head n t)).
Proof.
  intros Hok Hn.
  destruct (TimeToSeek_Ok s n Hok Hn) as (rot & Hrun & Hrot & Hmod).
  destruct Hok as (Ht & Hl & Hb). pose proof (seek_time_bounds s n Hn Hl) as Hs.
  unfold ComputeLatency. rewrite (M_bind_step _ _ _ _ _ Hrun). cbv beta iota.
  rewrite (M_bind_step _ _ s s s) by done. cbv zeta.
  set (T := totalTicks (stats (hw s))) in *. set (sk := seek_time s n) in *.
  assert (add32 (add32 T sk) rot = T + sk + rot) as ->.
  { unfold RotationTime in *. unfold add32. rewrite s32_id; rewrite ?s32_id; unfold in_s32; lia. }
  destruct (negb writing && (sk =? 0) && _) eqn:Ebuf.
  { exists RotationTime. split; [done|]. unfold RotationTime. split; [lia|]. left.
    destruct writing; [done|]. split; [done|]. split; [|done].
    destruct (Z.eqb_spec sk 0); [done|]. discriminate. }
  clear Ebuf. rewrite Z.quot_div_nonneg by (unfold RotationTime in *; lia).
  set (A := T + sk + rot) in *.
  destruct (ModuloDiff_spec n (A / RotationTime)) as [Hd1 Hd2];
    [lia|apply Z.div_pos; unfold RotationTime in *; lia|].
  set (d := ModuloDiff n (A / RotationTime)) in *.
  assert (add32 (add32 sk (add32 rot (d * RotationTime))) RotationTime
          = sk + (rot + d * RotationTime) + RotationTime) as ->.
  { unfold RotationTime, SectorsPerTrack in *. unfold add32.
    rewrite (s32_id (rot + _)) by (unfold in_s32; lia).
    rewrite (s32_id (sk + _)) by (unfold in_s32; lia).
    rewrite s32_id; [done|unfold in_s32; lia]. }
  eexists. split; [done|]. unfold RotationTime, SectorsPerTrack in *. split; [lia|]. right.
  cbv zeta. unfold under_head, RotationTime, SectorsPerTrack.
  replace (T + (sk + (rot + d * 500) + 500) - 500) with (A + d * 500) by lia.
  split; [lia|]. split.
  - rewrite Z.mod_add, Z.div_add by done. done.
  - intros t Hlt [Hm1 Hm2].
    assert (T + sk ≤ t) as Hfrom by lia. assert (t < A + d * 500) as Hto by lia.
    assert (A = T + sk + rot) as HA by done.
    assert ((A / 500 + d) mod 32 = (t / 500) mod 32) as Heq by congruence.
    clearbody d A T sk. clear - Hd1 Hrot Hmod Hm1 Hfrom Hto HA Heq.
    assert (A ≤ t) by dlia.
    assert (0 ≤ t / 500 - A / 500 < d) by dlia.
    set (x := A / 500) in *. set (y := t / 500) in *. clearbody x y. dlia.
Qed.
Lemma latency_positive s n writing :
  timing_ok s → 0 ≤ n < NumSectors →
  ∃ ticks, ComputeLatency n writing s = Ok (ticks, s) ∧ 0 < ticks.
Proof.
  intros Hok Hn. destruct (latency_cases s n writing Hok Hn) as (t & H & Ht & _).
  exists t. split; [done|]. unfold RotationTime in Ht. lia.
Qed.

(** A request takes the one sector's rotation time when the sector
    is a read from the track buffer of the track under the head.  Otherwise
    its transfer, which is its last [RotationTime] ticks, begins at the first
    moment after the seek at which the sector begins to pass under the head.
    A request takes at least one rotation time and at most 32000 ticks, so
    its interrupt can be scheduled; computing the time changes nothing. *)
Theorem ComputeLatency_correct s n writing
    (Hok : timing_ok s) (Hn : 0 ≤ n < NumSectors) :
  ∃ ticks, ComputeLatency n writing s = Ok (ticks, s)
    ∧ RotationTime ≤ ticks ≤ 32000
    ∧ ((writing = false ∧ seek_time s n = 0 ∧ ticks = RotationTime)
       ∨ (let from := totalTicks (stats (hw s)) + seek_time s n in
          let start := totalTicks (stats (hw s)) + ticks - RotationTime in
          from ≤ start ∧ under_head n start
          ∧ ∀ t, from ≤ t < start → ¬ under_head n t)).
Proof. by apply latency_cases. Qed.
End timing.

(** ** Requests *)

Section requests.
Context {S F : Type} `{!HasDisk S F} (DiskDone : F).
Implicit Types (s : S).

(** What a request leaves: [f] is the file after the transfer, [count] what
    it counts, [p] the pending interrupts. *)
Definition requested (n : Z) (f : UnixFile) (count : Statistics → Statistics)
    (p : Spec.alist (PendingInterrupt F)) (buf : Z) s : S :=
  let d := disk s in
  set_hw (MkHardware (set_pending p (interrupt (hw s))) (count (stats (hw s))))
    (set_disk (MkDisk f (handler_ d) true n buf) s).

(** When the track buffer of the track of [n] begins to fill. *)
Definition buffer_from s (n : Z) : Z :=
  match TimeToSeek n s with
  | Ok ((seek, rotate), _) =>
      if seek =? 0 then bufferInit (disk s)
      else add32 (add32 (totalTicks (stats (hw s))) seek) rotate
  | Fault _ => 0
  end.

(** The pending interrupts with the one for a request of [ticks]. *)
Definition with_request s (ticks : Z) : res (Spec.alist (PendingInterrupt F)) :=
  let when := add32 (totalTicks (stats (hw s))) ticks in
  Spec.SortedInsert when (MkPending DiskDone when DiskInt) (pending (interrupt (hw s))).

Lemma check_request_spec s n :
  check_request n s
  = if active (disk s) then Fault AssertFailed
    else if (0 <=? n) && (n <? NumSectors) then Ok (tt, s) else Fault AssertFailed.
Proof.
  unfold check_request. mrun. unfold mbind, M_bind, lift.
  destruct (active (disk s)); [done|]. simpl. by destruct ((0 <=? n) && (n <? NumSectors)).
Qed.

Lemma ComputeLatency_total s n writing : ∃ t, ComputeLatency n writing s = Ok (t, s).
Proof.
  unfold ComputeLatency, TimeToSeek. rewrite M_bind_assoc.
  rewrite (M_bind_step _ _ s s s) by done. rewrite M_ret_bind. cbv beta iota.
  rewrite (M_bind_step _ _ s s s) by done.
  destruct (negb writing && _ && _); by eexists.
Qed.

(** The part of a request behind its transfer. *)
Lemma finish_request (n ticks : Z) count s p :
  0 < ticks →
  totalTicks (count (stats (hw s))) = totalTicks (stats (hw s)) →
  with_request s ticks = Ok p →
  (set_active true ;; UpdateLast n ;; on_stats count ;; Schedule DiskDone ticks DiskInt) s
  = Ok (tt, requested n (file (disk s)) count p (buffer_from s n) s).
Proof.
  intros Hticks Hcount Hp.
  rewrite (M_bind_step _ _ s tt (set_disk (MkDisk (file (disk s)) (handler_ (disk s)) true
     (lastSector (disk s)) (bufferInit (disk s))) s)) by done.
  set (s1 := set_disk _ s).
  assert (UpdateLast n s1 = Ok (tt, set_disk (MkDisk (file (disk s)) (handler_ (disk s)) true n
      (buffer_from s n)) s)) as Hu.
  { unfold UpdateLast, buffer_from, TimeToSeek.
    rewrite M_bind_assoc, (M_bind_step _ _ s1 s1 s1) by done.
    rewrite M_ret_bind, (M_bind_step _ _ s s s) by done. subst s1. cbv beta iota zeta.
    unfold modify, mret, M_ret. cbv beta.
    rewrite set_disk_set_disk, disk_set_disk, hw_set_disk. done. }
  rewrite (M_bind_step _ _ _ _ _ Hu). clear Hu s1.
  set (s2 := set_disk _ s). unfold on_stats, Schedule, insert_pending, now.
  assert (hw s2 = hw s) as Hhw by apply hw_set_disk.
  rewrite (M_bind_step _ _ s2 tt (set_hw (MkHardware (interrupt (hw s)) (count (stats (hw s)))) s2))
    by (unfold modify; by rewrite Hhw).
  set (s3 := set_hw _ s2).
  assert (hw s3 = MkHardware (interrupt (hw s)) (count (stats (hw s)))) as Hhw3
    by apply hw_set_hw.
  rewrite (M_bind_step _ _ s3 (totalTicks (stats (hw s))) s3)
    by (unfold gets; rewrite Hhw3; simpl; by rewrite Hcount).
  cbv zeta.
  rewrite (M_bind_step _ _ s3 tt s3) by (rewrite (proj2 (Z.ltb_lt _ _) Hticks); done).
  rewrite (M_bind_step _ _ s3 (pending (interrupt (hw s))) s3) by (unfold gets; by rewrite Hhw3).
  unfold with_request in Hp. cbv zeta in Hp.
  rewrite (M_bind_step _ _ s3 p s3) by (unfold lift; by rewrite Hp).
  unfold on_interrupt, modify, requested. rewrite Hhw3. subst s3 s2. simpl.
  by rewrite set_hw_set_hw.
Qed.

Lemma on_file_step {A B} (m : M UnixFile A) (k : A → M S B) s a f :
  m (file (disk s)) = Ok (a, f) →
  (on_file m ≫= k) s
  = k a (set_disk (MkDisk f (handler_ (disk s)) (active (disk s)) (lastSector (disk s))
           (bufferInit (disk s))) s).
Proof.
  intros Hm. unfold on_file. rewrite M_bind_assoc, (M_bind_step _ _ s s s) by done.
  cbv zeta. rewrite M_bind_assoc.
  rewrite (M_bind_step _ _ s (a, f) s) by (unfold lift; by rewrite Hm). done.
Qed.

(** The result of a request that gets through its checks. *)
Lemma request_end (n ticks : Z) count s p f :
  0 < ticks →
  totalTicks (count (stats (hw s))) = totalTicks (stats (hw s)) →
  with_request s ticks = Ok p →
  (set_active true ;; UpdateLast n ;; on_stats count ;; Schedule DiskDone ticks DiskInt)
    (set_disk (MkDisk f (handler_ (disk s)) (active (disk s)) (lastSector (disk s))
      (bufferInit (disk s))) s)
  = Ok (tt, requested n f count p (buffer_from s n) s).
Proof.
  intros Hticks Hcount Hp. set (s1 := set_disk _ s).
  assert (hw s1 = hw s) as Hhw by apply hw_set_disk.
  assert (disk s1 = MkDisk f (handler_ (disk s)) (active (disk s)) (lastSector (disk s))
      (bufferInit (disk s))) as Hd by apply disk_set_disk.
  rewrite (finish_request n ticks count s1 p); [|done|by rewrite Hhw|].
  - assert (buffer_from s1 n = buffer_from s n) as ->.
    { unfold buffer_from, TimeToSeek, mbind, M_bind, get, mret, M_ret.
      cbv beta iota zeta. by rewrite Hhw, Hd. }
    unfold requested. rewrite Hhw, Hd. unfold s1. by rewrite set_disk_set_disk.
  - unfold with_request. by rewrite Hhw.
Qed.

Lemma M_bind_unit {B} (m : M S unit) (k : M S B) s s1 :
  m s = Ok (tt, s1) → (m ;; k) s = k s1.
Proof. by apply M_bind_step. Qed.

Lemma ReadRequest_Ok s n ticks p :
  ComputeLatency n false s = Ok (ticks, s) → 0 < ticks →
  active (disk s) = false → 0 ≤ n < NumSectors → file_ok (file (disk s)) →
  with_request s ticks = Ok p →
  ∃ f, fbytes f = fbytes (file (disk s))
    ∧ ReadRequest DiskDone n s
      = Ok (file_sector (file (disk s)) n, requested n f count_read p (buffer_from s n) s).
Proof.
  intros Hlat Hticks Hact Hn Hf Hp.
  destruct (read_sector_Ok _ _ Hf Hn) as (f & Hread & Hbytes). exists f. split; [done|].
  unfold ReadRequest. rewrite (M_bind_step _ _ _ _ _ Hlat).
  rewrite (M_bind_unit _ _ s s).
  2: { rewrite check_request_spec, Hact. replace (_ && _) with true by lia. done. }
  rewrite (on_file_step _ _ _ _ _ Hread).
  pose proof (request_end n ticks count_read s p f Hticks eq_refl Hp) as Hend.
  revert Hend. set (s1 := set_disk _ s). intros Hend.
  unfold mbind, M_bind in Hend |- *.
  destruct (set_active true s1) as [[[] s2]|]; [|done].
  destruct (UpdateLast n s2) as [[[] s3]|]; [|done].
  destruct (on_stats count_read s3) as [[[] s4]|]; [|done].
  by rewrite Hend.
Qed.

Lemma WriteRequest_Ok s n data ticks p :
  ComputeLatency n true s = Ok (ticks, s) → 0 < ticks →
  active (disk s) = false → 0 ≤ n < NumSectors → file_ok (file (disk s)) →
  is_sector data →
  with_request s ticks = Ok p →
  ∃ f, file_ok f
    ∧ (∀ k, 0 ≤ k < NumSectors →
         file_sector f k = if decide (k = n) then data else file_sector (file (disk s)) k)
    ∧ WriteRequest DiskDone n data s
      = Ok (tt, requested n f count_write p (buffer_from s n) s).
Proof.
  intros Hlat Hticks Hact Hn Hf Hdata Hp.
  destruct (write_sector_Ok _ _ _ Hf Hn Hdata) as (f & Hwrite & Hf' & Hsec).
  exists f. split; [done|]. split; [done|].
  unfold WriteRequest. rewrite (M_bind_step _ _ _ _ _ Hlat).
  rewrite (M_bind_unit _ _ s s).
  2: { rewrite check_request_spec, Hact. replace (_ && _) with true by lia. done. }
  rewrite (on_file_step _ _ _ _ _ Hwrite).
  by apply request_end.
Qed.

(** A request is refused by an assertion exactly when another one is
    in progress or its sector does not exist.  Otherwise a read answers the
    contents of its sector and changes none, and a write replaces its sector
    and no other; either way the disk is busy, the head is over that sector,
    one more disk interrupt is pending, for [ComputeLatency] ticks from now,
    and nothing else of the kernel's state has changed. *)
Theorem requests_correct s n data
    (Ht : timing_ok s) (Hf : file_ok (file (disk s))) (Hdata : is_sector data)
    (Hlast : Spec.last_null (pending (interrupt (hw s))) = false) :
  (active (disk s) = true ∨ ¬ (0 ≤ n < NumSectors) →
     ReadRequest DiskDone n s = Fault AssertFailed
     ∧ WriteRequest DiskDone n data s = Fault AssertFailed)
  ∧ (active (disk s) = false → 0 ≤ n < NumSectors →
     ∃ rticks wticks rf wf rp wp,
       (∃ l, rp = Spec.AList l false ∧
          let when := add32 (totalTicks (stats (hw s))) rticks in
          l ≡ₚ (when, MkPending DiskDone when DiskInt) :: Spec.elems (pending (interrupt (hw s))))
       ∧ (∃ l, wp = Spec.AList l false ∧
          let when := add32 (totalTicks (stats (hw s))) wticks in
          l ≡ₚ (when, MkPending DiskDone when DiskInt) :: Spec.elems (pending (interrupt (hw s))))
       ∧ ComputeLatency n false s = Ok (rticks, s) ∧ ComputeLatency n true s = Ok (wticks, s)
       ∧ ReadRequest DiskDone n s
         = Ok (file_sector (file (disk s)) n, requested n rf count_read rp (buffer_from s n) s)
       ∧ fbytes rf = fbytes (file (disk s))
       ∧ WriteRequest DiskDone n data s
         = Ok (tt, requested n wf count_write wp (buffer_from s n) s)
       ∧ file_ok wf
       ∧ ∀ k, 0 ≤ k < NumSectors →
           file_sector wf k = if decide (k = n) then data else file_sector (file (disk s)) k).
Proof.
  split.
  - intros Hbad.
    assert (check_request n s = Fault AssertFailed) as Hchk.
    { rewrite check_request_spec. destruct (active (disk s)); [done|].
      destruct Hbad as [Hbad|Hbad]; [discriminate|]. by replace (_ && _) with false by lia. }
    destruct (ComputeLatency_total s n false) as [t1 H1].
    destruct (ComputeLatency_total s n true) as [t2 H2].
    unfold ReadRequest, WriteRequest.
    rewrite (M_bind_step _ _ _ _ _ H1), (M_bind_step _ _ _ _ _ H2).
    by rewrite !(M_bind_fault _ _ _ _ Hchk).
  - intros Hact Hn.
    destruct (latency_positive s n false Ht Hn) as (t1 & H1 & Ht1).
    destruct (latency_positive s n true Ht Hn) as (t2 & H2 & Ht2).
    destruct (SortedInsert_total (add32 (totalTicks (stats (hw s))) t1)
      (MkPending DiskDone (add32 (totalTicks (stats (hw s))) t1) DiskInt) _ Hlast) as (l1 & Hl1 & Hp1).
    destruct (SortedInsert_total (add32 (totalTicks (stats (hw s))) t2)
      (MkPending DiskDone (add32 (totalTicks (stats (hw s))) t2) DiskInt) _ Hlast) as (l2 & Hl2 & Hp2).
    destruct (ReadRequest_Ok s n t1 _ H1 Ht1 Hact Hn Hf Hl1) as (rf & Hrf & Hread).
    destruct (WriteRequest_Ok s n data t2 _ H2 Ht2 Hact Hn Hf Hdata Hl2) as (wf & Hwf & Hsec & Hwrite).
    exists t1, t2, rf, wf, (Spec.AList l1 false), (Spec.AList l2 false).
    split; [by exists l1|]. split; [by exists l2|]. done.
Qed.
End requests.

(** ** A concrete disk: full of zeros, at time 100, with no request *)

Definition demo_file : UnixFile := MkUnixFile (replicate (Z.to_nat DiskSize) 0) 0.
Definition demo_disk : Hardware unit * Disk unit :=
  (MkHardware Interrupt_new (MkStats 100 0 100 0 0 0 0 0 0 0 0),
   MkDisk demo_file () false 0 0).

Lemma demo_file_ok : file_ok demo_file.
Proof.
  split.
  - unfold zlen, demo_file, fbytes. rewrite length_replicate. apply Z2Nat.id. done.
  - apply Forall_replicate. done.
Qed.

Lemma demo_timing_ok : timing_ok demo_disk.
Proof. split; [|split]; done. Qed.

Lemma zero_sector : is_sector (replicate (Z.to_nat SectorSize) 7).
Proof. split; [done|]. apply Forall_replicate. done. Qed.

Lemma ComputeLatency_correct_witness :
  ∃ ticks, ComputeLatency 40 true demo_disk = Ok (ticks, demo_disk)
    ∧ RotationTime ≤ ticks ≤ 32000.
Proof.
  assert (0 ≤ 40 < NumSectors) as Hn by done.
  destruct (ComputeLatency_correct demo_disk 40 true demo_timing_ok Hn) as (t & H & Hb & _).
  exists t. split; [exact H|exact Hb].
Defined.

Lemma requests_correct_witness :
  ReadRequest () 1024 demo_disk = Fault AssertFailed
  ∧ ∃ s, ReadRequest () 40 demo_disk = Ok (file_sector demo_file 40, s).
Proof.
  assert (¬ (0 ≤ 1024 < NumSectors)) as Hbad
    by (unfold NumSectors, SectorsPerTrack, NumTracks; lia).
  assert (0 ≤ 40 < NumSectors) as Hn by done.
  split.
  - destruct (requests_correct () demo_disk 1024 _ demo_timing_ok demo_file_ok zero_sector eq_refl)
      as [H _].
    exact (proj1 (H (or_intror Hbad))).
  - destruct (requests_correct () demo_disk 40 _ demo_timing_ok demo_file_ok zero_sector eq_refl)
      as [_ H].
    destruct (H eq_refl Hn) as (? & ? & ? & ? & ? & ? & _ & _ & _ & _ & Hread & _).
    eexists. exact Hread.
Defined.
