(* ===== verification/SynchDisk.v ===== *)
(** * filesys/synchdisk.cc: the synchronous disk

    A lock for the disk and a semaphore on which the thread that made a
    request waits for the interrupt of the disk. *)
From S2P Require Import Prelude Word NList Machine Coro Interrupt Disk Threads Synch.

Record SynchDisk := MkSynchDisk { semaphore : positive; lock : positive }.

(** The disk and the synchronous disk in the rest of the kernel state;
    [DiskDone] and [DiskRequestDone] are the pointers to the functions of
    these names with their arguments. *)
Class HasSynchDisk (U F : Type) := {
  u_disk : U → Disk F;
  set_u_disk : Disk F → U → U;
  synchDisk : U → SynchDisk;
  u_disk_set : ∀ d u, u_disk (set_u_disk d u) = d;
  set_u_disk_set : ∀ d d' u, set_u_disk d (set_u_disk d' u) = set_u_disk d u;
  synchDisk_set : ∀ d u, synchDisk (set_u_disk d u) = synchDisk u;
  DiskDone : F;
  DiskRequestDone : F
}.

#[export] Program Instance Kernel_disk {U F} `{!HasSynchDisk U F} : HasDisk (Kernel F U) F := {
  disk_hardware := Kernel_hardware F U;
  disk k := u_disk (user k);
  set_disk d k := set_user (set_u_disk d (user k)) k
}.
Next Obligation. intros. apply u_disk_set. Qed.
Next Obligation. intros. unfold set_user. simpl. by rewrite set_u_disk_set. Qed.
Next Obligation. done. Qed.
Next Obligation. done. Qed.
Next Obligation. done. Qed.

Section synchdisk.
Context {F U : Type} `{!Userland U, !HasSynchDisk U F}.
#[local] Abbreviation K := (Kernel F U).
#[local] Abbreviation kcode := (code (Kernel F U) F).

Definition the_synchDisk : M K SynchDisk := gets (λ k, synchDisk (user k)).

(** The constructor; [make] stores the new disk and synchronous disk. *)
Definition SynchDisk_new (make : SynchDisk → Disk F → U → U) (existing : option (list Z))
    : M K unit :=
  s ← Semaphore_new 0;
  l ← Lock_new;
  d ← lift (Disk_new existing DiskRequestDone);
  on_user (modify (make (MkSynchDisk s l) d)).

Definition ReadSector (sectorNumber : Z) : kcode (list Z) :=
  sd ← run the_synchDisk;
  Acquire (lock sd) ;;
  data ← run (ReadRequest DiskDone sectorNumber);
  P (semaphore sd) ;;
  Release (lock sd) ;;
  mret data.

Definition WriteSector (sectorNumber : Z) (data : list Z) : kcode unit :=
  sd ← run the_synchDisk;
  Acquire (lock sd) ;;
  run (WriteRequest DiskDone sectorNumber data) ;;
  P (semaphore sd) ;;
  Release (lock sd).

Definition RequestDone : kcode unit :=
  sd ← run the_synchDisk;
  V (semaphore sd).

(** What [DiskDone] and [DiskRequestDone] do. *)
Definition disk_done : kcode unit := HandleInterrupt.
Definition disk_request_done : kcode unit := RequestDone.
End synchdisk.
