(* ===== verification/BlockDevice.v ===== *)
(** * What the file system expects of the disk

    filesys/filehdr.cc, filesys/openfile.cc and filesys/filesys.cc reach the
    disk only through [SynchDisk::ReadSector] and [SynchDisk::WriteSector],
    which return when the transfer has happened.  [BlockDevice] is that
    interface with its laws; the file system is proved against it, and a UNIX
    file under the simulated disk is an instance.

    The file system is not meant to be entered by two threads at once
    (filesys/filesys.cc says so), so its routines are sequential. *)
From S2P Require Import Prelude Word Machine Disk.

Class BlockDevice (S : Type) := {
  ReadSector : Z → M S (list Z);
  WriteSector : Z → list Z → M S unit;

  (** The contents of a sector, and the states the device can be used in. *)
  sector : S → Z → list Z;
  ready : S → Prop;

  sector_ok s n : ready s → 0 ≤ n < NumSectors → is_sector (sector s n);
  read_ok s n : ready s → 0 ≤ n < NumSectors →
    ∃ s', ReadSector n s = Ok (sector s n, s') ∧ ready s'
          ∧ ∀ k, 0 ≤ k < NumSectors → sector s' k = sector s k;
  write_ok s n data : ready s → 0 ≤ n < NumSectors → is_sector data →
    ∃ s', WriteSector n data s = Ok (tt, s') ∧ ready s'
          ∧ ∀ k, 0 ≤ k < NumSectors →
              sector s' k = if decide (k = n) then data else sector s k;
  bad_sector s n data : ready s → ¬ (0 ≤ n < NumSectors) →
    ReadSector n s = Fault AssertFailed ∧ WriteSector n data s = Fault AssertFailed
}.

(** ** The sequential view of the simulated disk *)

Definition image_read (n : Z) : M UnixFile (list Z) := λ f,
  ASSERT ((0 <=? n) && (n <? NumSectors)) ;; read_sector n f.
Definition image_write (n : Z) (data : list Z) : M UnixFile unit := λ f,
  ASSERT ((0 <=? n) && (n <? NumSectors)) ;; write_sector n data f.

#[export] Instance image_device : BlockDevice UnixFile.
Proof.
  refine (Build_BlockDevice UnixFile image_read image_write file_sector file_ok _ _ _ _).
  - apply file_sector_ok.
  - intros f n Hf Hn. destruct (read_sector_Ok f n Hf Hn) as (f' & Hr & Hb).
    exists f'. unfold image_read. replace (_ && _) with true by lia.
    split; [done|]. unfold file_ok, file_sector. by rewrite Hb.
  - intros f n data Hf Hn Hd. destruct (write_sector_Ok f n data Hf Hn Hd) as (f' & Hr & Hb & Hs).
    exists f'. unfold image_write. by replace (_ && _) with true by lia.
  - intros f n data Hf Hn. unfold image_read, image_write.
    by replace (_ && _) with false by lia.
Defined.

(** ** Devices with the same contents *)

Section equivalence.
Context {S : Type} `{!BlockDevice S}.
Implicit Types s : S.

Definition same_sectors s s' : Prop :=
  ∀ k, 0 ≤ k < NumSectors → sector s k = sector s' k.

#[export] Instance same_sectors_equivalence : Equivalence same_sectors.
Proof.
  split.
  - by intros s k Hk.
  - intros s s' H k Hk. symmetry. by apply H.
  - intros s s' s'' H H' k Hk. by rewrite H, H'.
Qed.

Lemma wp_ReadSector s n Q :
  ready s → 0 ≤ n < NumSectors →
  (∀ s', ready s' → same_sectors s s' → Q (sector s n) s') →
  wp (ReadSector n) s Q.
Proof.
  intros Hs Hn H. destruct (read_ok s n Hs Hn) as (s' & Hr & Hs' & Hk).
  unfold wp. rewrite Hr. apply H; [done|]. intros k Hk'. symmetry. by apply Hk.
Qed.

Lemma wp_WriteSector s n data Q :
  ready s → 0 ≤ n < NumSectors → is_sector data →
  (∀ s', ready s' →
     (∀ k, 0 ≤ k < NumSectors → sector s' k = if decide (k = n) then data else sector s k) →
     Q tt s') →
  wp (WriteSector n data) s Q.
Proof.
  intros Hs Hn Hd H. destruct (write_ok s n data Hs Hn Hd) as (s' & Hr & Hs' & Hk).
  unfold wp. rewrite Hr. by apply H.
Qed.
End equivalence.
