(* ===== verification/SynchDiskSpec.v ===== *)
(** * The synchronous disk transfers sectors

    [ReadSector] and [WriteSector] of filesys/synchdisk.cc, through the lock,
    the request to the disk, the semaphore, [Thread::Sleep], [Interrupt::Idle],
    the interrupt of the disk, its two handlers and the switch back, when the
    thread that calls them is the only one that can run and nothing else is
    pending.  They return, and meet the laws that file BlockDevice asks of a
    disk, as long as the simulated time is far from its largest value. *)
From S2P Require Import Prelude Word NList Machine Coro Interrupt Disk Threads Synch BlockDevice SynchDisk Alone.

Section synchdisk.
Context {F U : Type} `{!Userland U, !HasSynchDisk U F}.
#[local] Abbreviation K := (Kernel F U).
#[local] Abbreviation kcode := (code (Kernel F U) F).
Variables (yield : kcode unit) (call : F → kcode unit).
Hypothesis call_done : call DiskDone = disk_done.
Hypothesis call_request_done : call DiskRequestDone = disk_request_done.
(** A user machine, if there is one, has nothing to do with the disk. *)
Hypothesis DelayedLoad00_disk : ∀ u : U,
  ∃ u', user_DelayedLoad00 u = Ok (tt, u') ∧ u_disk u' = u_disk u ∧ synchDisk u' = synchDisk u.
(** The thread, its registers, and the synchronous disk. *)
Variables (t : tid) (sk : option Z) (regs : list Z) (cds : gmap positive Condition) (sd : SynchDisk).
Hypothesis Hsk : stack_ok sk.
#[local] Abbreviation cwp := (Coro.cwp yield call start t).
#[local] Abbreviation alone := (alone (F := F) (U := U) t sk regs cds).
#[local] Abbreviation waiting := (Spec.AList [(0, t)] false : Spec.alist tid).

(** The rest of the kernel: the disk [d], and the synchronous disk. *)
Definition disk_is (d : Disk F) (u : U) : Prop := u_disk u = d ∧ synchDisk u = sd.

Lemma disk_stable d : stable (disk_is d).
Proof.
  intros u [Hd Hs]. destruct (DelayedLoad00_disk u) as (u' & Hu & Hd' & Hs'). exists u'.
  split; [done|]. split; congruence.
Qed.

(** The semaphore with value [v] and the threads [q] that wait. *)
Definition sem (v : Z) (q : Spec.alist tid) (sems : gmap positive Semaphore) : gmap positive Semaphore :=
  <[semaphore sd := MkSemaphore v q]> sems.

(** ** The request is answered *)

Definition idle_disk (d : Disk F) : Disk F :=
  MkDisk (file d) (handler_ d) false (lastSector d) (bufferInit d).

Lemma op_set_active {B} k i T rl ts sems lks d (c : unit → kcode B) (Q : B → K → Prop) :
  alone k i T rl ts sems lks (disk_is d) →
  (∀ k', alone k' i T rl ts sems lks (disk_is (idle_disk d)) → cwp (c tt) k' Q) →
  cwp (run (set_active false) ≫= c) k Q.
Proof.
  intros [] H. destruct at_user as [Hd Hs]. eapply cwp_act; [reflexivity|]. apply H.
  constructor; simpl; try done. split; [by rewrite u_disk_set, Hd|by rewrite synchDisk_set].
Qed.

(** The handler that the disk calls. *)
Lemma disk_done_waiting k m T d sems lks (Q : unit → K → Prop) :
  handler_ d = DiskRequestDone →
  alone k (int IntOff true m []) T Spec.empty BLOCKED (sem 0 waiting sems) lks (disk_is d) →
  (∀ k', alone k' (int IntOff true m []) T waiting READY (sem 1 Spec.empty sems) lks
           (disk_is (idle_disk d)) → Q tt k') →
  cwp (call DiskDone) k Q.
Proof.
  intros Hd Hk HQ. rewrite call_done. unfold disk_done, HandleInterrupt.
  eapply op_set_active; [exact Hk|]. next_state k Hk.
  destruct (at_user _ _ _ _ _ _ _ _ _ _ _ _ Hk) as [Hdk Hsd].
  eapply cwp_act; [reflexivity|]. cbv beta. simpl disk. rewrite Hdk. simpl. rewrite Hd.
  apply cwp_call. rewrite call_request_done. unfold disk_request_done, RequestDone.
  apply op_get. rewrite Hsd. eapply V_waiting; [exact Hk|by apply lookup_insert_eq|].
  intros k' H'. unfold sem in H'. rewrite insert_insert_eq in H'. by apply cwp_ret, HQ.
Qed.

(** The idle loop: the clock goes on to the interrupt of the disk. *)
Lemma Idle_disk k w T d sems lks (Q : unit → K → Prop) :
  handler_ d = DiskRequestDone → T < w →
  alone k (int IntOff false SystemMode [(w, MkPending DiskDone w DiskInt)])
    T Spec.empty BLOCKED (sem 0 waiting sems) lks (disk_is d) →
  (∀ k', alone k' (int IntOff false SystemMode []) w waiting READY (sem 1 Spec.empty sems) lks
           (disk_is (idle_disk d)) → Q tt k') →
  cwp Idle k Q.
Proof.
  intros Hd Ht Hk HQ. eapply Idle_fire; [exact Hk|]. next_state k Hk.
  eapply CheckIfDue_fire; [exact Hk|apply disk_stable|done|by left|]. next_state k Hk.
  rewrite Z.max_r in Hk by lia. eapply disk_done_waiting; [exact Hd|exact Hk|]. next_state k Hk.
  do 7 eexists. split; [exact Hk|]. next_state k Hk. split; [done|].
  eapply while_none; [exact Hk|]. next_state k Hk. do 7 eexists. split; [exact Hk|exact HQ].
Qed.

(** [P], from the request to the answer. *)
Lemma P_disk k w T d sems lks (Q : unit → K → Prop) :
  handler_ d = DiskRequestDone → T < w →
  alone k (int IntOn false SystemMode [(w, MkPending DiskDone w DiskInt)])
    T Spec.empty RUNNING (sem 0 Spec.empty sems) lks (disk_is d) →
  (∀ k', alone k' (int IntOn false SystemMode []) (add32 w SystemTick) Spec.empty RUNNING
           (sem 0 Spec.empty sems) lks (disk_is (idle_disk d)) → Q tt k') →
  cwp (P (semaphore sd)) k Q.
Proof.
  intros Hd Ht Hk HQ. eapply P_wait; [exact Hsk|exact Hk|by apply lookup_insert_eq|].
  next_state k Hk. unfold sem in Hk. rewrite insert_insert_eq in Hk. fold (sem 0 waiting sems) in Hk.
  eapply next_thread_idle; [exact Hk|]. next_state k Hk.
  eapply Idle_disk; [exact Hd|exact Ht|exact Hk|]. next_state k Hk.
  eapply next_thread_ready; [exact Hk|]. next_state k Hk. split; [done|].
  do 7 eexists. split; [exact Hk|]. split; [by apply lookup_insert_eq|]. split; [done|].
  next_state k Hk. unfold sem in Hk. rewrite insert_insert_eq in Hk.
  eapply OneTick_quiet; [exact Hk|]. exact HQ.
Qed.

(** ** The requests *)

Definition timing (T : Z) (d : Disk F) : Prop :=
  0 ≤ T ≤ 2 ^ 31 - 2 ^ 17
  ∧ 0 ≤ lastSector d < NumSectors
  ∧ 0 ≤ bufferInit d ≤ 2 ^ 31 - 2 ^ 16.

(** What a request for sector [n] makes of the disk [d]: [f] is the file
    after the transfer. *)
Definition busy (n : Z) (f : UnixFile) (d d' : Disk F) : Prop :=
  ∃ buf, d' = MkDisk f (handler_ d) true n buf ∧ 0 ≤ buf ≤ 2 ^ 31 - 2 ^ 16.

Lemma at_timing k i T rl ts sems lks d :
  alone k i T rl ts sems lks (disk_is d) → timing T d → timing_ok (F := F) k.
Proof. intros [] Ht. destruct at_user as [Hd _]. unfold timing_ok. simpl. by rewrite at_time, Hd. Qed.

Lemma buffer_from_bounds (k : K) n :
  timing_ok (F := F) k → 0 ≤ n < NumSectors → 0 ≤ buffer_from (F := F) k n ≤ 2 ^ 31 - 2 ^ 16.
Proof.
  intros Hok Hn. destruct (TimeToSeek_Ok k n Hok Hn) as (rot & Hrun & Hrot & _).
  unfold buffer_from. rewrite Hrun. destruct Hok as (Ht & Hl & Hb).
  pose proof (seek_time_bounds k n Hn Hl) as Hs. unfold RotationTime in Hrot.
  destruct (_ =? 0); [done|]. unfold add32. rewrite !s32_id; unfold in_s32; try rewrite s32_id; unfold in_s32; lia.
Qed.

Lemma request_pending (k : K) T rl ts sems lks d (ticks : Z) :
  alone k (int IntOn false SystemMode []) T rl ts sems lks (disk_is d) → timing T d → 0 < ticks ≤ 32000 →
  with_request DiskDone k ticks
  = Ok (Spec.AList [(T + ticks, MkPending DiskDone (T + ticks) DiskInt)] false).
Proof.
  intros [] (Ht & _) Hticks. unfold with_request. simpl. rewrite at_time, at_int.
  unfold add32. rewrite s32_id by (unfold in_s32; lia). done.
Qed.

Lemma requested_at (k : K) T rl ts sems lks d n f count ticks :
  alone k (int IntOn false SystemMode []) T rl ts sems lks (disk_is d) →
  (∀ st, totalTicks (count st) = totalTicks st) →
  alone (requested n f count (Spec.AList [(T + ticks, MkPending DiskDone (T + ticks) DiskInt)] false)
        (buffer_from (F := F) k n) k)
    (int IntOn false SystemMode [(T + ticks, MkPending DiskDone (T + ticks) DiskInt)])
    T rl ts sems lks (disk_is (MkDisk f (handler_ d) true n (buffer_from (F := F) k n))).
Proof.
  intros [] Hc. destruct at_user as [Hd Hs]. constructor; simpl; try done.
  - by rewrite at_int.
  - by rewrite Hc.
  - split; [by rewrite u_disk_set, Hd|by rewrite synchDisk_set].
Qed.

Lemma op_read_request {B} k T rl ts sems lks d n (c : list Z → kcode B) (Q : B → K → Prop) :
  alone k (int IntOn false SystemMode []) T rl ts sems lks (disk_is d) →
  timing T d → active d = false → file_ok (file d) → 0 ≤ n < NumSectors →
  (∀ k' when f d', T < when ≤ T + 32000 → fbytes f = fbytes (file d) → busy n f d d' →
     alone k' (int IntOn false SystemMode [(when, MkPending DiskDone when DiskInt)]) T rl ts sems lks (disk_is d') →
     cwp (c (file_sector (file d) n)) k' Q) →
  cwp (run (ReadRequest DiskDone n) ≫= c) k Q.
Proof.
  intros Hk Ht Ha Hf Hn H. pose proof (at_timing _ _ _ _ _ _ _ _ Hk Ht) as Hok.
  destruct (latency_cases k n false Hok Hn) as (ticks & Hlat & Hb & _). unfold RotationTime in Hb.
  pose proof (request_pending _ _ _ _ _ _ _ ticks Hk Ht ltac:(lia)) as Hp.
  destruct (at_user _ _ _ _ _ _ _ _ _ _ _ _ Hk) as [Hdk' _]. assert (disk k = d) as Hdk by done.
  rewrite <- Hdk in Ha, Hf.
  destruct (ReadRequest_Ok DiskDone k n ticks _ Hlat ltac:(lia) Ha Hn Hf Hp) as (f & Hfb & Hr).
  rewrite Hdk in Hfb, Hr.
  eapply cwp_act; [exact Hr|]. apply (H _ (T + ticks) f (MkDisk f (handler_ d) true n (buffer_from (F := F) k n)) ltac:(lia) Hfb).
  - exists (buffer_from (F := F) k n). split; [reflexivity|]. by apply buffer_from_bounds.
  - by apply requested_at.
Qed.

Lemma op_write_request {B} k T rl ts sems lks d n data (c : unit → kcode B) (Q : B → K → Prop) :
  alone k (int IntOn false SystemMode []) T rl ts sems lks (disk_is d) →
  timing T d → active d = false → file_ok (file d) → 0 ≤ n < NumSectors → is_sector data →
  (∀ k' when f d', T < when ≤ T + 32000 → file_ok f →
     (∀ j, 0 ≤ j < NumSectors →
        file_sector f j = if decide (j = n) then data else file_sector (file d) j) →
     busy n f d d' →
     alone k' (int IntOn false SystemMode [(when, MkPending DiskDone when DiskInt)]) T rl ts sems lks (disk_is d') →
     cwp (c tt) k' Q) →
  cwp (run (WriteRequest DiskDone n data) ≫= c) k Q.
Proof.
  intros Hk Ht Ha Hf Hn Hdata H. pose proof (at_timing _ _ _ _ _ _ _ _ Hk Ht) as Hok.
  destruct (latency_cases k n true Hok Hn) as (ticks & Hlat & Hb & _). unfold RotationTime in Hb.
  pose proof (request_pending _ _ _ _ _ _ _ ticks Hk Ht ltac:(lia)) as Hp.
  destruct (at_user _ _ _ _ _ _ _ _ _ _ _ _ Hk) as [Hdk' _]. assert (disk k = d) as Hdk by done.
  rewrite <- Hdk in Ha, Hf.
  destruct (WriteRequest_Ok DiskDone k n data ticks _ Hlat ltac:(lia) Ha Hn Hf Hdata Hp)
    as (f & Hf' & Hsec & Hr).
  rewrite Hdk in Hsec.
  eapply cwp_act; [exact Hr|]. apply (H _ (T + ticks) f (MkDisk f (handler_ d) true n (buffer_from (F := F) k n)) ltac:(lia) Hf' Hsec).
  - exists (buffer_from (F := F) k n). split; [reflexivity|]. by apply buffer_from_bounds.
  - by apply requested_at.
Qed.

(** ** The transfers *)

(** The thread runs, interrupts are on and none is pending, no other thread
    is ready, the lock is free, the semaphore is 0, and the disk [d] has no
    request. *)
Definition quiet (k : K) (T : Z) (d : Disk F) : Prop :=
  (∃ sems lks, alone k (int IntOn false SystemMode []) T Spec.empty RUNNING sems lks (disk_is d)
     ∧ sems !! semaphore sd = Some (MkSemaphore 0 Spec.empty)
     ∧ lks !! lock sd = Some (MkLock false None Spec.empty))
  ∧ 0 ≤ T ∧ 0 ≤ lastSector d < NumSectors ∧ 0 ≤ bufferInit d ≤ 2 ^ 31 - 2 ^ 16
  ∧ active d = false ∧ handler_ d = DiskRequestDone ∧ file_ok (file d).

(** One transfer takes at most this long. *)
Definition transfer_time : Z := 32030.

(** The lock is taken. *)
Lemma acquire_quiet k T d (Q : unit → K → Prop) :
  quiet k T d → T + transfer_time ≤ 2 ^ 31 - 2 ^ 17 →
  (∀ k' sems lks, timing (T + 10) d →
     alone k' (int IntOn false SystemMode []) (T + 10) Spec.empty RUNNING (sem 0 Spec.empty sems)
       (<[lock sd := MkLock true (Some t) Spec.empty]> lks) (disk_is d) → Q tt k') →
  cwp (Acquire (lock sd)) k Q.
Proof.
  unfold transfer_time. intros ((sems & lks & Hk & Hs & Hl) & HT & Hls & Hb & _) Hend HQ.
  eapply Acquire_free; [exact Hk|exact Hl|]. next_state k Hk.
  unfold add32, SystemTick in Hk. rewrite s32_id in Hk by (unfold in_s32; lia).
  eapply (HQ _ sems lks); [by split; [lia|]|]. unfold sem. by rewrite insert_id.
Qed.

(** The answer comes, and the lock is released. *)
Lemma release_quiet k T d n f d' w sems lks (Q : unit → K → Prop) :
  0 ≤ T → T + transfer_time ≤ 2 ^ 31 - 2 ^ 15 → T + 10 < w ≤ T + 10 + 32000 →
  0 ≤ n < NumSectors → busy n f d d' → handler_ d = DiskRequestDone → file_ok f →
  alone k (int IntOn false SystemMode [(w, MkPending DiskDone w DiskInt)]) (T + 10) Spec.empty
    RUNNING (sem 0 Spec.empty sems) (<[lock sd := MkLock true (Some t) Spec.empty]> lks) (disk_is d') →
  (∀ k' T' d'', quiet k' T' d'' → T < T' ≤ T + transfer_time → file d'' = f → Q tt k') →
  cwp (P (semaphore sd) ;; Release (lock sd)) k Q.
Proof.
  unfold transfer_time. intros HT Hend Hw Hn (buf & -> & Hbuf) Hh Hf Hk HQ.
  apply cwp_bind. eapply (P_disk _ w (T + 10) (MkDisk f (handler_ d) true n buf));
    [exact Hh|lia|exact Hk|]. next_state k Hk.
  eapply Release_held; [exact Hk|by apply lookup_insert_eq|]. next_state k Hk.
  unfold SystemTick, add32 in Hk. rewrite (s32_id (w + 10)), s32_id in Hk by (unfold in_s32; lia).
  eapply (HQ _ (w + 10 + 10) (idle_disk (MkDisk f (handler_ d) true n buf))); [split|lia|done].
  - do 2 eexists. split; [exact Hk|]. split; by apply lookup_insert_eq.
  - simpl. split; [lia|]. done.
Qed.

Lemma the_synchDisk_quiet {A} k T d (c : SynchDisk → kcode A) (Q : A → K → Prop) :
  quiet k T d → cwp (c sd) k Q → cwp (run the_synchDisk ≫= c) k Q.
Proof. intros ((sems & lks & [] & _) & _) H. destruct at_user as [_ Hs]. apply op_get. by rewrite Hs. Qed.

(** [ReadSector] returns the sector and leaves the disk as it was. *)
Lemma ReadSector_quiet k T d n :
  quiet k T d → 0 ≤ n < NumSectors → T + transfer_time ≤ 2 ^ 31 - 2 ^ 17 →
  cwp (SynchDisk.ReadSector n) k (λ data k', data = file_sector (file d) n
    ∧ ∃ T' d', quiet k' T' d' ∧ T < T' ≤ T + transfer_time ∧ fbytes (file d') = fbytes (file d)).
Proof.
  intros Hq Hn Hend. unfold SynchDisk.ReadSector. eapply the_synchDisk_quiet; [exact Hq|].
  apply cwp_bind. eapply acquire_quiet; [exact Hq|done|].
  destruct Hq as (_ & HT & Hl & Hb & Ha & Hh & Hf). clear k. intros k sems lks Htime Hk. cbv beta.
  eapply op_read_request; [exact Hk|done..|].
  clear dependent k. intros k w f d' Hw Hfb Hbusy Hk.
  rewrite <- (code_bind_assoc (P (semaphore sd)) (λ _, Release (lock sd))
    (λ _, mret (file_sector (file d) n))).
  apply cwp_bind. eapply release_quiet; [exact HT| |exact Hw|exact Hn|exact Hbusy|exact Hh| |exact Hk|].
  - unfold transfer_time in *. lia.
  - unfold file_ok. by rewrite Hfb.
  - intros k' T' d'' Hq HT' Hfile. apply cwp_ret. split; [done|]. exists T', d''. by rewrite Hfile.
Qed.

(** [WriteSector] replaces the sector and no other. *)
Lemma WriteSector_quiet k T d n data :
  quiet k T d → 0 ≤ n < NumSectors → is_sector data → T + transfer_time ≤ 2 ^ 31 - 2 ^ 17 →
  cwp (SynchDisk.WriteSector n data) k (λ _ k',
    ∃ T' d', quiet k' T' d' ∧ T < T' ≤ T + transfer_time
      ∧ ∀ j, 0 ≤ j < NumSectors →
          file_sector (file d') j = if decide (j = n) then data else file_sector (file d) j).
Proof.
  intros Hq Hn Hdata Hend. unfold SynchDisk.WriteSector. eapply the_synchDisk_quiet; [exact Hq|].
  apply cwp_bind. eapply acquire_quiet; [exact Hq|done|].
  destruct Hq as (_ & HT & Hl & Hb & Ha & Hh & Hf). clear k. intros k sems lks Htime Hk. cbv beta.
  eapply op_write_request; [exact Hk|done..|].
  clear dependent k. intros k w f d' Hw Hf' Hsec Hbusy Hk.
  eapply release_quiet; [exact HT| |exact Hw|exact Hn|exact Hbusy|exact Hh|done|exact Hk|].
  - unfold transfer_time in *. lia.
  - intros k' T' d'' Hq HT' Hfile. exists T', d''. by rewrite Hfile.
Qed.

(** *** A sequence of transfers, next to the sequential device *)

Inductive transfer := TRead (n : Z) | TWrite (n : Z) (data : list Z).

Definition transfer_ok (x : transfer) : Prop :=
  match x with
  | TRead n => 0 ≤ n < NumSectors
  | TWrite n data => 0 ≤ n < NumSectors ∧ is_sector data
  end.

(** The answers of the reads. *)
Fixpoint synch_run (xs : list transfer) : kcode (list (list Z)) :=
  match xs with
  | [] => mret []
  | TRead n :: xs => data ← SynchDisk.ReadSector n; r ← synch_run xs; mret (data :: r)
  | TWrite n data :: xs => SynchDisk.WriteSector n data ;; synch_run xs
  end.

Fixpoint device_run (xs : list transfer) : M UnixFile (list (list Z)) :=
  match xs with
  | [] => mret []
  | TRead n :: xs => data ← BlockDevice.ReadSector n; r ← device_run xs; mret (data :: r)
  | TWrite n data :: xs => BlockDevice.WriteSector n data ;; device_run xs
  end.

Lemma transfers xs : ∀ k T d f,
  quiet k T d → same_sectors (file d) f → file_ok f → Forall transfer_ok xs →
  T + transfer_time * zlen xs ≤ 2 ^ 31 - 2 ^ 17 →
  cwp (synch_run xs) k (λ r k', ∃ f' T' d',
    device_run xs f = Ok (r, f') ∧ quiet k' T' d' ∧ same_sectors (file d') f'
    ∧ T ≤ T' ≤ T + transfer_time * zlen xs).
Proof.
  unfold transfer_time.
  induction xs as [|x xs IH]; intros k T d f Hq Hs Hf Hxs Hend.
  { apply cwp_ret. exists f, T, d. split; [done|]. split; [done|]. split; [done|]. change (zlen _) with 0. lia. }
  apply list.Forall_cons in Hxs as [Hx Hxs].
  assert (zlen (x :: xs) = zlen xs + 1) as Hlen by (unfold zlen; simpl; lia).
  assert (0 ≤ zlen xs) as Hpos by (unfold zlen; lia).
  destruct x as [n|n data]; cbn [synch_run device_run transfer_ok] in Hx |- *; apply cwp_bind.
  - eapply cwp_mono; [apply ReadSector_quiet; [exact Hq|done|unfold transfer_time; lia]|].
    intros data k1 (-> & T1 & d1 & Hq1 & HT1 & Hb1). unfold transfer_time in HT1.
    destruct (@read_ok _ image_device f n Hf Hx) as (f1 & Hr & Hf1 & Hs1).
    apply cwp_bind. eapply cwp_mono; [eapply (IH k1 T1 d1 f1); [done| |done|done|lia]|].
    { intros j Hj. rewrite (Hs1 j Hj). change (file_sector (file d1) j = file_sector f j).
      unfold file_sector. rewrite Hb1. by apply Hs. }
    intros r k2 (f2 & T2 & d2 & Hd & Hq2 & Hs2 & HT2). apply cwp_ret.
    exists f2, T2, d2. rewrite (M_bind_step _ _ _ _ _ Hr), (M_bind_step _ _ _ _ _ Hd).
    rewrite <- (Hs n Hx). split; [done|]. split; [done|]. split; [done|]. lia.
  - destruct Hx as [Hx Hdata].
    eapply cwp_mono; [apply WriteSector_quiet; [exact Hq|done|done|unfold transfer_time; lia]|].
    intros _ k1 (T1 & d1 & Hq1 & HT1 & Hb1). unfold transfer_time in HT1.
    destruct (@write_ok _ image_device f n data Hf Hx Hdata) as (f1 & Hr & Hf1 & Hs1).
    eapply cwp_mono; [eapply (IH k1 T1 d1 f1); [done| |done|done|lia]|].
    { intros j Hj. rewrite (Hs1 j Hj). change (file_sector (file d1) j = if decide (j = n) then data else sector f j).
      rewrite (Hb1 j Hj). case_decide; [done|]. by apply Hs. }
    intros r k2 (f2 & T2 & d2 & Hd & Hq2 & Hs2 & HT2).
    exists f2, T2, d2. rewrite (M_bind_step _ _ _ _ _ Hr). split; [done|]. split; [done|]. split; [done|]. lia.
Qed.

(** C4.  The synchronous disk refines the sequential device that
    the file system is proved against.  While no other thread is ready and no
    interrupt is pending, any sequence of transfers ends (through the lock, the
    request, the semaphore, the idle loop, the interrupt of the disk, its
    handlers and the switch back), no assertion of the disk, of the threads or
    of the interrupts fails, the reads answer what those of the device answer,
    the sectors are afterwards those of the device, the lock, the
    semaphore, the interrupts and the disk are free again, and each transfer
    takes at most 32030 ticks, as long as the clock stays in its range. *)
Theorem synchdisk_refines_device xs k T d
    (Hq : quiet k T d) (Hxs : Forall transfer_ok xs)
    (Hend : T + transfer_time * zlen xs ≤ 2 ^ 31 - 2 ^ 17) :
  cwp (synch_run xs) k (λ r k', ∃ f' T' d',
    device_run xs (file d) = Ok (r, f') ∧ quiet k' T' d' ∧ same_sectors (file d') f'
    ∧ T ≤ T' ≤ T + transfer_time * zlen xs).
Proof. eapply transfers; [exact Hq|done|apply Hq|done|done]. Qed.
End synchdisk.

(** ** A kernel with a disk, and one thread *)

Inductive demo_fun := DiskDone_ | DiskRequestDone_.

#[local] Instance demo_synchdisk : HasSynchDisk (Disk demo_fun * SynchDisk) demo_fun := {
  u_disk := fst;
  set_u_disk d u := (d, snd u);
  synchDisk := snd;
  u_disk_set _ _ := eq_refl;
  set_u_disk_set _ _ _ := eq_refl;
  synchDisk_set _ _ := eq_refl;
  DiskDone := DiskDone_;
  DiskRequestDone := DiskRequestDone_
}.

#[local] Instance demo_userland : Userland (Disk demo_fun * SynchDisk) := {
  user_ReadRegister _ := fail NullDeref;
  user_WriteRegister _ _ := fail NullDeref;
  user_DelayedLoad00 := mret tt;
  user_RestoreState _ := fail NullDeref
}.

Definition demo_call (f : demo_fun) : code (Kernel demo_fun (Disk demo_fun * SynchDisk)) demo_fun unit :=
  match f with DiskDone_ => disk_done | DiskRequestDone_ => disk_request_done end.

Definition demo_sd : SynchDisk := MkSynchDisk 1 1.

Definition demo_kernel : Kernel demo_fun (Disk demo_fun * SynchDisk) :=
  MkKernel (MkHardware (int IntOn false SystemMode []) Statistics_new) 1%positive None Spec.empty
    {[1%positive := MkThread None None RUNNING [] None]}
    {[1%positive := MkSemaphore 0 Spec.empty]} {[1%positive := MkLock false None Spec.empty]} ∅
    (MkDisk demo_file DiskRequestDone_ false 0 0, demo_sd).

Lemma synchdisk_refines_device_witness :
  let xs := [TWrite 3 (replicate (Z.to_nat SectorSize) 7); TRead 3; TRead 700] in
  cwp (F := demo_fun) current_Yield demo_call start 1%positive (synch_run xs) demo_kernel (λ r k', ∃ f' T' d',
    device_run xs demo_file = Ok (r, f')
    ∧ quiet 1%positive None [] ∅ demo_sd k' T' d' ∧ same_sectors (file d') f'
    ∧ 0 ≤ T' ≤ 0 + transfer_time * zlen xs).
Proof.
  apply (@synchdisk_refines_device demo_fun (Disk demo_fun * SynchDisk) demo_userland demo_synchdisk
    current_Yield demo_call eq_refl eq_refl
    ltac:(intros u; by exists u) 1%positive None [] ∅ demo_sd I _ demo_kernel 0
    (MkDisk demo_file DiskRequestDone_ false 0 0)).
  - split; [by do 2 eexists; split; [by constructor|done]|]. unfold NumSectors, SectorsPerTrack, NumTracks. simpl.
    split; [lia|]. split; [lia|]. split; [lia|]. split; [done|]. split; [done|]. exact demo_file_ok.
  - apply list.Forall_cons. split; [split; [by unfold NumSectors, SectorsPerTrack, NumTracks|exact zero_sector]|].
    apply list.Forall_cons. split; [by unfold NumSectors, SectorsPerTrack, NumTracks|].
    apply list.Forall_cons. split; [by unfold NumSectors, SectorsPerTrack, NumTracks|]. done.
  - unfold transfer_time, zlen. simpl. lia.
Defined.
