(* ===== verification/FileHdr.v ===== *)
(** * filesys/filehdr.cc: file headers (i-nodes)

    A header is one sector: the length of the file, the number of its data
    sectors and the table of their numbers. *)
From S2P Require Import Prelude Word Bitmap Machine Disk BlockDevice.

Definition NumDirect : Z := (SectorSize - 2 * 4) / 4.
Definition MaxFileSize : Z := NumDirect * SectorSize.

Record FileHeader := MkHeader {
  numBytes : Z;
  numSectors : Z;
  dataSectors : list Z
}.

(** The memory of a header, as [synchDisk] transfers it. *)
Definition hdr_bytes (h : FileHeader) : list Z :=
  words_bytes (numBytes h :: numSectors h :: dataSectors h).
Definition hdr_of_bytes (bs : list Z) : FileHeader :=
  match s32 <$> bytes_words bs with
  | nb :: ns :: ds => MkHeader nb ns ds
  | _ => MkHeader 0 0 []
  end.

(** The loop of [Allocate], from entry [i] of the table [ds] on. *)
Fixpoint Allocate_loop (n : nat) (i : Z) (ds : list Z) : M Impl.BitMap (list Z) :=
  match n with
  | O => mret ds
  | S n' =>
      sector ← Impl.Find;
      ds' ← lift (awrite ds i sector);
      Allocate_loop n' (i + 1) ds'
  end.

Definition Allocate (fileSize : Z) (h : FileHeader) : M Impl.BitMap (bool * FileHeader) :=
  let numSectors := divRoundUp fileSize SectorSize in
  let h := MkHeader fileSize numSectors (dataSectors h) in
  clear ← Impl.NumClear;
  if clear <? numSectors then mret (false, h)
  else
    ds ← Allocate_loop (Z.to_nat numSectors) 0 (dataSectors h);
    mret (true, MkHeader fileSize numSectors ds).

Definition Deallocate (h : FileHeader) : M Impl.BitMap unit :=
  for_range 0 (numSectors h) (λ i,
    d ← lift (aread (dataSectors h) i);
    t ← Impl.Test d;
    lift (ASSERT t) ;;
    Impl.Clear d).

Definition ByteToSector (h : FileHeader) (offset : Z) : res Z :=
  aread (dataSectors h) (Z.quot offset SectorSize).

Definition FileLength (h : FileHeader) : Z := numBytes h.

Section on_device.
Context {S : Type} `{!BlockDevice S}.

Definition FetchFrom (sector : Z) : M S FileHeader :=
  data ← ReadSector sector;
  mret (hdr_of_bytes data).

Definition WriteBack (h : FileHeader) (sector : Z) : M S unit :=
  WriteSector sector (hdr_bytes h).

(** The data bytes [Print] shows of the sectors from entry [i] of the table
    on, [k] bytes having been shown before. *)
Fixpoint Print_loop (h : FileHeader) (n : nat) (i k : Z) : M S (list (list Z)) :=
  match n with
  | O => mret []
  | Datatypes.S n' =>
      d ← lift (aread (dataSectors h) i);
      data ← ReadSector d;
      let shown := take (Z.to_nat (numBytes h - k)) data in
      rest ← Print_loop h n' (i + 1) (k + zlen shown);
      mret (shown :: rest)
  end.

(** The length, the sector numbers, and the bytes of each sector. *)
Definition Print (h : FileHeader) : M S (Z * list Z * list (list Z)) :=
  numbers ← lift (mapM (aread (dataSectors h)) (seqZ 0 (numSectors h)));
  contents ← Print_loop h (Z.to_nat (numSectors h)) 0 0;
  mret (numBytes h, numbers, contents).
End on_device.

(** ** Allocation *)

Section allocation.
Implicit Types (b : Impl.BitMap) (s : Spec.bits) (ds : list Z) (h : FileHeader).

(** [s] with the sectors [l] marked too. *)
Definition mark_all (l : list Z) s : Spec.bits :=
  Spec.Bits (Spec.size s) (list_to_set l ∪ Spec.marked s).

Lemma Find_step {B} b s d l (k : Z → M Impl.BitMap B) :
  Impl.repr b s → Spec.clear_list s = d :: l →
  ∃ b', (Impl.Find ≫= k) b = k d b' ∧ Impl.repr b' (mark_all [d] s)
        ∧ Spec.clear_list (mark_all [d] s) = l.
Proof.
  intros Hr Hl. destruct (Impl.clear_list_head s d l Hl) as (_ & _ & _ & Hl').
  pose proof (Impl.Find_matches b s Hr) as H. unfold Spec.Find in H. rewrite Hl in H.
  destruct H as (b' & Hrun & Hr'). exists b'.
  assert (mark_all [d] s = Spec.Bits (Spec.size s) ({[d]} ∪ Spec.marked s)) as ->.
  { unfold mark_all. f_equal. set_solver. }
  split; [|done]. unfold mbind, M_bind. by rewrite Hrun.
Qed.

Lemma mark_all_cons d l s : mark_all l (mark_all [d] s) = mark_all (d :: l) s.
Proof. unfold mark_all. simpl. f_equal. set_solver. Qed.

Lemma Allocate_loop_Ok n : ∀ b s i ds,
  Impl.repr b s → (n ≤ length (Spec.clear_list s))%nat →
  0 ≤ i → i + Z.of_nat n ≤ zlen ds →
  ∃ b', Allocate_loop n i ds b
        = Ok (splice (Z.to_nat i) (take n (Spec.clear_list s)) ds, b')
        ∧ Impl.repr b' (mark_all (take n (Spec.clear_list s)) s).
Proof.
  induction n as [|n IH]; intros b s i ds Hr Hn Hi Hd.
  - exists b. split.
    + simpl. by rewrite take_0, splice_nil.
    + replace (mark_all _ s) with s; [done|]. destruct s as [sz m]. unfold mark_all.
      simpl. f_equal. set_solver.
  - destruct (Spec.clear_list s) as [|d l] eqn:Hl; [simpl in Hn; lia|].
    simpl Allocate_loop.
    destruct (Find_step b s d l (λ sector, ds' ← lift (awrite ds i sector);
      Allocate_loop n (i + 1) ds') Hr Hl) as (b1 & -> & Hr1 & Hl1).
    rewrite awrite_total by lia.
    rewrite (M_bind_step _ _ b1 _ b1) by done.
    destruct (IH b1 (mark_all [d] s) (i + 1) (<[Z.to_nat i := d]> ds) Hr1)
      as (b2 & Hrun & Hr2).
    + rewrite Hl1. simpl in Hn. lia.
    + lia.
    + rewrite zlen_insert. lia.
    + rewrite Hl1 in *. exists b2. rewrite Hrun. split.
      * f_equal. f_equal. simpl take. unfold zlen in *. simpl in Hn.
        assert (length (take n l) = n) as Htl by (rewrite length_take; lia).
        apply list_eq. intros j.
        rewrite !lookup_splice by (simpl; rewrite ?length_insert; lia). simpl length.
        rewrite Htl, Z2Nat.inj_add by lia. change (Z.to_nat 1) with 1%nat.
        destruct (decide (j = Z.to_nat i)) as [->|].
        -- rewrite decide_False, decide_True by lia. rewrite Nat.sub_diag.
           rewrite list_lookup_insert_eq by (unfold zlen in *; lia). done.
        -- repeat case_decide; try lia.
           ++ replace (j - Z.to_nat i)%nat with (S (j - (Z.to_nat i + 1)))%nat by lia. done.
           ++ rewrite list_lookup_insert_ne by lia. done.
      * by rewrite mark_all_cons in Hr2.
Qed.

Lemma Allocate_loop_overrun n : ∀ b s i ds,
  Impl.repr b s → (n ≤ length (Spec.clear_list s))%nat →
  0 ≤ i ≤ zlen ds → zlen ds < i + Z.of_nat n →
  Allocate_loop n i ds b = Fault OutOfBounds.
Proof.
  induction n as [|n IH]; intros b s i ds Hr Hn Hi Hd; [lia|].
  destruct (Spec.clear_list s) as [|d l] eqn:Hl; [simpl in Hn; lia|].
  simpl Allocate_loop.
  destruct (Find_step b s d l (λ sector, ds' ← lift (awrite ds i sector);
      Allocate_loop n (i + 1) ds') Hr Hl) as (b1 & -> & Hr1 & Hl1).
  destruct (decide (i < zlen ds)) as [H|H].
  - rewrite awrite_total by lia. rewrite (M_bind_step _ _ b1 _ b1) by done.
    apply (IH b1 (mark_all [d] s)); [done| |rewrite zlen_insert; lia|rewrite zlen_insert; lia].
    rewrite Hl1. simpl in Hn. lia.
  - unfold awrite. by rewrite (proj2 (aget_None ds i)) by lia.
Qed.

(** The header of a new file, when there is room for it. *)
Definition allocated (fileSize : Z) s h : FileHeader :=
  let k := divRoundUp fileSize SectorSize in
  MkHeader fileSize k
    (splice 0 (take (Z.to_nat k) (Spec.clear_list s)) (dataSectors h)).

Lemma Allocate_spec b s h fileSize :
  Impl.repr b s → zlen (dataSectors h) = NumDirect → 0 ≤ fileSize →
  let k := divRoundUp fileSize SectorSize in
  if Spec.NumClear s <? k then
    Allocate fileSize h b = Ok ((false, MkHeader fileSize k (dataSectors h)), b)
  else if k <=? NumDirect then
    ∃ b', Allocate fileSize h b = Ok ((true, allocated fileSize s h), b')
          ∧ Impl.repr b' (mark_all (take (Z.to_nat k) (Spec.clear_list s)) s)
  else Allocate fileSize h b = Fault OutOfBounds.
Proof.
  intros Hr Hd Hsz k.
  assert (0 ≤ k) as Hk by (by apply divRoundUp_nonneg).
  unfold Allocate. fold k.
  rewrite (M_bind_step _ _ b _ b (Impl.NumClear_Ok b s Hr)).
  destruct (Z.ltb_spec (Spec.NumClear s) k) as [Hlt|Hge]; [done|].
  unfold Spec.NumClear, zlen in Hge.
  simpl dataSectors. destruct (Z.leb_spec k NumDirect) as [Hfit|Hover].
  - destruct (Allocate_loop_Ok (Z.to_nat k) b s 0 (dataSectors h) Hr) as (b' & Hrun & Hr');
      [lia|lia|lia|].
    exists b'. rewrite (M_bind_step _ _ _ _ _ Hrun). done.
  - apply M_bind_fault. apply (Allocate_loop_overrun _ b s); [done|lia|unfold zlen; lia|lia].
Qed.

Lemma clear_list_NoDup s : NoDup (Spec.clear_list s).
Proof. apply list.NoDup_filter, NoDup_seqZ. Qed.

Lemma clear_list_spec s i : i ∈ Spec.clear_list s ↔ 0 ≤ i < Spec.size s ∧ i ∉ Spec.marked s.
Proof. unfold Spec.clear_list. rewrite list_elem_of_filter, elem_of_seqZ. naive_solver lia. Qed.

(** [Deallocate] clears the sectors of a header, which must be marked. *)
Definition clear_all (l : list Z) s : Spec.bits :=
  Spec.Bits (Spec.size s) (Spec.marked s ∖ list_to_set l).

Definition file_sectors h : list Z := take (Z.to_nat (numSectors h)) (dataSectors h).

Lemma Deallocate_Ok b s h :
  Impl.repr b s → 0 ≤ numSectors h ≤ zlen (dataSectors h) →
  NoDup (file_sectors h) → (∀ d, d ∈ file_sectors h → d ∈ Spec.marked s) →
  ∃ b', Deallocate h b = Ok (tt, b') ∧ Impl.repr b' (clear_all (file_sectors h) s).
Proof.
  intros Hr Hn Hnd Hmarked. set (l := file_sectors h) in *.
  assert (length l = Z.to_nat (numSectors h)) as Hlen
    by (unfold l, file_sectors; rewrite length_take; unfold zlen in Hn; lia).
  assert (wp (Deallocate h) b (λ _ b', Impl.repr b' (clear_all l s))) as Hwp.
  { unfold Deallocate. eapply wp_mono.
    - apply (wp_for_range (λ i b', Impl.repr b' (clear_all (take (Z.to_nat i) l) s))); [lia| |].
      + replace (clear_all _ s) with s; [done|]. destruct s as [sz m]. unfold clear_all.
        simpl. f_equal. set_solver.
      + intros i b1 Hi Hr1.
        destruct (lookup_lt_is_Some_2 l (Z.to_nat i)) as [d Hd]; [lia|].
        assert (aget (dataSectors h) i = Some d) as Hg.
        { unfold aget. rewrite (proj2 (Z.leb_le 0 i)) by lia.
          unfold l, file_sectors in Hd. by rewrite lookup_take_lt in Hd by lia. }
        assert (d ∈ Spec.marked s) as Hds
          by (apply Hmarked, list_elem_of_lookup; eauto).
        assert (0 ≤ d < Spec.size s) as Hdb.
        { destruct Hr as (_ & -> & Hdom & _). by apply Hdom. }
        set (s1 := clear_all (take (Z.to_nat i) l) s) in *.
        assert (d ∈ Spec.marked s1) as Hd1.
        { unfold s1, clear_all. simpl. apply elem_of_difference. split; [done|].
          rewrite elem_of_list_to_set, elem_of_take. intros (j & Hj & Hlt).
          rewrite (NoDup_lookup l j (Z.to_nat i) d) in Hlt by done. lia. }
        assert (Spec.valid d s1 = true) as Hv by (unfold Spec.valid; simpl; lia).
        apply wp_bind. apply (wp_lift _ _ _ d); [by apply aread_Ok|].
        pose proof (Impl.Test_matches b1 s1 d Hr1) as Ht. unfold Spec.Test in Ht.
        rewrite Hv in Ht. destruct Ht as (b2 & Ht & Hr2).
        apply wp_bind. unfold wp. rewrite Ht. fold (@wp Impl.BitMap unit).
        pose proof (Impl.Clear_matches b2 s1 d Hr2) as Hc. unfold Spec.Clear in Hc.
        rewrite Hv in Hc. destruct Hc as (b3 & Hc & Hr3).
        rewrite bool_decide_eq_true_2 by done.
        rewrite (M_bind_step _ _ b2 tt b2) by done. rewrite Hc.
        replace (clear_all (take (Z.to_nat (i + 1)) l) s)
          with (Spec.Bits (Spec.size s1) (Spec.marked s1 ∖ {[d]})); [done|].
        unfold s1, clear_all. simpl. f_equal.
        replace (Z.to_nat (i + 1)) with (S (Z.to_nat i)) by lia.
        rewrite (take_S_r _ _ d) by done. rewrite list_to_set_app_L. set_solver.
    - intros [] b'. cbn beta. rewrite firstn_all2 by lia. done. }
  apply wp_elim in Hwp as ([] & b' & H & H'). eauto.
Qed.
End allocation.

Lemma file_sectors_allocated fileSize s h :
  0 ≤ divRoundUp fileSize SectorSize ≤ Spec.NumClear s →
  file_sectors (allocated fileSize s h)
  = take (Z.to_nat (divRoundUp fileSize SectorSize)) (Spec.clear_list s).
Proof.
  intros Hk. unfold file_sectors, allocated. simpl. unfold splice. simpl.
  unfold Spec.NumClear, zlen in Hk.
  apply take_app_length'. rewrite length_take. lia.
Qed.

Lemma clear_mark_all l s :
  (∀ d, d ∈ l → d ∉ Spec.marked s) → clear_all l (mark_all l s) = s.
Proof.
  intros H. destruct s as [sz m]. unfold clear_all, mark_all. simpl in *. f_equal.
  apply set_eq. intros x. rewrite elem_of_difference, elem_of_union, elem_of_list_to_set.
  destruct (decide (x ∈ l)); naive_solver.
Qed.

(** C32.  [Allocate] answers FALSE exactly when the file needs more
    sectors than are free, and then takes none.  Otherwise it takes as many
    distinct free sectors as the length of the file needs, marks those and
    no other, and [Deallocate] of the header gives exactly them back; unless
    the file needs more than [NumDirect] sectors, which [Allocate] does not
    check: then it writes behind the end of the header. *)
Theorem Allocate_correct b s h fileSize
    (Hr : Impl.repr b s) (Hh : zlen (dataSectors h) = NumDirect) (Hsize : 0 ≤ fileSize) :
  let k := divRoundUp fileSize SectorSize in
  (Spec.NumClear s < k → ∃ h', Allocate fileSize h b = Ok ((false, h'), b))
  ∧ (k ≤ Spec.NumClear s → k ≤ NumDirect →
     ∃ b' h', Allocate fileSize h b = Ok ((true, h'), b')
       ∧ FileLength h' = fileSize ∧ zlen (file_sectors h') = k
       ∧ k * SectorSize - SectorSize < fileSize ≤ k * SectorSize
       ∧ NoDup (file_sectors h')
       ∧ (∀ d, d ∈ file_sectors h' → 0 ≤ d < Impl.numBits b ∧ (d ∉ Spec.marked s))
       ∧ Impl.repr b' (mark_all (file_sectors h') s)
       ∧ ∃ b'', Deallocate h' b' = Ok (tt, b'') ∧ Impl.repr b'' s)
  ∧ (k ≤ Spec.NumClear s → NumDirect < k → Allocate fileSize h b = Fault OutOfBounds).
Proof.
  intros k. pose proof (Allocate_spec b s h fileSize Hr Hh Hsize) as H.
  cbv zeta in H. fold k in H.
  assert (0 ≤ k) as Hk by (by apply divRoundUp_nonneg).
  split; [|split].
  - intros Hlt. rewrite (proj2 (Z.ltb_lt _ _) Hlt) in H. eauto.
  - intros Hge Hfit. rewrite (proj2 (Z.ltb_ge _ _) Hge), (proj2 (Z.leb_le _ _) Hfit) in H.
    destruct H as (b' & Hrun & Hr').
    assert (file_sectors (allocated fileSize s h) = take (Z.to_nat k) (Spec.clear_list s)) as Hs
      by (by apply file_sectors_allocated).
    assert (∀ d, d ∈ file_sectors (allocated fileSize s h) → 0 ≤ d < Spec.size s ∧ d ∉ Spec.marked s) as Hfree.
    { intros d. rewrite Hs. intros (i & Hi & _)%elem_of_take.
      apply clear_list_spec, list_elem_of_lookup. eauto. }
    assert (NoDup (file_sectors (allocated fileSize s h))) as Hnd.
    { rewrite Hs. eapply sublist_NoDup; [apply clear_list_NoDup|apply sublist_take]. }
    exists b', (allocated fileSize s h). split; [done|]. split; [done|].
    rewrite Hs in *. split.
    { unfold zlen, Spec.NumClear in *. rewrite length_take. unfold zlen in Hge. lia. }
    split. { pose proof (divRoundUp_spec fileSize SectorSize Hsize eq_refl) as [? ?]. fold k in H, H0. lia. }
    split; [done|]. split.
    { intros d Hd%Hfree. by destruct Hr as (_ & <- & _). }
    split; [done|].
    destruct (Deallocate_Ok b' (mark_all (take (Z.to_nat k) (Spec.clear_list s)) s)
      (allocated fileSize s h) Hr') as (b'' & Hd & Hr'').
    + simpl. fold k. unfold splice. simpl. unfold zlen in *.
      rewrite length_app, length_take, length_drop. unfold Spec.NumClear, zlen in Hge. lia.
    + by rewrite Hs.
    + rewrite Hs. intros d Hin. unfold mark_all. simpl. set_solver.
    + exists b''. split; [done|]. rewrite Hs, clear_mark_all in Hr''; [done|].
      intros d Hin. by apply Hfree.
  - intros Hge Hover. rewrite (proj2 (Z.ltb_ge _ _) Hge), (proj2 (Z.leb_gt _ _) Hover) in H. done.
Qed.

(** ** Headers on the device *)

Definition wf_header (h : FileHeader) : Prop :=
  in_s32 (numBytes h) ∧ in_s32 (numSectors h)
  ∧ zlen (dataSectors h) = NumDirect ∧ Forall in_s32 (dataSectors h).

Lemma hdr_of_bytes_hdr_bytes h : wf_header h → hdr_of_bytes (hdr_bytes h) = h.
Proof.
  intros (Hb & Hn & _ & Hd). unfold hdr_of_bytes, hdr_bytes. rewrite bytes_words_s32.
  - by destruct h.
  - by constructor; [|constructor].
Qed.

Lemma hdr_bytes_sector h : zlen (dataSectors h) = NumDirect → is_sector (hdr_bytes h).
Proof.
  intros Hd. split; [|apply words_bytes_ok].
  unfold zlen in *. unfold hdr_bytes. rewrite length_words_bytes. simpl length.
  unfold NumDirect, SectorSize in *. change ((128 - 2 * 4) / 4) with 30 in Hd. lia.
Qed.

Section header_device.
Context {S : Type} `{!BlockDevice S}.
Implicit Types s : S.

Lemma FetchFrom_Ok s n :
  ready s → 0 ≤ n < NumSectors →
  ∃ s', FetchFrom n s = Ok (hdr_of_bytes (sector s n), s') ∧ ready s' ∧ same_sectors s s'.
Proof.
  intros Hs Hn.
  assert (wp (FetchFrom n) s (λ h s', h = hdr_of_bytes (sector s n)
    ∧ ready s' ∧ same_sectors s s')) as H.
  { unfold FetchFrom. apply wp_bind. apply wp_ReadSector; [done|done|].
    intros s' Hs' Heq. by apply wp_ret. }
  apply wp_elim in H as (h & s' & H & -> & H'). eauto.
Qed.

Lemma WriteBack_Ok s h n :
  ready s → 0 ≤ n < NumSectors → zlen (dataSectors h) = NumDirect →
  ∃ s', WriteBack h n s = Ok (tt, s') ∧ ready s'
        ∧ ∀ k, 0 ≤ k < NumSectors →
            sector s' k = if decide (k = n) then hdr_bytes h else sector s k.
Proof. intros Hs Hn Hh. apply write_ok; [done|done|by apply hdr_bytes_sector]. Qed.

(** A header written back to a sector is the header fetched from
    it, and writing it back changes no other sector. *)
Theorem WriteBack_FetchFrom s h n
    (Hs : ready s) (Hn : 0 ≤ n < NumSectors) (Hh : wf_header h) :
  ∃ s1 s2, WriteBack h n s = Ok (tt, s1) ∧ FetchFrom n s1 = Ok (h, s2)
    ∧ (∀ k, 0 ≤ k < NumSectors → k ≠ n → sector s2 k = sector s k)
    ∧ zlen (hdr_bytes h) = SectorSize.
Proof.
  destruct (WriteBack_Ok s h n Hs Hn) as (s1 & Hw & Hs1 & Hk); [by destruct Hh as (_ & _ & ? & _)|].
  destruct (FetchFrom_Ok s1 n Hs1 Hn) as (s2 & Hf & Hs2 & Heq).
  exists s1, s2. split; [done|].
  rewrite (Hk n Hn), decide_True in Hf by done. rewrite hdr_of_bytes_hdr_bytes in Hf by done.
  split; [done|]. split.
  - intros k Hkb Hne. rewrite <- (Heq k Hkb), (Hk k Hkb). by rewrite decide_False.
  - apply hdr_bytes_sector. by destruct Hh as (_ & _ & ? & _).
Qed.
End header_device.
