(* ===== verification/OpenFile.v ===== *)
(** * filesys/openfile.cc: reading and writing files

    An open file is its header and the position of the next [Read] or
    [Write].  Requests of any position and length are done in whole sectors,
    through a buffer.  What a buffer fresh from [new char[]] holds is the
    parameter [uninit]. *)
From S2P Require Import Prelude Word Bitmap Machine Disk BlockDevice FileHdr.

Record OpenFile := MkOpenFile { hdr : FileHeader; seekPosition : Z }.

Definition Seek (position : Z) (f : OpenFile) : OpenFile := MkOpenFile (hdr f) position.
Definition Length (f : OpenFile) : Z := FileLength (hdr f).

(** [bcopy(&buf[at], into, n)], as the bytes copied, and
    [bcopy(from, &buf[at], n)], as the buffer after the copy. *)
Definition bcopy_out (buf : list Z) (at_ n : Z) : res (list Z) :=
  if (0 <=? at_) && (0 <=? n) && (at_ + n <=? zlen buf)
  then Ok (slice (Z.to_nat at_) (Z.to_nat n) buf) else Fault OutOfBounds.
Definition bcopy_in (from buf : list Z) (at_ n : Z) : res (list Z) :=
  if (0 <=? at_) && (0 <=? n) && (n <=? zlen from) && (at_ + n <=? zlen buf)
  then Ok (splice (Z.to_nat at_) (take (Z.to_nat n) from) buf) else Fault OutOfBounds.

Section open_file.
Context {S : Type} `{!BlockDevice S}.
Variable uninit : nat → Z.

(** [new char[n]]. *)
Definition new_char (n : Z) : list Z := uninit <$> seq 0 (Z.to_nat n).

Definition OpenFile_new (sector : Z) : M S OpenFile :=
  h ← FetchFrom sector;
  mret (MkOpenFile h 0).

(** The sectors from [i] on into the buffer, and from the buffer. *)
Fixpoint read_loop (h : FileHeader) (n : nat) (i firstSector : Z) (buf : list Z)
    : M S (list Z) :=
  match n with
  | O => mret buf
  | Datatypes.S n' =>
      d ← lift (ByteToSector h (i * SectorSize));
      data ← ReadSector d;
      buf ← lift (bcopy_in data buf ((i - firstSector) * SectorSize) SectorSize);
      read_loop h n' (i + 1) firstSector buf
  end.
Fixpoint write_loop (h : FileHeader) (n : nat) (i firstSector : Z) (buf : list Z)
    : M S unit :=
  match n with
  | O => mret tt
  | Datatypes.S n' =>
      d ← lift (ByteToSector h (i * SectorSize));
      data ← lift (bcopy_out buf ((i - firstSector) * SectorSize) SectorSize);
      WriteSector d data ;;
      write_loop h n' (i + 1) firstSector buf
  end.

(** The number of bytes of a request that are in the file. *)
Definition clip (fileLength numBytes position : Z) : Z :=
  if fileLength <? add32 position numBytes then sub32 fileLength position else numBytes.

(** The result, and the bytes copied to [into]. *)
Definition ReadAt (f : OpenFile) (numBytes position : Z) : M S (Z * list Z) :=
  let fileLength := FileLength (hdr f) in
  if (numBytes <=? 0) || (fileLength <=? position) then mret (0, [])
  else
    let numBytes := clip fileLength numBytes position in
    let firstSector := divRoundDown position SectorSize in
    let lastSector := divRoundDown (sub32 (add32 position numBytes) 1) SectorSize in
    let numSectors := 1 + lastSector - firstSector in
    let buf := new_char (numSectors * SectorSize) in
    buf ← read_loop (hdr f) (Z.to_nat numSectors) firstSector firstSector buf;
    into ← lift (bcopy_out buf (position - firstSector * SectorSize) numBytes);
    mret (numBytes, into).

Definition WriteAt (f : OpenFile) (from : list Z) (numBytes position : Z) : M S Z :=
  let fileLength := FileLength (hdr f) in
  if (numBytes <=? 0) || (fileLength <=? position) then mret 0
  else
    let numBytes := clip fileLength numBytes position in
    let firstSector := divRoundDown position SectorSize in
    let lastSector := divRoundDown (sub32 (add32 position numBytes) 1) SectorSize in
    let numSectors := 1 + lastSector - firstSector in
    let buf := new_char (numSectors * SectorSize) in
    let firstAligned := position =? firstSector * SectorSize in
    let lastAligned := add32 position numBytes =? (lastSector + 1) * SectorSize in
    buf ← (if negb firstAligned then
             '(n, data) ← ReadAt f SectorSize (firstSector * SectorSize);
             lift (bcopy_in data buf 0 n)
           else mret buf);
    buf ← (if negb lastAligned && (negb (firstSector =? lastSector) || firstAligned) then
             '(n, data) ← ReadAt f SectorSize (lastSector * SectorSize);
             lift (bcopy_in data buf ((lastSector - firstSector) * SectorSize) n)
           else mret buf);
    buf ← lift (bcopy_in from buf (position - firstSector * SectorSize) numBytes);
    write_loop (hdr f) (Z.to_nat numSectors) firstSector firstSector buf ;;
    mret numBytes.

(** The result, the bytes copied and the file afterwards. *)
Definition Read (f : OpenFile) (numBytes : Z) : M S (Z * list Z * OpenFile) :=
  '(result, into) ← ReadAt f numBytes (seekPosition f);
  mret (result, into, MkOpenFile (hdr f) (add32 (seekPosition f) result)).
Definition Write (f : OpenFile) (from : list Z) (numBytes : Z) : M S (Z * OpenFile) :=
  result ← WriteAt f from numBytes (seekPosition f);
  mret (result, MkOpenFile (hdr f) (add32 (seekPosition f) result)).
End open_file.

(** ** The bytes of a file *)

Definition wf_file (h : FileHeader) : Prop :=
  wf_header h ∧ 0 ≤ numBytes h ∧ numSectors h = divRoundUp (numBytes h) SectorSize
  ∧ numSectors h ≤ NumDirect ∧ NoDup (file_sectors h)
  ∧ Forall (λ d, 0 ≤ d < NumSectors) (file_sectors h).

Lemma wf_file_length h : wf_file h → length (file_sectors h) = Z.to_nat (numSectors h).
Proof.
  intros ((_ & _ & Hl & _) & _ & _ & Hn & _). unfold file_sectors.
  rewrite length_take. unfold zlen in Hl. lia.
Qed.

Lemma wf_file_bounds h :
  wf_file h → 0 ≤ numSectors h ≤ 30 ∧ 0 ≤ numBytes h ≤ 128 * numSectors h
              ∧ 128 * numSectors h < numBytes h + 128.
Proof.
  intros (_ & Hb & Hn & Hd & _). pose proof (divRoundUp_spec (numBytes h) 128 Hb eq_refl).
  pose proof (divRoundUp_nonneg (numBytes h) 128 Hb eq_refl).
  unfold NumDirect, SectorSize in *. change ((128 - 2 * 4) / 4) with 30 in Hd. lia.
Qed.

Section contents.
Context {S : Type} `{!BlockDevice S}.
Implicit Types (s : S) (h : FileHeader).

Definition blocks s h : list Z := concat (sector s <$> file_sectors h).
Definition file_bytes s h : list Z := take (Z.to_nat (numBytes h)) (blocks s h).

Lemma blocks_uniform s h : ready s → wf_file h → uniform 128 (sector s <$> file_sectors h).
Proof.
  intros Hs (_ & _ & _ & _ & _ & Hd). unfold uniform. apply list.Forall_fmap.
  eapply list.Forall_impl; [exact Hd|]. intros d Hd'. destruct (sector_ok s d Hs Hd') as [Hl _].
  unfold zlen, SectorSize in Hl. simpl. lia.
Qed.

Lemma length_blocks s h :
  ready s → wf_file h → length (blocks s h) = (128 * Z.to_nat (numSectors h))%nat.
Proof.
  intros Hs Hh. unfold blocks. rewrite (length_concat_uniform 128) by by apply blocks_uniform.
  by rewrite length_fmap, wf_file_length.
Qed.

Lemma length_file_bytes s h :
  ready s → wf_file h → length (file_bytes s h) = Z.to_nat (numBytes h).
Proof.
  intros Hs Hh. unfold file_bytes. rewrite length_take, length_blocks by done.
  pose proof (wf_file_bounds h Hh). lia.
Qed.

Lemma lookup_file_bytes s h q :
  (q < Z.to_nat (numBytes h))%nat → file_bytes s h !! q = blocks s h !! q.
Proof. intros H. unfold file_bytes. by rewrite lookup_take_lt. Qed.

Lemma file_sector_lookup h i :
  wf_file h → (i < Z.to_nat (numSectors h))%nat →
  ∃ d, file_sectors h !! i = Some d ∧ 0 ≤ d < NumSectors
       ∧ ByteToSector h (Z.of_nat i * SectorSize) = Ok d.
Proof.
  intros Hh Hi. destruct (lookup_lt_is_Some_2 (file_sectors h) i) as [d Hd].
  { by rewrite wf_file_length. }
  exists d. split; [done|]. split.
  - destruct Hh as (_ & _ & _ & _ & _ & Hf). by eapply list.Forall_lookup in Hf.
  - unfold ByteToSector. rewrite Z.quot_mul by done. apply aread_Ok. unfold aget.
    rewrite (proj2 (Z.leb_le 0 _)) by lia. rewrite Nat2Z.id.
    unfold file_sectors in Hd. by rewrite lookup_take_lt in Hd.
Qed.

Lemma slice_blocks s h i d :
  ready s → wf_file h → file_sectors h !! i = Some d →
  slice (128 * i) 128 (blocks s h) = sector s d.
Proof.
  intros Hs Hh Hd. unfold blocks. apply slice_concat_uniform; [by apply blocks_uniform|].
  by rewrite list_lookup_fmap, Hd.
Qed.

Lemma lookup_blocks s h i j d :
  ready s → wf_file h → file_sectors h !! i = Some d → (j < 128)%nat →
  blocks s h !! (128 * i + j)%nat = sector s d !! j.
Proof.
  intros Hs Hh Hd Hj. unfold blocks. apply lookup_concat_uniform; [by apply blocks_uniform| |done].
  by rewrite list_lookup_fmap, Hd.
Qed.

Lemma blocks_same s s' h : wf_file h → same_sectors s s' → blocks s h = blocks s' h.
Proof.
  intros (_ & _ & _ & _ & _ & Hd) Heq. unfold blocks. f_equal.
  apply list_fmap_ext. intros i d Hi. apply Heq. by eapply list.Forall_lookup in Hd.
Qed.

Lemma file_bytes_same s s' h : wf_file h → same_sectors s s' → file_bytes s h = file_bytes s' h.
Proof. intros Hh Heq. unfold file_bytes. by rewrite (blocks_same s s'). Qed.

(** A file depends on its own sectors only. *)
Lemma file_bytes_frame s s' h :
  (∀ d, d ∈ file_sectors h → sector s' d = sector s d) → file_bytes s' h = file_bytes s h.
Proof.
  intros Heq. unfold file_bytes, blocks. do 2 f_equal.
  apply list_fmap_ext. intros i d Hi. apply Heq. by eapply list_elem_of_lookup_2.
Qed.
End contents.

Lemma bcopy_in_Ok from buf (a n : nat) :
  (n ≤ length from)%nat → (a + n ≤ length buf)%nat →
  bcopy_in from buf (Z.of_nat a) (Z.of_nat n) = Ok (splice a (take n from) buf).
Proof.
  intros H1 H2. unfold bcopy_in, zlen. rewrite !Nat2Z.id.
  by replace (_ && _) with true by lia.
Qed.

Lemma bcopy_out_Ok buf (a n : nat) :
  (a + n ≤ length buf)%nat →
  bcopy_out buf (Z.of_nat a) (Z.of_nat n) = Ok (slice a n buf).
Proof.
  intros H. unfold bcopy_out, zlen. rewrite !Nat2Z.id.
  by replace (_ && _) with true by lia.
Qed.

(** ** The loops over sectors *)

Section loops.
Context {S : Type} `{!BlockDevice S}.
Implicit Types (s : S) (h : FileHeader).

Lemma read_loop_Ok h n : ∀ (i first : nat) buf s,
  ready s → wf_file h → (first ≤ i)%nat → (i + n ≤ Z.to_nat (numSectors h))%nat →
  (128 * (i - first + n) ≤ length buf)%nat →
  ∃ s', read_loop h n (Z.of_nat i) (Z.of_nat first) buf s
        = Ok (splice (128 * (i - first)) (slice (128 * i) (128 * n) (blocks s h)) buf, s')
        ∧ ready s' ∧ same_sectors s s'.
Proof.
  induction n as [|n IH]; intros i first buf s Hs Hh Hf Hi Hb.
  - exists s. split; [|done]. simpl read_loop. unfold slice. rewrite Nat.mul_0_r, take_0.
    by rewrite splice_nil.
  - destruct (file_sector_lookup h i Hh ltac:(lia)) as (d & Hd & Hdb & Hbs).
    simpl read_loop. rewrite (M_bind_step _ _ s d s) by (unfold lift; by rewrite Hbs).
    destruct (read_ok s d Hs Hdb) as (s1 & Hr & Hs1 & Heq1).
    rewrite (M_bind_step _ _ _ _ _ Hr).
    destruct (sector_ok s d Hs Hdb) as [Hlen _].
    assert (length (sector s d) = 128%nat) as Hlen'
      by (unfold zlen, SectorSize in Hlen; lia).
    replace ((Z.of_nat i - Z.of_nat first) * SectorSize) with (Z.of_nat (128 * (i - first)))
      by (unfold SectorSize; lia).
    change SectorSize with (Z.of_nat 128).
    rewrite bcopy_in_Ok by lia. rewrite (firstn_all2 (sector s d)) by lia.
    rewrite (M_bind_step _ _ s1 _ s1) by done.
    assert (same_sectors s s1) as Hsame by (intros k Hk; symmetry; by apply Heq1).
    replace (Z.of_nat i + 1) with (Z.of_nat (Datatypes.S i)) by lia.
    destruct (IH (Datatypes.S i) first (splice (128 * (i - first)) (sector s d) buf) s1
      Hs1 Hh) as (s2 & Hrun & Hs2 & Hsame2).
    + lia.
    + lia.
    + rewrite length_splice by lia. lia.
    + exists s2. split; [|split; [done|by etrans]]. rewrite Hrun. f_equal. f_equal.
      rewrite <- (blocks_same s s1) by done.
      replace (128 * (Datatypes.S i - first))%nat
        with (128 * (i - first) + length (sector s d))%nat by lia.
      rewrite splice_splice_adj.
      * f_equal. rewrite <- (slice_blocks s h i d) by done.
        replace (128 * Datatypes.S i)%nat with (128 * i + 128)%nat by lia.
        rewrite slice_app. f_equal. lia.
      * rewrite length_slice; [lia|]. rewrite length_blocks by done. lia.
Qed.

Lemma write_loop_Ok h n : ∀ (i first : nat) buf s,
  ready s → wf_file h → (first ≤ i)%nat → (i + n ≤ Z.to_nat (numSectors h))%nat →
  (128 * (i - first + n) ≤ length buf)%nat → Forall byte_ok buf →
  ∃ s', write_loop h n (Z.of_nat i) (Z.of_nat first) buf s = Ok (tt, s') ∧ ready s'
        ∧ (∀ d, 0 ≤ d < NumSectors → d ∉ file_sectors h → sector s' d = sector s d)
        ∧ ∀ k d, file_sectors h !! k = Some d →
            sector s' d = if decide (i ≤ k < i + n)%nat
                          then slice (128 * (k - first)) 128 buf else sector s d.
Proof.
  induction n as [|n IH]; intros i first buf s Hs Hh Hf Hi Hb Hok.
  - exists s. split; [done|]. split; [done|]. split; [done|].
    intros k d Hk. by rewrite decide_False by lia.
  - destruct (file_sector_lookup h i Hh ltac:(lia)) as (d & Hd & Hdb & Hbs).
    simpl write_loop. rewrite (M_bind_step _ _ s d s) by (unfold lift; by rewrite Hbs).
    replace ((Z.of_nat i - Z.of_nat first) * SectorSize) with (Z.of_nat (128 * (i - first)))
      by (unfold SectorSize; lia).
    change SectorSize with (Z.of_nat 128). rewrite bcopy_out_Ok by lia.
    rewrite (M_bind_step _ _ s (slice (128 * (i - first)) 128 buf) s) by done.
    destruct (write_ok s d (slice (128 * (i - first)) 128 buf) Hs Hdb) as (s1 & Hw & Hs1 & Heq1).
    { split; [|by apply Forall_slice]. unfold zlen. rewrite length_slice by lia. done. }
    rewrite (M_bind_step _ _ _ _ _ Hw).
    replace (Z.of_nat i + 1) with (Z.of_nat (Datatypes.S i)) by lia.
    destruct (IH (Datatypes.S i) first buf s1 Hs1 Hh) as (s2 & Hrun & Hs2 & Hother & Hown);
      [lia|lia|lia|done|].
    exists s2. split; [done|]. split; [done|].
    assert (NoDup (file_sectors h)) as Hnd by (by destruct Hh as (_ & _ & _ & _ & ? & _)).
    split.
    + intros d' Hb' Hd'. rewrite Hother by done. rewrite Heq1 by done.
      rewrite decide_False; [done|]. intros ->. apply Hd'. by eapply list_elem_of_lookup_2.
    + intros k d' Hk. rewrite (Hown k d' Hk).
      assert (0 ≤ d' < NumSectors) as Hdb'.
      { destruct Hh as (_ & _ & _ & _ & _ & Hf'). by eapply list.Forall_lookup in Hf'. }
      rewrite Heq1 by done.
      destruct (decide (k = i)) as [->|Hne].
      * rewrite Hd in Hk. injection Hk as ->. rewrite decide_False by lia.
        rewrite decide_True by done. by rewrite decide_True by lia.
      * assert (d' ≠ d) by (intros ->; apply Hne; by eapply NoDup_lookup).
        rewrite (decide_False (P := d' = d)) by done.
        repeat case_decide; try lia; done.
Qed.
End loops.

(** ** [ReadAt] and [WriteAt] *)

(** How many bytes of a request are in the file. *)
Definition available (h : FileHeader) (req position : Z) : Z :=
  Z.max 0 (Z.min req (FileLength h - position)).

Section requests.
Context {S : Type} `{!BlockDevice S} (uninit : nat → Z).
Implicit Types (s : S) (h : FileHeader) (f : OpenFile).

(** A request inside a file, in whole sectors: [first] and [count] of them. *)
Lemma request_sectors h req position :
  wf_file h → 0 ≤ position → in_s32 (position + req) →
  (req <=? 0) || (FileLength h <=? position) = false →
  let n := clip (FileLength h) req position in
  let first := Z.to_nat (position / 128) in
  let count := (Z.to_nat ((position + n - 1) / 128) - first + 1)%nat in
  n = available h req position ∧ 0 < n ∧ position + n ≤ FileLength h
  ∧ add32 position n = position + n
  ∧ divRoundDown position SectorSize = Z.of_nat first
  ∧ divRoundDown (sub32 (add32 position n) 1) SectorSize = Z.of_nat (first + count - 1)
  ∧ (first + count ≤ Z.to_nat (numSectors h))%nat ∧ (1 ≤ count)%nat
  ∧ 128 * Z.of_nat first ≤ position
  ∧ 128 * Z.of_nat (first + count - 1) < position + n ≤ 128 * Z.of_nat (first + count).
Proof.
  intros Hh Hp Hin Hc. pose proof (wf_file_bounds h Hh) as Hb. unfold FileLength in *.
  apply orb_false_iff in Hc as [Hc1%Z.leb_gt Hc2%Z.leb_gt].
  unfold available, clip, FileLength.
  assert (add32 position req = position + req) as -> by (by apply s32_id).
  assert (sub32 (numBytes h) position = numBytes h - position) as ->.
  { unfold sub32. apply s32_id. unfold in_s32 in *. lia. }
  set (n := if numBytes h <? position + req then numBytes h - position else req).
  assert (n = Z.max 0 (Z.min req (numBytes h - position)) ∧ 0 < n ∧ position + n ≤ numBytes h)
    as (Hn1 & Hn2 & Hn3) by (unfold n; destruct (Z.ltb_spec (numBytes h) (position + req)); lia).
  cbv zeta. clearbody n.
  assert (add32 position n = position + n) as -> by (apply s32_id; unfold in_s32 in *; lia).
  assert (sub32 (position + n) 1 = position + n - 1) as ->
    by (apply s32_id; unfold in_s32 in *; lia).
  unfold divRoundDown, SectorSize. rewrite !Z.quot_div_nonneg by lia.
  repeat (split; [done || lia || (clear - Hp Hn2; dlia) || (clear - Hp Hn2 Hn3 Hb; dlia)|]).
  clear - Hp Hn2. dlia.
Qed.

Lemma length_new_char n : length (new_char uninit n) = Z.to_nat n.
Proof. unfold new_char. by rewrite length_fmap, length_seq. Qed.

Lemma ReadAt_Ok s f req position :
  ready s → wf_file (hdr f) → 0 ≤ position → in_s32 (position + req) →
  let n := available (hdr f) req position in
  ∃ s', ReadAt uninit f req position s
        = Ok ((n, slice (Z.to_nat position) (Z.to_nat n) (file_bytes s (hdr f))), s')
        ∧ ready s' ∧ same_sectors s s'.
Proof.
  intros Hs Hh Hp Hin n. unfold ReadAt. cbv zeta.
  destruct ((req <=? 0) || (FileLength (hdr f) <=? position)) eqn:Hc.
  { exists s. split; [|done].
    assert (n = 0) as -> by (unfold n, available; apply orb_true_iff in Hc; lia).
    unfold slice. by rewrite take_0. }
  pose proof (request_sectors (hdr f) req position Hh Hp Hin Hc) as Hr. cbv zeta in Hr.
  destruct Hr as (Hn & Hpos & Hend & Hadd & Hfirst & Hlast & Hcnt & Hc1 & Hlo & Hhi).
  rewrite Hfirst, Hlast.
  set (first := Z.to_nat (position / 128)) in *.
  set (count := (Z.to_nat ((position + clip (FileLength (hdr f)) req position - 1) / 128)
                 - first + 1)%nat) in *.
  fold n in Hn. rewrite Hn in *.
  replace (Z.to_nat (1 + Z.of_nat (first + count - 1) - Z.of_nat first)) with count by lia.
  replace (1 + Z.of_nat (first + count - 1) - Z.of_nat first) with (Z.of_nat count) by lia.
  set (buf := new_char uninit (Z.of_nat count * SectorSize)).
  assert (length buf = 128 * count)%nat as Hlen
    by (unfold buf; rewrite length_new_char; unfold SectorSize; lia).
  destruct (read_loop_Ok (hdr f) count first first buf s Hs Hh ltac:(done) Hcnt ltac:(lia))
    as (s' & Hrun & Hs' & Hsame).
  exists s'. split; [|done].
  rewrite (M_bind_step _ _ _ _ _ Hrun). rewrite Nat.sub_diag, Nat.mul_0_r.
  set (B := blocks s (hdr f)) in *.
  assert (length B = 128 * Z.to_nat (numSectors (hdr f)))%nat as HB by by apply length_blocks.
  assert (splice 0 (slice (128 * first) (128 * count) B) buf = slice (128 * first) (128 * count) B) as ->.
  { unfold splice. simpl. rewrite length_slice by lia. rewrite drop_ge by lia. apply app_nil_r. }
  set (off := (Z.to_nat position - 128 * first)%nat).
  replace (position - Z.of_nat first * SectorSize) with (Z.of_nat off)
    by (unfold off, SectorSize; lia).
  rewrite <- (Z2Nat.id n) at 1 by lia.
  rewrite bcopy_out_Ok by (rewrite length_slice by lia; unfold off; lia).
  rewrite (M_bind_step _ _ s' _ s') by done. unfold mret, M_ret. f_equal. f_equal. f_equal.
  unfold FileLength in Hend.
  rewrite slice_slice by (unfold off; lia). unfold file_bytes. rewrite slice_take by lia.
  f_equal. unfold off. lia.
Qed.

(** C23.  [ReadAt] answers the bytes of the file from the position on, as
    many as were asked for and the file has, whatever its buffer held; it
    changes nothing on the disk. *)
Theorem ReadAt_correct s f req position
    (Hs : ready s) (Hf : wf_file (hdr f)) (Hp : 0 ≤ position) (Hfit : in_s32 (position + req)) :
  let n := available (hdr f) req position in
  ∃ s', ReadAt uninit f req position s
        = Ok ((n, slice (Z.to_nat position) (Z.to_nat n) (file_bytes s (hdr f))), s')
        ∧ zlen (slice (Z.to_nat position) (Z.to_nat n) (file_bytes s (hdr f))) = n
        ∧ same_sectors s s'.
Proof.
  intros n. destruct (ReadAt_Ok s f req position Hs Hf Hp Hfit) as (s' & Hrun & _ & Hsame).
  exists s'. split; [done|]. split; [|done].
  assert (0 ≤ n ∧ (0 < n → position + n ≤ numBytes (hdr f))) as [H0 H1]
    by (unfold n, available, FileLength; lia).
  destruct (decide (n = 0)) as [->|]; [unfold slice; by rewrite take_0|].
  unfold zlen. rewrite length_slice; [lia|]. rewrite length_file_bytes by done. lia.
Qed.

Lemma blocks_ok s h : ready s → wf_file h → Forall byte_ok (blocks s h).
Proof.
  intros Hs (_ & _ & _ & _ & _ & Hd). unfold blocks.
  apply Forall_concat, list.Forall_fmap. eapply list.Forall_impl; [exact Hd|].
  intros d Hd'. by destruct (sector_ok s d Hs Hd').
Qed.

(** Reading sector [i] of the file into its place in the buffer, where the
    buffer begins with sector [first]. *)
Lemma refill_Ok s f i first buf :
  ready s → wf_file (hdr f) → (first ≤ i)%nat → 128 * Z.of_nat i < numBytes (hdr f) →
  (128 * (i - first) + 128 ≤ length buf)%nat → Forall byte_ok buf →
  ∃ s' buf',
    ('(n, data) ← ReadAt uninit f SectorSize (Z.of_nat i * SectorSize);
     lift (bcopy_in data buf ((Z.of_nat i - Z.of_nat first) * SectorSize) n)) s
    = Ok (buf', s')
    ∧ ready s' ∧ same_sectors s s' ∧ length buf' = length buf ∧ Forall byte_ok buf'
    ∧ ∀ j, buf' !! j = if decide (128 * (i - first) ≤ j < 128 * (i - first) + 128
                                  ∧ 128 * first + j < Z.to_nat (numBytes (hdr f)))%nat
                       then file_bytes s (hdr f) !! (128 * first + j)%nat else buf !! j.
Proof.
  intros Hs Hh Hi Hin Hb Hok. pose proof (wf_file_bounds (hdr f) Hh) as Hbd.
  destruct (ReadAt_Ok s f SectorSize (Z.of_nat i * SectorSize) Hs Hh)
    as (s' & Hrun & Hs' & Hsame); [unfold SectorSize; lia|unfold SectorSize, in_s32; lia|].
  cbv zeta in Hrun.
  set (n := available (hdr f) SectorSize (Z.of_nat i * SectorSize)) in *.
  set (at_ := Z.to_nat (Z.of_nat i * SectorSize)) in *.
  set (FB := file_bytes s (hdr f)) in *.
  assert (n = Z.min 128 (numBytes (hdr f) - 128 * Z.of_nat i)) as Hn
    by (unfold n, available, FileLength, SectorSize; lia).
  assert (at_ = 128 * i)%nat as Hat by (unfold at_, SectorSize; lia).
  assert (length FB = Z.to_nat (numBytes (hdr f))) as HFB by by apply length_file_bytes.
  assert (length (slice at_ (Z.to_nat n) FB) = Z.to_nat n) as Hsl
    by (apply length_slice; lia).
  rewrite (M_bind_step _ _ _ _ _ Hrun). cbv beta iota.
  replace ((Z.of_nat i - Z.of_nat first) * SectorSize) with (Z.of_nat (128 * (i - first)))
    by (unfold SectorSize; lia).
  pose proof (bcopy_in_Ok (slice at_ (Z.to_nat n) FB) buf (128 * (i - first)) (Z.to_nat n)) as Hcp.
  rewrite Z2Nat.id in Hcp by lia. rewrite Hcp by lia.
  rewrite (firstn_all2 (slice _ _ _)) by lia.
  exists s', (splice (128 * (i - first)) (slice at_ (Z.to_nat n) FB) buf).
  split; [done|]. split; [done|]. split; [done|].
  split; [rewrite length_splice; lia|]. split.
  - apply Forall_splice; [|done]. apply Forall_slice. unfold FB, file_bytes.
    apply Forall_take. by apply blocks_ok.
  - intros j. rewrite lookup_splice by lia. rewrite Hsl.
    repeat case_decide; try lia; try done.
    rewrite lookup_slice by lia. f_equal. lia.
Qed.

(** Filling the buffer with the bytes around those that are written. *)
Lemma fill_Ok s f position n first count buf :
  ready s → wf_file (hdr f) → 0 < n → position + n ≤ numBytes (hdr f) →
  (1 ≤ count)%nat →
  128 * Z.of_nat first ≤ position → position < 128 * Z.of_nat first + 128 →
  128 * Z.of_nat (first + count - 1) < position + n ≤ 128 * Z.of_nat (first + count) →
  length buf = (128 * count)%nat → Forall byte_ok buf →
  let firstAligned := position =? Z.of_nat first * SectorSize in
  let lastAligned := position + n =? (Z.of_nat (first + count - 1) + 1) * SectorSize in
  ∃ s1 buf1 s2 buf2,
    (if negb firstAligned then
       '(n, data) ← ReadAt uninit f SectorSize (Z.of_nat first * SectorSize);
       lift (bcopy_in data buf 0 n)
     else mret buf) s = Ok (buf1, s1)
    ∧ (if negb lastAligned
               && (negb (Z.of_nat first =? Z.of_nat (first + count - 1)) || firstAligned) then
       '(n, data) ← ReadAt uninit f SectorSize (Z.of_nat (first + count - 1) * SectorSize);
       lift (bcopy_in data buf1 ((Z.of_nat (first + count - 1) - Z.of_nat first) * SectorSize) n)
       else mret buf1) s1 = Ok (buf2, s2)
    ∧ ready s2 ∧ same_sectors s s2 ∧ length buf2 = (128 * count)%nat ∧ Forall byte_ok buf2
    ∧ ∀ q, (128 * first ≤ q < 128 * (first + count))%nat → (q < Z.to_nat (numBytes (hdr f)))%nat →
        Z.of_nat q < position ∨ position + n ≤ Z.of_nat q →
        buf2 !! (q - 128 * first)%nat = file_bytes s (hdr f) !! q.
Proof.
  intros Hs Hh Hn Hend Hc1 Hlo Hlo' Hhi Hlen Hok firstAligned lastAligned.
  set (FB := file_bytes s (hdr f)).
  assert (∃ s1 buf1, (if negb firstAligned then
       '(n, data) ← ReadAt uninit f SectorSize (Z.of_nat first * SectorSize);
       lift (bcopy_in data buf 0 n)
     else mret buf) s = Ok (buf1, s1)
    ∧ ready s1 ∧ same_sectors s s1 ∧ length buf1 = (128 * count)%nat ∧ Forall byte_ok buf1
    ∧ ∀ j, firstAligned = false → (j < 128)%nat →
        (128 * first + j < Z.to_nat (numBytes (hdr f)))%nat →
        buf1 !! j = FB !! (128 * first + j)%nat)
    as (s1 & buf1 & H1 & Hs1 & Hsame1 & Hlen1 & Hok1 & Hbuf1).
  { destruct firstAligned; simpl negb; cbv iota.
    - by exists s, buf.
    - destruct (refill_Ok s f first first buf) as (s1 & buf1 & Hr & ? & ? & ? & ? & Hb);
        [done|done|done|lia|lia|done|].
      rewrite Z.sub_diag in Hr. exists s1, buf1. split; [done|]. split; [done|].
      split; [done|]. split; [lia|]. split; [done|].
      intros j _ Hj Hq. rewrite Hb, decide_True by lia. done. }
  exists s1, buf1.
  assert (FB = file_bytes s1 (hdr f)) as HFB by by apply file_bytes_same.
  set (last := (first + count - 1)%nat) in *.
  destruct (negb lastAligned && (negb (Z.of_nat first =? Z.of_nat last) || firstAligned)) eqn:E.
  - destruct (refill_Ok s1 f last first buf1) as (s2 & buf2 & Hr & ? & ? & ? & ? & Hb);
      [done|done|lia|lia|lia|done|].
    exists s2, buf2. split; [done|]. split; [done|]. split; [done|].
    split; [by etrans|]. split; [lia|]. split; [done|].
    intros q Hq Hq' Hout. rewrite Hb, <- HFB.
    case_decide as Hd; [f_equal; lia|].
    rewrite Hbuf1; [f_equal; lia| |lia|lia].
    destruct (Z.eqb_spec position (Z.of_nat first * SectorSize)) as [He|He]; [|done].
    unfold SectorSize in He. lia.
  - exists s1, buf1. split; [done|]. split; [done|]. split; [done|]. split; [done|].
    split; [done|]. split; [done|].
    intros q Hq Hq' Hout.
    assert (Z.of_nat q < position ∨ (lastAligned = false ∧ first = last ∧ firstAligned = false)) as Hcase.
    { destruct Hout as [?|Hout]; [by left|]. right.
      unfold lastAligned, firstAligned, SectorSize in *. lia. }
    rewrite Hbuf1; [f_equal; lia| | |lia].
    + destruct Hcase as [Hlt|(_ & _ & ?)]; [|done].
      unfold firstAligned, SectorSize. lia.
    + destruct Hcase as [Hlt|(_ & Hfl & _)]; lia.
Qed.

Hypothesis uninit_ok : ∀ i, byte_ok (uninit i).

Lemma WriteAt_Ok s f from req position :
  ready s → wf_file (hdr f) → 0 ≤ position → in_s32 (position + req) →
  let n := available (hdr f) req position in
  n ≤ zlen from → Forall byte_ok from →
  ∃ s', WriteAt uninit f from req position s = Ok (n, s') ∧ ready s'
        ∧ file_bytes s' (hdr f)
          = splice (Z.to_nat position) (take (Z.to_nat n) from) (file_bytes s (hdr f))
        ∧ ∀ d, 0 ≤ d < NumSectors → d ∉ file_sectors (hdr f) → sector s' d = sector s d.
Proof.
  intros Hs Hh Hp Hin n Hfrom Hfok. unfold WriteAt. cbv zeta.
  destruct ((req <=? 0) || (FileLength (hdr f) <=? position)) eqn:Hc.
  { exists s. assert (n = 0) as -> by (unfold n, available; apply orb_true_iff in Hc; lia).
    by rewrite take_0, splice_nil. }
  pose proof (request_sectors (hdr f) req position Hh Hp Hin Hc) as Hr. cbv zeta in Hr.
  destruct Hr as (Hn & Hpos & Hend & Hadd & Hfirst & Hlast & Hcnt & Hc1 & Hlo & Hhi).
  rewrite Hfirst, Hlast.
  assert (position < 128 * Z.of_nat (Z.to_nat (position / 128)) + 128) as Hlo' by dlia.
  set (first := Z.to_nat (position / 128)) in *.
  set (count := (Z.to_nat ((position + clip (FileLength (hdr f)) req position - 1) / 128)
                 - first + 1)%nat) in *.
  fold n in Hn. rewrite Hn in *. rewrite Hadd in *.
  replace (Z.to_nat (1 + Z.of_nat (first + count - 1) - Z.of_nat first)) with count by lia.
  replace (1 + Z.of_nat (first + count - 1) - Z.of_nat first) with (Z.of_nat count) by lia.
  set (buf := new_char uninit (Z.of_nat count * SectorSize)).
  assert (length buf = 128 * count)%nat as Hlen
    by (unfold buf; rewrite length_new_char; unfold SectorSize; lia).
  assert (Forall byte_ok buf) as Hbok.
  { unfold buf, new_char. apply list.Forall_fmap, list.Forall_true. intros i. apply uninit_ok. }
  clearbody count first buf. unfold FileLength in Hend.
  destruct (fill_Ok s f position n first count buf Hs Hh Hpos Hend Hc1 Hlo Hlo' Hhi Hlen Hbok)
    as (s1 & buf1 & s2 & buf2 & Hr1 & Hr2 & Hs2 & Hsame & Hlen2 & Hok2 & Hbuf2).
  rewrite (M_bind_step _ _ _ _ _ Hr1), (M_bind_step _ _ _ _ _ Hr2).
  set (off := (Z.to_nat position - 128 * first)%nat).
  replace (position - Z.of_nat first * SectorSize) with (Z.of_nat off)
    by (unfold off, SectorSize; lia).
  pose proof (bcopy_in_Ok from buf2 off (Z.to_nat n)) as Hcp.
  rewrite Z2Nat.id in Hcp by lia. unfold zlen in Hfrom.
  rewrite Hcp by (unfold off; lia).
  set (data := take (Z.to_nat n) from).
  assert (length data = Z.to_nat n) as Hdl by (unfold data; rewrite length_take; lia).
  set (buf3 := splice off data buf2).
  assert (length buf3 = 128 * count)%nat as Hlen3
    by (unfold buf3; rewrite length_splice; unfold off; lia).
  rewrite (M_bind_step _ _ s2 buf3 s2) by done.
  destruct (write_loop_Ok (hdr f) count first first buf3 s2 Hs2 Hh) as (s3 & Hrun & Hs3 & Hother & Hown);
    [done|done|lia|by apply Forall_splice; [apply Forall_take|]|].
  rewrite (M_bind_step _ _ _ _ _ Hrun).
  exists s3. split; [done|]. split; [done|]. split.
  2: { intros d Hd Hnot. rewrite Hother by done. symmetry. by apply Hsame. }
  pose proof (wf_file_bounds _ Hh) as Hbd.
  assert (length (file_bytes s (hdr f)) = Z.to_nat (numBytes (hdr f))) as HFB
    by by apply length_file_bytes.
  apply list_eq. intros q.
  destruct (decide (q < Z.to_nat (numBytes (hdr f)))%nat) as [Hq|Hq].
  2: { rewrite !lookup_ge_None_2; [done|rewrite length_splice; lia|].
       rewrite length_file_bytes by done. lia. }
  rewrite lookup_splice by lia. rewrite Hdl.
  destruct (file_sector_lookup (hdr f) (q / 128) Hh) as (d & Hd & Hdb & _).
  { pose proof (Nat.div_mod_eq q 128). pose proof (Nat.mod_upper_bound q 128). lia. }
  pose proof (Nat.div_mod_eq q 128) as Hdiv.
  pose proof (Nat.mod_upper_bound q 128 ltac:(done)) as Hmod.
  rewrite !lookup_file_bytes by lia.
  assert (∀ s, ready s → blocks s (hdr f) !! q = sector s d !! (q mod 128)%nat) as Hblk.
  { intros s0 Hs0. rewrite Hdiv at 1. by apply lookup_blocks. }
  rewrite (Hblk s3 Hs3), (Hown _ d Hd). case_decide as Hin'.
  - rewrite lookup_slice by done.
    replace (128 * (q / 128 - first) + q mod 128)%nat with (q - 128 * first)%nat by lia.
    unfold buf3. rewrite lookup_splice by (unfold off; lia). rewrite Hdl.
    repeat case_decide; unfold off in *; try lia.
    + f_equal. lia.
    + rewrite Hbuf2 by lia. by rewrite lookup_file_bytes by lia.
  - rewrite decide_False by (clear - Hin' Hlo Hhi Hdiv Hmod Hp Hpos; lia).
    rewrite (Hblk s Hs). rewrite (Hsame d Hdb). done.
Qed.

(** C24.  [WriteAt] replaces, in the bytes of the file, those from the
    position on by the bytes given, as many as there are and the file has
    room for, and leaves the rest of the file as it was, partial sectors
    included and whatever its buffer held; it changes no sector of another
    file.  What was written is then read. *)
Theorem WriteAt_correct s f from req position
    (Hs : ready s) (Hf : wf_file (hdr f)) (Hp : 0 ≤ position) (Hfit : in_s32 (position + req))
    (Hfrom : available (hdr f) req position ≤ zlen from) (Hok : Forall byte_ok from) :
  let n := available (hdr f) req position in
  ∃ s', WriteAt uninit f from req position s = Ok (n, s')
    ∧ file_bytes s' (hdr f)
      = splice (Z.to_nat position) (take (Z.to_nat n) from) (file_bytes s (hdr f))
    ∧ (∀ d, 0 ≤ d < NumSectors → d ∉ file_sectors (hdr f) → sector s' d = sector s d)
    ∧ ∃ s'', ReadAt uninit f req position s' = Ok ((n, take (Z.to_nat n) from), s'').
Proof.
  intros n. destruct (WriteAt_Ok s f from req position Hs Hf Hp Hfit Hfrom Hok)
    as (s' & Hrun & Hs' & Hbytes & Hother). fold n in Hrun, Hbytes.
  exists s'. split; [done|]. split; [done|]. split; [done|].
  destruct (ReadAt_Ok s' f req position Hs' Hf Hp Hfit) as (s'' & Hread & _).
  fold n in Hread. exists s''. rewrite Hread, Hbytes. do 3 f_equal.
  assert (0 ≤ n ∧ (0 < n → position + n ≤ numBytes (hdr f))) as [H0 H1]
    by (unfold n, available, FileLength; lia).
  fold n in Hfrom. unfold zlen in Hfrom.
  destruct (decide (n = 0)) as [->|]; [done|].
  assert (length (take (Z.to_nat n) from) = Z.to_nat n) as Hl by (rewrite length_take; lia).
  rewrite <- Hl at 1. apply slice_splice_eq.
  rewrite length_file_bytes by done. lia.
Qed.

(** [Write] and [Read] go on where the last one ended: the bytes
    written after a [Seek], in two pieces, are read back in one. *)
Theorem Seek_Write_Write_Read s f xs ys position
    (Hs : ready s) (Hf : wf_file (hdr f)) (Hp : 0 ≤ position)
    (Hfit : position + zlen xs + zlen ys ≤ Length f)
    (Hx : Forall byte_ok xs) (Hy : Forall byte_ok ys) :
  ∃ s1 s2 s3 f1 f2 f3,
    Write uninit (Seek position f) xs (zlen xs) s = Ok ((zlen xs, f1), s1)
    ∧ Write uninit f1 ys (zlen ys) s1 = Ok ((zlen ys, f2), s2)
    ∧ Read uninit (Seek position f2) (zlen xs + zlen ys) s2
      = Ok ((zlen xs + zlen ys, xs ++ ys, f3), s3)
    ∧ seekPosition f3 = seekPosition f2.
Proof.
  pose proof (wf_file_bounds _ Hf) as Hbd. unfold Length, FileLength in Hfit.
  assert (0 ≤ zlen xs ∧ 0 ≤ zlen ys) as [Hx0 Hy0] by (unfold zlen; lia).
  assert (∀ a b, 0 ≤ a → 0 ≤ b → a + b ≤ numBytes (hdr f) → in_s32 (a + b)) as H32
    by (unfold in_s32; lia).
  assert (∀ a b, 0 ≤ a → 0 ≤ b → a + b ≤ numBytes (hdr f) → available (hdr f) b a = b) as Hav
    by (unfold available, FileLength; lia).
  destruct (WriteAt_Ok s (Seek position f) xs (zlen xs) position Hs Hf Hp) as (s1 & H1 & Hs1 & Hb1 & _);
    [apply H32; lia|cbn [hdr Seek]; rewrite Hav; lia|done|].
  cbn [hdr Seek] in *. rewrite Hav in * by lia.
  set (f1 := MkOpenFile (hdr f) (position + zlen xs)).
  destruct (WriteAt_Ok s1 f1 ys (zlen ys) (position + zlen xs) Hs1 Hf) as (s2 & H2 & Hs2 & Hb2 & _);
    [lia|apply H32; lia|cbn [hdr f1]; rewrite Hav; lia|done|].
  cbn [hdr f1] in *. rewrite Hav in * by lia.
  set (f2 := MkOpenFile (hdr f) (position + zlen xs + zlen ys)).
  destruct (ReadAt_Ok s2 (Seek position f2) (zlen xs + zlen ys) position Hs2 Hf Hp) as (s3 & H3 & _);
    [apply H32; lia|].
  cbn [hdr f2 Seek] in *. rewrite Hav in * by lia.
  exists s1, s2, s3, f1, f2, f2.
  assert (∀ x y, 0 ≤ x → 0 ≤ y → x + y ≤ numBytes (hdr f) → add32 x y = x + y) as Hadd
    by (intros; apply s32_id; by apply H32).
  unfold Write, Read. cbn [seekPosition Seek f1 f2].
  rewrite (M_bind_step _ _ _ _ _ H1), (M_bind_step _ _ _ _ _ H2), (M_bind_step _ _ _ _ _ H3).
  cbn [hdr Seek f1 f2]. rewrite !Hadd by lia. split; [done|]. split; [done|]. split; [|done].
  unfold mret, M_ret. f_equal. f_equal. f_equal; [|by rewrite Z.add_assoc]. f_equal.
  rewrite Hb2, Hb1. unfold zlen in *.
  rewrite !Nat2Z.id, !firstn_all.
  replace (Z.to_nat (position + Z.of_nat (length xs))) with (Z.to_nat position + length xs)%nat by lia.
  rewrite splice_splice_adj by (rewrite length_file_bytes by done; lia).
  replace (Z.to_nat (Z.of_nat (length xs) + Z.of_nat (length ys))) with (length (xs ++ ys))
    by (rewrite length_app; lia).
  apply slice_splice_eq. rewrite length_app, length_file_bytes by done. lia.
Qed.
End requests.
