(* ===== verification/Directory.v ===== *)
(** * filesys/directory.cc: directories

    The table of a directory as the bytes the compiler lays out: an entry is
    20 bytes, the flag at 0, the sector at 4 and the name from 8 to 17, with
    padding between.  The module [Spec] is what a directory means, a finite
    map from names (their first [FileNameMaxLen] characters) to sectors. *)
From S2P Require Import Prelude Word Machine Disk BlockDevice FileHdr OpenFile.

Definition FileNameMaxLen : Z := 9.

(** A file name: the characters of a C string, without its end. *)
Definition name := list Z.
Definition wf_name (n : name) : Prop := Forall (λ c, 0 < c < 256) n.

(** ** [strncmp] and [strncpy], on an array of characters and a string *)

(** Whether [strncmp(a, b, n) == 0]. *)
Fixpoint strneq (n : nat) (a b : list Z) : bool :=
  match n with
  | O => true
  | S n' =>
      let ca := default 0 (head a) in
      let cb := default 0 (head b) in
      (ca =? cb) && ((ca =? 0) || strneq n' (tail a) (tail b))
  end.

(** The [n] characters that [strncpy(_, b, n)] stores. *)
Definition strncpy (n : nat) (b : list Z) : list Z := take n (b ++ replicate n 0).

(** The characters of an array up to its first zero, as [printf] shows it. *)
Fixpoint c_string (a : list Z) : list Z :=
  match a with
  | [] => []
  | c :: a' => if c =? 0 then [] else c :: c_string a'
  end.

(** ** The table *)

Record DirectoryEntry := MkEntry {
  inUse : Z;
  pad1 : list Z;
  sector_ : Z;
  name_ : list Z;
  pad2 : list Z
}.

Definition EntrySize : Z := 20.

Definition entry_bytes (e : DirectoryEntry) : list Z :=
  [inUse e] ++ pad1 e ++ bytes_le 4 (sector_ e) ++ name_ e ++ pad2 e.
Definition entry_of_bytes (bs : list Z) : DirectoryEntry :=
  MkEntry (default 0 (head bs)) (slice 1 3 bs) (s32 (of_le (slice 4 4 bs)))
    (slice 8 10 bs) (slice 18 2 bs).

Record Directory := MkDirectory { tableSize : Z; table : list DirectoryEntry }.

Definition dir_bytes (d : Directory) : list Z := concat (entry_bytes <$> table d).

Definition with_inUse (b : Z) (e : DirectoryEntry) : DirectoryEntry :=
  MkEntry b (pad1 e) (sector_ e) (name_ e) (pad2 e).

(** The constructor; [mem] is what [new DirectoryEntry[size]] holds. *)
Definition Directory_new (size : Z) (mem : list DirectoryEntry) : res Directory :=
  '(_, t) ← for_range 0 size (λ i t,
      e ← aread t i;
      t' ← awrite t i (with_inUse 0 e);
      Ok (tt, t')) mem;
  Ok (MkDirectory size t).

(** A loop over the entries that looks for the first with a property. *)
Fixpoint find_loop (p : DirectoryEntry → bool) (n : nat) (i : Z) (d : Directory) : res Z :=
  match n with
  | O => Ok (-1)
  | S n' =>
      e ← aread (table d) i;
      if p e then Ok i else find_loop p n' (i + 1) d
  end.

Definition FindIndex (nm : name) (d : Directory) : res Z :=
  find_loop (λ e, ctrue (inUse e) && strneq (Z.to_nat FileNameMaxLen) (name_ e) nm)
    (Z.to_nat (tableSize d)) 0 d.

Definition Find (nm : name) (d : Directory) : res Z :=
  i ← FindIndex nm d;
  if negb (i =? -1) then
    e ← aread (table d) i;
    Ok (sector_ e)
  else Ok (-1).

Definition Add (nm : name) (newSector : Z) : M Directory bool := λ d,
  i ← FindIndex nm d;
  if negb (i =? -1) then Ok (false, d)
  else
    i ← find_loop (λ e, negb (ctrue (inUse e))) (Z.to_nat (tableSize d)) 0 d;
    if i =? -1 then Ok (false, d)
    else
      e ← aread (table d) i;
      let chars := strncpy (Z.to_nat FileNameMaxLen) nm in
      t' ← awrite (table d) i
             (MkEntry 1 (pad1 e) newSector (splice 0 chars (name_ e)) (pad2 e));
      Ok (true, MkDirectory (tableSize d) t').

Definition Remove (nm : name) : M Directory bool := λ d,
  i ← FindIndex nm d;
  if i =? -1 then Ok (false, d)
  else
    e ← aread (table d) i;
    t' ← awrite (table d) i (with_inUse 0 e);
    Ok (true, MkDirectory (tableSize d) t').

(** The names [List] prints. *)
Definition List (d : Directory) : list (list Z) :=
  (λ e, c_string (name_ e)) <$> filter (λ e, ctrue (inUse e)) (table d).

Section on_files.
Context {S : Type} `{!BlockDevice S}.
Variable uninit : nat → Z.

(** The bytes read replace as much of the table. *)
Definition load_table (data : list Z) (d : Directory) : Directory :=
  let bs := data ++ drop (length data) (dir_bytes d) in
  MkDirectory (tableSize d)
    ((λ i, entry_of_bytes (slice (20 * i) 20 bs)) <$> seq 0 (length (table d))).

Definition FetchFrom (file : OpenFile) (d : Directory) : M S Directory :=
  '(n, data) ← ReadAt uninit file (tableSize d * EntrySize) 0;
  mret (load_table data d).

Definition WriteBack (file : OpenFile) (d : Directory) : M S unit :=
  WriteAt uninit file (dir_bytes d) (tableSize d * EntrySize) 0 ;;
  mret tt.

(** For each entry in use: its name, its sector, and its file. *)
Fixpoint Print_loop (es : list DirectoryEntry)
    : M S (list (list Z * Z * (Z * list Z * list (list Z)))) :=
  match es with
  | [] => mret []
  | e :: es' =>
      if ctrue (inUse e) then
        h ← FileHdr.FetchFrom (sector_ e);
        out ← FileHdr.Print h;
        rest ← Print_loop es';
        mret ((c_string (name_ e), sector_ e, out) :: rest)
      else Print_loop es'
  end.
Definition Print (d : Directory) : M S (list (list Z * Z * (Z * list Z * list (list Z)))) :=
  Print_loop (table d).
End on_files.

(** ** What a directory means *)

Module Spec.
Definition key (nm : name) : name := take (Z.to_nat FileNameMaxLen) nm.

(** At most [capacity] files. *)
Record dir := Dir { capacity : nat; files : gmap name Z }.

Definition Find (nm : name) (d : dir) : Z := default (-1) (files d !! key nm).

Definition Add (nm : name) (newSector : Z) (d : dir) : bool * dir :=
  match files d !! key nm with
  | Some _ => (false, d)
  | None =>
      if decide (size (files d) < capacity d)%nat
      then (true, Dir (capacity d) (<[key nm := newSector]> (files d)))
      else (false, d)
  end.

Definition Remove (nm : name) (d : dir) : bool * dir :=
  match files d !! key nm with
  | Some _ => (true, Dir (capacity d) (delete (key nm) (files d)))
  | None => (false, d)
  end.

Inductive op := OFind (nm : name) | OAdd (nm : name) (newSector : Z) | ORemove (nm : name).
Inductive ret := RInt (z : Z) | RBool (b : bool).

Definition run (o : op) (d : dir) : ret * dir :=
  match o with
  | OFind nm => (RInt (Find nm d), d)
  | OAdd nm sec => let '(b, d') := Add nm sec d in (RBool b, d')
  | ORemove nm => let '(b, d') := Remove nm d in (RBool b, d')
  end.

Fixpoint run_all (os : list op) (d : dir) : list ret * dir :=
  match os with
  | [] => ([], d)
  | o :: os' =>
      let '(r, d1) := run o d in
      let '(rs, d2) := run_all os' d1 in
      (r :: rs, d2)
  end.

(** The operations the code is given: names are strings, sectors [int]s. *)
Definition wf_op (o : op) : Prop :=
  match o with
  | OFind nm | ORemove nm => wf_name nm
  | OAdd nm sec => wf_name nm ∧ in_s32 sec
  end.
End Spec.

Definition run_op (o : Spec.op) : M Directory Spec.ret :=
  match o with
  | Spec.OFind nm => d ← get; z ← lift (Find nm d); mret (Spec.RInt z)
  | Spec.OAdd nm sec => b ← Add nm sec; mret (Spec.RBool b)
  | Spec.ORemove nm => b ← Remove nm; mret (Spec.RBool b)
  end.

Fixpoint run_all (os : list Spec.op) : M Directory (list Spec.ret) :=
  match os with
  | [] => mret []
  | o :: os' => r ← run_op o; rs ← run_all os'; mret (r :: rs)
  end.

(** ** Strings *)

Lemma strneq_spec n a b :
  wf_name b → strneq n a b = bool_decide (c_string (take n a) = take n b).
Proof.
  revert a b. induction n as [|n IH]; intros a b Hb; [done|].
  destruct a as [|x a], b as [|c b]; simpl; try done.
  - inversion_clear Hb. destruct c; [lia|done|done].
  - destruct (Z.eqb_spec x 0) as [->|]; [done|]. simpl. done.
  - inversion_clear Hb as [|? ? Hc Hb'].
    destruct (Z.eqb_spec x c) as [->|Hne]; simpl.
    + rewrite (proj2 (Z.eqb_neq c 0)) by lia. simpl. rewrite IH by done.
      apply bool_decide_ext. split; [by intros ->|by intros [= ->]].
    + symmetry. apply bool_decide_eq_false.
      destruct (Z.eqb_spec x 0); [done|]. by intros [= ? _].
Qed.

Lemma length_strncpy n b : length (strncpy n b) = n.
Proof. unfold strncpy. rewrite length_take, length_app, length_replicate. lia. Qed.

Lemma c_string_strncpy n b : wf_name b → c_string (strncpy n b) = take n b.
Proof.
  assert (∀ n m b, wf_name b → c_string (take n (b ++ replicate m 0)) = take n b) as H.
  { clear. intros n m. revert m. induction n as [|n IH]; intros m b Hb; [done|].
    destruct b as [|c b]; simpl.
    - by destruct m.
    - inversion_clear Hb. rewrite (proj2 (Z.eqb_neq c 0)) by lia. by rewrite IH. }
  intros Hb. by apply H.
Qed.

(** ** Well-formed directories and the maps they represent *)

Definition wf_entry (e : DirectoryEntry) : Prop :=
  byte_ok (inUse e) ∧ length (pad1 e) = 3%nat ∧ length (name_ e) = 10%nat
  ∧ length (pad2 e) = 2%nat ∧ in_s32 (sector_ e)
  ∧ Forall byte_ok (pad1 e ++ name_ e ++ pad2 e).

Definition wf_dir (d : Directory) : Prop :=
  tableSize d = zlen (table d) ∧ Forall wf_entry (table d).

Definition used (e : DirectoryEntry) : Prop := inUse e ≠ 0.
#[export] Instance used_dec e : Decision (used e).
Proof. unfold used. apply _. Defined.

Definition entry_key (e : DirectoryEntry) : name := c_string (take 9 (name_ e)).

Definition assoc (l : list DirectoryEntry) : list (name * Z) :=
  (λ e, (entry_key e, sector_ e)) <$> filter used l.

Definition repr (d : Directory) (s : Spec.dir) : Prop :=
  wf_dir d ∧ Spec.capacity s = length (table d) ∧ NoDup (assoc (table d)).*1
  ∧ Spec.files s = list_to_map (assoc (table d)).

Lemma ctrue_used e : ctrue (inUse e) = bool_decide (used e).
Proof.
  unfold ctrue, used. destruct (Z.eqb_spec (inUse e) 0); simpl.
  - symmetry. apply bool_decide_eq_false. intros H. by apply H.
  - symmetry. by apply bool_decide_eq_true.
Qed.

Lemma assoc_app l l' : assoc (l ++ l') = assoc l ++ assoc l'.
Proof. unfold assoc. by rewrite list.filter_app, fmap_app. Qed.
Lemma assoc_used e : used e → assoc [e] = [(entry_key e, sector_ e)].
Proof. intros H. unfold assoc. by rewrite filter_cons_True. Qed.
Lemma assoc_unused e : ¬ used e → assoc [e] = [].
Proof. intros H. unfold assoc. by rewrite filter_cons_False. Qed.
Lemma assoc_split l e l' : assoc (l ++ e :: l') = assoc l ++ assoc [e] ++ assoc l'.
Proof. by rewrite (assoc_app l (e :: l')), <- (assoc_app [e] l'). Qed.

(** What a search answers: the first entry with the property. *)
Lemma find_loop_spec (p : DirectoryEntry → bool) d n l1 l2 :
  table d = l1 ++ l2 → n = length l2 → Forall (λ e, p e = false) l1 →
  (find_loop p n (zlen l1) d = Ok (-1) ∧ Forall (λ e, p e = false) (table d))
  ∨ ∃ l e l', table d = l ++ e :: l' ∧ find_loop p n (zlen l1) d = Ok (zlen l)
      ∧ p e = true ∧ Forall (λ e, p e = false) l.
Proof.
  revert n l1. induction l2 as [|e l2 IH]; intros n l1 Ht -> Hl1.
  - left. rewrite Ht, app_nil_r. done.
  - simpl find_loop. assert (aread (table d) (zlen l1) = Ok e) as Hg.
    { apply aread_Ok. unfold aget, zlen. rewrite (proj2 (Z.leb_le 0 _)) by lia.
      rewrite Nat2Z.id, Ht. by rewrite list_lookup_middle. }
    rewrite Hg. csimpl. destruct (p e) eqn:E.
    + right. exists l1, e, l2. done.
    + replace (zlen l1 + 1) with (zlen (l1 ++ [e])) by (unfold zlen; rewrite length_app; simpl; lia).
      apply IH; [by rewrite <- app_assoc|done|]. apply list.Forall_app. by repeat constructor.
Qed.

Lemma zlen_neq {A} (l : list A) : (zlen l =? -1) = false.
Proof. apply Z.eqb_neq. unfold zlen. lia. Qed.

Section operations.
Implicit Types (d : Directory) (s : Spec.dir) (nm : name).

Definition matching nm (e : DirectoryEntry) : bool :=
  ctrue (inUse e) && strneq (Z.to_nat FileNameMaxLen) (name_ e) nm.

Lemma matching_spec nm e :
  wf_name nm → matching nm e = true ↔ used e ∧ entry_key e = Spec.key nm.
Proof.
  intros Hn. unfold matching. rewrite ctrue_used, strneq_spec by done.
  rewrite andb_true_iff, !bool_decide_eq_true. done.
Qed.

Lemma assoc_not_in nm l :
  wf_name nm → Forall (λ e, matching nm e = false) l → Spec.key nm ∉ (assoc l).*1.
Proof.
  intros Hn Hl. unfold assoc. rewrite <- list_fmap_compose, list_elem_of_fmap.
  intros (e & Hk & [Hu Hin]%list_elem_of_filter).
  rewrite list.Forall_forall in Hl. specialize (Hl e Hin).
  assert (matching nm e = true) by (by apply matching_spec). congruence.
Qed.

(** The two ends of a search for a name. *)
Lemma FindIndex_spec d s nm :
  repr d s → wf_name nm →
  (FindIndex nm d = Ok (-1) ∧ Spec.files s !! Spec.key nm = None
     ∧ Spec.key nm ∉ (assoc (table d)).*1)
  ∨ ∃ l e l', table d = l ++ e :: l' ∧ FindIndex nm d = Ok (zlen l) ∧ used e
      ∧ entry_key e = Spec.key nm ∧ Spec.files s !! Spec.key nm = Some (sector_ e).
Proof.
  intros ((Hsz & Hwf) & Hcap & Hnd & Hfiles) Hn.
  destruct (find_loop_spec (matching nm) d (Z.to_nat (tableSize d)) [] (table d))
    as [[Hrun Hno]|(l & e & l' & Ht & Hrun & Hm & _)]; [done| |by constructor| |].
  { rewrite Hsz. unfold zlen. lia. }
  - left. pose proof (assoc_not_in nm _ Hn Hno) as Hni. split; [done|]. split; [|done].
    rewrite Hfiles. by apply not_elem_of_list_to_map_1.
  - right. apply matching_spec in Hm as [Hu Hk]; [|done].
    exists l, e, l'. split; [done|]. split; [done|]. split; [done|]. split; [done|].
    rewrite Hfiles. apply elem_of_list_to_map_1; [done|]. rewrite Ht, assoc_split, assoc_used by done.
    rewrite Hk. set_solver.
Qed.

Lemma Find_spec d s nm : repr d s → wf_name nm → Find nm d = Ok (Spec.Find nm s).
Proof.
  intros Hr Hn. unfold Find, Spec.Find.
  destruct (FindIndex_spec d s nm Hr Hn) as [(-> & -> & _)|(l & e & l' & Ht & -> & _ & _ & ->)].
  - done.
  - csimpl. rewrite zlen_neq. simpl. by rewrite Ht, aread_middle.
Qed.

Lemma wf_dir_update d l e l' e' :
  wf_dir d → table d = l ++ e :: l' → wf_entry e' →
  wf_dir (MkDirectory (tableSize d) (l ++ e' :: l')).
Proof.
  intros [Hsz Hwf] Ht He. rewrite Ht in *. split; simpl.
  - rewrite Hsz. unfold zlen. by rewrite !length_app.
  - apply list.Forall_app in Hwf as [H1 H2]. inversion_clear H2.
    apply list.Forall_app. split; [done|]. by constructor.
Qed.

Lemma wf_entry_inUse b e : byte_ok b → wf_entry e → wf_entry (with_inUse b e).
Proof. intros Hb (_ & H). by split. Qed.

Lemma wf_entry_middle d l e l' : wf_dir d → table d = l ++ e :: l' → wf_entry e.
Proof.
  intros [_ Hwf] Ht. rewrite Ht in Hwf. apply list.Forall_app in Hwf as [_ Hwf].
  by inversion Hwf.
Qed.

(** The bytes of a name in its entry. *)
Definition named nm (e : DirectoryEntry) : list Z :=
  splice 0 (strncpy (Z.to_nat FileNameMaxLen) nm) (name_ e).

Lemma named_length nm e : wf_entry e → length (named nm e) = 10%nat.
Proof.
  intros (_ & _ & H & _). unfold named. rewrite length_splice; [done|].
  rewrite length_strncpy, H. change (Z.to_nat FileNameMaxLen) with 9%nat. lia.
Qed.

Lemma wf_named nm e : wf_entry e → wf_name nm → Forall byte_ok (named nm e).
Proof.
  intros (_ & _ & _ & _ & _ & H) Hn. unfold named. apply Forall_splice.
  - unfold strncpy. apply Forall_take, list.Forall_app. split.
    + eapply list.Forall_impl; [exact Hn|]. unfold byte_ok. simpl. lia.
    + by apply Forall_replicate.
  - apply list.Forall_app in H as [_ H]. by apply list.Forall_app in H as [H _].
Qed.

Lemma named_key nm b p1 sec p2 e :
  wf_name nm → entry_key (MkEntry b p1 sec (named nm e) p2) = Spec.key nm.
Proof.
  intros Hn. unfold entry_key, named, Spec.key. simpl name_.
  rewrite <- (c_string_strncpy (Z.to_nat FileNameMaxLen) nm Hn). f_equal.
  unfold splice. rewrite take_0, app_nil_l. apply take_app_length'.
  by rewrite length_strncpy.
Qed.

Lemma Add_spec d s nm sec :
  repr d s → wf_name nm → in_s32 sec →
  ∃ d', Add nm sec d = Ok ((Spec.Add nm sec s).1, d') ∧ repr d' (Spec.Add nm sec s).2.
Proof.
  intros Hr Hn Hsec. unfold Add, Spec.Add.
  destruct (FindIndex_spec d s nm Hr Hn) as [(-> & -> & Hni)|(l & e & l' & Ht & -> & _ & _ & ->)].
  2: { csimpl. rewrite zlen_neq. simpl. by exists d. }
  csimpl. destruct Hr as ((Hsz & Hwf) & Hcap & Hnd & Hfiles).
  assert (size (Spec.files s) = length (filter used (table d))) as Hsize.
  { rewrite Hfiles, map_size_list_to_map by done. unfold assoc. by rewrite length_fmap. }
  destruct (find_loop_spec (λ e, negb (ctrue (inUse e))) d (Z.to_nat (tableSize d)) [] (table d))
    as [[Hrun Hno]|(l & e & l' & Ht & Hrun & Hm & _)]; [done| |by constructor| |].
  { rewrite Hsz. unfold zlen. lia. }
  - change (zlen (@nil DirectoryEntry)) with 0 in Hrun. rewrite Hrun. csimpl.
    rewrite decide_False; [by exists d|].
    rewrite Hsize, Hcap, filter_all; [lia|].
    eapply list.Forall_impl; [exact Hno|]. intros e He. simpl in He.
    rewrite ctrue_used in He. by apply negb_false_iff, bool_decide_eq_true in He.
  - change (zlen (@nil DirectoryEntry)) with 0 in Hrun. rewrite Hrun. csimpl.
    rewrite zlen_neq, Ht, aread_middle. csimpl. rewrite awrite_middle. csimpl.
    assert (¬ used e) as Hnu.
    { rewrite ctrue_used in Hm. by apply negb_true_iff, bool_decide_eq_false in Hm. }
    assert (wf_entry e) as He by (by eapply wf_entry_middle).
    fold (named nm e). set (e' := MkEntry 1 (pad1 e) sec (named nm e) (pad2 e)).
    assert (wf_entry e') as He'.
    { pose proof He as (_ & Hp1 & _ & Hp2 & _ & Hby). unfold e'. split; [done|].
      split; [done|]. split; [by apply named_length|]. split; [done|]. split; [done|].
      cbn [pad1 name_ pad2]. rewrite !list.Forall_app in Hby |- *.
      destruct Hby as (? & _ & ?). split; [done|]. split; [by apply wf_named|done]. }
    assert (assoc (l ++ e' :: l') ≡ₚ (Spec.key nm, sec) :: assoc (table d)) as Hperm.
    { rewrite Ht, !assoc_split, (assoc_unused e), (assoc_used e') by done.
      unfold e'. rewrite named_key by done. simpl. by rewrite Permutation_middle. }
    rewrite decide_True.
    2: { rewrite Hsize, Hcap, Ht, !list.filter_app, filter_cons_False by done.
         rewrite !length_app. simpl.
         pose proof (length_filter used l). pose proof (length_filter used l'). lia. }
    eexists. split; [done|]. split; [by eapply wf_dir_update|]. simpl. split.
    { rewrite Hcap, Ht. by rewrite !length_app. }
    assert (NoDup (assoc (l ++ e' :: l')).*1) as Hnd'.
    { rewrite Hperm. simpl. by apply list.NoDup_cons. }
    split; [done|]. rewrite (list_to_map_proper _ _ Hnd' Hperm). simpl. by rewrite Hfiles.
Qed.

Lemma Remove_spec d s nm :
  repr d s → wf_name nm →
  ∃ d', Remove nm d = Ok ((Spec.Remove nm s).1, d') ∧ repr d' (Spec.Remove nm s).2.
Proof.
  intros Hr Hn. unfold Remove, Spec.Remove.
  destruct (FindIndex_spec d s nm Hr Hn) as [(-> & -> & _)|(l & e & l' & Ht & -> & Hu & Hk & ->)].
  - csimpl. by exists d.
  - csimpl. rewrite zlen_neq, Ht, aread_middle. csimpl. rewrite awrite_middle. csimpl.
    destruct Hr as (Hwf & Hcap & Hnd & Hfiles).
    set (e' := with_inUse 0 e).
    assert (wf_entry e') as He' by (apply wf_entry_inUse; [done|by eapply wf_entry_middle]).
    assert (assoc (table d) ≡ₚ (Spec.key nm, sector_ e) :: assoc (l ++ e' :: l')) as Hperm.
    { rewrite Ht, !assoc_split, (assoc_used e), (assoc_unused e') by (done || by intros []).
      rewrite Hk. simpl. by rewrite Permutation_middle. }
    eexists. split; [done|]. split; [by eapply wf_dir_update|]. simpl. split.
    { rewrite Hcap, Ht. by rewrite !length_app. }
    rewrite Hperm in Hnd. simpl in Hnd. apply list.NoDup_cons in Hnd as [Hni Hnd].
    split; [done|]. rewrite Hfiles.
    rewrite (list_to_map_proper (assoc (table d)) _ ltac:(rewrite Hperm; by apply list.NoDup_cons) Hperm).
    simpl. rewrite delete_insert_id; [done|]. by apply not_elem_of_list_to_map_1.
Qed.
End operations.

(** ** Refinement *)

Lemma Directory_new_Ok size mem :
  zlen mem = size →
  Directory_new size mem = Ok (MkDirectory size (with_inUse 0 <$> mem)).
Proof.
  intros Hsz. unfold Directory_new.
  assert (wp (for_range 0 size (λ i t,
      e ← aread t i; t' ← awrite t i (with_inUse 0 e); Ok (tt, t'))) mem
    (λ _ t, t = with_inUse 0 <$> mem)) as H.
  { eapply wp_mono.
    - apply (wp_for_range (λ i t, t = (with_inUse 0 <$> take (Z.to_nat i) mem) ++ drop (Z.to_nat i) mem)).
      + unfold zlen in Hsz. lia.
      + done.
      + intros i t Hi ->. unfold zlen in Hsz.
        destruct (lookup_lt_is_Some_2 mem (Z.to_nat i)) as [e He]; [lia|].
        rewrite (drop_S _ _ _ He).
        set (l := with_inUse 0 <$> take (Z.to_nat i) mem).
        assert (zlen l = i) as Hl
          by (unfold l, zlen; rewrite length_fmap, length_take; lia).
        pose proof (aread_middle l (drop (Datatypes.S (Z.to_nat i)) mem) e) as Hg.
        pose proof (awrite_middle l (drop (Datatypes.S (Z.to_nat i)) mem) e (with_inUse 0 e)) as Hw.
        rewrite Hl in Hg, Hw. unfold wp. rewrite Hg. csimpl. rewrite Hw. csimpl.
        replace (Z.to_nat (i + 1)) with (Datatypes.S (Z.to_nat i)) by lia.
        rewrite (take_S_r _ _ _ He), fmap_app, <- app_assoc. done.
    - intros [] t ->. unfold zlen in Hsz. rewrite firstn_all2, drop_ge, app_nil_r by lia. done. }
  apply wp_elim in H as ([] & t & Hrun & ->). by rewrite Hrun.
Qed.

Lemma Directory_new_repr size mem :
  zlen mem = size → Forall wf_entry mem →
  ∃ d, Directory_new size mem = Ok d ∧ repr d (Spec.Dir (length mem) ∅).
Proof.
  intros Hsz Hwf. rewrite (Directory_new_Ok _ _ Hsz). eexists. split; [done|].
  assert (assoc (with_inUse 0 <$> mem) = []) as Ha.
  { unfold assoc. rewrite filter_none; [done|].
    intros e (e' & -> & _)%list_elem_of_fmap Hu. by apply Hu. }
  split; [split; simpl|].
  - unfold zlen in *. by rewrite length_fmap.
  - apply list.Forall_fmap. eapply list.Forall_impl; [exact Hwf|].
    intros e He. by apply wf_entry_inUse.
  - simpl. rewrite length_fmap, Ha. split; [done|]. split; [by constructor|done].
Qed.

Lemma run_op_refines d s o :
  repr d s → Spec.wf_op o →
  ∃ d', run_op o d = Ok ((Spec.run o s).1, d') ∧ repr d' (Spec.run o s).2.
Proof.
  intros Hr Ho. destruct o as [nm|nm sec|nm]; simpl in *.
  - rewrite (M_bind_step _ _ d d d) by done. exists d.
    rewrite (M_bind_step _ _ d (Spec.Find nm s) d)
      by (unfold lift; by rewrite (Find_spec d s)). done.
  - destruct Ho as [Hn Hs]. destruct (Add_spec d s nm sec Hr Hn Hs) as (d' & Hrun & Hr').
    exists d'. rewrite (M_bind_step _ _ _ _ _ Hrun). by destruct (Spec.Add nm sec s).
  - destruct (Remove_spec d s nm Hr Ho) as (d' & Hrun & Hr').
    exists d'. rewrite (M_bind_step _ _ _ _ _ Hrun). by destruct (Spec.Remove nm s).
Qed.

(** C28.  Every sequence of operations on a new directory, whatever
    its memory held, behaves as on a finite map from names, cut to nine
    characters, to sectors: [Find] answers the sector of a name or -1, [Add]
    refuses a name that is there or a full table, [Remove] a name that is
    not there. *)
Theorem directory_run_all_refines size mem os
    (Hsize : zlen mem = size) (Hmem : Forall wf_entry mem) (Hos : Forall Spec.wf_op os) :
  ∃ d d', Directory_new size mem = Ok d
    ∧ run_all os d = Ok ((Spec.run_all os (Spec.Dir (Z.to_nat size) ∅)).1, d')
    ∧ repr d' (Spec.run_all os (Spec.Dir (Z.to_nat size) ∅)).2.
Proof.
  destruct (Directory_new_repr size mem Hsize Hmem) as (d & Hnew & Hr).
  exists d. replace (length mem) with (Z.to_nat size) in Hr by (unfold zlen in Hsize; lia).
  revert Hr. generalize (Spec.Dir (Z.to_nat size) ∅) as s. intros s Hr.
  enough (∃ d', run_all os d = Ok ((Spec.run_all os s).1, d') ∧ repr d' (Spec.run_all os s).2)
    as (d' & H1 & H2) by eauto.
  clear Hnew. revert d s Hr. induction Hos as [|o os Ho Hos IH]; intros d s Hr; [by exists d|].
  destruct (run_op_refines d s o Hr Ho) as (d1 & H1 & Hr1). simpl.
  destruct (Spec.run o s) as [r s1]. simpl in H1, Hr1.
  destruct (IH d1 s1 Hr1) as (d2 & H2 & Hr2).
  destruct (Spec.run_all os s1) as [rs s2]. simpl in H2, Hr2.
  exists d2. rewrite (M_bind_step _ _ _ _ _ H1), (M_bind_step _ _ _ _ _ H2). done.
Qed.

(** ** Directories in files *)

Lemma length_entry_bytes e : wf_entry e → length (entry_bytes e) = 20%nat.
Proof.
  intros (_ & H1 & H2 & H3 & _). unfold entry_bytes.
  rewrite !length_app, length_bytes_le, H1, H2, H3. done.
Qed.

Lemma entry_of_bytes_entry_bytes e : wf_entry e → entry_of_bytes (entry_bytes e) = e.
Proof.
  intros (_ & H1 & H2 & H3 & Hs & _). destruct e as [b p1 sec nm p2]. simpl in *.
  unfold entry_of_bytes, entry_bytes. simpl inUse. simpl pad1. simpl sector_. simpl name_.
  simpl pad2. f_equal.
  - unfold slice. change ([b] ++ ?x) with (b :: x). simpl drop. rewrite drop_0.
    by apply take_app_length'.
  - assert (slice 4 4 ([b] ++ p1 ++ bytes_le 4 sec ++ nm ++ p2) = bytes_le 4 sec) as ->.
    { unfold slice. rewrite app_assoc, drop_app_length' by (simpl; lia).
      apply take_app_length'. by rewrite length_bytes_le. }
    rewrite of_le_bytes_le. change (256 ^ Z.of_nat 4) with (2 ^ 32).
    change (sec mod 2 ^ 32) with (u32 sec). by rewrite s32_u32, s32_id.
  - unfold slice. rewrite 2!app_assoc, drop_app_length'
      by (rewrite !length_app, length_bytes_le; simpl; lia).
    by apply take_app_length'.
  - unfold slice. rewrite 3!app_assoc, drop_app_length'
      by (rewrite !length_app, length_bytes_le; simpl; lia).
    rewrite <- H3. apply firstn_all.
Qed.

Lemma dir_bytes_uniform d : wf_dir d → uniform 20 (entry_bytes <$> table d).
Proof.
  intros [_ Hwf]. unfold uniform. apply list.Forall_fmap.
  eapply list.Forall_impl; [exact Hwf|]. intros e He. by apply length_entry_bytes.
Qed.

Lemma length_dir_bytes d : wf_dir d → zlen (dir_bytes d) = tableSize d * EntrySize.
Proof.
  intros Hd. unfold zlen, dir_bytes. rewrite (length_concat_uniform 20) by by apply dir_bytes_uniform.
  destruct Hd as [-> _]. rewrite length_fmap. unfold zlen, EntrySize. lia.
Qed.

Lemma dir_bytes_ok d : wf_dir d → Forall byte_ok (dir_bytes d).
Proof.
  intros [_ Hwf]. unfold dir_bytes. apply Forall_concat, list.Forall_fmap.
  eapply list.Forall_impl; [exact Hwf|]. intros e (Hb & _ & _ & _ & _ & Hby).
  simpl. unfold entry_bytes. rewrite !list.Forall_app in *.
  destruct Hby as (? & ? & ?). split; [by constructor|]. split; [done|].
  split; [apply bytes_le_ok|]. done.
Qed.

Lemma load_table_dir_bytes d d0 :
  wf_dir d → wf_dir d0 → tableSize d0 = tableSize d → load_table (dir_bytes d) d0 = d.
Proof.
  intros Hd Hd0 Hsz. unfold load_table.
  pose proof (length_dir_bytes d Hd) as Hl. pose proof (length_dir_bytes d0 Hd0) as Hl0.
  rewrite drop_ge by (unfold zlen in *; lia). rewrite app_nil_r.
  destruct Hd0 as [Ht0 _]. pose proof Hd as [Ht Hwf].
  destruct d as [n l]. simpl in *. f_equal; [done|].
  replace (length (table d0)) with (length l) by (unfold zlen in *; lia).
  apply list_eq. intros i. rewrite list_lookup_fmap.
  destruct (decide (i < length l)%nat) as [Hi|Hi].
  - rewrite lookup_seq_lt by done. simpl.
    destruct (lookup_lt_is_Some_2 l i Hi) as [e He]. rewrite He. f_equal.
    change (0 + i)%nat with i. unfold dir_bytes. simpl.
    rewrite (slice_concat_uniform 20 _ i (entry_bytes e)).
    + apply entry_of_bytes_entry_bytes. by eapply list.Forall_lookup in Hwf.
    + apply (dir_bytes_uniform _ Hd).
    + by rewrite list_lookup_fmap, He.
  - rewrite lookup_seq_ge by lia. rewrite lookup_ge_None_2 by lia. done.
Qed.

(** The tenth character of an entry is never written, neither by the
    constructor nor by [strncpy]: after [Add] of a name of nine characters,
    [List] prints what was in memory behind them. *)
Theorem List_unterminated_name :
  ∃ mem nm d d', Directory_new 1 mem = Ok d ∧ wf_name nm ∧ length nm = 9%nat
    ∧ Add nm 5 d = Ok (true, d') ∧ List d' = [nm ++ [88]].
Proof.
  set (e := MkEntry 0 [0; 0; 0] 0 (replicate 9 0 ++ [88]) [0; 0]).
  set (nm := replicate 9 97).
  exists [e], nm, (MkDirectory 1 [e]),
    (MkDirectory 1 [MkEntry 1 [0; 0; 0] 5 (nm ++ [88]) [0; 0]]).
  split; [reflexivity|]. split; [by apply Forall_replicate|].
  split; [reflexivity|]. split; reflexivity.
Qed.
