(* ===== verification/FileSys.v ===== *)
(** * filesys/filesys.cc: the file system

    A directory and a map of the free sectors, both in files of their own,
    whose headers are in sectors 0 and 1 and whose open files the file system
    keeps.  Every operation reads the directory and the map from the disk,
    works on them in memory and writes them back.

    What freshly allocated memory holds is a parameter, the record
    [memory]: [uninit] for buffers, [uninit_map], [uninit_dir] and
    [uninit_hdr] for bit maps, directories and headers. *)
From S2P Require Import Prelude Word Bitmap Machine Disk BlockDevice FileHdr OpenFile Directory.

Definition FreeMapSector : Z := 0.
Definition DirectorySector : Z := 1.
Definition FreeMapFileSize : Z := NumSectors / BitsInByte.
Definition NumDirEntries : Z := 10.
Definition DirectoryFileSize : Z := EntrySize * NumDirEntries.

Record FileSystem := MkFileSystem { freeMapFile : OpenFile; directoryFile : OpenFile }.

(** What [new] returns for each of the types. *)
Record memory := Memory {
  fresh_bytes : nat → Z;
  fresh_words : list Z;
  fresh_entries : list DirectoryEntry;
  fresh_header : FileHeader
}.

(** Fresh memory has the size that was asked for and holds bytes. *)
Class FreshMemory (mem : memory) : Prop := {
  uninit_ok i : byte_ok (fresh_bytes mem i);
  uninit_map_ok : zlen (fresh_words mem) = 32 ∧ Forall in_u32 (fresh_words mem);
  uninit_dir_ok : zlen (fresh_entries mem) = NumDirEntries ∧ Forall wf_entry (fresh_entries mem);
  uninit_hdr_ok : zlen (dataSectors (fresh_header mem)) = NumDirect
                  ∧ Forall in_s32 (dataSectors (fresh_header mem))
}.

Section filesys.
Context {S : Type} `{!BlockDevice S}.
Variable mem : memory.
#[local] Abbreviation uninit := (fresh_bytes mem).
#[local] Abbreviation uninit_map := (fresh_words mem).
#[local] Abbreviation uninit_dir := (fresh_entries mem).
#[local] Abbreviation uninit_hdr := (fresh_header mem).

(** An operation on the bit map [b]: its answer and the bit map after it. *)
Definition on_map {A} (m : M Impl.BitMap A) (b : Impl.BitMap) : M S (A * Impl.BitMap) :=
  lift (m b).
Definition on_dir {A} (m : M Directory A) (d : Directory) : M S (A * Directory) :=
  lift (m d).

(** userprog/bitmap.cc, [FetchFrom] and [WriteBack]. *)
Definition BitMap_FetchFrom (file : OpenFile) (b : Impl.BitMap) : M S Impl.BitMap :=
  '(n, data) ← ReadAt uninit file (Impl.numWords b * 4) 0;
  mret (Impl.load_bytes data b).
Definition BitMap_WriteBack (file : OpenFile) (b : Impl.BitMap) : M S unit :=
  WriteAt uninit file (Impl.bytes_of b) (Impl.numWords b * 4) 0 ;;
  mret tt.

Definition new_map : M S Impl.BitMap := lift (Impl.BitMap_new NumSectors uninit_map).
Definition new_dir : M S Directory := lift (Directory_new NumDirEntries uninit_dir).

Definition open_system_files : M S FileSystem :=
  f ← OpenFile_new FreeMapSector;
  d ← OpenFile_new DirectorySector;
  mret (MkFileSystem f d).

Definition FileSystem_new (format : bool) : M S FileSystem :=
  if format then
    freeMap ← new_map;
    directory ← new_dir;
    '(_, freeMap) ← on_map (Impl.Mark FreeMapSector) freeMap;
    '(_, freeMap) ← on_map (Impl.Mark DirectorySector) freeMap;
    '((ok, mapHdr), freeMap) ← on_map (Allocate FreeMapFileSize uninit_hdr) freeMap;
    lift (ASSERT ok) ;;
    '((ok, dirHdr), freeMap) ← on_map (Allocate DirectoryFileSize uninit_hdr) freeMap;
    lift (ASSERT ok) ;;
    FileHdr.WriteBack mapHdr FreeMapSector ;;
    FileHdr.WriteBack dirHdr DirectorySector ;;
    fs ← open_system_files;
    BitMap_WriteBack (freeMapFile fs) freeMap ;;
    Directory.WriteBack uninit (directoryFile fs) directory ;;
    mret fs
  else open_system_files.

Definition Create (nm : name) (initialSize : Z) (fs : FileSystem) : M S bool :=
  directory ← new_dir;
  directory ← Directory.FetchFrom uninit (directoryFile fs) directory;
  i ← lift (Directory.Find nm directory);
  if negb (i =? -1) then mret false
  else
    freeMap ← new_map;
    freeMap ← BitMap_FetchFrom (freeMapFile fs) freeMap;
    '(sector, freeMap) ← on_map Impl.Find freeMap;
    if sector =? -1 then mret false
    else
      '(added, directory) ← on_dir (Directory.Add nm sector) directory;
      if negb added then mret false
      else
        '((ok, hdr), freeMap) ← on_map (Allocate initialSize uninit_hdr) freeMap;
        if negb ok then mret false
        else
          FileHdr.WriteBack hdr sector ;;
          Directory.WriteBack uninit (directoryFile fs) directory ;;
          BitMap_WriteBack (freeMapFile fs) freeMap ;;
          mret true.

Definition Open (nm : name) (fs : FileSystem) : M S (option OpenFile) :=
  directory ← new_dir;
  directory ← Directory.FetchFrom uninit (directoryFile fs) directory;
  sector ← lift (Directory.Find nm directory);
  if 0 <=? sector then
    f ← OpenFile_new sector;
    mret (Some f)
  else mret None.

Definition Remove (nm : name) (fs : FileSystem) : M S bool :=
  directory ← new_dir;
  directory ← Directory.FetchFrom uninit (directoryFile fs) directory;
  sector ← lift (Directory.Find nm directory);
  if sector =? -1 then mret false
  else
    fileHdr ← FileHdr.FetchFrom sector;
    freeMap ← new_map;
    freeMap ← BitMap_FetchFrom (freeMapFile fs) freeMap;
    '(_, freeMap) ← on_map (Deallocate fileHdr) freeMap;
    '(_, freeMap) ← on_map (Impl.Clear sector) freeMap;
    '(_, directory) ← on_dir (Directory.Remove nm) directory;
    BitMap_WriteBack (freeMapFile fs) freeMap ;;
    Directory.WriteBack uninit (directoryFile fs) directory ;;
    mret true.

Definition List (fs : FileSystem) : M S (list (list Z)) :=
  directory ← new_dir;
  directory ← Directory.FetchFrom uninit (directoryFile fs) directory;
  mret (Directory.List directory).

(** Both headers with their files, the marked sectors and the directory. *)
Definition Print (fs : FileSystem) :=
  bitHdr ← FileHdr.FetchFrom FreeMapSector;
  out1 ← FileHdr.Print bitHdr;
  dirHdr ← FileHdr.FetchFrom DirectorySector;
  out2 ← FileHdr.Print dirHdr;
  freeMap ← new_map;
  freeMap ← BitMap_FetchFrom (freeMapFile fs) freeMap;
  '(out3, _) ← on_map Impl.Print freeMap;
  directory ← new_dir;
  directory ← Directory.FetchFrom uninit (directoryFile fs) directory;
  out4 ← Directory.Print directory;
  mret (out1, out2, out3, out4).
End filesys.

(** ** The disk of a file system *)

Section representation.
Context {S : Type} `{!BlockDevice S}.
Implicit Types (s : S) (fs : FileSystem) (files : gmap name Z) (marked : gset Z).

(** The header in a sector, and the sectors of its file. *)
Definition file_at s (sec : Z) : FileHeader := hdr_of_bytes (sector s sec).
Definition owned s (sec : Z) : list Z := sec :: file_sectors (file_at s sec).

(** The sectors of the file system's own files, and those of the others. *)
Definition system_sectors fs : list Z :=
  FreeMapSector :: DirectorySector
  :: file_sectors (hdr (freeMapFile fs)) ++ file_sectors (hdr (directoryFile fs)).
Definition user_sectors s files : list Z := concat (owned s <$> (map_to_list files).*2).

(** [marked] are the sectors in use, [files] the sectors of the headers. *)
Record fs_inv s fs marked files : Prop := {
  inv_ready : ready s;
  inv_map_hdr : wf_file (hdr (freeMapFile fs))
                ∧ numBytes (hdr (freeMapFile fs)) = FreeMapFileSize
                ∧ sector s FreeMapSector = hdr_bytes (hdr (freeMapFile fs));
  inv_dir_hdr : wf_file (hdr (directoryFile fs))
                ∧ numBytes (hdr (directoryFile fs)) = DirectoryFileSize
                ∧ sector s DirectorySector = hdr_bytes (hdr (directoryFile fs));
  inv_map : ∃ b, Impl.repr b (Bitmap.Spec.Bits NumSectors marked)
                 ∧ file_bytes s (hdr (freeMapFile fs)) = Impl.bytes_of b;
  inv_dir : ∃ d, Directory.repr d (Directory.Spec.Dir 10 files)
                 ∧ file_bytes s (hdr (directoryFile fs)) = dir_bytes d;
  inv_files : ∀ k sec, files !! k = Some sec → 0 ≤ sec < NumSectors ∧ wf_file (file_at s sec);
  inv_nodup : NoDup (system_sectors fs ++ user_sectors s files);
  inv_marked : marked = list_to_set (system_sectors fs ++ user_sectors s files)
}.

(** What a file system stores: the contents of every file, by name. *)
Definition fs_repr s fs (m : gmap name (list Z)) : Prop :=
  ∃ marked files, fs_inv s fs marked files
    ∧ m = (λ sec, file_bytes s (file_at s sec)) <$> files.

Lemma elem_of_user_sectors s files x :
  x ∈ user_sectors s files ↔ ∃ k sec, files !! k = Some sec ∧ x ∈ owned s sec.
Proof.
  unfold user_sectors. rewrite elem_of_concat. split.
  - intros (l & Hx & (sec & -> & Hin)%list_elem_of_fmap).
    apply list_elem_of_fmap in Hin as ([k sec'] & -> & Hin).
    exists k, sec'. split; [by apply elem_of_map_to_list|done].
  - intros (k & sec & Hf & Hx). exists (owned s sec). split; [done|].
    apply list_elem_of_fmap. exists sec. split; [done|].
    apply list_elem_of_fmap. exists (k, sec). split; [done|]. by apply elem_of_map_to_list.
Qed.

Lemma in_use_range s fs marked files x :
  fs_inv s fs marked files → x ∈ system_sectors fs ++ user_sectors s files → 0 ≤ x < NumSectors.
Proof.
  intros Hi Hx. destruct (inv_map _ _ _ _ Hi) as (b & (_ & Hsz & Hdom & _) & _).
  simpl in *. rewrite Hsz. apply Hdom. rewrite (inv_marked _ _ _ _ Hi).
  by apply elem_of_list_to_set.
Qed.

(** The sectors of a file are none of the file system's own, and no other
    file's. *)
Lemma owned_not_system s fs marked files k sec x :
  fs_inv s fs marked files → files !! k = Some sec → x ∈ owned s sec →
  x ∉ system_sectors fs.
Proof.
  intros Hi Hk Hx Hs. pose proof (inv_nodup _ _ _ _ Hi) as Hnd.
  apply list.NoDup_app in Hnd as (_ & Hdisj & _). apply (Hdisj x Hs).
  apply elem_of_user_sectors. eauto.
Qed.

Lemma user_sectors_ext s s' files :
  (∀ k sec, files !! k = Some sec → file_at s' sec = file_at s sec) →
  user_sectors s' files = user_sectors s files.
Proof.
  intros H. unfold user_sectors. f_equal. apply list_fmap_ext. intros i sec Hi.
  apply list_elem_of_lookup_2, list_elem_of_fmap in Hi as ([k sec'] & -> & Hin).
  apply elem_of_map_to_list in Hin. unfold owned. by rewrite (H k).
Qed.

Lemma file_at_same s s' sec : same_sectors s s' → 0 ≤ sec < NumSectors → file_at s' sec = file_at s sec.
Proof. intros H Hs. unfold file_at. by rewrite (H sec Hs). Qed.

(** Nothing depends on more than the sectors. *)
Lemma fs_inv_same s s' fs marked files :
  same_sectors s s' → ready s' → fs_inv s fs marked files → fs_inv s' fs marked files.
Proof.
  intros Hsame Hr' Hi. pose proof Hi as [Hr Hm Hd Hb Hdir Hf Hnd Hmk].
  assert (∀ k sec, files !! k = Some sec → file_at s' sec = file_at s sec) as Hat.
  { intros k sec Hk. apply (file_at_same _ _ _ Hsame). by destruct (Hf k sec Hk). }
  split; rewrite ?(user_sectors_ext s s') by done; try done.
  - rewrite <- (Hsame FreeMapSector) by done. done.
  - rewrite <- (Hsame DirectorySector) by done. done.
  - destruct Hb as (b & ? & Hb). exists b. split; [done|].
    rewrite <- (file_bytes_same s s'); [done|tauto|done].
  - destruct Hdir as (d & ? & Hdir). exists d. split; [done|].
    rewrite <- (file_bytes_same s s'); [done|tauto|done].
  - intros k sec Hk. rewrite (Hat k sec Hk). by apply (Hf k).
Qed.

Lemma fs_repr_same s s' fs m : same_sectors s s' → ready s' → fs_repr s fs m → fs_repr s' fs m.
Proof.
  intros Hsame Hr (marked & files & Hi & ->). exists marked, files.
  split; [by eapply fs_inv_same|]. apply map_fmap_ext. intros k sec Hk.
  destruct (inv_files _ _ _ _ Hi k sec Hk) as [Hb Hwf].
  rewrite (file_at_same s s') by done. by apply file_bytes_same.
Qed.
End representation.

(** ** Loading and storing the map and the directory *)

Section operations.
Context {S : Type} `{!BlockDevice S}.
Context (mem : memory) `{!FreshMemory mem}.
#[local] Abbreviation uninit := (fresh_bytes mem).
#[local] Abbreviation uninit_map := (fresh_words mem).
#[local] Abbreviation uninit_dir := (fresh_entries mem).
#[local] Abbreviation uninit_hdr := (fresh_header mem).

Implicit Types (s : S) (fs : FileSystem) (files : gmap name Z) (marked : gset Z).

Lemma new_map_Ok s :
  ∃ b, new_map mem s = Ok (b, s) ∧ Impl.repr b (Bitmap.Spec.Bits NumSectors ∅).
Proof.
  destruct (uninit_map_ok (mem := mem)) as [Hl Hw].
  destruct (Impl.BitMap_new_repr NumSectors uninit_map) as (b & Hb & Hr); [done|by rewrite Hl|done|].
  exists b. unfold new_map, lift. by rewrite Hb.
Qed.

Lemma new_dir_Ok s :
  ∃ d, new_dir mem s = Ok (d, s) ∧ Directory.repr d (Directory.Spec.Dir 10 ∅).
Proof.
  destruct (uninit_dir_ok (mem := mem)) as [Hl Hw].
  destruct (Directory_new_repr NumDirEntries uninit_dir Hl Hw) as (d & Hd & Hr).
  exists d. unfold new_dir, lift. rewrite Hd. split; [done|].
  replace (length uninit_dir) with 10%nat in Hr; [done|].
  unfold zlen, NumDirEntries in Hl. lia.
Qed.

(** Reading a file that is as long as the request. *)
Lemma ReadAt_all s f n :
  ready s → wf_file (hdr f) → numBytes (hdr f) = n →
  ∃ s', ReadAt uninit f n 0 s = Ok ((n, file_bytes s (hdr f)), s') ∧ ready s' ∧ same_sectors s s'.
Proof.
  intros Hs Hh Hn. pose proof (wf_file_bounds _ Hh) as Hb.
  destruct (ReadAt_Ok uninit s f n 0 Hs Hh) as (s' & Hrun & Hs' & Hsame);
    [done|unfold in_s32; lia|].
  replace (available (hdr f) n 0) with n in Hrun by (unfold available, FileLength; lia).
  exists s'. split; [|done]. rewrite Hrun. do 3 f_equal. rewrite Z2Nat.inj_0.
  rewrite <- Hn, <- (length_file_bytes s) by done. apply slice_all.
Qed.

(** Replacing the whole contents of a file. *)
Lemma WriteAt_all s f bs n :
  ready s → wf_file (hdr f) → numBytes (hdr f) = n → zlen bs = n → Forall byte_ok bs →
  ∃ s', WriteAt uninit f bs n 0 s = Ok (n, s') ∧ ready s' ∧ file_bytes s' (hdr f) = bs
        ∧ ∀ d, 0 ≤ d < NumSectors → d ∉ file_sectors (hdr f) → sector s' d = sector s d.
Proof.
  intros Hs Hh Hn Hl Hok. pose proof (wf_file_bounds _ Hh) as Hb.
  assert (available (hdr f) n 0 = n) as Hav by (unfold available, FileLength; lia).
  destruct (WriteAt_Ok uninit (uninit_ok (mem := mem)) s f bs n 0 Hs Hh) as (s' & Hrun & Hs' & Hfb & Hother);
    [done|unfold in_s32; lia|rewrite Hav; lia|done|].
  rewrite Hav in *. exists s'. split; [done|]. split; [done|]. split; [|done].
  rewrite Hfb. unfold zlen in Hl. rewrite firstn_all2 by lia. unfold splice. simpl.
  rewrite drop_ge, app_nil_r; [done|]. rewrite length_file_bytes by done. lia.
Qed.

Lemma map_size b marked :
  Impl.repr b (Bitmap.Spec.Bits NumSectors marked) →
  Impl.numBits b = NumSectors ∧ Impl.numWords b = 32
  ∧ zlen (Impl.bytes_of b) = FreeMapFileSize ∧ Forall byte_ok (Impl.bytes_of b).
Proof.
  intros (Hwf & Hsz & _). simpl in Hsz. pose proof Hwf as (_ & Hw & _ & _).
  rewrite <- Hsz in Hw. change (divRoundUp NumSectors BitsInWord) with 32 in Hw.
  split; [done|]. split; [done|].
  destruct (Impl.load_bytes_bytes_of b b Hwf Hwf eq_refl) as [_ ->]. rewrite Hw.
  split; [done|]. unfold Impl.bytes_of. apply words_bytes_ok.
Qed.

Lemma load_map_Ok s fs marked files :
  fs_inv s fs marked files →
  ∃ b s', (∀ B (k : Impl.BitMap → M S B),
             (freeMap ← new_map mem;
              freeMap ← BitMap_FetchFrom mem (freeMapFile fs) freeMap;
              k freeMap) s = k b s')
    ∧ Impl.repr b (Bitmap.Spec.Bits NumSectors marked) ∧ ready s' ∧ same_sectors s s'.
Proof.
  intros Hi. destruct (new_map_Ok s) as (b0 & Hnew & Hr0).
  destruct (inv_map_hdr _ _ _ _ Hi) as (Hh & Hlen & _).
  destruct (inv_map _ _ _ _ Hi) as (b & Hr & Hbytes).
  destruct (map_size b0 _ Hr0) as (Hn0 & Hw0 & _). destruct (map_size b _ Hr) as (Hn & _).
  destruct (ReadAt_all s (freeMapFile fs) FreeMapFileSize (inv_ready _ _ _ _ Hi) Hh Hlen)
    as (s' & Hrun & Hs' & Hsame).
  exists b, s'. split; [|done]. intros B k.
  rewrite (M_bind_step _ _ _ _ _ Hnew). unfold BitMap_FetchFrom. rewrite Hw0.
  change (32 * 4) with FreeMapFileSize. rewrite M_bind_assoc, (M_bind_step _ _ _ _ _ Hrun).
  cbv beta iota. rewrite M_ret_bind, Hbytes.
  destruct Hr0 as [Hwf0 _], Hr as [Hwf _].
  destruct (Impl.load_bytes_bytes_of b b0 Hwf Hwf0) as [-> _]; [congruence|done].
Qed.

Lemma load_dir_Ok s fs marked files :
  fs_inv s fs marked files →
  ∃ d s', (∀ B (k : Directory → M S B),
             (directory ← new_dir mem;
              directory ← Directory.FetchFrom uninit (directoryFile fs) directory;
              k directory) s = k d s')
    ∧ Directory.repr d (Directory.Spec.Dir 10 files) ∧ ready s' ∧ same_sectors s s'.
Proof.
  intros Hi. destruct (new_dir_Ok s) as (d0 & Hnew & Hr0).
  destruct (inv_dir_hdr _ _ _ _ Hi) as (Hh & Hlen & _).
  destruct (inv_dir _ _ _ _ Hi) as (d & Hr & Hbytes).
  assert (∀ d files, Directory.repr d (Directory.Spec.Dir 10 files) → tableSize d = NumDirEntries)
    as Hsz by (intros ? ? ([-> _] & Hc & _); unfold zlen; simpl in Hc; by rewrite <- Hc).
  destruct (ReadAt_all s (directoryFile fs) DirectoryFileSize (inv_ready _ _ _ _ Hi) Hh Hlen)
    as (s' & Hrun & Hs' & Hsame).
  exists d, s'. split; [|done]. intros B k.
  rewrite (M_bind_step _ _ _ _ _ Hnew). unfold Directory.FetchFrom.
  rewrite (Hsz d0 _ Hr0). change (NumDirEntries * EntrySize) with DirectoryFileSize.
  rewrite M_bind_assoc, (M_bind_step _ _ _ _ _ Hrun). cbv beta iota. rewrite M_ret_bind, Hbytes.
  rewrite load_table_dir_bytes; [done|by destruct Hr|by destruct Hr0|].
  by rewrite (Hsz d _ Hr), (Hsz d0 _ Hr0).
Qed.

(** Storing them changes the sectors of their files only. *)
Lemma store_map_Ok s fs b marked :
  ready s → wf_file (hdr (freeMapFile fs)) → numBytes (hdr (freeMapFile fs)) = FreeMapFileSize →
  Impl.repr b (Bitmap.Spec.Bits NumSectors marked) →
  ∃ s', BitMap_WriteBack mem (freeMapFile fs) b s = Ok (tt, s') ∧ ready s'
    ∧ file_bytes s' (hdr (freeMapFile fs)) = Impl.bytes_of b
    ∧ ∀ d, 0 ≤ d < NumSectors → d ∉ file_sectors (hdr (freeMapFile fs)) →
        sector s' d = sector s d.
Proof.
  intros Hs Hh Hlen Hr. destruct (map_size b _ Hr) as (_ & Hw & Hzl & Hok).
  destruct (WriteAt_all s (freeMapFile fs) (Impl.bytes_of b) FreeMapFileSize Hs Hh Hlen Hzl Hok)
    as (s' & Hrun & H). exists s'. split; [|done].
  unfold BitMap_WriteBack. rewrite Hw. change (32 * 4) with FreeMapFileSize.
  by rewrite (M_bind_step _ _ _ _ _ Hrun).
Qed.

Lemma store_dir_Ok s fs d files :
  ready s → wf_file (hdr (directoryFile fs)) →
  numBytes (hdr (directoryFile fs)) = DirectoryFileSize →
  Directory.repr d (Directory.Spec.Dir 10 files) →
  ∃ s', Directory.WriteBack uninit (directoryFile fs) d s = Ok (tt, s') ∧ ready s'
    ∧ file_bytes s' (hdr (directoryFile fs)) = dir_bytes d
    ∧ ∀ k, 0 ≤ k < NumSectors → k ∉ file_sectors (hdr (directoryFile fs)) →
        sector s' k = sector s k.
Proof.
  intros Hs Hh Hlen (Hwf & Hc & _).
  assert (tableSize d = NumDirEntries) as Hsz
    by (destruct Hwf as [-> _]; unfold zlen; simpl in Hc; by rewrite <- Hc).
  assert (zlen (dir_bytes d) = DirectoryFileSize) as Hzl
    by (rewrite length_dir_bytes by done; by rewrite Hsz).
  destruct (WriteAt_all s (directoryFile fs) (dir_bytes d) DirectoryFileSize Hs Hh Hlen Hzl)
    as (s' & Hrun & H); [by apply dir_bytes_ok|]. exists s'. split; [|done].
  unfold Directory.WriteBack. rewrite Hsz. change (NumDirEntries * EntrySize) with DirectoryFileSize.
  by rewrite (M_bind_step _ _ _ _ _ Hrun).
Qed.

End operations.

(** ** What writing leaves of the other files *)

Section writing.
Context {S : Type} `{!BlockDevice S}.
Implicit Types (s : S) (fs : FileSystem) (files : gmap name Z) (marked : gset Z).

(** All the sectors that differ are those of the map and the directory, and
    those in [new]. *)
Definition written s s' fs (new : list Z) : Prop :=
  ∀ x, 0 ≤ x < NumSectors → x ∉ file_sectors (hdr (freeMapFile fs)) →
       x ∉ file_sectors (hdr (directoryFile fs)) → x ∉ new → sector s' x = sector s x.

Lemma written_file s s' fs marked files new k sec :
  fs_inv s fs marked files → written s s' fs new → (∀ x, x ∈ new → x ∉ marked) →
  files !! k = Some sec →
  file_at s' sec = file_at s sec
  ∧ file_bytes s' (file_at s sec) = file_bytes s (file_at s sec).
Proof.
  intros Hi Hw Hnew Hk.
  assert (∀ x, x ∈ owned s sec → sector s' x = sector s x) as Heq.
  { intros x Hx. pose proof (owned_not_system _ _ _ _ _ _ _ Hi Hk Hx) as Hns.
    assert (x ∈ system_sectors fs ++ user_sectors s files) as Hin.
    { apply elem_of_app. right. apply elem_of_user_sectors. eauto. }
    unfold system_sectors in Hns. rewrite !not_elem_of_cons, not_elem_of_app in Hns.
    destruct Hns as (_ & _ & H1 & H2).
    apply Hw; [by eapply in_use_range|done|done|].
    intros Hn. apply (Hnew x Hn). rewrite (inv_marked _ _ _ _ Hi).
    by apply elem_of_list_to_set. }
  split.
  - unfold file_at. rewrite Heq; [done|]. unfold owned. set_solver.
  - apply file_bytes_frame. intros d Hd. apply Heq. unfold owned. set_solver.
Qed.

(** The invariant after the map and the directory were written. *)
Lemma fs_inv_written s s' fs marked files new b d marked' files' :
  fs_inv s fs marked files → ready s' → written s s' fs new → (∀ x, x ∈ new → x ∉ marked) →
  Impl.repr b (Bitmap.Spec.Bits NumSectors marked') →
  file_bytes s' (hdr (freeMapFile fs)) = Impl.bytes_of b →
  Directory.repr d (Directory.Spec.Dir 10 files') →
  file_bytes s' (hdr (directoryFile fs)) = dir_bytes d →
  (∀ k sec, files' !! k = Some sec →
     files !! k = Some sec ∨ (0 ≤ sec < NumSectors ∧ wf_file (file_at s' sec))) →
  NoDup (system_sectors fs ++ user_sectors s' files') →
  marked' = list_to_set (system_sectors fs ++ user_sectors s' files') →
  fs_inv s' fs marked' files'.
Proof.
  intros Hi Hr Hw Hnew Hb Hbb Hd Hdd Hf Hnd Hmk.
  pose proof (inv_nodup _ _ _ _ Hi) as Hnd0.
  assert (∀ x, x = FreeMapSector ∨ x = DirectorySector → sector s' x = sector s x) as Hsys.
  { intros x Hx.
    assert (x ∈ system_sectors fs ++ user_sectors s files) as Hin
      by (unfold system_sectors; set_solver).
    unfold system_sectors in Hnd0.
    apply list.NoDup_app in Hnd0 as (Hnd1 & _). rewrite !list.NoDup_cons in Hnd1.
    apply Hw; [by eapply in_use_range|set_solver|set_solver|].
    intros Hn. apply (Hnew x Hn). rewrite (inv_marked _ _ _ _ Hi).
    by apply elem_of_list_to_set. }
  destruct (inv_map_hdr _ _ _ _ Hi) as (Hm1 & Hm2 & Hm3).
  destruct (inv_dir_hdr _ _ _ _ Hi) as (Hd1 & Hd2 & Hd3).
  split; try done.
  - rewrite Hsys by tauto. done.
  - rewrite Hsys by tauto. done.
  - by exists b.
  - by exists d.
  - intros k sec Hk. destruct (Hf k sec Hk) as [Hk'|]; [|done].
    destruct (written_file _ _ _ _ _ _ _ _ Hi Hw Hnew Hk') as [-> _].
    by apply (inv_files _ _ _ _ Hi k).
Qed.

Lemma user_sectors_insert s files k sec :
  files !! k = None → user_sectors s (<[k := sec]> files) ≡ₚ owned s sec ++ user_sectors s files.
Proof.
  intros Hk. unfold user_sectors. transitivity (concat (owned s <$> ((k, sec) :: map_to_list files).*2)).
  - apply concat_perm. by rewrite map_to_list_insert.
  - done.
Qed.

Lemma user_sectors_delete s files k sec :
  files !! k = Some sec → user_sectors s files ≡ₚ owned s sec ++ user_sectors s (delete k files).
Proof.
  intros Hk. rewrite <- (user_sectors_insert s (delete k files) k sec) by apply lookup_delete_eq.
  by rewrite insert_delete_id.
Qed.

Lemma on_map_step {A B} (m : M Impl.BitMap A) b a b' (k : A * Impl.BitMap → M S B) s :
  m b = Ok (a, b') → (on_map m b ≫= k) s = k (a, b') s.
Proof. intros H. apply M_bind_step. unfold on_map, lift. by rewrite H. Qed.

Lemma on_dir_step {A B} (m : M Directory A) d a d' (k : A * Directory → M S B) s :
  m d = Ok (a, d') → (on_dir m d ≫= k) s = k (a, d') s.
Proof. intros H. apply M_bind_step. unfold on_dir, lift. by rewrite H. Qed.

Lemma lift_step {A B} (r : res A) a (k : A → M S B) s :
  r = Ok a → (lift r ≫= k) s = k a s.
Proof. intros ->. done. Qed.
End writing.
