(* ===== verification/FsOps.v ===== *)
(** * The operations of the file system against its abstract contents

    [fs_repr s fs m]: the device [s] stores, through the open files of [fs],
    the files [m], a finite map from names to their bytes.  Creating,
    opening, reading, writing and removing files, formatting a disk and
    starting from one that was formatted before are related to that map. *)
From S2P Require Import Prelude Word Bitmap Machine Disk BlockDevice FileHdr OpenFile Directory FileSys.

Section operations.
Context {S : Type} `{!BlockDevice S}.
Context (mem : memory) `{!FreshMemory mem}.
#[local] Abbreviation uninit := (fresh_bytes mem).
#[local] Abbreviation uninit_map := (fresh_words mem).
#[local] Abbreviation uninit_dir := (fresh_entries mem).
#[local] Abbreviation uninit_hdr := (fresh_header mem).

Implicit Types (s : S) (fs : FileSystem) (files : gmap name Z) (marked : gset Z).

(** ** Writing the map and the directory back *)

Record sys_files fs : Prop := {
  sys_map : wf_file (hdr (freeMapFile fs)) ∧ numBytes (hdr (freeMapFile fs)) = FreeMapFileSize;
  sys_dir : wf_file (hdr (directoryFile fs))
            ∧ numBytes (hdr (directoryFile fs)) = DirectoryFileSize;
  sys_disjoint : NoDup (system_sectors fs)
}.

Lemma sys_sectors_disjoint fs x :
  sys_files fs → x ∈ file_sectors (hdr (freeMapFile fs)) →
  x ∉ file_sectors (hdr (directoryFile fs)).
Proof.
  intros [_ _ Hnd]. unfold system_sectors in Hnd. rewrite !list.NoDup_cons in Hnd.
  destruct Hnd as (_ & _ & (_ & H & _)%list.NoDup_app). apply H.
Qed.

Lemma sys_in_range h x : wf_file h → x ∈ file_sectors h → 0 ≤ x < NumSectors.
Proof. intros (_ & _ & _ & _ & _ & H) Hx. rewrite list.Forall_forall in H. by apply H. Qed.

(** What both write-backs leave, in either order. *)
Definition committed s s' fs b d : Prop :=
  ready s' ∧ file_bytes s' (hdr (freeMapFile fs)) = Impl.bytes_of b
  ∧ file_bytes s' (hdr (directoryFile fs)) = dir_bytes d
  ∧ ∀ x, 0 ≤ x < NumSectors → x ∉ file_sectors (hdr (freeMapFile fs)) →
         x ∉ file_sectors (hdr (directoryFile fs)) → sector s' x = sector s x.

Lemma commit_dir_map s fs b d marked files :
  ready s → sys_files fs → Impl.repr b (Bitmap.Spec.Bits NumSectors marked) →
  Directory.repr d (Directory.Spec.Dir 10 files) →
  ∃ s', (∀ B (k : M S B),
           (Directory.WriteBack uninit (directoryFile fs) d ;;
            BitMap_WriteBack mem (freeMapFile fs) b ;; k) s = k s')
        ∧ committed s s' fs b d.
Proof.
  intros Hs Hsys Hb Hd. pose proof Hsys as [[Hm Hml] [Hdh Hdl] _].
  destruct (store_dir_Ok mem s fs d files Hs Hdh Hdl Hd)
    as (s1 & H1 & Hs1 & Hfb1 & Ho1).
  destruct (store_map_Ok mem s1 fs b marked Hs1 Hm Hml Hb)
    as (s2 & H2 & Hs2 & Hfb2 & Ho2).
  exists s2. split.
  - intros B k. by rewrite (M_bind_step _ _ _ _ _ H1), (M_bind_step _ _ _ _ _ H2).
  - split; [done|]. split; [done|]. split.
    + rewrite <- Hfb1. apply file_bytes_frame. intros x Hx. apply Ho2.
      * by apply (sys_in_range _ _ Hdh).
      * intros Hx'. by eapply (sys_sectors_disjoint fs).
    + intros x Hx Hxm Hxd. by rewrite Ho2, Ho1.
Qed.

Lemma commit_map_dir s fs b d marked files :
  ready s → sys_files fs → Impl.repr b (Bitmap.Spec.Bits NumSectors marked) →
  Directory.repr d (Directory.Spec.Dir 10 files) →
  ∃ s', (∀ B (k : M S B),
           (BitMap_WriteBack mem (freeMapFile fs) b ;;
            Directory.WriteBack uninit (directoryFile fs) d ;; k) s = k s')
        ∧ committed s s' fs b d.
Proof.
  intros Hs Hsys Hb Hd. pose proof Hsys as [[Hm Hml] [Hdh Hdl] _].
  destruct (store_map_Ok mem s fs b marked Hs Hm Hml Hb)
    as (s1 & H1 & Hs1 & Hfb1 & Ho1).
  destruct (store_dir_Ok mem s1 fs d files Hs1 Hdh Hdl Hd)
    as (s2 & H2 & Hs2 & Hfb2 & Ho2).
  exists s2. split.
  - intros B k. by rewrite (M_bind_step _ _ _ _ _ H1), (M_bind_step _ _ _ _ _ H2).
  - split; [done|]. split; [|split; [done|]].
    + rewrite <- Hfb1. apply file_bytes_frame. intros x Hx. apply Ho2.
      * by apply (sys_in_range _ _ Hm).
      * by apply (sys_sectors_disjoint fs).
    + intros x Hx Hxm Hxd. by rewrite Ho2, Ho1.
Qed.

Lemma fs_inv_sys s fs marked files : fs_inv s fs marked files → sys_files fs.
Proof.
  intros Hi. destruct (inv_map_hdr _ _ _ _ Hi) as (? & ? & _).
  destruct (inv_dir_hdr _ _ _ _ Hi) as (? & ? & _). split; [done|done|].
  pose proof (inv_nodup _ _ _ _ Hi) as Hnd. by apply list.NoDup_app in Hnd as [? _].
Qed.

(** ** [Create] *)

(** The header [Allocate] makes is that of a file of its size. *)
Lemma allocated_wf (bits : Bitmap.Spec.bits) initialSize :
  0 ≤ initialSize ≤ MaxFileSize → Bitmap.Spec.size bits = NumSectors →
  divRoundUp initialSize SectorSize ≤ Bitmap.Spec.NumClear bits →
  wf_file (allocated initialSize bits uninit_hdr).
Proof.
  intros [Hs0 Hs1] Hbits Hclear. destruct (uninit_hdr_ok (mem := mem)) as [Hl H32].
  pose proof (divRoundUp_nonneg initialSize SectorSize Hs0 eq_refl) as Hk0.
  pose proof (divRoundUp_spec initialSize SectorSize Hs0 eq_refl) as Hk1.
  unfold MaxFileSize, NumDirect, SectorSize in Hs1. change ((128 - 2 * 4) / 4) with 30 in Hs1.
  assert (Forall (λ d, 0 ≤ d < NumSectors) (Bitmap.Spec.clear_list bits)) as Hrange.
  { rewrite list.Forall_forall. intros d [Hd _]%clear_list_spec. by rewrite <- Hbits. }
  assert (length (take (Z.to_nat (divRoundUp initialSize SectorSize)) (Bitmap.Spec.clear_list bits))
          = Z.to_nat (divRoundUp initialSize SectorSize)) as Hlen.
  { rewrite length_take. unfold Bitmap.Spec.NumClear, zlen in Hclear. lia. }
  set (k := divRoundUp initialSize SectorSize) in *.
  assert (k ≤ 30) as Hk30 by (unfold SectorSize in Hk1; lia).
  split; [split; [|split; [|split]]|].
  - unfold allocated, in_s32. simpl. lia.
  - unfold allocated, in_s32. simpl. fold k. lia.
  - unfold allocated. simpl. fold k. unfold zlen in *. rewrite length_splice; [done|].
    rewrite Hlen. change NumDirect with 30 in Hl. lia.
  - unfold allocated. simpl. fold k. apply Forall_splice; [|done].
    apply Forall_take. eapply list.Forall_impl; [exact Hrange|].
    intros d. unfold in_s32, NumSectors, SectorsPerTrack, NumTracks. simpl. lia.
  - rewrite file_sectors_allocated by (fold k; lia). fold k. unfold allocated. simpl. fold k.
    split; [done|]. split; [done|]. split; [unfold NumDirect, SectorSize; change ((128 - 2 * 4) / 4) with 30; lia|].
    split; [|by apply Forall_take].
    eapply sublist_NoDup; [apply clear_list_NoDup|apply sublist_take].
Qed.

(** The writing part of [Create]: the header in the sector [sec], its data
    sectors [data]. *)
Lemma fs_inv_create s s1 s2 fs marked files k sec h b d :
  fs_inv s fs marked files → files !! k = None →
  0 ≤ sec < NumSectors → wf_file h → NoDup (sec :: file_sectors h) →
  (∀ x, x ∈ sec :: file_sectors h → x ∉ marked) →
  (∀ x, 0 ≤ x < NumSectors → sector s1 x = if decide (x = sec) then hdr_bytes h else sector s x) →
  Impl.repr b (Bitmap.Spec.Bits NumSectors (list_to_set (sec :: file_sectors h) ∪ marked)) →
  Directory.repr d (Directory.Spec.Dir 10 (<[k := sec]> files)) →
  committed s1 s2 fs b d →
  fs_inv s2 fs (list_to_set (sec :: file_sectors h) ∪ marked) (<[k := sec]> files)
  ∧ file_at s2 sec = h
  ∧ (∀ k' sec', files !! k' = Some sec' →
       file_bytes s2 (file_at s2 sec') = file_bytes s (file_at s sec')).
Proof.
  intros Hi Hk Hsec Hh Hnd Hfree Hs1 Hb Hd (Hr2 & Hfm & Hfd & Ho).
  assert (written s s2 fs (sec :: file_sectors h)) as Hw.
  { intros x Hx Hxm Hxd Hn. rewrite Ho, Hs1 by done. rewrite decide_False; [done|set_solver]. }
  assert (∀ x, x ∈ sec :: file_sectors h → x ∉ system_sectors fs ++ user_sectors s files) as Hout.
  { intros x Hx Hin. apply (Hfree x Hx). rewrite (inv_marked _ _ _ _ Hi).
    by apply elem_of_list_to_set. }
  assert (file_at s2 sec = h) as Hat.
  { assert (sec ∉ system_sectors fs) as Hns
      by (intros Hin; apply (Hout sec); set_solver).
    unfold system_sectors in Hns. rewrite !not_elem_of_cons, not_elem_of_app in Hns.
    destruct Hns as (_ & _ & H1 & H2). unfold file_at. rewrite Ho, Hs1 by done.
    rewrite decide_True by done. apply hdr_of_bytes_hdr_bytes. by destruct Hh. }
  assert (∀ k' sec', files !! k' = Some sec' →
    file_at s2 sec' = file_at s sec' ∧ file_bytes s2 (file_at s sec') = file_bytes s (file_at s sec'))
    as Hold by (intros k' sec' Hk'; by apply (written_file s s2 fs marked files (sec :: file_sectors h) k')).
  assert (user_sectors s2 (<[k := sec]> files) ≡ₚ (sec :: file_sectors h) ++ user_sectors s files) as Hperm.
  { rewrite user_sectors_insert by done. unfold owned. rewrite Hat.
    rewrite (user_sectors_ext s s2); [done|]. intros k' sec' Hk'. by destruct (Hold k' sec' Hk'). }
  split; [|split; [done|]].
  - apply (fs_inv_written s s2 fs marked files (sec :: file_sectors h) b d); try done.
    + intros k' sec' [[<- <-]|[Hne Hk']]%lookup_insert_Some; [right|by left].
      split; [done|]. by rewrite Hat.
    + rewrite Hperm, (Permutation_app_swap_app (system_sectors fs)).
      apply list.NoDup_app. split; [done|]. split; [done|]. apply (inv_nodup _ _ _ _ Hi).
    + rewrite Hperm, (inv_marked _ _ _ _ Hi), !list_to_set_app_L. set_solver.
  - intros k' sec' Hk'. by destruct (Hold k' sec' Hk') as [-> ?].
Qed.

(** When [Create] succeeds. *)
Definition creatable marked files (nm : name) (initialSize : Z) : Prop :=
  files !! Directory.Spec.key nm = None ∧ (size files < 10)%nat
  ∧ 1 + divRoundUp initialSize SectorSize
    ≤ Bitmap.Spec.NumClear (Bitmap.Spec.Bits NumSectors marked).

#[local] Instance creatable_dec marked files nm initialSize :
  Decision (creatable marked files nm initialSize).
Proof. unfold creatable. apply _. Defined.

(** The middle of [Create]: a sector for the header, a name in the directory
    and the data sectors, all in memory. *)
Lemma Create_success s fs marked files nm initialSize b d :
  fs_inv s fs marked files → wf_name nm → 0 ≤ initialSize ≤ MaxFileSize →
  Impl.repr b (Bitmap.Spec.Bits NumSectors marked) →
  Directory.repr d (Directory.Spec.Dir 10 files) →
  creatable marked files nm initialSize →
  ∃ sec b1 d1 h b2,
    Impl.Find b = Ok (sec, b1) ∧ sec ≠ -1
    ∧ Directory.Add nm sec d = Ok (true, d1)
    ∧ Allocate initialSize uninit_hdr b1 = Ok ((true, h), b2)
    ∧ 0 ≤ sec < NumSectors ∧ wf_file h ∧ numBytes h = initialSize
    ∧ NoDup (sec :: file_sectors h) ∧ (∀ x, x ∈ sec :: file_sectors h → x ∉ marked)
    ∧ Impl.repr b2 (Bitmap.Spec.Bits NumSectors (list_to_set (sec :: file_sectors h) ∪ marked))
    ∧ Directory.repr d1 (Directory.Spec.Dir 10 (<[Directory.Spec.key nm := sec]> files)).
Proof.
  intros Hi Hn Hsize Hb Hd (Hnone & Hroom & Hclear).
  set (bits := Bitmap.Spec.Bits NumSectors marked) in *.
  destruct (Bitmap.Spec.clear_list bits) as [|sec l] eqn:Hl.
  { unfold Bitmap.Spec.NumClear in Hclear. rewrite Hl in Hclear.
    pose proof (divRoundUp_nonneg initialSize SectorSize ltac:(lia) eq_refl).
    change (zlen (@nil Z)) with 0 in Hclear. lia. }
  destruct (Find_step b bits sec l mret Hb Hl) as (b1 & Hfind & Hb1 & Hl1).
  assert (Impl.Find b = Ok (sec, b1)) as Hfind'.
  { revert Hfind. unfold mbind, M_bind. destruct (Impl.Find b) as [[x y]|]; [|done].
    unfold mret, M_ret. by intros [= -> ->]. }
  assert (sec ∈ Bitmap.Spec.clear_list bits) as Hin by (rewrite Hl; set_solver).
  apply clear_list_spec in Hin as [Hsec Hfree]. simpl in Hsec, Hfree.
  assert (in_s32 sec) as Hs32
    by (unfold in_s32, NumSectors, SectorsPerTrack, NumTracks in *; lia).
  destruct (Add_spec d _ nm sec Hd Hn Hs32) as (d1 & Hadd & Hd1).
  unfold Directory.Spec.Add in Hadd, Hd1. simpl in Hadd, Hd1.
  rewrite Hnone, decide_True in Hadd, Hd1 by done.
  set (k := divRoundUp initialSize SectorSize) in *.
  assert (0 ≤ k) as Hk by (apply divRoundUp_nonneg; [lia|done]).
  assert (Bitmap.Spec.NumClear (mark_all [sec] bits) = Bitmap.Spec.NumClear bits - 1) as Hnc.
  { unfold Bitmap.Spec.NumClear, zlen. rewrite Hl1, Hl. simpl. lia. }
  pose proof (Allocate_spec b1 (mark_all [sec] bits) uninit_hdr initialSize Hb1
    (proj1 (uninit_hdr_ok (mem := mem))) ltac:(lia)) as Hall.
  cbv zeta in Hall. fold k in Hall.
  rewrite (proj2 (Z.ltb_ge _ _)) in Hall by lia.
  assert (k ≤ NumDirect) as Hkd.
  { pose proof (divRoundUp_spec initialSize SectorSize ltac:(lia) eq_refl) as Hsp. fold k in Hsp.
    unfold MaxFileSize, SectorSize in *. lia. }
  rewrite (proj2 (Z.leb_le _ _) Hkd) in Hall.
  destruct Hall as (b2 & Hrun & Hb2).
  set (h := allocated initialSize (mark_all [sec] bits) uninit_hdr) in *.
  assert (file_sectors h = take (Z.to_nat k) l) as Hfs.
  { unfold h. rewrite file_sectors_allocated by (fold k; lia). by rewrite Hl1. }
  assert (NoDup (sec :: l)) as Hndl by (rewrite <- Hl; apply clear_list_NoDup).
  assert (sublist (take (Z.to_nat k) l) l) as Hsub by apply sublist_take.
  exists sec, b1, d1, h, b2. split; [done|]. split; [lia|]. split; [done|]. split; [done|].
  split; [done|]. split; [apply allocated_wf; [done|done|fold k; lia]|]. split; [done|].
  rewrite Hfs. split; [|split; [|split; [|done]]].
  - eapply sublist_NoDup; [exact Hndl|]. by apply sublist_skip.
  - intros x Hx. assert (x ∈ sec :: l) as Hx'.
    { eapply elem_of_submseteq; [exact Hx|]. apply sublist_submseteq. by apply sublist_skip. }
    rewrite <- Hl in Hx'. by apply clear_list_spec in Hx' as [_ ?].
  - rewrite Hl1, mark_all_cons in Hb2. exact Hb2.
Qed.

Lemma Create_spec s fs marked files nm initialSize :
  fs_inv s fs marked files → wf_name nm → 0 ≤ initialSize ≤ MaxFileSize →
  if decide (creatable marked files nm initialSize) then
    ∃ s' sec marked',
      Create mem nm initialSize fs s = Ok (true, s')
      ∧ fs_inv s' fs marked' (<[Directory.Spec.key nm := sec]> files)
      ∧ numBytes (file_at s' sec) = initialSize
      ∧ ∀ k' sec', files !! k' = Some sec' →
          file_bytes s' (file_at s' sec') = file_bytes s (file_at s sec')
  else
    ∃ s', Create mem nm initialSize fs s = Ok (false, s')
          ∧ ready s' ∧ same_sectors s s'.
Proof.
  intros Hi Hn Hsize.
  destruct (load_dir_Ok mem s fs marked files Hi)
    as (d & s1 & Hdir & Hd & Hr1 & Hsame1).
  pose proof (fs_inv_same s s1 fs marked files Hsame1 Hr1 Hi) as Hi1.
  destruct (load_map_Ok mem s1 fs marked files Hi1)
    as (b & s2 & Hmap & Hb & Hr2 & Hsame2).
  assert (same_sectors s s2) as Hsame by by etrans.
  pose proof (fs_inv_same s s2 fs marked files Hsame Hr2 Hi) as Hi2.
  unfold Create. rewrite Hdir.
  rewrite (lift_step _ _ _ _ (Find_spec d _ nm Hd Hn)). unfold Directory.Spec.Find. cbn [Directory.Spec.files].
  case_decide as Hc.
  - pose proof Hc as (Hnone & _ & _). rewrite Hnone.
    change (negb (default (-1) None =? -1)) with false. cbv iota. rewrite Hmap.
    destruct (Create_success s2 fs marked files nm initialSize b d Hi2 Hn Hsize Hb Hd Hc)
      as (sec & b1 & d1 & h & b2 & H1 & Hne & H2 & H3 & Hsec & Hh & Hlen & Hnd & Hfree & Hb2 & Hd1).
    rewrite (on_map_step _ _ _ _ _ _ H1). cbv beta iota. rewrite (proj2 (Z.eqb_neq _ _) Hne).
    rewrite (on_dir_step _ _ _ _ _ _ H2). cbv beta iota. cbn [negb].
    rewrite (on_map_step _ _ _ _ _ _ H3). cbv beta iota. cbn [negb].
    destruct (WriteBack_Ok s2 h sec Hr2 Hsec) as (s3 & H4 & Hr3 & Hs3);
      [by destruct Hh as ((_ & _ & ? & _) & _)|].
    rewrite (M_bind_step _ _ _ _ _ H4).
    destruct (commit_dir_map s3 fs b2 d1 _ _ Hr3 (fs_inv_sys _ _ _ _ Hi2) Hb2 Hd1)
      as (s4 & Hcommit & Hcm).
    rewrite Hcommit.
    destruct (fs_inv_create s2 s3 s4 fs marked files _ sec h b2 d1 Hi2 Hnone Hsec Hh Hnd Hfree
      Hs3 Hb2 Hd1 Hcm) as (Hi4 & Hat & Hold).
    eexists s4, sec, _. split; [done|]. split; [exact Hi4|]. split; [by rewrite Hat|].
    intros k' sec' Hk'. rewrite (Hold k' sec' Hk').
    destruct (inv_files _ _ _ _ Hi k' sec' Hk') as [Hb' Hwf'].
    rewrite (file_at_same s s2) by done. symmetry. by apply file_bytes_same.
  - destruct (files !! Directory.Spec.key nm) as [sec0|] eqn:Hkey.
    { change (default (-1) (Some sec0)) with sec0.
      destruct (inv_files _ _ _ _ Hi _ _ Hkey) as [Hb0 _].
      rewrite (proj2 (Z.eqb_neq sec0 (-1))) by lia. exists s1. done. }
    change (negb (default (-1) None =? -1)) with false. cbv iota. rewrite Hmap.
    exists s2. split; [|done].
    set (bits := Bitmap.Spec.Bits NumSectors marked) in *.
    pose proof (Impl.Find_matches b bits Hb) as Hf. unfold Bitmap.Spec.Find in Hf.
    destruct (Bitmap.Spec.clear_list bits) as [|sec l] eqn:Hl.
    { destruct Hf as (b1 & H1 & _). by rewrite (on_map_step _ _ _ _ _ _ H1). }
    destruct (Find_step b bits sec l mret Hb Hl) as (b1' & _ & Hb1 & Hl1).
    destruct Hf as (b1 & H1 & Hb1').
    assert (Impl.repr b1 (mark_all [sec] bits)) as Hb1''.
    { unfold mark_all. by replace (list_to_set [sec] ∪ Bitmap.Spec.marked bits)
        with ({[sec]} ∪ Bitmap.Spec.marked bits) by (simpl; set_solver). }
    rewrite (on_map_step _ _ _ _ _ _ H1). cbv beta iota.
    assert (sec ∈ Bitmap.Spec.clear_list bits) as Hin by (rewrite Hl; set_solver).
    apply clear_list_spec in Hin as [Hsec Hfree]. simpl in Hsec.
    rewrite (proj2 (Z.eqb_neq sec (-1))) by lia.
    assert (in_s32 sec) as Hs32
      by (unfold in_s32, NumSectors, SectorsPerTrack, NumTracks in *; lia).
    destruct (Add_spec d _ nm sec Hd Hn Hs32) as (d1 & Hadd & Hd1).
    unfold Directory.Spec.Add in Hadd. simpl in Hadd. rewrite Hkey in Hadd.
    destruct (decide (size files < 10)%nat) as [Hroom|]; simpl in Hadd.
    2: { by rewrite (on_dir_step _ _ _ _ _ _ Hadd). }
    rewrite (on_dir_step _ _ _ _ _ _ Hadd). cbv beta iota. cbn [negb].
    pose proof (Allocate_spec b1 (mark_all [sec] bits) uninit_hdr initialSize Hb1''
      (proj1 (uninit_hdr_ok (mem := mem))) ltac:(lia)) as Hall.
    cbv zeta in Hall. rewrite (proj2 (Z.ltb_lt _ _)) in Hall.
    { by rewrite (on_map_step _ _ _ _ _ _ Hall). }
    assert (¬ (1 + divRoundUp initialSize SectorSize ≤ Bitmap.Spec.NumClear bits)) as Hnr
      by (intros Hnr; by apply Hc).
    unfold Bitmap.Spec.NumClear, zlen in *. rewrite Hl in Hnr. rewrite Hl1. simpl length in Hnr. lia.
Qed.

(** ** [Remove] *)

Lemma fs_inv_remove s s2 fs marked files k sec b d :
  fs_inv s fs marked files → files !! k = Some sec →
  Impl.repr b (Bitmap.Spec.Bits NumSectors (marked ∖ list_to_set (owned s sec))) →
  Directory.repr d (Directory.Spec.Dir 10 (delete k files)) →
  committed s s2 fs b d →
  fs_inv s2 fs (marked ∖ list_to_set (owned s sec)) (delete k files)
  ∧ ∀ k' sec', delete k files !! k' = Some sec' →
      file_bytes s2 (file_at s2 sec') = file_bytes s (file_at s sec').
Proof.
  intros Hi Hk Hb Hd (Hr2 & Hfm & Hfd & Ho).
  assert (written s s2 fs []) as Hw by (intros x Hx Hxm Hxd _; by apply Ho).
  assert (∀ k' sec', files !! k' = Some sec' →
    file_at s2 sec' = file_at s sec' ∧ file_bytes s2 (file_at s sec') = file_bytes s (file_at s sec'))
    as Hold.
  { intros k' sec' Hk'. apply (written_file s s2 fs marked files [] k'); try done.
    intros x Hx. by apply not_elem_of_nil in Hx. }
  assert (∀ k' sec', delete k files !! k' = Some sec' → files !! k' = Some sec') as Hsub
    by (intros k' sec' [_ ?]%lookup_delete_Some; done).
  pose proof (user_sectors_delete s files k sec Hk) as Hperm.
  assert (user_sectors s2 (delete k files) = user_sectors s (delete k files)) as Hus.
  { apply user_sectors_ext. intros k' sec' Hk'%Hsub. by destruct (Hold k' sec' Hk'). }
  pose proof (inv_nodup _ _ _ _ Hi) as Hnd.
  rewrite Hperm, (Permutation_app_swap_app (system_sectors fs)) in Hnd.
  apply list.NoDup_app in Hnd as (_ & Hdisj & Hnd).
  split.
  - apply (fs_inv_written s s2 fs marked files [] b d); try done.
    + intros x Hx. by apply not_elem_of_nil in Hx.
    + intros k' sec' Hk'%Hsub. by left.
    + by rewrite Hus.
    + rewrite Hus, (inv_marked _ _ _ _ Hi), Hperm.
      apply set_eq. intros x. rewrite elem_of_difference, !elem_of_list_to_set, !elem_of_app.
      specialize (Hdisj x). rewrite elem_of_app in Hdisj. tauto.
  - intros k' sec' Hk'%Hsub. by destruct (Hold k' sec' Hk') as [-> ?].
Qed.

Lemma Remove_Ok s fs marked files nm :
  fs_inv s fs marked files → wf_name nm →
  match files !! Directory.Spec.key nm with
  | Some sec =>
      ∃ s' marked',
        Remove mem nm fs s = Ok (true, s')
        ∧ fs_inv s' fs marked' (delete (Directory.Spec.key nm) files)
        ∧ ∀ k' sec', delete (Directory.Spec.key nm) files !! k' = Some sec' →
            file_bytes s' (file_at s' sec') = file_bytes s (file_at s sec')
  | None =>
      ∃ s', Remove mem nm fs s = Ok (false, s')
            ∧ ready s' ∧ same_sectors s s'
  end.
Proof.
  intros Hi Hn.
  destruct (load_dir_Ok mem s fs marked files Hi)
    as (d & s1 & Hdir & Hd & Hr1 & Hsame1).
  pose proof (fs_inv_same s s1 fs marked files Hsame1 Hr1 Hi) as Hi1.
  unfold Remove. rewrite Hdir.
  rewrite (lift_step _ _ _ _ (Find_spec d _ nm Hd Hn)). unfold Directory.Spec.Find.
  cbn [Directory.Spec.files].
  destruct (files !! Directory.Spec.key nm) as [sec|] eqn:Hk.
  2: { exists s1. done. }
  change (default (-1) (Some sec)) with sec.
  destruct (inv_files _ _ _ _ Hi _ _ Hk) as [Hsec Hwf].
  rewrite (proj2 (Z.eqb_neq sec (-1))) by lia.
  destruct (FetchFrom_Ok s1 sec Hr1 Hsec) as (s2 & Hfetch & Hr2 & Hsame2).
  rewrite (M_bind_step _ _ _ _ _ Hfetch). fold (file_at s1 sec).
  rewrite (file_at_same s s1) by done.
  assert (same_sectors s s2) as Hsame by by etrans.
  pose proof (fs_inv_same s s2 fs marked files Hsame Hr2 Hi) as Hi2.
  destruct (load_map_Ok mem s2 fs marked files Hi2)
    as (b & s3 & Hmap & Hb & Hr3 & Hsame3).
  rewrite Hmap. assert (same_sectors s s3) as Hsame' by by etrans.
  pose proof (fs_inv_same s s3 fs marked files Hsame' Hr3 Hi) as Hi3.
  set (h := file_at s sec) in *.
  assert (∀ x, x ∈ owned s sec → x ∈ marked) as Hmk.
  { intros x Hx. rewrite (inv_marked _ _ _ _ Hi). apply elem_of_list_to_set, elem_of_app.
    right. apply elem_of_user_sectors. eauto. }
  assert (NoDup (owned s sec)) as Hnd.
  { pose proof (inv_nodup _ _ _ _ Hi) as Hnd. apply list.NoDup_app in Hnd as (_ & _ & Hnd).
    rewrite (user_sectors_delete s files _ sec Hk) in Hnd. by apply list.NoDup_app in Hnd as [? _]. }
  unfold owned in Hnd. fold h in Hnd. apply list.NoDup_cons in Hnd as [Hns Hnd].
  destruct (Deallocate_Ok b _ h Hb) as (b1 & H1 & Hb1).
  { destruct (wf_file_bounds _ Hwf) as [? _]. destruct Hwf as ((_ & _ & -> & _) & _).
    change NumDirect with 30. done. }
  { done. }
  { intros x Hx. apply Hmk. unfold owned. fold h. set_solver. }
  rewrite (on_map_step _ _ _ _ _ _ H1). cbv beta iota.
  pose proof (Impl.Clear_matches b1 _ sec Hb1) as Hc. unfold Bitmap.Spec.Clear in Hc.
  replace (Bitmap.Spec.valid sec _) with true in Hc
    by (unfold Bitmap.Spec.valid; simpl; lia).
  destruct Hc as (b2 & H2 & Hb2).
  rewrite (on_map_step (Impl.Clear sec) b1 tt b2) by done. cbv beta iota.
  destruct (Remove_spec d _ nm Hd Hn) as (d1 & Hrem & Hd1).
  unfold Directory.Spec.Remove in Hrem, Hd1. simpl in Hrem, Hd1. rewrite Hk in Hrem, Hd1.
  rewrite (on_dir_step _ _ _ _ _ _ Hrem). cbv beta iota.
  assert (Impl.repr b2 (Bitmap.Spec.Bits NumSectors (marked ∖ list_to_set (owned s3 sec)))) as Hb2'.
  { replace (marked ∖ list_to_set (owned s3 sec))
      with (marked ∖ list_to_set (file_sectors h) ∖ {[sec]}); [exact Hb2|].
    unfold owned. rewrite (file_at_same s s3) by done. fold h. simpl. set_solver. }
  destruct (commit_map_dir s3 fs b2 d1 _ _ Hr3 (fs_inv_sys _ _ _ _ Hi3) Hb2' Hd1)
    as (s4 & Hcommit & Hcm).
  rewrite Hcommit.
  destruct (fs_inv_remove s3 s4 fs marked files _ sec b2 d1 Hi3 Hk Hb2' Hd1 Hcm) as [Hi4 Hold].
  eexists s4, _. split; [done|]. split; [exact Hi4|].
  intros k' sec' Hk'. rewrite (Hold k' sec' Hk').
  apply lookup_delete_Some in Hk' as [_ Hk'].
  destruct (inv_files _ _ _ _ Hi k' sec' Hk') as [Hb' Hwf'].
  rewrite (file_at_same s s3) by done. symmetry. by apply file_bytes_same.
Qed.

(** ** [Open] *)

Lemma OpenFile_new_Ok s sec :
  ready s → 0 ≤ sec < NumSectors →
  ∃ s', OpenFile_new sec s = Ok (MkOpenFile (file_at s sec) 0, s') ∧ ready s' ∧ same_sectors s s'.
Proof.
  intros Hs Hsec. destruct (FetchFrom_Ok s sec Hs Hsec) as (s' & H & Hr & Hsame).
  exists s'. unfold OpenFile_new. by rewrite (M_bind_step _ _ _ _ _ H).
Qed.

Lemma Open_Ok s fs marked files nm :
  fs_inv s fs marked files → wf_name nm →
  ∃ s', Open mem nm fs s
        = Ok ((λ sec, MkOpenFile (file_at s sec) 0) <$> files !! Directory.Spec.key nm, s')
        ∧ ready s' ∧ same_sectors s s'.
Proof.
  intros Hi Hn.
  destruct (load_dir_Ok mem s fs marked files Hi)
    as (d & s1 & Hdir & Hd & Hr1 & Hsame1).
  unfold Open. rewrite Hdir.
  rewrite (lift_step _ _ _ _ (Find_spec d _ nm Hd Hn)). unfold Directory.Spec.Find.
  cbn [Directory.Spec.files].
  destruct (files !! Directory.Spec.key nm) as [sec|] eqn:Hk; [|by exists s1].
  change (default (-1) (Some sec)) with sec.
  destruct (inv_files _ _ _ _ Hi _ _ Hk) as [Hsec Hwf].
  rewrite (proj2 (Z.leb_le 0 sec)) by lia.
  destruct (OpenFile_new_Ok s1 sec Hr1 Hsec) as (s2 & Hopen & Hr2 & Hsame2).
  exists s2. rewrite (M_bind_step _ _ _ _ _ Hopen), (file_at_same s s1) by done.
  split; [done|]. split; [done|]. by etrans.
Qed.

(** ** Writing to a file *)

Lemma fs_inv_write_file s s' fs marked files k sec :
  fs_inv s fs marked files → files !! k = Some sec → ready s' →
  (∀ x, 0 ≤ x < NumSectors → x ∉ file_sectors (file_at s sec) → sector s' x = sector s x) →
  fs_inv s' fs marked files
  ∧ file_at s' sec = file_at s sec
  ∧ ∀ k' sec', files !! k' = Some sec' → k' ≠ k →
      file_bytes s' (file_at s' sec') = file_bytes s (file_at s sec').
Proof.
  intros Hi Hk Hr' Hw. pose proof Hi as [Hr Hm Hd Hb Hdir Hf Hnd Hmk].
  assert (∀ x, x ∈ system_sectors fs → sector s' x = sector s x) as Hsys.
  { intros x Hx. apply Hw.
    - eapply in_use_range; [exact Hi|]. apply elem_of_app. by left.
    - intros Hin. apply (owned_not_system s fs marked files k sec x Hi Hk); [|done].
      unfold owned. set_solver. }
  pose proof (user_sectors_delete s files k sec Hk) as Hperm.
  pose proof Hnd as (_ & _ & Hndu)%list.NoDup_app. rewrite Hperm in Hndu.
  apply list.NoDup_app in Hndu as (Hndo & Hdisj & _).
  assert (∀ k' sec' x, files !! k' = Some sec' → k' ≠ k → x ∈ owned s sec' →
    sector s' x = sector s x) as Hother.
  { intros k' sec' x Hk' Hne Hx. apply Hw.
    - eapply in_use_range; [exact Hi|]. apply elem_of_app. right. apply elem_of_user_sectors. eauto.
    - intros Hin. apply (Hdisj x); [unfold owned; set_solver|].
      apply elem_of_user_sectors. exists k', sec'. split; [|done].
      rewrite lookup_delete_ne by done. done. }
  assert (∀ k' sec', files !! k' = Some sec' → file_at s' sec' = file_at s sec') as Hat.
  { intros k' sec' Hk'. unfold file_at. f_equal. destruct (decide (k' = k)) as [->|Hne].
    - rewrite Hk in Hk'. injection Hk' as <-. apply Hw; [by apply (Hf k)|].
      unfold owned in Hndo. by apply list.NoDup_cons in Hndo as [? _].
    - apply (Hother k' sec'); [done|done|]. unfold owned. set_solver. }
  split; [|split].
  - split; rewrite ?(user_sectors_ext s s') by done; try done.
    + rewrite Hsys; [done|]. unfold system_sectors. set_solver.
    + rewrite Hsys; [done|]. unfold system_sectors. set_solver.
    + destruct Hb as (b & ? & Hb). exists b. split; [done|]. rewrite <- Hb.
      apply file_bytes_frame. intros x Hx. apply Hsys. unfold system_sectors. set_solver.
    + destruct Hdir as (d & ? & Hdir). exists d. split; [done|]. rewrite <- Hdir.
      apply file_bytes_frame. intros x Hx. apply Hsys. unfold system_sectors. set_solver.
    + intros k' sec' Hk'. rewrite (Hat k' sec' Hk'). by apply (Hf k').
  - by apply (Hat k).
  - intros k' sec' Hk' Hne. rewrite (Hat k' sec' Hk'). apply file_bytes_frame.
    intros x Hx. apply (Hother k' sec'); [done|done|]. unfold owned. set_solver.
Qed.

(** ** Counting sectors *)

(** The sectors the files of [m] need, a header each and their data. *)
Definition sectors_needed (m : gmap name (list Z)) : Z :=
  foldr (λ p acc, 1 + divRoundUp (zlen p.2) SectorSize + acc) 0 (map_to_list m).

(** The sectors free when [m] is stored: two headers and three data sectors
    are the file system's own. *)
Definition free_sectors (m : gmap name (list Z)) : Z := NumSectors - 5 - sectors_needed m.

Lemma length_system_sectors fs : sys_files fs → length (system_sectors fs) = 5%nat.
Proof.
  intros [[Hm Hml] [Hd Hdl] _]. unfold system_sectors. simpl length. rewrite length_app.
  rewrite (wf_file_length _ Hm), (wf_file_length _ Hd).
  destruct Hm as (_ & _ & -> & _), Hd as (_ & _ & -> & _). by rewrite Hml, Hdl.
Qed.

Lemma zlen_file_bytes s h : ready s → wf_file h → zlen (file_bytes s h) = numBytes h.
Proof.
  intros Hs Hh. unfold zlen. rewrite length_file_bytes by done.
  destruct Hh as (_ & ? & _). lia.
Qed.

Lemma length_user_sectors s fs marked files :
  fs_inv s fs marked files →
  Z.of_nat (length (user_sectors s files))
  = sectors_needed ((λ sec, file_bytes s (file_at s sec)) <$> files).
Proof.
  intros Hi. unfold user_sectors, sectors_needed. rewrite map_to_list_fmap.
  assert (Forall (λ p, wf_file (file_at s p.2)) (map_to_list files)) as Hall.
  { apply list.Forall_forall. intros [k sec] Hin%elem_of_map_to_list.
    by destruct (inv_files _ _ _ _ Hi k sec Hin). }
  induction Hall as [|[k sec] l Hh Hl IH]; [done|].
  simpl in Hh |- *. rewrite length_app, (wf_file_length _ Hh).
  rewrite zlen_file_bytes by (done || apply (inv_ready _ _ _ _ Hi)).
  pose proof (wf_file_bounds _ Hh) as [? _]. destruct Hh as (_ & _ & <- & _).
  transitivity (1 + numSectors (file_at s sec)
                + Z.of_nat (length (concat (owned s <$> l.*2)))).
  - unfold fmap in *. lia.
  - exact (f_equal (Z.add (1 + numSectors (file_at s sec))) IH).
Qed.

Lemma NumClear_free s fs marked files :
  fs_inv s fs marked files →
  Bitmap.Spec.NumClear (Bitmap.Spec.Bits NumSectors marked)
  = free_sectors ((λ sec, file_bytes s (file_at s sec)) <$> files).
Proof.
  intros Hi. unfold Bitmap.Spec.NumClear.
  set (bits := Bitmap.Spec.Bits NumSectors marked).
  assert (Bitmap.Spec.clear_list bits ++ (system_sectors fs ++ user_sectors s files)
          ≡ₚ seqZ 0 NumSectors) as Hperm.
  { apply NoDup_Permutation.
    - apply list.NoDup_app. split; [apply clear_list_NoDup|]. split; [|apply (inv_nodup _ _ _ _ Hi)].
      intros x [_ Hx]%clear_list_spec Hin. apply Hx. simpl.
      rewrite (inv_marked _ _ _ _ Hi). by apply elem_of_list_to_set.
    - apply NoDup_seqZ.
    - intros x. rewrite elem_of_app, clear_list_spec, elem_of_seqZ. simpl.
      rewrite (inv_marked _ _ _ _ Hi), elem_of_list_to_set. split.
      + intros [[? _]|Hin]; [lia|]. pose proof (in_use_range _ _ _ _ _ Hi Hin). lia.
      + intros Hx. destruct (decide (x ∈ system_sectors fs ++ user_sectors s files)); [by right|].
        left. split; [lia|done]. }
  apply Permutation_length in Hperm.
  rewrite !length_app, (length_system_sectors fs (fs_inv_sys _ _ _ _ Hi)), length_seqZ in Hperm.
  unfold free_sectors, zlen. rewrite <- (length_user_sectors s fs marked files Hi).
  change (Z.to_nat NumSectors) with 1024%nat in Hperm. change NumSectors with 1024. lia.
Qed.
End operations.
