(* ===== verification/FsSpec.v ===== *)
(** * What the file system promises

    The theorems on [FileSystem::FileSystem], [Create], [Open] and [Remove],
    for any device with the laws of [BlockDevice] and whatever fresh memory
    holds. *)
From S2P Require Import Prelude Word Bitmap Machine Disk BlockDevice FileHdr OpenFile Directory FileSys FsOps.

Section promises.
Context {S : Type} `{!BlockDevice S}.
Context (mem : memory) `{!FreshMemory mem}.
#[local] Abbreviation uninit := (fresh_bytes mem).
#[local] Abbreviation uninit_map := (fresh_words mem).
#[local] Abbreviation uninit_dir := (fresh_entries mem).
#[local] Abbreviation uninit_hdr := (fresh_header mem).

Implicit Types (s : S) (fs : FileSystem) (m : gmap name (list Z)) (files : gmap name Z).

(** ** Formatting and starting *)

(** The invariant does not depend on the positions in the open files. *)
Lemma fs_inv_hdr s fs fs' marked files :
  hdr (freeMapFile fs') = hdr (freeMapFile fs) →
  hdr (directoryFile fs') = hdr (directoryFile fs) →
  fs_inv s fs marked files → fs_inv s fs' marked files.
Proof.
  intros H1 H2 [Hr Hm Hd Hb Hdir Hf Hnd Hmk].
  split; unfold system_sectors in *; rewrite ?H1, ?H2; done.
Qed.

Lemma open_system_files_Ok s fs :
  ready s → wf_file (hdr (freeMapFile fs)) → wf_file (hdr (directoryFile fs)) →
  sector s FreeMapSector = hdr_bytes (hdr (freeMapFile fs)) →
  sector s DirectorySector = hdr_bytes (hdr (directoryFile fs)) →
  ∃ s', open_system_files s
        = Ok (MkFileSystem (MkOpenFile (hdr (freeMapFile fs)) 0)
                (MkOpenFile (hdr (directoryFile fs)) 0), s')
        ∧ ready s' ∧ same_sectors s s'.
Proof.
  intros Hs [Hm _] [Hd _] H0 H1.
  destruct (OpenFile_new_Ok s FreeMapSector Hs ltac:(done)) as (s1 & Ho1 & Hs1 & Hsame1).
  destruct (OpenFile_new_Ok s1 DirectorySector Hs1 ltac:(done)) as (s2 & Ho2 & Hs2 & Hsame2).
  exists s2. unfold open_system_files.
  rewrite (M_bind_step _ _ _ _ _ Ho1), (M_bind_step _ _ _ _ _ Ho2).
  rewrite (file_at_same s s1) by done. unfold file_at.
  rewrite H0, H1, !hdr_of_bytes_hdr_bytes by done. split; [done|]. split; [done|]. by etrans.
Qed.

(** The bit map with the two header sectors marked, and its clear bits. *)
Definition format_bits : Bitmap.Spec.bits :=
  Bitmap.Spec.Bits NumSectors ({[1]} ∪ ({[0]} ∪ ∅)).

Lemma format_bits_clear : Bitmap.Spec.clear_list format_bits = seqZ 2 1022.
Proof. vm_compute. reflexivity. Qed.

(** The bit map with the sector of the map's file marked too. *)
Definition format_bits3 : Bitmap.Spec.bits := mark_all [2] format_bits.

Lemma format_bits3_clear : Bitmap.Spec.clear_list format_bits3 = seqZ 3 1021.
Proof. vm_compute. reflexivity. Qed.

Lemma Mark_marks i b bits :
  Impl.repr b bits → Bitmap.Spec.valid i bits = true →
  ∃ b', Impl.Mark i b = Ok (tt, b')
        ∧ Impl.repr b' (Bitmap.Spec.Bits (Bitmap.Spec.size bits) ({[i]} ∪ Bitmap.Spec.marked bits)).
Proof.
  intros Hr Hv. pose proof (Impl.Mark_matches b bits i Hr) as H.
  unfold Bitmap.Spec.Mark in H. rewrite Hv in H. exact H.
Qed.

(** The two [Allocate]s of a format, on the fresh bit map. *)
Lemma format_allocates b :
  Impl.repr b format_bits →
  ∃ mapHdr b1 dirHdr b2,
    Allocate FreeMapFileSize uninit_hdr b = Ok ((true, mapHdr), b1)
    ∧ Allocate DirectoryFileSize uninit_hdr b1 = Ok ((true, dirHdr), b2)
    ∧ wf_file mapHdr ∧ numBytes mapHdr = FreeMapFileSize ∧ file_sectors mapHdr = [2]
    ∧ wf_file dirHdr ∧ numBytes dirHdr = DirectoryFileSize ∧ file_sectors dirHdr = [3; 4]
    ∧ Impl.repr b2 (Bitmap.Spec.Bits NumSectors (list_to_set [0; 1; 2; 3; 4])).
Proof.
  intros Hb. destruct (uninit_hdr_ok (mem := mem)) as [Hul _].
  assert (Bitmap.Spec.NumClear format_bits = 1022) as Hn1
    by (unfold Bitmap.Spec.NumClear; rewrite format_bits_clear; by unfold zlen; rewrite length_seqZ).
  assert (Bitmap.Spec.NumClear format_bits3 = 1021) as Hn3
    by (unfold Bitmap.Spec.NumClear; rewrite format_bits3_clear; by unfold zlen; rewrite length_seqZ).
  pose proof (Allocate_spec b format_bits uninit_hdr FreeMapFileSize Hb Hul ltac:(done)) as H1.
  cbv zeta in H1. rewrite Hn1, format_bits_clear in H1.
  change (divRoundUp FreeMapFileSize SectorSize) with 1 in H1.
  destruct H1 as (b1 & H1 & Hb1). change (take (Z.to_nat 1) (seqZ 2 1022)) with [2] in Hb1.
  pose proof (Allocate_spec b1 format_bits3 uninit_hdr DirectoryFileSize Hb1 Hul ltac:(done)) as H2.
  cbv zeta in H2. rewrite Hn3, format_bits3_clear in H2.
  change (divRoundUp DirectoryFileSize SectorSize) with 2 in H2.
  destruct H2 as (b2 & H2 & Hb2). change (take (Z.to_nat 2) (seqZ 3 1021)) with [3; 4] in Hb2.
  eexists _, b1, _, b2. split; [exact H1|]. split; [exact H2|].
  split; [apply allocated_wf; [done|done|done|by rewrite Hn1]|]. split; [done|].
  split. { rewrite file_sectors_allocated by (rewrite Hn1; done). by rewrite format_bits_clear. }
  split; [apply allocated_wf; [done|done|done|by rewrite Hn3]|]. split; [done|].
  split. { rewrite file_sectors_allocated by (rewrite Hn3; done). by rewrite format_bits3_clear. }
  replace (list_to_set [0; 1; 2; 3; 4]) with (Bitmap.Spec.marked (mark_all [3; 4] format_bits3));
    [exact Hb2|].
  unfold format_bits3, format_bits, mark_all. simpl. set_solver.
Qed.

Lemma format_Ok s :
  ready s →
  ∃ fs s', FileSystem_new mem true s = Ok (fs, s')
           ∧ fs_repr s' fs ∅.
Proof.
  intros Hs. unfold FileSystem_new.
  destruct (new_map_Ok mem s) as (b0 & Hmap & Hb0).
  destruct (new_dir_Ok mem s) as (d0 & Hdir & Hd0).
  rewrite (M_bind_step _ _ _ _ _ Hmap), (M_bind_step _ _ _ _ _ Hdir).
  destruct (Mark_marks 0 b0 _ Hb0) as (b1 & Hm1 & Hb1); [done|].
  change FreeMapSector with 0. rewrite (on_map_step _ _ _ _ _ _ Hm1). cbv beta iota.
  destruct (Mark_marks 1 b1 _ Hb1) as (b2 & Hm2 & Hb2); [done|].
  change DirectorySector with 1. rewrite (on_map_step _ _ _ _ _ _ Hm2). cbv beta iota.
  destruct (format_allocates b2 Hb2)
    as (mh & b3 & dh & b4 & Ha1 & Ha2 & Hmwf & Hml & Hms & Hdwf & Hdl & Hds & Hb4).
  rewrite (on_map_step _ _ _ _ _ _ Ha1). cbv beta iota.
  rewrite (M_bind_step _ _ s tt s) by done.
  rewrite (on_map_step _ _ _ _ _ _ Ha2). cbv beta iota.
  rewrite (M_bind_step _ _ s tt s) by done.
  destruct (WriteBack_Ok s mh 0 Hs ltac:(done) ltac:(by destruct Hmwf as ((_ & _ & ? & _) & _)))
    as (s1 & Hw1 & Hs1 & Hk1).
  destruct (WriteBack_Ok s1 dh 1 Hs1 ltac:(done) ltac:(by destruct Hdwf as ((_ & _ & ? & _) & _)))
    as (s2 & Hw2 & Hs2 & Hk2).
  rewrite (M_bind_step _ _ _ _ _ Hw1), (M_bind_step _ _ _ _ _ Hw2).
  set (fs := MkFileSystem (MkOpenFile mh 0) (MkOpenFile dh 0)).
  assert (sector s2 0 = hdr_bytes mh ∧ sector s2 1 = hdr_bytes dh) as [Hsec0 Hsec1].
  { split; [rewrite Hk2, decide_False, Hk1 by done; by rewrite decide_True|].
    rewrite Hk2 by done. by rewrite decide_True. }
  destruct (open_system_files_Ok s2 fs Hs2 Hmwf Hdwf Hsec0 Hsec1) as (s3 & Ho & Hs3 & Hsame3).
  rewrite (M_bind_step _ _ _ _ _ Ho).
  assert (sys_files fs) as Hsys.
  { split; [done|done|]. unfold system_sectors. simpl. rewrite Hms, Hds.
    apply (bool_decide_unpack _). vm_compute. exact I. }
  destruct (commit_map_dir mem s3 fs b4 d0 _ _ Hs3 Hsys Hb4 Hd0)
    as (s4 & Hc & Hr4 & Hfm & Hfd & Hother).
  eexists fs, s4. split; [by rewrite Hc|].
  assert (∀ x, x = 0 ∨ x = 1 → sector s4 x = sector s2 x) as Hsys4.
  { intros x Hx. assert (0 ≤ x < NumSectors) as Hxb by (destruct Hx as [-> | ->]; done).
    simpl in Hother. rewrite Hms, Hds in Hother.
    rewrite Hother by (done || set_solver by lia). symmetry. by apply Hsame3. }
  exists (list_to_set [0; 1; 2; 3; 4]), ∅. split; [|by rewrite fmap_empty].
  assert (system_sectors fs = [0; 1; 2; 3; 4]) as Hss
    by (unfold system_sectors; simpl hdr; rewrite Hms, Hds; done).
  assert (user_sectors s4 ∅ = []) as Hus
    by (unfold user_sectors; by rewrite map_to_list_empty).
  split.
  - done.
  - split; [done|]. split; [done|]. rewrite Hsys4 by by left. exact Hsec0.
  - split; [done|]. split; [done|]. rewrite Hsys4 by by right. exact Hsec1.
  - exists b4. split; [exact Hb4|exact Hfm].
  - exists d0. split; [exact Hd0|exact Hfd].
  - done.
  - rewrite Hus, app_nil_r. by destruct Hsys.
  - by rewrite Hss, Hus.
Qed.

(** C22.  Formatting any disk succeeds and leaves a file system
    with no files, and a file system started later on the same disk without
    formatting has the files the disk stores. *)
Theorem FileSystem_new_correct s fs m :
  (ready s → ∃ fs' s', FileSystem_new mem true s = Ok (fs', s') ∧ fs_repr s' fs' ∅)
  ∧ (fs_repr s fs m →
     ∃ fs' s', FileSystem_new mem false s = Ok (fs', s') ∧ fs_repr s' fs' m).
Proof.
  split; [apply format_Ok|]. intros (marked & files & Hi & ->).
  pose proof Hi as [Hr (Hm & _ & H0) (Hd & _ & H1) _ _ _ _ _].
  destruct (open_system_files_Ok s fs Hr Hm Hd H0 H1) as (s' & Ho & Hr' & Hsame).
  eexists _, s'. split; [exact Ho|].
  apply (fs_repr_same s); [done|done|]. exists marked, files. split; [|done].
  by apply (fs_inv_hdr s fs).
Qed.

(** ** Creating *)

(** [Create] can succeed on [m]: the name is new, the directory has room and
    the free sectors are enough for a header and the data. *)
Definition can_create m (nm : name) (initialSize : Z) : Prop :=
  m !! Directory.Spec.key nm = None ∧ (size m < 10)%nat
  ∧ 1 + divRoundUp initialSize SectorSize ≤ free_sectors m.

Lemma creatable_can_create s fs marked files nm initialSize :
  fs_inv s fs marked files →
  creatable marked files nm initialSize
  ↔ can_create ((λ sec, file_bytes s (file_at s sec)) <$> files) nm initialSize.
Proof.
  intros Hi. unfold creatable, can_create.
  by rewrite (NumClear_free s fs marked files Hi), lookup_fmap, fmap_None, map_size_fmap.
Qed.

(** The contents after an operation that changes the file [k] only. *)
Lemma contents_insert s s' files k sec data :
  file_bytes s' (file_at s' sec) = data →
  (∀ k' sec', files !! k' = Some sec' → k' ≠ k →
     file_bytes s' (file_at s' sec') = file_bytes s (file_at s sec')) →
  (λ sec, file_bytes s' (file_at s' sec)) <$> <[k := sec]> files
  = <[k := data]> ((λ sec, file_bytes s (file_at s sec)) <$> files).
Proof.
  intros <- Hold. rewrite fmap_insert. apply map_eq. intros k'.
  destruct (decide (k' = k)) as [->|Hne]; [by rewrite !lookup_insert_eq|].
  rewrite !lookup_insert_ne, !lookup_fmap by done.
  destruct (files !! k') as [sec'|] eqn:Hk'; [|done]. simpl. f_equal. by apply (Hold k').
Qed.

Lemma Create_new s fs m nm initialSize :
  fs_repr s fs m → wf_name nm → 0 ≤ initialSize ≤ MaxFileSize → can_create m nm initialSize →
  ∃ s' data, Create mem nm initialSize fs s = Ok (true, s') ∧ zlen data = initialSize
    ∧ fs_repr s' fs (<[Directory.Spec.key nm := data]> m).
Proof.
  intros (marked & files & Hi & ->) Hn Hsize Hcan.
  apply (creatable_can_create s fs marked files nm initialSize Hi) in Hcan as Hc.
  pose proof (Create_spec mem s fs marked files nm initialSize Hi Hn Hsize) as H.
  rewrite decide_True in H by done. destruct H as (s' & sec & marked' & Hrun & Hi' & Hlen & Hold).
  destruct (inv_files _ _ _ _ Hi' _ sec (lookup_insert_eq _ _ _)) as [_ Hwf].
  exists s', (file_bytes s' (file_at s' sec)). split; [done|]. split.
  { by rewrite zlen_file_bytes by (done || apply (inv_ready _ _ _ _ Hi')). }
  eexists _, _. split; [exact Hi'|]. symmetry. apply contents_insert; [done|].
  intros k' sec' Hk' _. by apply (Hold k').
Qed.

Lemma Create_refused s fs m nm initialSize :
  fs_repr s fs m → wf_name nm → 0 ≤ initialSize ≤ MaxFileSize → ¬ can_create m nm initialSize →
  ∃ s', Create mem nm initialSize fs s = Ok (false, s') ∧ fs_repr s' fs m.
Proof.
  intros (marked & files & Hi & ->) Hn Hsize Hcan.
  rewrite <- (creatable_can_create s fs marked files nm initialSize Hi) in Hcan.
  pose proof (Create_spec mem s fs marked files nm initialSize Hi Hn Hsize) as H.
  rewrite decide_False in H by done. destruct H as (s' & Hrun & Hr' & Hsame).
  exists s'. split; [done|]. apply (fs_repr_same s); [done|done|]. by exists marked, files.
Qed.

#[export] Instance can_create_dec m nm initialSize : Decision (can_create m nm initialSize).
Proof. unfold can_create. apply _. Defined.

(** C7.  [Create] answers true exactly when the name is new, the
    directory has one of its ten entries free and the disk has the sectors
    for the header and the data.  Then the file is there with the size asked
    for and every other file is as it was; otherwise no file changes, even
    where the map and the directory in memory were half updated. *)
Theorem Create_correct s fs m nm initialSize
    (Hr : fs_repr s fs m) (Hn : wf_name nm) (Hsize : 0 ≤ initialSize ≤ MaxFileSize) :
  ∃ b s', Create mem nm initialSize fs s = Ok (b, s')
    ∧ (b = true ↔ can_create m nm initialSize)
    ∧ if b then ∃ data, zlen data = initialSize
                        ∧ fs_repr s' fs (<[Directory.Spec.key nm := data]> m)
      else fs_repr s' fs m.
Proof.
  destruct (decide (can_create m nm initialSize)) as [Hc|Hc].
  - destruct (Create_new s fs m nm initialSize Hr Hn Hsize Hc) as (s' & data & Hrun & H).
    exists true, s'. split; [done|]. split; [done|]. by exists data.
  - destruct (Create_refused s fs m nm initialSize Hr Hn Hsize Hc) as (s' & Hrun & H).
    by exists false, s'.
Qed.

Lemma Remove_found s fs m nm :
  fs_repr s fs m → wf_name nm → is_Some (m !! Directory.Spec.key nm) →
  ∃ s', Remove mem nm fs s = Ok (true, s') ∧ fs_repr s' fs (delete (Directory.Spec.key nm) m).
Proof.
  intros (marked & files & Hi & ->) Hn. rewrite lookup_fmap, fmap_is_Some. intros [sec Hk].
  pose proof (Remove_Ok mem s fs marked files nm Hi Hn) as H. rewrite Hk in H.
  destruct H as (s' & marked' & Hrun & Hi' & Hold). exists s'. split; [done|].
  eexists _, _. split; [exact Hi'|]. rewrite <- fmap_delete. symmetry.
  apply map_fmap_ext. intros k' sec' Hk'. by apply (Hold k').
Qed.

Lemma Remove_missing s fs m nm :
  fs_repr s fs m → wf_name nm → m !! Directory.Spec.key nm = None →
  ∃ s', Remove mem nm fs s = Ok (false, s') ∧ fs_repr s' fs m.
Proof.
  intros (marked & files & Hi & ->) Hn. rewrite lookup_fmap, fmap_None. intros Hk.
  pose proof (Remove_Ok mem s fs marked files nm Hi Hn) as H. rewrite Hk in H.
  destruct H as (s' & Hrun & Hr' & Hsame). exists s'. split; [done|].
  apply (fs_repr_same s); [done|done|]. by exists marked, files.
Qed.

(** C9.  [Remove] answers true exactly when the file is there;
    it is then gone, its sectors are free again and every other file is as it
    was. *)
Theorem Remove_correct s fs m nm (Hr : fs_repr s fs m) (Hn : wf_name nm) :
  ∃ s', Remove mem nm fs s = Ok (bool_decide (is_Some (m !! Directory.Spec.key nm)), s')
    ∧ fs_repr s' fs (delete (Directory.Spec.key nm) m).
Proof.
  destruct (m !! Directory.Spec.key nm) as [data|] eqn:Hk.
  - rewrite bool_decide_true by done. apply Remove_found; [done|done|by exists data].
  - rewrite bool_decide_false by (by intros [? [=]]). rewrite delete_id by done.
    by apply Remove_missing.
Qed.

(** C8.  [Open] finds exactly the files that are there.  What it
    answers reads the stored bytes, and writing through it changes those
    bytes of that file and no other file; neither goes past the end of the
    file. *)
Theorem Open_correct s fs m nm (Hr : fs_repr s fs m) (Hn : wf_name nm) :
  match m !! Directory.Spec.key nm with
  | None => ∃ s', Open mem nm fs s = Ok (None, s') ∧ fs_repr s' fs m
  | Some data =>
      ∃ f s', Open mem nm fs s = Ok (Some f, s') ∧ fs_repr s' fs m ∧ Length f = zlen data
        ∧ ∀ req position, 0 ≤ position → in_s32 (position + req) →
          let n := available (hdr f) req position in
          (∃ s'', ReadAt uninit f req position s'
                  = Ok ((n, slice (Z.to_nat position) (Z.to_nat n) data), s'')
                  ∧ fs_repr s'' fs m)
          ∧ ∀ from, n ≤ zlen from → Forall byte_ok from →
            ∃ s'', WriteAt uninit f from req position s' = Ok (n, s'')
              ∧ fs_repr s'' fs (<[Directory.Spec.key nm :=
                    splice (Z.to_nat position) (take (Z.to_nat n) from) data]> m)
  end.
Proof.
  destruct Hr as (marked & files & Hi & ->).
  destruct (Open_Ok mem s fs marked files nm Hi Hn) as (s' & Hrun & Hr' & Hsame).
  pose proof (fs_inv_same s s' fs marked files Hsame Hr' Hi) as Hi'.
  assert (fs_repr s' fs ((λ sec, file_bytes s (file_at s sec)) <$> files)) as Hrepr
    by (apply (fs_repr_same s); [done|done|by exists marked, files]).
  rewrite lookup_fmap.
  destruct (files !! Directory.Spec.key nm) as [sec|] eqn:Hk; [|by exists s'].
  simpl. destruct (inv_files _ _ _ _ Hi _ _ Hk) as [Hsec Hwf].
  eexists _, s'. split; [exact Hrun|]. split; [done|]. split.
  { unfold Length. simpl. by rewrite zlen_file_bytes by (done || apply (inv_ready _ _ _ _ Hi)). }
  intros req position Hp Hfit. set (f := MkOpenFile (file_at s sec) 0) in *.
  set (n := available (hdr f) req position). rewrite (file_bytes_same s s' _ Hwf Hsame). split.
  - destruct (ReadAt_Ok uninit s' f req position Hr' Hwf Hp Hfit) as (s'' & Hread & Hr'' & Hsame').
    exists s''. split; [exact Hread|]. by apply (fs_repr_same s').
  - intros from Hfrom Hok.
    destruct (WriteAt_Ok uninit uninit_ok s' f from req position Hr' Hwf Hp Hfit Hfrom Hok)
      as (s'' & Hw & Hr'' & Hbytes & Hother).
    exists s''. split; [exact Hw|].
    assert (file_at s' sec = file_at s sec) as Hat' by by rewrite <- (file_at_same s s').
    change (hdr f) with (file_at s sec) in Hother, Hbytes.
    rewrite <- Hat' in Hother, Hbytes.
    destruct (fs_inv_write_file mem s' s'' fs marked files _ sec Hi' Hk Hr'' Hother) as (Hi'' & Hat & Hold).
    exists marked, files. split; [done|].
    transitivity ((λ sec, file_bytes s'' (file_at s'' sec)) <$> <[Directory.Spec.key nm := sec]> files).
    + symmetry. apply contents_insert; [by rewrite Hat, Hbytes, Hat'|].
      intros k' sec' Hk' Hne. rewrite (Hold k' sec' Hk' Hne).
      destruct (inv_files _ _ _ _ Hi k' sec' Hk') as [? ?].
      rewrite (file_at_same s s') by done. symmetry. by apply file_bytes_same.
    + by rewrite insert_id.
Qed.
End promises.
