(* ===== verification/FsTest.v ===== *)
(** * filesys/fstest.cc: the tests of the file system

    [Copy] brings a file of the host into the file system, [Print] shows one,
    and [PerformanceTest] writes, reads and removes a large file.  The tests
    run over the device [S] and a list of what they print, newest first. *)
From S2P Require Import Prelude Word Machine Disk BlockDevice FileHdr OpenFile Directory FileSys.

(** The [printf]s.  [stats->Print()] is [Statistics_Print]; the numbers it
    prints are not part of this model. *)
Inductive message :=
  | CopyNoInput (from : name)
  | CopyNoOutput (to : name)
  | PrintNoFile (nm : name)
  | PrintChar (c : Z)
  | SequentialWrite (size chunk : Z)
  | CannotCreate
  | UnableToOpenWrite
  | UnableToWrite
  | SequentialRead (size chunk : Z)
  | UnableToOpenRead
  | UnableToRead
  | StartingTest
  | Statistics_Print
  | UnableToRemove.

#[export] Instance message_eq_dec : EqDecision message.
Proof. solve_decision. Defined.

Record bench (S : Type) := Bench { device : S; printed : list message }.
Arguments Bench {S} _ _.
Arguments device {S} _.
Arguments printed {S} _.

Definition TransferSize : Z := 10.

(** ["TestFile"] and ["1234567890"]. *)
Definition FileName : name := [84; 101; 115; 116; 70; 105; 108; 101].
Definition Contents : list Z := [49; 50; 51; 52; 53; 54; 55; 56; 57; 48].
Definition ContentSize : Z := zlen Contents.
Definition FileSize : Z := ContentSize * 5000.

Section fstest.
Context {S : Type} `{!BlockDevice S}.
Variable mem : memory.
Variable fileSystem : FileSystem.
(** The files of the host that [fopen] can open. *)
Variable host_file : name → option (list Z).
#[local] Abbreviation T := (M (bench S)).

Definition on_device {A} (m : M S A) : T A := λ b,
  match m (device b) with
  | Ok (a, s') => Ok (a, Bench s' (printed b))
  | Fault f => Fault f
  end.
Definition printf (x : message) : T unit := modify (λ b, Bench (device b) (x :: printed b)).

Definition Create_ (nm : name) (size : Z) : T bool := on_device (Create mem nm size fileSystem).
Definition Open_ (nm : name) : T (option OpenFile) := on_device (Open mem nm fileSystem).
Definition Remove_ (nm : name) : T bool := on_device (Remove mem nm fileSystem).
Definition Write_ (f : OpenFile) (from : list Z) (n : Z) : T (Z * OpenFile) :=
  on_device (Write (fresh_bytes mem) f from n).
Definition Read_ (f : OpenFile) (n : Z) : T (Z * list Z * OpenFile) :=
  on_device (Read (fresh_bytes mem) f n).

(** The loop of [Copy]: [rest] is what [fread] has not given out yet. *)
Fixpoint copy_loop (fuel : nat) (rest : list Z) (openFile : OpenFile) : T unit :=
  match fuel with
  | O => fail OutOfFuel
  | Datatypes.S fuel' =>
      let buffer := take (Z.to_nat TransferSize) rest in
      let amountRead := zlen buffer in
      if 0 <? amountRead then
        '(_, openFile) ← Write_ openFile buffer amountRead;
        copy_loop fuel' (drop (Z.to_nat TransferSize) rest) openFile
      else mret tt
  end.

Definition Copy (from to : name) : T unit :=
  match host_file from with
  | None => printf (CopyNoInput from)
  | Some contents =>
      let fileLength := zlen contents in
      ok ← Create_ to fileLength;
      if negb ok then printf (CopyNoOutput to)
      else
        openFile ← Open_ to;
        lift (ASSERT (bool_decide (openFile ≠ None))) ;;
        openFile ← lift (deref openFile);
        copy_loop (Datatypes.S (length contents)) contents openFile
  end.

(** One [printf("%c", buffer[i])] for each character. *)
Fixpoint print_chars (cs : list Z) : T unit :=
  match cs with
  | [] => mret tt
  | c :: cs => printf (PrintChar c) ;; print_chars cs
  end.

Fixpoint print_loop (fuel : nat) (openFile : OpenFile) : T unit :=
  match fuel with
  | O => fail OutOfFuel
  | Datatypes.S fuel' =>
      '(amountRead, buffer, openFile) ← Read_ openFile TransferSize;
      if 0 <? amountRead then print_chars buffer ;; print_loop fuel' openFile
      else mret tt
  end.

Definition Print (nm : name) : T unit :=
  openFile ← Open_ nm;
  match openFile with
  | None => printf (PrintNoFile nm)
  | Some openFile => print_loop (Datatypes.S (Z.to_nat (Length openFile))) openFile
  end.

(** The rounds [i = 0, ContentSize, ... < FileSize]; a round that fails
    returns from the function. *)
Fixpoint write_rounds (n : nat) (openFile : OpenFile) : T unit :=
  match n with
  | O => mret tt
  | Datatypes.S n' =>
      '(numBytes, openFile) ← Write_ openFile Contents ContentSize;
      if numBytes <? 10 then printf UnableToWrite
      else write_rounds n' openFile
  end.

Definition FileWrite : T unit :=
  printf (SequentialWrite FileSize ContentSize) ;;
  ok ← Create_ FileName 0;
  if negb ok then printf CannotCreate
  else
    openFile ← Open_ FileName;
    match openFile with
    | None => printf UnableToOpenWrite
    | Some openFile => write_rounds (Z.to_nat (FileSize / ContentSize)) openFile
    end.

Fixpoint read_rounds (n : nat) (openFile : OpenFile) : T unit :=
  match n with
  | O => mret tt
  | Datatypes.S n' =>
      '(numBytes, buffer, openFile) ← Read_ openFile ContentSize;
      if (numBytes <? 10) || negb (bool_decide (buffer = Contents)) then printf UnableToRead
      else read_rounds n' openFile
  end.

Definition FileRead : T unit :=
  printf (SequentialRead FileSize ContentSize) ;;
  openFile ← Open_ FileName;
  match openFile with
  | None => printf UnableToOpenRead
  | Some openFile => read_rounds (Z.to_nat (FileSize / ContentSize)) openFile
  end.

Definition PerformanceTest : T unit :=
  printf StartingTest ;;
  printf Statistics_Print ;;
  FileWrite ;;
  FileRead ;;
  ok ← Remove_ FileName;
  if negb ok then printf UnableToRemove
  else printf Statistics_Print.
End fstest.
