(* ===== verification/FsTestSpec.v ===== *)
(** * The tests of the file system do what they say

    [opened s fs m k f]: [f] is the open file of the name [k] in the file
    system that stores [m].  Reads and writes at its position keep this, so
    that loops of them are loops over the contents in [m]. *)
From S2P Require Import Prelude Word Bitmap Machine Disk BlockDevice FileHdr OpenFile Directory FileSys FsOps FsSpec FsTest.

Section opened.
Context {S : Type} `{!BlockDevice S}.
Context (mem : memory) `{!FreshMemory mem}.
#[local] Abbreviation uninit := (fresh_bytes mem).
Implicit Types (s : S) (fs : FileSystem) (m : gmap name (list Z)) (f : OpenFile) (k : name).

Definition contents s (files : gmap name Z) : gmap name (list Z) :=
  (λ sec, file_bytes s (file_at s sec)) <$> files.

Definition opened s fs m k f : Prop :=
  ∃ marked files sec, fs_inv s fs marked files ∧ m = contents s files
    ∧ files !! k = Some sec ∧ hdr f = file_at s sec.

Lemma opened_repr s fs m k f : opened s fs m k f → fs_repr s fs m.
Proof. intros (marked & files & sec & Hi & -> & _). by exists marked, files. Qed.

Lemma opened_data s fs m k f :
  opened s fs m k f → ready s ∧ wf_file (hdr f) ∧ m !! k = Some (file_bytes s (hdr f)).
Proof.
  intros (marked & files & sec & Hi & -> & Hk & ->).
  destruct (inv_files _ _ _ _ Hi _ _ Hk) as [_ Hwf].
  split; [by apply (inv_ready _ _ _ _ Hi)|]. split; [done|].
  unfold contents. by rewrite lookup_fmap, Hk.
Qed.

Lemma opened_length s fs m k f data :
  opened s fs m k f → m !! k = Some data → FileLength (hdr f) = zlen data.
Proof.
  intros (Hr & Hwf & Hk)%opened_data. rewrite Hk. intros [= <-].
  by rewrite zlen_file_bytes.
Qed.

(** The position does not matter. *)
Lemma opened_hdr s fs m k f f' : hdr f' = hdr f → opened s fs m k f → opened s fs m k f'.
Proof. intros E (marked & files & sec & ?&?&?&?). exists marked, files, sec. by rewrite E. Qed.

Lemma Open_opened s fs m nm :
  fs_repr s fs m → wf_name nm → is_Some (m !! Directory.Spec.key nm) →
  ∃ f s', Open mem nm fs s = Ok (Some f, s') ∧ seekPosition f = 0
          ∧ opened s' fs m (Directory.Spec.key nm) f.
Proof.
  intros (marked & files & Hi & ->) Hn [data Hd].
  destruct (Open_Ok mem s fs marked files nm Hi Hn) as (s' & Hrun & Hr' & Hsame).
  rewrite lookup_fmap in Hd. destruct (files !! Directory.Spec.key nm) as [sec|] eqn:Hk; [|done].
  destruct (inv_files _ _ _ _ Hi _ _ Hk) as [Hsec Hwf].
  eexists _, s'. split; [exact Hrun|]. split; [done|]. exists marked, files, sec.
  split; [by apply (fs_inv_same s)|]. split; [|split; [done|]].
  - unfold contents. apply map_fmap_ext. intros k' sec' Hk'.
    destruct (inv_files _ _ _ _ Hi _ _ Hk') as [Hsec' Hwf'].
    rewrite (file_at_same s s') by done. symmetry. by apply file_bytes_same.
  - simpl. by rewrite (file_at_same s s').
Qed.

Lemma Open_none s fs m nm :
  fs_repr s fs m → wf_name nm → m !! Directory.Spec.key nm = None →
  ∃ s', Open mem nm fs s = Ok (None, s') ∧ fs_repr s' fs m.
Proof.
  intros (marked & files & Hi & ->) Hn Hd.
  destruct (Open_Ok mem s fs marked files nm Hi Hn) as (s' & Hrun & Hr' & Hsame).
  rewrite lookup_fmap in Hd. destruct (files !! Directory.Spec.key nm); [done|].
  exists s'. split; [done|]. apply (fs_repr_same s); [done|done|]. by exists marked, files.
Qed.

(** The bytes that a request of [n] bytes reaches. *)
Definition got (data : list Z) (position n : Z) : list Z :=
  take (Z.to_nat n) (drop (Z.to_nat position) data).

Lemma zlen_got data position n :
  0 ≤ position → 0 ≤ n → zlen (got data position n) = Z.max 0 (Z.min n (zlen data - position)).
Proof. intros. unfold got, zlen. rewrite length_take, length_drop. lia. Qed.

Lemma slice_got data position n :
  slice (Z.to_nat position) (Z.to_nat (Z.max 0 (Z.min n (zlen data - position)))) data
  = got data position n.
Proof.
  unfold slice, got. destruct (Z.le_gt_cases n (zlen data - position)).
  - f_equal. lia.
  - rewrite !take_ge; [done|rewrite length_drop; unfold zlen in *; lia..].
Qed.

Lemma Read_opened s fs m k f n data :
  opened s fs m k f → m !! k = Some data → 0 ≤ n → 0 ≤ seekPosition f ≤ zlen data →
  zlen data + n < 2 ^ 31 →
  let r := got data (seekPosition f) n in
  ∃ s', Read uninit f n s = Ok ((zlen r, r, MkOpenFile (hdr f) (seekPosition f + zlen r)), s')
        ∧ opened s' fs m k (MkOpenFile (hdr f) (seekPosition f + zlen r)).
Proof.
  intros Ho Hd Hn Hp Hfit r. pose proof (opened_data _ _ _ _ _ Ho) as (Hr & Hwf & Hk).
  pose proof (opened_length _ _ _ _ _ _ Ho Hd) as Hlen.
  rewrite Hd in Hk. injection Hk as Hk.
  destruct (ReadAt_Ok uninit s f n (seekPosition f) Hr Hwf ltac:(lia) ltac:(unfold in_s32; lia))
    as (s' & Hrun & Hr' & Hsame).
  unfold available in Hrun. rewrite Hlen, <- Hk, slice_got in Hrun. fold r in Hrun.
  assert (Z.max 0 (Z.min n (zlen data - seekPosition f)) = zlen r) as Hz
    by (unfold r; rewrite zlen_got; lia).
  rewrite Hz in Hrun.
  assert (add32 (seekPosition f) (zlen r) = seekPosition f + zlen r) as Ha
    by (unfold add32; apply s32_id; unfold in_s32; lia).
  exists s'. unfold Read. rewrite (M_bind_step _ _ _ _ _ Hrun). rewrite Ha. split; [done|].
  destruct Ho as (marked & files & sec & Hi & -> & Hks & Hf).
  destruct (inv_files _ _ _ _ Hi _ _ Hks) as [Hsec _].
  exists marked, files, sec. split; [by apply (fs_inv_same s)|]. split; [|split; [done|]].
  - apply map_fmap_ext. intros k' sec' Hk'. destruct (inv_files _ _ _ _ Hi _ _ Hk') as [? Hw'].
    rewrite (file_at_same s s') by done. symmetry. by apply file_bytes_same.
  - simpl. by rewrite (file_at_same s s').
Qed.

Lemma Write_opened s fs m k f from data :
  opened s fs m k f → m !! k = Some data → Forall byte_ok from →
  0 ≤ seekPosition f ≤ zlen data → zlen data + zlen from < 2 ^ 31 →
  let n := Z.min (zlen from) (zlen data - seekPosition f) in
  let f' := MkOpenFile (hdr f) (seekPosition f + n) in
  ∃ s', Write uninit f from (zlen from) s = Ok ((n, f'), s')
    ∧ opened s' fs (<[k := splice (Z.to_nat (seekPosition f)) (take (Z.to_nat n) from) data]> m) k f'.
Proof.
  intros Ho Hd Hok Hp Hfit n f'. pose proof (opened_data _ _ _ _ _ Ho) as (Hr & Hwf & Hk).
  pose proof (opened_length _ _ _ _ _ _ Ho Hd) as Hlen.
  rewrite Hd in Hk. injection Hk as Hk.
  assert (0 ≤ zlen from) as Hz by (unfold zlen; lia).
  assert (available (hdr f) (zlen from) (seekPosition f) = n) as Hn
    by (unfold available, n; rewrite Hlen; lia).
  destruct (WriteAt_Ok uninit uninit_ok s f from (zlen from) (seekPosition f) Hr Hwf
    ltac:(lia) ltac:(unfold in_s32; lia) ltac:(rewrite Hn; lia) Hok) as (s' & Hrun & Hr' & Hb & Hother).
  rewrite Hn in Hrun, Hb. rewrite <- Hk in Hb.
  assert (add32 (seekPosition f) n = seekPosition f + n) as Ha
    by (unfold add32; apply s32_id; unfold in_s32; lia).
  exists s'. unfold Write. rewrite (M_bind_step _ _ _ _ _ Hrun), Ha. split; [done|].
  destruct Ho as (marked & files & sec & Hi & -> & Hks & Hf). rewrite Hf in Hother, Hb.
  destruct (fs_inv_write_file mem s s' fs marked files k sec Hi Hks Hr' Hother) as (Hi' & Hat & Hold).
  exists marked, files, sec. split; [done|]. split; [|split; [done|]].
  - transitivity (contents s' (<[k := sec]> files)).
    + symmetry. apply contents_insert; [by rewrite Hat|]. done.
    + by rewrite insert_id.
  - simpl. by rewrite Hf, Hat.
Qed.
End opened.

Section tests.
Context {S : Type} `{!BlockDevice S}.
Context (mem : memory) `{!FreshMemory mem}.
Context (fs : FileSystem) (host_file : name → option (list Z)).
Implicit Types (s : S) (m : gmap name (list Z)) (f : OpenFile) (k : name) (p : list message).

Lemma on_device_step {A B} (a : M S A) (c : A → M (bench S) B) s x s' p :
  a s = Ok (x, s') → (on_device a ≫= c) (Bench s p) = c x (Bench s' p).
Proof. intros E. unfold on_device, mbind, M_bind. simpl. by rewrite E. Qed.

(** ** Copying *)

Lemma got_all rest n : got rest 0 n = take (Z.to_nat n) rest.
Proof. done. Qed.

Lemma splice_append (data chunk : list Z) pos :
  0 ≤ pos → pos + zlen chunk ≤ zlen data →
  take (Z.to_nat (pos + zlen chunk)) (splice (Z.to_nat pos) chunk data)
  = take (Z.to_nat pos) data ++ chunk.
Proof.
  intros Hp Hl. unfold splice, zlen in *. rewrite app_assoc, take_app_le.
  - apply take_ge. rewrite length_app, length_take. lia.
  - rewrite length_app, length_take. lia.
Qed.

Lemma copy_loop_Ok fuel rest s m k f data p :
  (length rest < fuel)%nat → opened s fs m k f → m !! k = Some data → Forall byte_ok rest →
  0 ≤ seekPosition f → seekPosition f + zlen rest = zlen data → zlen data < 2 ^ 30 →
  ∃ s', copy_loop mem fuel rest f (Bench s p) = Ok (tt, Bench s' p)
        ∧ fs_repr s' fs (<[k := take (Z.to_nat (seekPosition f)) data ++ rest]> m).
Proof.
  revert rest s m f data. induction fuel as [|fuel IH]; intros rest s m f data Hfuel Ho Hd Hok Hp Hl Hs;
    [lia|]. cbn [copy_loop].
  change (Z.to_nat TransferSize) with 10%nat. set (chunk := take 10 rest).
  destruct (Z.ltb_spec 0 (zlen chunk)) as [Hc|Hc].
  - assert (zlen chunk ≤ zlen rest ∧ zlen chunk ≤ 10) as [Hc' Hc10]
      by (unfold chunk, zlen; rewrite length_take; lia).
    destruct (Write_opened mem s fs m k f chunk data Ho Hd) as (s1 & Hw & Ho1).
    { by apply Forall_take. }
    { lia. }
    { lia. }
    rewrite (Z.min_l (zlen chunk)) in Hw, Ho1 by lia.
    unfold Write_. rewrite (on_device_step _ _ _ _ _ _ Hw).
    rewrite (take_ge chunk) in Ho1 by (unfold zlen; lia).
    set (data' := splice (Z.to_nat (seekPosition f)) chunk data) in *.
    assert (zlen data' = zlen data) as Hd' by (unfold data', zlen in *; rewrite length_splice; lia).
    destruct (IH (drop 10 rest) s1 _ _ data' ltac:(rewrite length_drop; unfold chunk, zlen in Hc;
        rewrite length_take in Hc; lia) Ho1 (lookup_insert_eq _ _ _) (Forall_drop _ _ _ Hok))
      as (s2 & Hrun & Hrep); simpl.
    { lia. }
    { rewrite Hd', <- Hl. unfold chunk, zlen. rewrite length_take, length_drop. lia. }
    { lia. }
    exists s2. split; [exact Hrun|]. rewrite insert_insert_eq in Hrep. simpl in Hrep.
    unfold data' in Hrep. rewrite splice_append, <- app_assoc in Hrep by lia.
    unfold chunk in Hrep. by rewrite take_drop in Hrep.
  - assert (rest = []) as ->.
    { destruct rest; [done|]. unfold chunk, zlen in Hc. simpl in Hc. lia. }
    exists s. split; [done|]. rewrite app_nil_r, take_ge by (unfold zlen in *; simpl in *; lia).
    rewrite insert_id by done. by eapply opened_repr.
Qed.

(** ** Printing *)

Lemma print_chars_Ok cs s p :
  print_chars cs (Bench s p) = Ok (tt, Bench s (rev (PrintChar <$> cs) ++ p)).
Proof.
  revert p. induction cs as [|c cs IH]; intros p; [done|].
  cbn [print_chars]. erewrite M_bind_step by done. simpl. rewrite IH. by rewrite <- app_assoc.
Qed.

Lemma print_loop_Ok fuel s m k f data p :
  opened s fs m k f → m !! k = Some data → 0 ≤ seekPosition f ≤ zlen data →
  (Z.to_nat (zlen data - seekPosition f) < fuel)%nat → zlen data < 2 ^ 30 →
  ∃ s', print_loop mem fuel f (Bench s p)
        = Ok (tt, Bench s' (rev (PrintChar <$> drop (Z.to_nat (seekPosition f)) data) ++ p))
        ∧ fs_repr s' fs m.
Proof.
  revert s f p. induction fuel as [|fuel IH]; intros s f p Ho Hd Hp Hfuel Hs; [lia|].
  cbn [print_loop]. unfold TransferSize.
  destruct (Read_opened mem s fs m k f 10 data Ho Hd) as (s1 & Hr & Ho1); [lia|lia|lia|].
  set (r := got data (seekPosition f) 10) in *.
  unfold Read_. rewrite (on_device_step _ _ _ _ _ _ Hr).
  assert (zlen r = Z.max 0 (Z.min 10 (zlen data - seekPosition f))) as Hz
    by (unfold r; apply zlen_got; lia).
  destruct (Z.ltb_spec 0 (zlen r)).
  - erewrite M_bind_step by apply print_chars_Ok.
    destruct (IH s1 _ (rev (PrintChar <$> r) ++ p) Ho1 Hd) as (s2 & Hrun & Hrep); simpl; [lia|lia|lia|].
    exists s2. split; [|done]. rewrite Hrun. do 2 f_equal. f_equal. simpl.
    rewrite app_assoc, <- rev_app_distr, <- fmap_app. do 3 f_equal.
    rewrite Z2Nat.inj_add, Hz by lia. unfold r, got.
    rewrite <- (take_drop (Z.to_nat 10) (drop (Z.to_nat (seekPosition f)) data)) at 2.
    f_equal. rewrite drop_drop.
    destruct (Z.le_gt_cases 10 (zlen data - seekPosition f)); [f_equal; lia|].
    rewrite !drop_ge; [done|unfold zlen in *; lia..].
  - exists s1. split.
    + rewrite drop_ge by (unfold zlen in *; lia). done.
    + by eapply opened_repr.
Qed.

(** ** The tests *)

(** C13.  [Copy] brings a file of the host into the file system when
    its name is new and there is room, and [Print] then shows exactly its
    characters; the other files are as before.  When there is no room [Copy]
    says so, and no file changes. *)
Theorem Copy_Print s m from to data p :
  fs_repr s fs m → wf_name to → host_file from = Some data → Forall byte_ok data →
  zlen data ≤ MaxFileSize →
  if decide (can_create m to (zlen data)) then
    ∃ s', (Copy mem fs host_file from to ;; Print mem fs to) (Bench s p)
          = Ok (tt, Bench s' (rev (PrintChar <$> data) ++ p))
          ∧ fs_repr s' fs (<[Directory.Spec.key to := data]> m)
  else
    ∃ s', Copy mem fs host_file from to (Bench s p) = Ok (tt, Bench s' (CopyNoOutput to :: p))
          ∧ fs_repr s' fs m.
Proof.
  intros Hr Hn Hhost Hok Hsize. unfold Copy. rewrite Hhost.
  assert (0 ≤ zlen data ≤ MaxFileSize) as Hz by (unfold zlen in *; lia).
  assert (MaxFileSize < 2 ^ 30) as Hmax by done.
  destruct (decide _) as [Hc|Hc].
  - destruct (Create_new mem s fs m to (zlen data) Hr Hn Hz Hc) as (s1 & data0 & Hcr & Hl & Hr1).
    destruct (Open_opened mem s1 fs _ to Hr1 Hn ltac:(by rewrite lookup_insert_eq; eexists))
      as (f & s2 & Ho & Hpos & Hopen).
    destruct (copy_loop_Ok (Datatypes.S (length data)) data s2 _ _ f data0 p ltac:(lia) Hopen
      (lookup_insert_eq _ _ _) Hok ltac:(lia)) as (s3 & Hcopy & Hr3); [lia|lia|].
    rewrite Hpos, insert_insert_eq in Hr3. simpl in Hr3.
    destruct (Open_opened mem s3 fs _ to Hr3 Hn ltac:(by rewrite lookup_insert_eq; eexists))
      as (f' & s4 & Ho' & Hpos' & Hopen').
    pose proof (opened_length _ _ _ _ _ _ Hopen' (lookup_insert_eq _ _ _)) as Hlen.
    destruct (print_loop_Ok (Datatypes.S (Z.to_nat (Length f'))) s4 _ _ f' data p Hopen'
      (lookup_insert_eq _ _ _)) as (s5 & Hprint & Hr5).
    { lia. }
    { unfold Length. lia. }
    { lia. }
    rewrite Hpos' in Hprint. exists s5. split; [|done].
    erewrite M_bind_step.
    2:{ unfold Create_. rewrite (on_device_step _ _ _ _ _ _ Hcr). cbn [negb].
        unfold Open_. rewrite (on_device_step _ _ _ _ _ _ Ho).
        rewrite bool_decide_true by done. erewrite M_bind_step by done.
        erewrite M_bind_step by done. exact Hcopy. }
    unfold Print, Open_. rewrite (on_device_step _ _ _ _ _ _ Ho'). exact Hprint.
  - destruct (Create_refused mem s fs m to (zlen data) Hr Hn Hz Hc) as (s1 & Hcr & Hr1).
    exists s1. split; [|done]. unfold Create_. by rewrite (on_device_step _ _ _ _ _ _ Hcr).
Qed.

(** A file of length 0 takes no bytes and gives none. *)
Lemma empty_rounds s m k f p n :
  opened s fs m k f → m !! k = Some [] → seekPosition f = 0 →
  (∃ s', write_rounds mem (Datatypes.S n) f (Bench s p) = Ok (tt, Bench s' (UnableToWrite :: p))
         ∧ fs_repr s' fs m)
  ∧ ∃ s', read_rounds mem (Datatypes.S n) f (Bench s p) = Ok (tt, Bench s' (UnableToRead :: p))
          ∧ fs_repr s' fs m.
Proof.
  intros Ho Hd Hpos. split.
  - destruct (Write_opened mem s fs m k f Contents [] Ho Hd) as (s1 & Hw & Ho1).
    { by forall_done. }
    { by rewrite Hpos. }
    { done. }
    exists s1. split.
    + cbn [write_rounds]. unfold Write_, ContentSize. rewrite (on_device_step _ _ _ _ _ _ Hw).
      by rewrite Hpos.
    + apply opened_repr in Ho1. rewrite Hpos in Ho1. simpl in Ho1. by rewrite insert_id in Ho1.
  - destruct (Read_opened mem s fs m k f ContentSize [] Ho Hd) as (s1 & Hr & Ho1).
    { done. }
    { by rewrite Hpos. }
    { done. }
    exists s1. split; [|by eapply opened_repr].
    cbn [read_rounds]. unfold Read_. rewrite (on_device_step _ _ _ _ _ _ Hr). by rewrite Hpos.
Qed.

(** [PerformanceTest] can only fail: it creates its file with
    length 0 and writes to the end of it, but a file never grows, so that the
    first [Write] stores nothing and the first [Read] finds nothing.  The file
    is removed at the end, and the file system is as it was. *)
Theorem PerformanceTest_fails s m p :
  fs_repr s fs m → can_create m FileName 0 →
  ∃ s', PerformanceTest mem fs (Bench s p)
        = Ok (tt, Bench s' ([Statistics_Print; UnableToRead; SequentialRead 50000 10;
                             UnableToWrite; SequentialWrite 50000 10;
                             Statistics_Print; StartingTest] ++ p))
        ∧ fs_repr s' fs m.
Proof.
  intros Hr Hc. assert (wf_name FileName) as Hn by (by forall_done).
  assert (Directory.Spec.key FileName = FileName) as Hkey by done.
  destruct (Create_new mem s fs m FileName 0 Hr Hn ltac:(done) Hc) as (s1 & data & Hcr & Hl & Hr1).
  assert (data = []) as -> by (destruct data; [done|unfold zlen in Hl; simpl in Hl; lia]).
  destruct Hc as (Hnew & _). rewrite Hkey in *.
  destruct (Open_opened mem s1 fs _ FileName Hr1 Hn) as (f & s2 & Ho & Hpos & Hopen).
  { rewrite lookup_insert_eq. by eexists. }
  destruct (empty_rounds s2 _ _ f (SequentialWrite 50000 10 :: Statistics_Print :: StartingTest :: p)
    4999 Hopen (lookup_insert_eq _ _ _) Hpos) as [(s3 & Hw & Hr3) _].
  destruct (Open_opened mem s3 fs _ FileName Hr3 Hn) as (f' & s4 & Ho' & Hpos' & Hopen').
  { rewrite lookup_insert_eq. by eexists. }
  destruct (empty_rounds s4 _ _ f' (SequentialRead 50000 10 :: UnableToWrite :: SequentialWrite 50000 10
    :: Statistics_Print :: StartingTest :: p) 4999 Hopen' (lookup_insert_eq _ _ _) Hpos')
    as [_ (s5 & Hrd & Hr5)].
  destruct (Remove_found mem s5 fs _ FileName Hr5 Hn) as (s6 & Hrm & Hr6).
  { rewrite lookup_insert_eq. by eexists. }
  exists s6. split; [|by rewrite Hkey, delete_insert_id in Hr6].
  change (Datatypes.S 4999) with (Z.to_nat (FileSize / ContentSize)) in Hw, Hrd.
  unfold PerformanceTest. do 2 (erewrite M_bind_step by done; simpl device; simpl printed).
  erewrite M_bind_step.
  2:{ unfold FileWrite. erewrite M_bind_step by done. simpl device; simpl printed.
      unfold Create_. rewrite (on_device_step _ _ _ _ _ _ Hcr). cbn [negb].
      unfold Open_. rewrite (on_device_step _ _ _ _ _ _ Ho). exact Hw. }
  erewrite M_bind_step.
  2:{ unfold FileRead. erewrite M_bind_step by done. simpl device; simpl printed.
      unfold Open_. rewrite (on_device_step _ _ _ _ _ _ Ho'). exact Hrd. }
  unfold Remove_. by rewrite (on_device_step _ _ _ _ _ _ Hrm).
Qed.
End tests.
