(* ===== verification/FsDemo.v ===== *)
(** * The file system on a concrete disk

    The properties of the file system's parts applied to a disk full of
    zeros and a file of 200 bytes on it. *)
From S2P Require Import Prelude Word Bitmap Machine Disk BlockDevice FileHdr OpenFile Directory FileSys FsOps FsSpec FsTest FsTestSpec.

Definition demo_hdr : FileHeader := MkHeader 200 2 ([5; 9] ++ replicate 28 0).
Definition demo_open : OpenFile := MkOpenFile demo_hdr 0.
Definition demo_uninit (i : nat) : Z := 165.

Lemma demo_ready : ready demo_file.
Proof. exact demo_file_ok. Qed.

Lemma demo_uninit_ok i : byte_ok (demo_uninit i).
Proof. done. Qed.

Lemma demo_hdr_wf : wf_header demo_hdr.
Proof.
  split; [done|]. split; [done|]. split; [done|]. unfold demo_hdr. simpl dataSectors.
  forall_done.
Qed.

Lemma demo_file_wf : wf_file demo_hdr.
Proof.
  split; [apply demo_hdr_wf|]. split; [done|]. split; [done|]. split; [done|].
  change (file_sectors demo_hdr) with [5; 9]. split.
  - apply (bool_decide_unpack _). vm_compute. done.
  - forall_done.
Qed.

Lemma ReadAt_correct_witness :
  ∃ s data, ReadAt demo_uninit demo_open 500 100 demo_file = Ok ((100, data), s)
            ∧ zlen data = 100.
Proof.
  destruct (ReadAt_correct demo_uninit demo_file demo_open 500 100 demo_ready demo_file_wf
    ltac:(done) ltac:(done)) as (s & H & Hl & _).
  eexists s, _. split; [exact H|exact Hl].
Defined.

Lemma WriteAt_correct_witness :
  ∃ s, WriteAt demo_uninit demo_open [1; 2; 3] 3 126 demo_file = Ok (3, s)
       ∧ ∃ s', ReadAt demo_uninit demo_open 3 126 s = Ok ((3, [1; 2; 3]), s').
Proof.
  assert (Forall byte_ok [1; 2; 3]) as Hok by forall_done.
  destruct (WriteAt_correct demo_uninit demo_uninit_ok demo_file demo_open [1; 2; 3] 3 126
    demo_ready demo_file_wf ltac:(done) ltac:(done) ltac:(done) Hok) as (s & H & _ & _ & s' & Hr).
  exists s. split; [exact H|]. exists s'. exact Hr.
Defined.

Lemma Seek_Write_Write_Read_witness :
  ∃ s f, Write demo_uninit (Seek 127 demo_open) [1; 2] 2 demo_file = Ok ((2, f), s).
Proof.
  assert (Forall byte_ok [1; 2]) as H1 by forall_done.
  assert (Forall byte_ok [3]) as H2 by forall_done.
  destruct (Seek_Write_Write_Read demo_uninit demo_uninit_ok demo_file demo_open [1; 2] [3] 127
    demo_ready demo_file_wf ltac:(done) ltac:(done) H1 H2)
    as (s1 & s2 & s3 & f1 & f2 & f3 & H & _).
  exists s1, f1. exact H.
Defined.

Lemma WriteBack_FetchFrom_witness :
  ∃ s1 s2, FileHdr.WriteBack demo_hdr 7 demo_file = Ok (tt, s1)
           ∧ FileHdr.FetchFrom 7 s1 = Ok (demo_hdr, s2).
Proof.
  destruct (WriteBack_FetchFrom demo_file demo_hdr 7 demo_ready ltac:(done) demo_hdr_wf)
    as (s1 & s2 & H1 & H2 & _).
  exists s1, s2. split; [exact H1|exact H2].
Defined.

Lemma demo_bits_wf : Impl.wf (Impl.MkBitMap 64 2 [0; 0]).
Proof. split; [done|]. split; [done|]. split; [done|]. forall_done. Qed.

Lemma Allocate_correct_witness :
  ∃ h b, Allocate 200 demo_hdr (Impl.MkBitMap 64 2 [0; 0]) = Ok ((true, h), b)
         ∧ NoDup (file_sectors h).
Proof.
  destruct (Allocate_correct (Impl.MkBitMap 64 2 [0; 0]) _ demo_hdr 200
    (Impl.repr_of_wf _ demo_bits_wf) eq_refl ltac:(done)) as (_ & H & _).
  destruct H as (b & h & H & _ & _ & _ & Hnd & _).
  - apply (bool_decide_unpack _). vm_compute. exact I.
  - apply (bool_decide_unpack _). vm_compute. exact I.
  - exists h, b. split; [exact H|exact Hnd].
Defined.

Definition demo_entry : DirectoryEntry := MkEntry 7 [1; 2; 3] 0 (replicate 10 255) [4; 5].

Lemma demo_entry_wf : wf_entry demo_entry.
Proof.
  do 5 (split; [done|]). forall_done.
Qed.

Lemma directory_run_all_refines_witness :
  ∃ d d', Directory_new 2 [demo_entry; demo_entry] = Ok d
    ∧ run_all [Spec.OAdd [97] 5; Spec.OAdd [97] 6; Spec.OFind [97]; Spec.ORemove [97]; Spec.OFind [97]] d
      = Ok ([Spec.RBool true; Spec.RBool false; Spec.RInt 5; Spec.RBool true; Spec.RInt (-1)], d').
Proof.
  assert (Forall wf_entry [demo_entry; demo_entry]) as Hm
    by (repeat (apply list.Forall_cons; split; [apply demo_entry_wf|]); by apply list.Forall_nil).
  assert (wf_name [97]) as Hn by forall_done.
  assert (Forall Spec.wf_op [Spec.OAdd [97] 5; Spec.OAdd [97] 6; Spec.OFind [97];
    Spec.ORemove [97]; Spec.OFind [97]]) as Ho by forall_done.
  destruct (directory_run_all_refines 2 [demo_entry; demo_entry] _ eq_refl Hm Ho) as (d & d' & H1 & H2 & _).
  exists d, d'. split; [exact H1|exact H2].
Defined.

(** ** The file system itself, formatted on the disk full of zeros *)

Definition demo_mem : memory :=
  Memory demo_uninit (replicate 32 9) (replicate 10 demo_entry) demo_hdr.

#[local] Instance demo_fresh : FreshMemory demo_mem.
Proof.
  split; cbn [demo_mem fresh_bytes fresh_words fresh_entries fresh_header].
  - apply demo_uninit_ok.
  - split; [done|]. by apply Forall_replicate.
  - split; [done|]. apply Forall_replicate, demo_entry_wf.
  - split; [done|]. by destruct demo_hdr_wf as (_ & _ & _ & ?).
Qed.

Lemma demo_format : ∃ fs s, fs_repr (S := UnixFile) s fs ∅.
Proof.
  destruct (format_Ok demo_mem demo_file demo_ready) as (fs & s & _ & H). by exists fs, s.
Qed.

(** A file system with one file, [a], of 200 bytes. *)
Lemma demo_one_file :
  ∃ fs s data, zlen data = 200 ∧ fs_repr (S := UnixFile) s fs {[ Directory.Spec.key [97] := data ]}.
Proof.
  destruct demo_format as (fs & s & marked & files & Hi & Hm).
  assert (files = ∅) as -> by (symmetry in Hm; by apply fmap_empty_inv in Hm).
  pose proof (Create_spec demo_mem s fs marked ∅ [97] 200 Hi ltac:(by forall_done) ltac:(done)) as H.
  rewrite decide_True in H.
  - destruct H as (s' & sec & marked' & _ & Hi' & Hlen & _).
    exists fs, s', (file_bytes s' (file_at s' sec)). split.
    + rewrite zlen_file_bytes; [done|apply (inv_ready _ _ _ _ Hi')|].
      eapply (inv_files _ _ _ _ Hi'), lookup_insert_eq.
    + eexists _, _. split; [exact Hi'|]. by rewrite insert_empty, map_fmap_singleton.
  - split; [apply lookup_empty|]. split; [rewrite map_size_empty; lia|].
    rewrite (NumClear_free s fs marked ∅ Hi), fmap_empty.
    apply (bool_decide_unpack _). vm_compute. exact I.
Qed.

Lemma FileSystem_new_correct_witness :
  ∃ fs s, FileSystem_new demo_mem true demo_file = Ok (fs, s) ∧ fs_repr s fs ∅.
Proof.
  destruct (FileSystem_new_correct demo_mem demo_file
    (MkFileSystem (MkOpenFile demo_hdr 0) (MkOpenFile demo_hdr 0)) ∅) as [H _].
  destruct (H demo_ready) as (fs & s & Hrun & Hr). exists fs, s. split; [exact Hrun|exact Hr].
Defined.

Lemma Create_correct_witness :
  ∃ fs s s', Create demo_mem [97] 200 fs s = Ok (true, s').
Proof.
  destruct demo_format as (fs & s & Hr).
  destruct (Create_correct demo_mem s fs ∅ [97] 200 Hr ltac:(by forall_done) ltac:(done))
    as (b & s' & Hrun & Hb & _).
  exists fs, s, s'. rewrite Hrun. do 3 f_equal. apply Hb.
  split; [apply lookup_empty|]. split; [rewrite map_size_empty; lia|].
  apply (bool_decide_unpack _). vm_compute. exact I.
Defined.

Lemma Remove_correct_witness :
  ∃ fs s s', Remove demo_mem [97] fs s = Ok (true, s') ∧ fs_repr s' fs ∅.
Proof.
  destruct demo_one_file as (fs & s & data & Hl & Hr).
  destruct (Remove_correct demo_mem s fs _ [97] Hr ltac:(by forall_done)) as (s' & Hrun & Hr').
  exists fs, s, s'. rewrite lookup_singleton_eq in Hrun. split; [exact Hrun|].
  by rewrite delete_singleton_eq in Hr'.
Defined.

Lemma Open_correct_witness :
  ∃ fs s f s' s'' data, Open demo_mem [97] fs s = Ok (Some f, s')
    ∧ WriteAt demo_uninit f [1; 2; 3] 3 126 s' = Ok (3, s'')
    ∧ fs_repr s'' fs {[ Directory.Spec.key [97] := splice 126 [1; 2; 3] data ]}.
Proof.
  destruct demo_one_file as (fs & s & data & Hl & Hr).
  pose proof (Open_correct demo_mem s fs _ [97] Hr ltac:(by forall_done)) as H.
  rewrite lookup_singleton_eq in H. destruct H as (f & s' & Hopen & _ & Hlen & Hrw).
  assert (available (hdr f) 3 126 = 3) as Hav by (unfold available; unfold Length in Hlen; lia).
  destruct (Hrw 3 126 ltac:(done) ltac:(done)) as [_ Hw]. rewrite Hav in Hw.
  destruct (Hw [1; 2; 3] ltac:(done) ltac:(by forall_done)) as (s'' & Hrun & Hr'').
  exists fs, s, f, s', s'', data. split; [exact Hopen|]. split; [exact Hrun|].
  by rewrite insert_singleton_eq in Hr''.
Defined.

(** ** The tests on the empty file system *)

Lemma demo_can_create nm n :
  divRoundUp n SectorSize ≤ 1000 → can_create ∅ nm n.
Proof.
  intros Hn. split; [apply lookup_empty|]. split; [rewrite map_size_empty; lia|].
  change (free_sectors ∅) with 1019. lia.
Qed.

Lemma Copy_Print_witness :
  ∃ fs s s', (Copy demo_mem fs (λ _, Some [72; 105]) [120] [97] ;; FsTest.Print demo_mem fs [97]) (Bench s [])
             = Ok (tt, Bench s' [PrintChar 105; PrintChar 72])
             ∧ fs_repr (S := UnixFile) s' fs {[ Directory.Spec.key [97] := [72; 105] ]}.
Proof.
  destruct demo_format as (fs & s & Hr).
  pose proof (Copy_Print demo_mem fs (λ _, Some [72; 105]) s ∅ [120] [97] [72; 105] [] Hr
    ltac:(by forall_done) eq_refl ltac:(by forall_done) ltac:(done)) as H.
  rewrite decide_True in H by by apply demo_can_create.
  destruct H as (s' & Hrun & Hr'). exists fs, s, s'. split; [exact Hrun|].
  by rewrite insert_empty in Hr'.
Defined.

Lemma PerformanceTest_fails_witness :
  ∃ fs s s', PerformanceTest demo_mem fs (Bench s [])
    = Ok (tt, Bench s' [Statistics_Print; UnableToRead; SequentialRead 50000 10; UnableToWrite;
                        SequentialWrite 50000 10; Statistics_Print; StartingTest])
    ∧ fs_repr (S := UnixFile) s' fs ∅.
Proof.
  destruct demo_format as (fs & s & Hr).
  destruct (PerformanceTest_fails demo_mem fs s ∅ [] Hr (demo_can_create FileName 0 ltac:(done)))
    as (s' & Hrun & Hr').
  exists fs, s, s'. split; [exact Hrun|exact Hr'].
Defined.
