(* ===== verification/UserState.v ===== *)
(** * userprog/: the state of the kernel for user programs

    Address spaces, processes and open files are objects under their
    addresses; [UserKernel V] is the part of the kernel state that holds them,
    with the machine, the three managers, and [V], the file system. *)
From S2P Require Import Prelude Word NList Bitmap Machine Coro Interrupt Threads Synch.

(** ** Data *)

(** userprog/addrspace.h.  [pageTable_] is the pointer to the page table,
    which is among the [tables] of the machine. *)
Record AddrSpace := MkAddrSpace {
  thisPCB : positive;
  as_registers : list Z;
  CodeDataSize : Z;
  CodeDataVirtAddr : Z;
  CodeDataFileAddr : Z;
  swapfile : option positive;
  SwapFileSize : Z;
  execfilename : list Z;
  pageTable_ : positive;
  numPages : Z
}.

(** userprog/pof.h, userprog/pcb.h.  The constructor of [PCB] leaves
    [thisAddrSpace] and [pofArray] uninitialised; here they are [NULL]. *)
Record POF := MkPOF { pof_filename : list Z; sofIndex : Z; offset : Z }.
Definition POF_MAXNUM : Z := 32.

Record PCB := MkPCB {
  PID : Z;
  thisThread : option tid;
  parentPCB : option positive;
  childrenPCB : Spec.alist positive;
  childExitValue : Z;
  thisAddrSpace : option positive;
  pofMap : Impl.BitMap;
  pofArray : list (option positive)
}.

(** userprog/sof.h, userprog/sofmgr.h *)
Record SOF := MkSOF {
  sof_filename : list Z;
  openFile : positive;
  counter : Z;
  fileLock : positive
}.
Definition SOF_MAXNUM : Z := 128.
Record SOFMgr := MkSOFMgr { sofMap : Impl.BitMap; sofArray : list (option positive) }.

(** userprog/processmgr.h *)
Definition PIDMAP_SIZE : Z := 32.
Record ProcessMgr := MkProcessMgr {
  NumTotalPID : Z;
  pidMap : Impl.BitMap;
  allPCB : list (option positive);
  pidLock : positive
}.

(** userprog/memorymgr.h *)
Record MemoryMgr := MkMemoryMgr {
  memoryMap : Impl.BitMap;
  memoryLock : positive;
  frametime : list Z;
  framePID : list (list bool);
  timestamp : Z
}.

(** What the kernel prints for the user; the messages of [DEBUG] and the
    complaints about wrong requests are left out. *)
Inductive kevent :=
  | Invoked (pid : Z) (call : Z)
  | Exited (pid val : Z)
  | ForkStarted (pid addr pages : Z)
  | ExecLoading (pid : Z) (filename : list Z)
  | LoadedProgram (code data bss : Z)
  | Killed (pid killed : Z)
  | CannotKill (pid killed : Z)
  | ConsolePrint (s : list Z)
  | ZeroFilledPage (pid vpn : Z)
  | PageLoaded (pid vpn ppn : Z)
  | PageSwapped (pid ppn : Z)
  | PageEvicted (pid ppn : Z)
  | PageDuplicated (pid vpn : Z).

Record UserKernel (V : Type) := MkUser {
  machine : Machine (option ExceptionType);
  spaces : gmap positive AddrSpace;
  pcbs : gmap positive PCB;
  pofs : gmap positive POF;
  sofs : gmap positive SOF;
  processMgr : ProcessMgr;
  memoryMgr : MemoryMgr;
  sofMgr : SOFMgr;
  VMLock : positive;
  files : V;
  kprinted : list kevent
}.
Arguments MkUser {V} _ _ _ _ _ _ _ _ _ _ _.
Arguments machine {V} _.
Arguments spaces {V} _.
Arguments pcbs {V} _.
Arguments pofs {V} _.
Arguments sofs {V} _.
Arguments processMgr {V} _.
Arguments memoryMgr {V} _.
Arguments sofMgr {V} _.
Arguments VMLock {V} _.
Arguments files {V} _.
Arguments kprinted {V} _.

(** The function that is called through a pointer, with its argument. *)
Inductive user_fun := Dummy_ (d : Z).

(** What the kernel asks of the file system and of the terminal: the
    operations of [FileSystem] and [OpenFile] (an open file is known by its
    address), and [getchar()].  [uninit n] is what a new buffer of [n] bytes
    holds, [heap_after p] the bytes that follow the memory block of the name
    of the [POF] at [p]. *)
Class Files (V : Type) := {
  fs_Create : list Z → Z → M V bool;
  fs_Open : list Z → M V (option positive);
  of_ReadAt : positive → Z → Z → M V (list Z);
  of_WriteAt : positive → list Z → Z → M V Z;
  of_delete : positive → M V unit;
  getchar : M V Z;
  uninit : Z → list Z;
  heap_after : positive → list Z
}.

Section setters.
Context {V : Type}.
Implicit Types u : UserKernel V.

Definition set_machine (m : Machine (option ExceptionType)) u : UserKernel V :=
  MkUser m (spaces u) (pcbs u) (pofs u) (sofs u) (processMgr u) (memoryMgr u) (sofMgr u)
    (VMLock u) (files u) (kprinted u).
Definition set_spaces (x : gmap positive AddrSpace) u : UserKernel V :=
  MkUser (machine u) x (pcbs u) (pofs u) (sofs u) (processMgr u) (memoryMgr u) (sofMgr u)
    (VMLock u) (files u) (kprinted u).
Definition set_pcbs (x : gmap positive PCB) u : UserKernel V :=
  MkUser (machine u) (spaces u) x (pofs u) (sofs u) (processMgr u) (memoryMgr u) (sofMgr u)
    (VMLock u) (files u) (kprinted u).
Definition set_pofs (x : gmap positive POF) u : UserKernel V :=
  MkUser (machine u) (spaces u) (pcbs u) x (sofs u) (processMgr u) (memoryMgr u) (sofMgr u)
    (VMLock u) (files u) (kprinted u).
Definition set_sofs (x : gmap positive SOF) u : UserKernel V :=
  MkUser (machine u) (spaces u) (pcbs u) (pofs u) x (processMgr u) (memoryMgr u) (sofMgr u)
    (VMLock u) (files u) (kprinted u).
Definition set_processMgr (x : ProcessMgr) u : UserKernel V :=
  MkUser (machine u) (spaces u) (pcbs u) (pofs u) (sofs u) x (memoryMgr u) (sofMgr u)
    (VMLock u) (files u) (kprinted u).
Definition set_memoryMgr (x : MemoryMgr) u : UserKernel V :=
  MkUser (machine u) (spaces u) (pcbs u) (pofs u) (sofs u) (processMgr u) x (sofMgr u)
    (VMLock u) (files u) (kprinted u).
Definition set_sofMgr (x : SOFMgr) u : UserKernel V :=
  MkUser (machine u) (spaces u) (pcbs u) (pofs u) (sofs u) (processMgr u) (memoryMgr u) x
    (VMLock u) (files u) (kprinted u).
Definition set_files (x : V) u : UserKernel V :=
  MkUser (machine u) (spaces u) (pcbs u) (pofs u) (sofs u) (processMgr u) (memoryMgr u)
    (sofMgr u) (VMLock u) x (kprinted u).
Definition set_printed (x : list kevent) u : UserKernel V :=
  MkUser (machine u) (spaces u) (pcbs u) (pofs u) (sofs u) (processMgr u) (memoryMgr u)
    (sofMgr u) (VMLock u) (files u) x.
End setters.

(** ** Access to the state *)

Section access.
Context {V : Type}.
#[local] Abbreviation U := (UserKernel V).

Definition on_machine {A} (m : M (Machine (option ExceptionType)) A) : M U A :=
  u ← get;
  '(a, x) ← lift (m (machine u));
  modify (set_machine x) ;;
  mret a.

Definition on_files {A} (m : M V A) : M U A :=
  u ← get;
  '(a, x) ← lift (m (files u));
  modify (set_files x) ;;
  mret a.

Definition print (e : kevent) : M U unit := modify (λ u, set_printed (e :: kprinted u) u).

(** The objects: reading one, and storing it again. *)
Definition space_at (p : positive) : M U AddrSpace := u ← get; lift (deref (spaces u !! p)).
Definition put_space (p : positive) (x : AddrSpace) : M U unit :=
  modify (λ u, set_spaces (<[p := x]> (spaces u)) u).
Definition pcb_at (p : positive) : M U PCB := u ← get; lift (deref (pcbs u !! p)).
Definition put_pcb (p : positive) (x : PCB) : M U unit :=
  modify (λ u, set_pcbs (<[p := x]> (pcbs u)) u).
Definition pof_at (p : positive) : M U POF := u ← get; lift (deref (pofs u !! p)).
Definition put_pof (p : positive) (x : POF) : M U unit :=
  modify (λ u, set_pofs (<[p := x]> (pofs u)) u).
Definition sof_at (p : positive) : M U SOF := u ← get; lift (deref (sofs u !! p)).
Definition put_sof (p : positive) (x : SOF) : M U unit :=
  modify (λ u, set_sofs (<[p := x]> (sofs u)) u).

(** [pageTable[i]] and [pageTable[i] = e] of an address space. *)
Definition get_page (t : positive) (i : Z) : M U TranslationEntry :=
  u ← get;
  l ← lift (deref (tables (machine u) !! t));
  lift (aread l i).
Definition put_page (t : positive) (i : Z) (e : TranslationEntry) : M U unit :=
  u ← get;
  l ← lift (deref (tables (machine u) !! t));
  l' ← lift (awrite l i e);
  on_machine (modify (with_tables (<[t := l']> (tables (machine u))))).

(** Operations on the bit map that is part of an object. *)
Definition on_bits {A} (m : M Impl.BitMap A) (b : Impl.BitMap) : M U (A * Impl.BitMap) :=
  lift (m b).

(** [machine->pageTable = pageTable; machine->pageTableSize = numPages]. *)
Definition RestoreState (sp : positive) : M U unit :=
  a ← space_at sp;
  on_machine (modify (λ m, MkMachine (mainMemory m) (registers m) (tlb m)
    (Some (pageTable_ a)) (numPages a) (tables m) (status m) (kernel m))).
End access.

#[export] Instance UserKernel_userland V : Userland (UserKernel V) := {
  user_ReadRegister i := on_machine (ReadRegister i);
  user_WriteRegister i v := on_machine (WriteRegister i v);
  user_DelayedLoad00 := on_machine (DelayedLoad 0 0);
  user_RestoreState := RestoreState
}.
