(* ===== verification/UnixFs.v ===== *)
(** * The file system of FILESYS_STUB: files of the host

    The classes [FileSystem] and [OpenFile] of filesys/filesys.h and
    filesys/openfile.h under the build flag [FILESYS_STUB], the functions of
    machine/sysdep.cc they call, and what the UNIX calls [open], [close],
    [lseek], [read], [write] and [unlink] do to regular files. *)
From S2P Require Import Prelude Word Machine UserState.

(** Files are known by inode; a descriptor has an inode and an offset. *)
Record Unix := MkUnix {
  names : gmap (list Z) Z;
  inodes : gmap Z (list Z);
  descriptors : gmap Z (Z * Z);
  open_files : gmap positive (Z * Z);   (* [OpenFile]: file and currentOffset *)
  keyboard : list Z
}.

Definition set_names (x : gmap (list Z) Z) (u : Unix) : Unix :=
  MkUnix x (inodes u) (descriptors u) (open_files u) (keyboard u).
Definition set_inodes (x : gmap Z (list Z)) (u : Unix) : Unix :=
  MkUnix (names u) x (descriptors u) (open_files u) (keyboard u).
Definition set_descriptors (x : gmap Z (Z * Z)) (u : Unix) : Unix :=
  MkUnix (names u) (inodes u) x (open_files u) (keyboard u).
Definition set_open_files (x : gmap positive (Z * Z)) (u : Unix) : Unix :=
  MkUnix (names u) (inodes u) (descriptors u) x (keyboard u).

(** ** The UNIX calls *)

(** The least descriptor that is not in use; 0, 1 and 2 always are. *)
Fixpoint free_descriptor (fuel : nat) (fd : Z) (u : Unix) : Z :=
  match fuel with
  | O => fd
  | S fuel' => match descriptors u !! fd with
               | Some _ => free_descriptor fuel' (fd + 1) u
               | None => fd
               end
  end.

Definition new_descriptor (inode : Z) : M Unix Z :=
  u ← get;
  let fd := free_descriptor (size (descriptors u)) 3 u in
  modify (set_descriptors (<[fd := (inode, 0)]> (descriptors u))) ;;
  mret fd.

(** [open(name, O_RDWR, 0)] and [open(name, O_RDWR|O_CREAT|O_TRUNC, 0666)]. *)
Definition unix_open (name : list Z) : M Unix Z :=
  u ← get;
  match names u !! name with
  | Some inode => new_descriptor inode
  | None => mret (-1)
  end.
Definition unix_creat (name : list Z) : M Unix Z :=
  u ← get;
  let inode := match names u !! name with
               | Some inode => inode
               | None => fresh (dom (inodes u))
               end in
  modify (set_names (<[name := inode]> (names u))) ;;
  modify (set_inodes (<[inode := []]> (inodes u))) ;;
  new_descriptor inode.

Definition unix_close (fd : Z) : M Unix Z :=
  u ← get;
  match descriptors u !! fd with
  | Some _ => modify (set_descriptors (delete fd (descriptors u))) ;; mret 0
  | None => mret (-1)
  end.

Definition file_of (fd : Z) : M Unix (option (Z * Z * list Z)) :=
  gets (λ u, '(inode, off) ← descriptors u !! fd; bs ← inodes u !! inode; Some (inode, off, bs)).

(** [whence] is 0 (from the start), 1 (from the offset) or 2 (from the end). *)
Definition unix_lseek (fd offset whence : Z) : M Unix Z :=
  f ← file_of fd;
  match f with
  | None => mret (-1)
  | Some (inode, off, bs) =>
      let n := offset + (if whence =? 0 then 0 else if whence =? 1 then off else zlen bs) in
      if n <? 0 then mret (-1)
      else
        modify (λ u, set_descriptors (<[fd := (inode, n)]> (descriptors u)) u) ;;
        mret n
  end.

(** The bytes read, at most [nBytes]; [None] when [read] fails. *)
Definition unix_read (fd nBytes : Z) : M Unix (option (list Z)) :=
  f ← file_of fd;
  match f with
  | None => mret None
  | Some (inode, off, bs) =>
      if nBytes <? 0 then fail OutOfBounds
      else
        let data := take (Z.to_nat nBytes) (drop (Z.to_nat off) bs) in
        modify (λ u, set_descriptors (<[fd := (inode, off + zlen data)]> (descriptors u)) u) ;;
        mret (Some data)
  end.

Definition unix_write (fd : Z) (data : list Z) : M Unix Z :=
  f ← file_of fd;
  match f with
  | None => mret (-1)
  | Some (inode, off, bs) =>
      let gap := replicate (Z.to_nat off - length bs) 0 in
      modify (λ u, set_inodes (<[inode := splice (Z.to_nat off) data (bs ++ gap)]> (inodes u)) u) ;;
      modify (λ u, set_descriptors (<[fd := (inode, off + zlen data)]> (descriptors u)) u) ;;
      mret (zlen data)
  end.

Definition unix_unlink (name : list Z) : M Unix Z :=
  u ← get;
  match names u !! name with
  | Some _ => modify (set_names (delete name (names u))) ;; mret 0
  | None => mret (-1)
  end.

(** ** machine/sysdep.cc *)

Definition OpenForWrite (name : list Z) : M Unix Z :=
  fd ← unix_creat name;
  lift (ASSERT (0 <=? fd)) ;;
  mret fd.

Definition OpenForReadWrite (name : list Z) (crashOnError : bool) : M Unix Z :=
  fd ← unix_open name;
  lift (ASSERT (negb crashOnError || (0 <=? fd))) ;;
  mret fd.

Definition ReadPartial (fd nBytes : Z) : M Unix (option (list Z)) := unix_read fd nBytes.

Definition WriteFile (fd : Z) (buffer : list Z) (nBytes : Z) : M Unix unit :=
  if (nBytes <? 0) || (zlen buffer <? nBytes) then fail OutOfBounds
  else
    retVal ← unix_write fd (take (Z.to_nat nBytes) buffer);
    lift (ASSERT (retVal =? nBytes)).

Definition Lseek (fd offset whence : Z) : M Unix unit :=
  retVal ← unix_lseek fd offset whence;
  lift (ASSERT (0 <=? retVal)).

Definition Tell (fd : Z) : M Unix Z := unix_lseek fd 0 1.

Definition Close (fd : Z) : M Unix unit :=
  retVal ← unix_close fd;
  lift (ASSERT (0 <=? retVal)).

(** The answer of [unlink] as a [bool]. *)
Definition Unlink (name : list Z) : M Unix bool :=
  r ← unix_unlink name;
  mret (negb (r =? 0)).

(** ** filesys/filesys.h *)

Definition stub_Create (name : list Z) (initialSize : Z) : M Unix bool :=
  fileDescriptor ← OpenForWrite name;
  if fileDescriptor =? -1 then mret false
  else
    Close fileDescriptor ;;
    mret true.

Definition stub_Open (name : list Z) : M Unix (option positive) :=
  fileDescriptor ← OpenForReadWrite name false;
  if fileDescriptor =? -1 then mret None
  else
    u ← get;
    let p := fresh (dom (open_files u)) in
    modify (set_open_files (<[p := (fileDescriptor, 0)]> (open_files u))) ;;
    mret (Some p).

(** [Unlink(name) == 0]. *)
Definition stub_Remove (name : list Z) : M Unix bool :=
  r ← Unlink name;
  mret (negb r).

(** ** filesys/openfile.h *)

Definition open_file (p : positive) : M Unix (Z * Z) := u ← get; lift (deref (open_files u !! p)).
Definition set_currentOffset (p : positive) (off : Z) : M Unix unit :=
  '(fd, _) ← open_file p;
  modify (λ u, set_open_files (<[p := (fd, off)]> (open_files u)) u).

Definition stub_ReadAt (p : positive) (numBytes position : Z) : M Unix (option (list Z)) :=
  '(fd, _) ← open_file p;
  Lseek fd position 0 ;;
  ReadPartial fd numBytes.

Definition stub_WriteAt (p : positive) (from : list Z) (numBytes position : Z) : M Unix Z :=
  '(fd, _) ← open_file p;
  Lseek fd position 0 ;;
  WriteFile fd from numBytes ;;
  mret numBytes.

(** The number of bytes read is -1 when [read] fails. *)
Definition count_of (r : option (list Z)) : Z := match r with Some d => zlen d | None => -1 end.

Definition stub_Read (p : positive) (numBytes : Z) : M Unix (option (list Z)) :=
  '(_, off) ← open_file p;
  data ← stub_ReadAt p numBytes off;
  set_currentOffset p (add32 off (count_of data)) ;;
  mret data.

Definition stub_Write (p : positive) (from : list Z) (numBytes : Z) : M Unix Z :=
  '(_, off) ← open_file p;
  n ← stub_WriteAt p from numBytes off;
  set_currentOffset p (add32 off n) ;;
  mret n.

Definition stub_Length (p : positive) : M Unix Z :=
  '(fd, _) ← open_file p;
  Lseek fd 0 2 ;;
  Tell fd.

Definition stub_delete (p : positive) : M Unix unit :=
  '(fd, _) ← open_file p;
  Close fd ;;
  modify (λ u, set_open_files (delete p (open_files u)) u).

(** [getchar()]: [EOF] when nothing is left. *)
Definition stub_getchar : M Unix Z := λ u,
  match keyboard u with
  | [] => Ok (-1, u)
  | c :: l => Ok (c, MkUnix (names u) (inodes u) (descriptors u) (open_files u) l)
  end.

(** A descriptor that is open never fails to be read. *)
#[export] Instance unix_files : Files Unix := {
  fs_Create := stub_Create;
  fs_Open := stub_Open;
  of_ReadAt p n pos := d ← stub_ReadAt p n pos; mret (default [] d);
  of_WriteAt p data pos := stub_WriteAt p data (zlen data) pos;
  of_delete := stub_delete;
  getchar := stub_getchar;
  uninit n := replicate (Z.to_nat n) 205;
  heap_after _ := [0]
}.
