(* ===== verification/MemoryMgr.v ===== *)
(** * userprog/processmgr.cc, userprog/memorymgr.cc: process numbers and frames

    The frames of the machine's memory are handed out until none is clear;
    then the frame that was given out first is taken from the processes that
    use it.  Both managers protect their data with a lock. *)
From S2P Require Import Prelude Word NList Bitmap Machine Coro Interrupt Threads Synch UserState.

Section managers.
Context {V : Type} `{!Files V}.
#[local] Abbreviation U := (UserKernel V).
#[local] Abbreviation K := (Kernel user_fun (UserKernel V)).
#[local] Abbreviation kcode := (code (Kernel user_fun (UserKernel V)) user_fun).

Definition run_user {A} (m : M U A) : kcode A := run (on_user m).

(** The words of a new [BitMap] of [n] bits. *)
Definition new_words (n : Z) : list Z := bytes_words (uninit (divRoundUp n BitsInWord * 4)).

(** ** userprog/processmgr.cc *)

Definition pid_bits {A} (m : M Impl.BitMap A) : M U A :=
  u ← get;
  let p := processMgr u in
  '(a, b) ← on_bits m (pidMap p);
  modify (set_processMgr (MkProcessMgr (NumTotalPID p) b (allPCB p) (pidLock p))) ;;
  mret a.

Definition set_allPCB (pid : Z) (x : option positive) : M U unit :=
  u ← get;
  let p := processMgr u in
  l ← lift (awrite (allPCB p) pid x);
  modify (set_processMgr (MkProcessMgr (NumTotalPID p) (pidMap p) l (pidLock p))).

Definition ProcessMgr_new (size : Z) : M K unit :=
  lock ← Lock_new;
  b ← lift (Impl.BitMap_new size (new_words size));
  on_user (modify (set_processMgr
    (MkProcessMgr size b (replicate (Z.to_nat size) None) lock))).

(** [new PCB(newPID)] *)
Definition PCB_new (pid : Z) : M U positive :=
  u ← get;
  let p := fresh (dom (pcbs u)) in
  b ← lift (Impl.BitMap_new POF_MAXNUM (new_words POF_MAXNUM));
  put_pcb p (MkPCB pid None None Spec.empty 0 None b (replicate (Z.to_nat POF_MAXNUM) None)) ;;
  mret p.

(** The code between [Acquire] and [Release] of [pidLock]. *)
Definition with_pidLock {A} (m : M U A) : kcode A :=
  l ← run_user (gets (λ u, pidLock (processMgr u)));
  Acquire l ;;
  a ← run_user m;
  Release l ;;
  mret a.

Definition new_process : M U positive :=
  newPID ← pid_bits Impl.Find;
  newPCB ← PCB_new newPID;
  set_allPCB newPID (Some newPCB) ;;
  mret newPCB.

Definition CreatePCB : kcode (option positive) :=
  numFreePID ← with_pidLock (pid_bits Impl.NumClear);
  if numFreePID =? 0 then mret None
  else
    newPCB ← with_pidLock new_process;
    mret (Some newPCB).

Definition RemovePCB (inputPCB : positive) : kcode unit :=
  with_pidLock (
    x ← pcb_at inputPCB;
    pid_bits (Impl.Clear (PID x)) ;;
    set_allPCB (PID x) None).

Definition GetNumFreePCBs : kcode Z := with_pidLock (pid_bits Impl.NumClear).
Definition IsSet (inputPID : Z) : kcode bool := with_pidLock (pid_bits (Impl.Test inputPID)).

Definition GetPCB (inputPID : Z) : kcode (option positive) :=
  with_pidLock (
    t ← pid_bits (Impl.Test inputPID);
    if t : bool then
      u ← get;
      lift (aread (allPCB (processMgr u)) inputPID)
    else mret None).

(** ** userprog/addrspace.cc: what the memory manager calls *)

(** The first page of the address space in frame [physicalPage], from page
    [i] on; [numPages] when there is none. *)
Fixpoint find_frame (n : nat) (t : positive) (physicalPage_ i : Z) : M U Z :=
  match n with
  | O => mret i
  | Datatypes.S n' =>
      e ← get_page t i;
      if physicalPage e =? physicalPage_ then mret i else find_frame n' t physicalPage_ (i + 1)
  end.

(** [PageOut] goes on with the page behind the last one when no page is in
    the frame. *)
Definition PageOut (sp : positive) (physicalPage_ : Z) : M U unit :=
  a ← space_at sp;
  pcb ← pcb_at (thisPCB a);
  virtPage ← find_frame (Z.to_nat (numPages a)) (pageTable_ a) physicalPage_ 0;
  e ← get_page (pageTable_ a) virtPage;
  (if dirty e then
     bytes ← on_machine (mem_read (physicalPage_ * PageSize) (Z.to_nat PageSize));
     f ← lift (deref (swapfile a));
     on_files (of_WriteAt f bytes (virtPage * PageSize)) ;;
     print (PageSwapped (PID pcb) physicalPage_)
   else print (PageEvicted (PID pcb) physicalPage_)) ;;
  put_page (pageTable_ a) virtPage
    (TE (virtualPage e) (-1) false false (use e) (dirty e) (zeroFilled e)).

Definition UnsetReadOnly (sp : positive) (physicalPage_ : Z) : M U unit :=
  a ← space_at sp;
  virtPage ← find_frame (Z.to_nat (numPages a)) (pageTable_ a) physicalPage_ 0;
  when (virtPage <? numPages a) (
    e ← get_page (pageTable_ a) virtPage;
    put_page (pageTable_ a) virtPage
      (TE (virtualPage e) (physicalPage e) (valid e) false (use e) (dirty e) (zeroFilled e))).

(** ** userprog/memorymgr.cc *)

Definition the_memoryMgr : M U MemoryMgr := gets memoryMgr.

Definition frame_bits {A} (m : M Impl.BitMap A) : M U A :=
  mm ← the_memoryMgr;
  '(a, b) ← on_bits m (memoryMap mm);
  modify (set_memoryMgr (MkMemoryMgr b (memoryLock mm) (frametime mm) (framePID mm)
                           (timestamp mm))) ;;
  mret a.

Definition set_frametime (page t : Z) : M U unit :=
  mm ← the_memoryMgr;
  l ← lift (awrite (frametime mm) page t);
  modify (set_memoryMgr (MkMemoryMgr (memoryMap mm) (memoryLock mm) l (framePID mm)
                           (timestamp mm))).

Definition tick_timestamp : M U unit :=
  mm ← the_memoryMgr;
  modify (set_memoryMgr (MkMemoryMgr (memoryMap mm) (memoryLock mm) (frametime mm) (framePID mm)
                           (add32 (timestamp mm) 1))).

Definition get_framePID (page pid : Z) : M U bool :=
  mm ← the_memoryMgr;
  row ← lift (aread (framePID mm) page);
  lift (aread row pid).

(** [framePID[page][pid] = b].  In an object of the class, [framePID] comes
    directly after [frametime]: a write to the row before the first one, with
    [page = -1], goes to the last bytes of [frametime]. *)
Definition write_before (at_ : Z) (b : bool) (times : list Z) : list Z :=
  s32 <$> bytes_words (splice (Z.to_nat (4 * NumPhysPages + at_)) [if b then 1 else 0]
                         (words_bytes times)).

Definition set_framePID (page pid : Z) (b : bool) : M U unit :=
  mm ← the_memoryMgr;
  if page =? -1 then
    if (0 <=? pid) && (pid <? PIDMAP_SIZE) then
      modify (set_memoryMgr (MkMemoryMgr (memoryMap mm) (memoryLock mm)
        (write_before (pid - PIDMAP_SIZE) b (frametime mm)) (framePID mm) (timestamp mm)))
    else fail OutOfBounds
  else
    row ← lift (aread (framePID mm) page);
    row ← lift (awrite row pid b);
    l ← lift (awrite (framePID mm) page row);
    modify (set_memoryMgr (MkMemoryMgr (memoryMap mm) (memoryLock mm) (frametime mm) l
                             (timestamp mm))).

Definition MemoryMgr_new : M K unit :=
  b ← lift (Impl.BitMap_new NumPhysPages (new_words NumPhysPages));
  lock ← Lock_new;
  on_user (modify (set_memoryMgr
    (MkMemoryMgr b lock (replicate (Z.to_nat NumPhysPages) (-1))
       (replicate (Z.to_nat NumPhysPages) (replicate (Z.to_nat PIDMAP_SIZE) false)) 0))).

Definition with_memoryLock {A} (m : M U A) : kcode A :=
  l ← run_user (gets (λ u, memoryLock (memoryMgr u)));
  Acquire l ;;
  a ← run_user m;
  Release l ;;
  mret a.

(** The loop that looks for the frame that was given out first. *)
Fixpoint victim_loop (n : nat) (times : list Z) (sharedPage i timemin outpage : Z) : res Z :=
  match n with
  | O => Ok outpage
  | Datatypes.S n' =>
      t ← aread times i;
      if (t <? timemin) && negb (i =? sharedPage)
      then victim_loop n' times sharedPage (i + 1) t i
      else victim_loop n' times sharedPage (i + 1) timemin outpage
  end.

Definition victim (times : list Z) (sharedPage : Z) : res Z :=
  let outpage := if sharedPage =? 0 then 1 else 0 in
  timemin ← aread times outpage;
  victim_loop (Z.to_nat NumPhysPages) times sharedPage 0 timemin outpage.

(** Every process that uses the frame loses its page. *)
Definition evict (outpage : Z) : M U unit :=
  for_range 0 PIDMAP_SIZE (λ outPID,
    uses ← get_framePID outpage outPID;
    when uses (
      u ← get;
      p ← lift (aread (allPCB (processMgr u)) outPID);
      p ← lift (deref p);
      pcb ← pcb_at p;
      sp ← lift (deref (thisAddrSpace pcb));
      PageOut sp outpage ;;
      set_framePID outpage outPID false)).

Definition take_frame (pid sharedPage : Z) : M U Z :=
  numClearPages ← frame_bits Impl.NumClear;
  pageNumber ← (
    if numClearPages =? 0 then
      mm ← the_memoryMgr;
      outpage ← lift (victim (frametime mm) sharedPage);
      evict outpage ;;
      mret outpage
    else frame_bits Impl.Find);
  mm ← the_memoryMgr;
  set_frametime pageNumber (timestamp mm) ;;
  tick_timestamp ;;
  set_framePID pageNumber pid true ;;
  mret pageNumber.

Definition GetPage (pid sharedPage : Z) : kcode Z := with_memoryLock (take_frame pid sharedPage).

Definition ClearPage (pageNumber : Z) : kcode unit :=
  with_memoryLock (frame_bits (Impl.Clear pageNumber)).

Definition GetNumFreePages : kcode Z := with_memoryLock (frame_bits Impl.NumClear).

(** How many processes use the frame, and the last of them (0 if none). *)
Definition sharers (row : list bool) : Z * Z :=
  foldl (λ '(pid, count) '(i, b), if b : bool then (i, count + 1) else (pid, count))
    (0, 0) (zip (seqZ 0 PIDMAP_SIZE) row).

Definition unshare (physicalPage_ pid : Z) : M U unit :=
  set_framePID physicalPage_ pid false ;;
  mm ← the_memoryMgr;
  row ← lift (aread (framePID mm) physicalPage_);
  let '(other, count) := sharers row in
  when (count =? 1) (
    u ← get;
    p ← lift (aread (allPCB (processMgr u)) other);
    p ← lift (deref p);
    pcb ← pcb_at p;
    sp ← lift (deref (thisAddrSpace pcb));
    UnsetReadOnly sp physicalPage_).

Definition UnsetShare (physicalPage_ pid : Z) : kcode unit :=
  with_memoryLock (unshare physicalPage_ pid).

Definition SetShare (physicalPage_ pid : Z) : kcode unit :=
  with_memoryLock (set_framePID physicalPage_ pid true).
End managers.
