(* ===== verification/AddrSpace.v ===== *)
(** * userprog/addrspace.cc: address spaces

    A page table whose pages are brought in on demand from a swap file, and
    shared between a process and its children until one of them writes. *)
From S2P Require Import Prelude Word NList Bitmap Machine Coro Interrupt Threads Synch UserState MemoryMgr.

(** ** bin/noff.h: the header of an executable *)

Record Segment := MkSegment { virtualAddr : Z; inFileAddr : Z; seg_size : Z }.
Record NoffHeader := MkNoff {
  noffMagic : Z;
  seg_code : Segment;
  initData : Segment;
  uninitData : Segment
}.
Definition NOFFMAGIC : Z := 0xbadfad.
Definition NoffSize : Z := 40.
Definition UserStackSize : Z := 1024.

Definition noff_of_bytes (bs : list Z) : NoffHeader :=
  let w i := s32 (of_le (slice (4 * i) 4 bs)) in
  MkNoff (w 0%nat) (MkSegment (w 1%nat) (w 2%nat) (w 3%nat))
    (MkSegment (w 4%nat) (w 5%nat) (w 6%nat)) (MkSegment (w 7%nat) (w 8%nat) (w 9%nat)).

(** The host is little-endian. *)
Definition to_host (w : Z) : Z := s32 (WordToHost false (u32 w)).

Definition SwapSegment (s : Segment) : Segment :=
  MkSegment (to_host (virtualAddr s)) (to_host (inFileAddr s)) (to_host (seg_size s)).
Definition SwapHeader (h : NoffHeader) : NoffHeader :=
  MkNoff (to_host (noffMagic h)) (SwapSegment (seg_code h)) (SwapSegment (initData h))
    (SwapSegment (uninitData h)).

(** [sprintf("%d")] of a number of at most ten digits. *)
Fixpoint digits (n : nat) (z : Z) : list Z :=
  match n with
  | O => []
  | S n' => if z <? 10 then [48 + z] else digits n' (z / 10) ++ [48 + z mod 10]
  end.
Definition decimal (z : Z) : list Z := if z <? 0 then 45 :: digits 10 (- z) else digits 10 z.

(** "./test/" and ".swap" *)
Definition swap_name (pid : Z) : list Z :=
  [46; 47; 116; 101; 115; 116; 47] ++ decimal pid ++ [46; 115; 119; 97; 112].

Section addrspace.
Context {V : Type} `{!Files V}.
#[local] Abbreviation U := (UserKernel V).
#[local] Abbreviation K := (Kernel user_fun (UserKernel V)).
#[local] Abbreviation kcode := (code (Kernel user_fun (UserKernel V)) user_fun).

(** What a variable holds that is not initialised. *)
Definition garbage_flag : bool := ctrue (default 0 (head (uninit 1))).

(** The bytes read into a fresh buffer of [n] bytes. *)
Definition read_into (n : Z) (data buffer : list Z) : res (list Z) :=
  if zlen buffer <? zlen data then Fault OutOfBounds else Ok (splice 0 data buffer).

(** [pageTable = new TranslationEntry[n]], all entries equal to [e i]. *)
Definition new_table (n : Z) (e : Z → TranslationEntry) : M U positive :=
  u ← get;
  let t := fresh (dom (tables (machine u))) in
  on_machine (modify (with_tables (<[t := e <$> seqZ 0 n]> (tables (machine u))))) ;;
  mret t.

Definition delete_table (t : positive) : M U unit :=
  u ← get;
  on_machine (modify (with_tables (delete t (tables (machine u))))).

(** ** Construction and destruction *)

Definition load_header (executable : positive) : M U NoffHeader :=
  data ← on_files (of_ReadAt executable NoffSize 0);
  bytes ← lift (read_into NoffSize data (uninit NoffSize));
  let noffH := noff_of_bytes bytes in
  let noffH := if negb (noffMagic noffH =? NOFFMAGIC)
                  && (to_host (noffMagic noffH) =? NOFFMAGIC)
               then SwapHeader noffH else noffH in
  lift (ASSERT (noffMagic noffH =? NOFFMAGIC)) ;;
  mret noffH.

(** The number of bytes and of pages the program needs. *)
Definition noff_size (h : NoffHeader) : Z :=
  u32 (seg_size (seg_code h) + seg_size (initData h) + seg_size (uninitData h) + UserStackSize).
Definition noff_pages (h : NoffHeader) : Z := divRoundUp (noff_size h) PageSize.

Definition AllocateSwapFile (sp : positive) (executable : option positive) : M U unit :=
  a ← space_at sp;
  pcb ← pcb_at (thisPCB a);
  on_files (fs_Create (swap_name (PID pcb)) 0) ;;
  f ← on_files (fs_Open (swap_name (PID pcb)));
  put_space sp (MkAddrSpace (thisPCB a) (as_registers a) (CodeDataSize a) (CodeDataVirtAddr a)
    (CodeDataFileAddr a) f (SwapFileSize a) (execfilename a) (pageTable_ a) (numPages a)) ;;
  exe ← lift (deref executable);
  data ← on_files (of_ReadAt exe (s32 (CodeDataSize a)) (CodeDataFileAddr a));
  buffer ← lift (read_into (SwapFileSize a) data (replicate (Z.to_nat (SwapFileSize a)) 0));
  swap ← lift (deref f);
  on_files (of_WriteAt swap buffer 0) ;;
  mret tt.

(** [strcpy(execfilename, filename)] into an array of 256 bytes. *)
Definition check_filename (filename : list Z) : M U unit :=
  if zlen filename <? 256 then mret tt else fail OutOfBounds.

Definition set_thisAddrSpace (p sp : positive) : M U unit :=
  x ← pcb_at p;
  put_pcb p (MkPCB (PID x) (thisThread x) (parentPCB x) (childrenPCB x) (childExitValue x)
               (Some sp) (pofMap x) (pofArray x)).

(** An entry of a new page table; [z] is its field [zeroFilled]. *)
Definition blank_page (z : bool) (i : Z) : TranslationEntry := TE i (-1) false false false false z.

Definition AddrSpace_new (executable newPCB : positive) (filename : list Z) : M U positive :=
  u ← get;
  let sp := fresh (dom (spaces u)) in
  set_thisAddrSpace newPCB sp ;;
  check_filename filename ;;
  noffH ← load_header executable;
  let n := noff_pages noffH in
  put_space sp (MkAddrSpace newPCB (uninit NumTotalRegs)
    (u32 (seg_size (seg_code noffH) + seg_size (initData noffH)))
    (virtualAddr (seg_code noffH)) (inFileAddr (seg_code noffH)) None
    (u32 (n * PageSize)) filename 1%positive n) ;;
  AllocateSwapFile sp (Some executable) ;;
  t ← new_table n (blank_page false);
  a ← space_at sp;
  put_space sp (MkAddrSpace (thisPCB a) (as_registers a) (CodeDataSize a) (CodeDataVirtAddr a)
    (CodeDataFileAddr a) (swapfile a) (SwapFileSize a) (execfilename a) t (numPages a)) ;;
  mret sp.

Definition AddrSpace_delete (sp : positive) : M U unit :=
  a ← space_at sp;
  match swapfile a with Some f => on_files (of_delete f) | None => mret tt end ;;
  delete_table (pageTable_ a) ;;
  modify (λ u, set_spaces (delete sp (spaces u)) u).

Definition InitRegisters (sp : positive) : M U unit :=
  for_range 0 NumTotalRegs (λ i, on_machine (WriteRegister i 0)) ;;
  on_machine (WriteRegister PCReg 0) ;;
  on_machine (WriteRegister NextPCReg 4) ;;
  a ← space_at sp;
  on_machine (WriteRegister StackReg (s32 (numPages a * PageSize - 16))).

Definition set_registers (r : list Z) (a : AddrSpace) : AddrSpace :=
  MkAddrSpace (thisPCB a) r (CodeDataSize a) (CodeDataVirtAddr a) (CodeDataFileAddr a)
    (swapfile a) (SwapFileSize a) (execfilename a) (pageTable_ a) (numPages a).

Definition SaveUserRegisters (sp : positive) : M U unit :=
  for_range 0 NumTotalRegs (λ i,
    v ← on_machine (ReadRegister i);
    a ← space_at sp;
    r ← lift (awrite (as_registers a) i v);
    put_space sp (set_registers r a)).

Definition RestoreUserRegisters (sp : positive) : M U unit :=
  for_range 0 NumTotalRegs (λ i,
    a ← space_at sp;
    v ← lift (aread (as_registers a) i);
    on_machine (WriteRegister i v)).

(** ** Pages *)

(** The loop of [ReleaseMemory] from page [i] on. *)
Fixpoint release_pages (n : nat) (sp : positive) (i : Z) : kcode unit :=
  match n with
  | O => mret tt
  | S n' =>
      a ← run_user (space_at sp);
      e ← run_user (get_page (pageTable_ a) i);
      (if negb (physicalPage e =? -1) && negb (readOnly e) then ClearPage (physicalPage e)
       else if negb (physicalPage e =? -1) && readOnly e then
         pcb ← run_user (pcb_at (thisPCB a));
         UnsetShare (physicalPage e) (PID pcb)
       else mret tt) ;;
      release_pages n' sp (i + 1)
  end.

Definition ReleaseMemory (sp : positive) : kcode unit :=
  a ← run_user (space_at sp);
  release_pages (Z.to_nat (numPages a)) sp 0.

(** What [PageIn] puts into the frame of page [vpn]. *)
Definition fill_frame (sp : positive) (virtAddr vpn ppn : Z) : M U unit :=
  a ← space_at sp;
  pcb ← pcb_at (thisPCB a);
  e ← get_page (pageTable_ a) vpn;
  if (u32 (CodeDataSize a + CodeDataVirtAddr a) <=? u32 virtAddr) && negb (zeroFilled e) then
    on_machine (mem_write (ppn * PageSize) (replicate (Z.to_nat PageSize) 0)) ;;
    put_page (pageTable_ a) vpn
      (TE (virtualPage e) (physicalPage e) (valid e) (readOnly e) (use e) (dirty e) true) ;;
    print (ZeroFilledPage (PID pcb) vpn)
  else
    swap ← lift (deref (swapfile a));
    data ← on_files (of_ReadAt swap PageSize (vpn * PageSize));
    buffer ← lift (read_into PageSize data (uninit PageSize));
    on_machine (mem_write (ppn * PageSize) (replicate (Z.to_nat PageSize) 0)) ;;
    on_machine (mem_write (ppn * PageSize) (take (Z.to_nat PageSize) buffer)) ;;
    print (PageLoaded (PID pcb) vpn ppn).

Definition map_page (sp : positive) (vpn ppn : Z) : M U unit :=
  a ← space_at sp;
  e ← get_page (pageTable_ a) vpn;
  put_page (pageTable_ a) vpn (TE vpn ppn true false (use e) (dirty e) (zeroFilled e)).

Definition PageIn (sp : positive) (virtAddr : Z) : kcode unit :=
  let vpn := u32 virtAddr / PageSize in
  a ← run_user (space_at sp);
  pcb ← run_user (pcb_at (thisPCB a));
  ppn ← GetPage (PID pcb) (-1);
  if negb (ppn =? -1) then
    run_user (map_page sp vpn ppn ;; fill_frame sp virtAddr vpn ppn)
  else mret tt.

(** The page gets the frame [ppn] for itself, with a copy of its bytes; the
    answer is the frame it had before. *)
Definition copy_page (sp : positive) (vpn ppn : Z) : M U Z :=
  a ← space_at sp;
  e ← get_page (pageTable_ a) vpn;
  let oppn := physicalPage e in
  put_page (pageTable_ a) vpn
    (TE (virtualPage e) (s32 ppn) (valid e) false (use e) (dirty e) (zeroFilled e)) ;;
  bytes ← on_machine (mem_read (oppn * PageSize) (Z.to_nat PageSize));
  on_machine (mem_write (ppn * PageSize) bytes) ;;
  mret oppn.

Definition COW (sp : positive) (virtAddr : Z) : kcode unit :=
  let vpn := u32 virtAddr / PageSize in
  a ← run_user (space_at sp);
  e ← run_user (get_page (pageTable_ a) vpn);
  pcb ← run_user (pcb_at (thisPCB a));
  ppn ← GetPage (PID pcb) (physicalPage e);
  oppn ← run_user (copy_page sp vpn ppn);
  UnsetShare oppn (PID pcb) ;;
  run_user (print (PageDuplicated (PID pcb) vpn)).

(** ** [Fork] *)

(** One page of the new address space [new]. *)
Definition fork_page (sp new : positive) (i : Z) : kcode unit :=
  a ← run_user (space_at sp);
  b ← run_user (space_at new);
  e ← run_user (get_page (pageTable_ a) i);
  x ← run_user (get_page (pageTable_ b) i);
  run_user (put_page (pageTable_ b) i
    (TE (virtualPage e) (physicalPage e) (valid x) (readOnly x) (use x) (dirty x)
       (zeroFilled x))) ;;
  pcb ← run_user (pcb_at (thisPCB b));
  SetShare (physicalPage e) (PID pcb) ;;
  e ← run_user (get_page (pageTable_ a) i);
  x ← run_user (get_page (pageTable_ b) i);
  if negb (physicalPage x =? -1) then
    run_user (
      put_page (pageTable_ a) i
        (TE (virtualPage e) (physicalPage e) (valid e) true (use e) (dirty e) (zeroFilled e)) ;;
      put_page (pageTable_ b) i
        (TE (virtualPage x) (physicalPage x) (valid e) true (use e) (dirty e) (zeroFilled e)))
  else
    run_user (put_page (pageTable_ b) i
      (TE (virtualPage x) (physicalPage x) (valid e) (readOnly e) (use e) (dirty e)
         (zeroFilled e))).

Fixpoint fork_pages (n : nat) (sp new : positive) (i : Z) : kcode unit :=
  match n with
  | O => mret tt
  | S n' => fork_page sp new i ;; fork_pages n' sp new (i + 1)
  end.

(** [new AddrSpace(newPCB, execfilename)] and the new page table. *)
Definition fork_space (sp newPCB : positive) : M U positive :=
  a ← space_at sp;
  u ← get;
  let new := fresh (dom (spaces u)) in
  set_thisAddrSpace newPCB new ;;
  t ← new_table (numPages a)
        (λ i, TE 0 0 garbage_flag garbage_flag garbage_flag garbage_flag garbage_flag);
  put_space new (MkAddrSpace newPCB (uninit NumTotalRegs) 0 0 0 None 0 (execfilename a) t
                   (numPages a)) ;;
  mret new.

Definition fork_rest (sp new : positive) : M U unit :=
  a ← space_at sp;
  b ← space_at new;
  put_space new (MkAddrSpace (thisPCB b) (as_registers b) (CodeDataSize a) (CodeDataVirtAddr a)
    (CodeDataFileAddr a) (swapfile b) (SwapFileSize a) (execfilename b) (pageTable_ b)
    (numPages b)) ;;
  executable ← on_files (fs_Open (execfilename a));
  AllocateSwapFile new executable ;;
  match executable with Some f => on_files (of_delete f) | None => mret tt end.

Definition AddrSpace_Fork (sp newPCB : positive) : kcode positive :=
  new ← run_user (fork_space sp newPCB);
  a ← run_user (space_at sp);
  fork_pages (Z.to_nat (numPages a)) sp new 0 ;;
  run_user (fork_rest sp new) ;;
  mret new.

(** ** Access to the memory of the user program *)

(** From the page table entry on, once the page was brought in. *)
Definition frame_address (sp : positive) (vpn offset size : Z) : M U (option Z) :=
  a ← space_at sp;
  e ← get_page (pageTable_ a) vpn;
  let pageFrame := u32 (physicalPage e) in
  if NumPhysPages <=? pageFrame then mret None
  else
    put_page (pageTable_ a) vpn
      (TE (virtualPage e) (physicalPage e) (valid e) (readOnly e) true (dirty e) (zeroFilled e)) ;;
    let physAddr := pageFrame * PageSize + offset in
    lift (ASSERT ((0 <=? physAddr) && (physAddr + size <=? MemorySize))) ;;
    mret (Some physAddr).

(** [Some physAddr] when it answers true. *)
Definition Translate (sp : positive) (virtAddr size : Z) : kcode (option Z) :=
  if virtAddr <? 0 then mret None
  else
    let vpn := virtAddr / PageSize in
    let offset := virtAddr mod PageSize in
    a ← run_user (space_at sp);
    if numPages a <=? vpn then mret None
    else
      e ← run_user (get_page (pageTable_ a) vpn);
      cwhen (negb (valid e)) (PageIn sp virtAddr) ;;
      run_user (frame_address sp vpn offset size).

(** One round of the [do] loop: the local variables are the buffer,
    [curBuffer] and [virtAddr]; the answer says whether the string was
    read, and gives the buffer. *)
Definition read_char (sp : positive) (size : Z) (st : list Z * Z * Z)
    : kcode (list Z * Z * Z + bool * list Z) :=
  let '(stringBuffer, curBuffer, virtAddr) := st in
  pa ← Translate sp virtAddr 1;
  match pa with
  | None => mret (inr (false, stringBuffer))
  | Some physAddr =>
      c ← run_user (bs ← on_machine (mem_read physAddr 1); lift (aread bs 0));
      stringBuffer ← run (lift (awrite stringBuffer curBuffer c));
      let curBuffer := curBuffer + 1 in
      if negb (c =? 0) && (curBuffer <? size)
      then mret (inl (stringBuffer, curBuffer, add32 virtAddr 1))
      else mret (inr (true, stringBuffer))
  end.

Definition ReadString (sp : positive) (stringAddr : Z) (stringBuffer : list Z) (size : Z)
    : kcode (bool * list Z) :=
  iterate (read_char sp size) (stringBuffer, 0, stringAddr).

(** Which way [userReadWrite] copies: [opt == 'r'] into the memory. *)
Inductive direction_ := IntoMemory | FromMemory.

Definition copy_bytes (opt : direction_) (buffer : list Z) (curBuffer physAddr copySize : Z)
    : M U (list Z) :=
  if (curBuffer <? 0) || (zlen buffer <? curBuffer + copySize) || (copySize <? 0)
  then fail OutOfBounds
  else
    match opt with
    | IntoMemory =>
        on_machine (mem_write physAddr (replicate (Z.to_nat copySize) 0)) ;;
        on_machine (mem_write physAddr (slice (Z.to_nat curBuffer) (Z.to_nat copySize) buffer)) ;;
        mret buffer
    | FromMemory =>
        bytes ← on_machine (mem_read physAddr (Z.to_nat copySize));
        mret (splice (Z.to_nat curBuffer) bytes buffer)
    end.

(** The local variables of [userReadWrite]. *)
Record rw_vars := RW {
  rw_buffer : list Z; curVirtAddr : Z; curBuffer : Z; leftSize : Z
}.

(** One part of the copy, when its page can be reached; else nothing. *)
Definition copy_part (sp : positive) (opt : direction_) (copySize : Z) (v : rw_vars)
    : kcode rw_vars :=
  pa ← Translate sp (curVirtAddr v) copySize;
  match pa with
  | None => mret v
  | Some physAddr =>
      b ← run_user (copy_bytes opt (rw_buffer v) (curBuffer v) physAddr copySize);
      mret (RW b (add32 (curVirtAddr v) copySize) (add32 (curBuffer v) copySize)
              (sub32 (leftSize v) copySize))
  end.

Definition copy_pages (sp : positive) (opt : direction_) (v : rw_vars)
    : kcode (rw_vars + rw_vars) :=
  if PageSize <=? leftSize v then v' ← copy_part sp opt PageSize v; mret (inl v')
  else mret (inr v).

(** The buffer after the call. *)
Definition userReadWrite (sp : positive) (buffer : list Z) (virtAddr size : Z)
    (opt : direction_) : kcode (list Z) :=
  let v := RW buffer virtAddr 0 size in
  v ← (if negb (Z.rem virtAddr PageSize =? 0)
       then copy_part sp opt (Z.min size (PageSize - Z.rem virtAddr PageSize)) v
       else mret v);
  v ← iterate (copy_pages sp opt) v;
  v ← (if negb (leftSize v =? 0) then copy_part sp opt (leftSize v) v else mret v);
  run (lift (ASSERT (curBuffer v =? size))) ;;
  mret (rw_buffer v).

Definition ReadFile (sp file_ : positive) (virtAddr size fileAddr : Z) : kcode unit :=
  data ← run_user (on_files (of_ReadAt file_ size fileAddr));
  buffer ← run (lift (read_into size data (uninit size)));
  userReadWrite sp buffer virtAddr size IntoMemory ;;
  mret tt.

(** ** [ReplaceMemory] *)

(** The fields and the swap file of the new program; [numPages] stays what it
    was. *)
Definition replace_fields (sp executable : positive) (filename : list Z) : M U NoffHeader :=
  check_filename filename ;;
  noffH ← load_header executable;
  a ← space_at sp;
  put_space sp (MkAddrSpace (thisPCB a) (as_registers a)
    (u32 (seg_size (seg_code noffH) + seg_size (initData noffH)))
    (virtualAddr (seg_code noffH)) (inFileAddr (seg_code noffH)) (swapfile a)
    (u32 (numPages a * PageSize)) filename (pageTable_ a) (numPages a)) ;;
  AllocateSwapFile sp (Some executable) ;;
  mret noffH.

Definition replace_table (sp : positive) : M U unit :=
  a ← space_at sp;
  delete_table (pageTable_ a) ;;
  t ← new_table (numPages a) (blank_page garbage_flag);
  put_space sp (MkAddrSpace (thisPCB a) (as_registers a) (CodeDataSize a) (CodeDataVirtAddr a)
    (CodeDataFileAddr a) (swapfile a) (SwapFileSize a) (execfilename a) t (numPages a)).

Definition ReplaceMemory (sp executable : positive) (filename : list Z) : kcode bool :=
  noffH ← run_user (replace_fields sp executable filename);
  GetNumFreePages ;;
  ReleaseMemory sp ;;
  run_user (replace_table sp) ;;
  run_user (print (LoadedProgram (seg_size (seg_code noffH)) (seg_size (initData noffH))
                     (seg_size (uninitData noffH)))) ;;
  mret true.
End addrspace.
