(* ===== verification/Pcb.v ===== *)
(** * userprog/pcb.cc, pof.cc, sof.cc, sofmgr.cc: processes and their files

    A process has its children and a table of open files; each entry of the
    table ([POF]) has an offset of its own and refers to an entry of the
    system's table ([SOF]), which counts its users and has the lock of the
    file. *)
From S2P Require Import Prelude Word NList Bitmap Machine Coro Interrupt Threads Synch Directory UserState MemoryMgr AddrSpace.

Section pcb.
Context {V : Type} `{!Files V}.
#[local] Abbreviation U := (UserKernel V).
#[local] Abbreviation K := (Kernel user_fun (UserKernel V)).
#[local] Abbreviation kcode := (code (Kernel user_fun (UserKernel V)) user_fun).

(** ** userprog/pof.cc

    The block of [strlen] bytes has no room for the terminator, and [strncpy]
    writes none: the name goes on with the bytes behind the block. *)
Definition POF_new (inputIndex : Z) (inputFilename : list Z) : M U positive :=
  u ← get;
  let p := fresh (dom (pofs u)) in
  put_pof p (MkPOF (c_string (inputFilename ++ heap_after p)) inputIndex 0) ;;
  mret p.

Definition POF_delete (p : positive) : M U unit :=
  pof_at p ;;
  modify (λ u, set_pofs (delete p (pofs u)) u).

(** ** userprog/sof.cc *)

(** [strcpy] writes the terminator behind the block. *)
Definition SOF_new (inputFilename : list Z) (inputOpenFile : positive) : M K positive :=
  lock ← Lock_new;
  on_user (
    u ← get;
    let p := fresh (dom (sofs u)) in
    put_sof p (MkSOF inputFilename inputOpenFile 0 lock) ;;
    mret p).

Definition SOF_delete (p : positive) : M U unit :=
  sof_at p ;;
  modify (λ u, set_sofs (delete p (sofs u)) u).

Definition SOF_Write (p : positive) (buffer : list Z) (size offset : Z) : kcode Z :=
  x ← run_user (sof_at p);
  Acquire (fileLock x) ;;
  numWrite ← run_user (
    if (size <? 0) || (zlen buffer <? size) then fail OutOfBounds
    else on_files (of_WriteAt (openFile x) (take (Z.to_nat size) buffer) offset));
  Release (fileLock x) ;;
  mret numWrite.

(** The bytes read. *)
Definition SOF_Read (p : positive) (size offset : Z) : kcode (list Z) :=
  x ← run_user (sof_at p);
  Acquire (fileLock x) ;;
  data ← run_user (on_files (of_ReadAt (openFile x) size offset));
  Release (fileLock x) ;;
  mret data.

(** ** userprog/sofmgr.cc *)

Definition SOFMgr_new : M U unit :=
  b ← lift (Impl.BitMap_new SOF_MAXNUM (new_words SOF_MAXNUM));
  modify (set_sofMgr (MkSOFMgr b (replicate (Z.to_nat SOF_MAXNUM) None))).

Definition sof_bits {A} (m : M Impl.BitMap A) : M U A :=
  u ← get;
  '(a, b) ← on_bits m (sofMap (sofMgr u));
  modify (set_sofMgr (MkSOFMgr b (sofArray (sofMgr u)))) ;;
  mret a.

(** [sofArray[i]] *)
Definition sof_entry (i : Z) : M U positive :=
  u ← get;
  x ← lift (aread (sofArray (sofMgr u)) i);
  lift (deref x).
Definition set_sofArray (i : Z) (x : positive) : M U unit :=
  u ← get;
  l ← lift (awrite (sofArray (sofMgr u)) i (Some x));
  modify (set_sofMgr (MkSOFMgr (sofMap (sofMgr u)) l)).

Definition FindSOFByName (filename : list Z) : M U Z :=
  r ← for_return (Z.to_nat SOF_MAXNUM) 0 (λ i,
        t ← sof_bits (Impl.Test i);
        if t : bool then
          p ← sof_entry i;
          x ← sof_at p;
          mret (if bool_decide (filename = sof_filename x) then Some i else None)
        else mret None);
  mret (default (-1) r).

Definition GetNumFreeSOF : M U Z := sof_bits Impl.NumClear.

Definition CreateSOF (filename : list Z) : M K Z :=
  newOpenFile ← on_user (on_files (fs_Open filename));
  match newOpenFile with
  | None => mret (-1)
  | Some f =>
      i ← on_user (sof_bits Impl.Find);
      if i =? -1 then mret (-1)
      else
        p ← SOF_new filename f;
        on_user (set_sofArray i p) ;;
        mret i
  end.

Definition set_counter (p : positive) (d : Z) : M U unit :=
  x ← sof_at p;
  put_sof p (MkSOF (sof_filename x) (openFile x) (u32 (counter x + d)) (fileLock x)).

Definition IncSOFCounter (sofIndex : Z) : M U unit := p ← sof_entry sofIndex; set_counter p 1.
Definition DecSOFCounter (sofIndex : Z) : M U unit := p ← sof_entry sofIndex; set_counter p (-1).

Definition RemoveSOF (sofIndex : Z) : M U unit :=
  t ← sof_bits (Impl.Test sofIndex);
  when t (
    p ← sof_entry sofIndex;
    set_counter p (-1) ;;
    x ← sof_at p;
    when (counter x =? 0) (
      sof_bits (Impl.Clear sofIndex) ;;
      SOF_delete p)).

Definition WriteSOF (buffer : list Z) (size offset sofIndex : Z) : kcode Z :=
  p ← run_user (sof_entry sofIndex);
  SOF_Write p buffer size offset.
Definition ReadSOF (size offset sofIndex : Z) : kcode (list Z) :=
  p ← run_user (sof_entry sofIndex);
  SOF_Read p size offset.

(** ** userprog/pcb.cc *)

Definition set_pof_table (p : positive) (b : Impl.BitMap) (l : list (option positive)) : M U unit :=
  x ← pcb_at p;
  put_pcb p (MkPCB (PID x) (thisThread x) (parentPCB x) (childrenPCB x) (childExitValue x)
               (thisAddrSpace x) b l).
Definition set_family (p : positive) (parent : option positive) (children : Spec.alist positive)
    (exitValue : Z) : M U unit :=
  x ← pcb_at p;
  put_pcb p (MkPCB (PID x) (thisThread x) parent children exitValue
               (thisAddrSpace x) (pofMap x) (pofArray x)).
Definition set_thisThread (p : positive) (t : tid) : M U unit :=
  x ← pcb_at p;
  put_pcb p (MkPCB (PID x) (Some t) (parentPCB x) (childrenPCB x) (childExitValue x)
               (thisAddrSpace x) (pofMap x) (pofArray x)).

Definition pof_bits {A} (p : positive) (m : M Impl.BitMap A) : M U A :=
  x ← pcb_at p;
  '(a, b) ← on_bits m (pofMap x);
  set_pof_table p b (pofArray x) ;;
  mret a.

(** [pofArray[i]] *)
Definition pof_entry (p : positive) (i : Z) : M U positive :=
  x ← pcb_at p;
  y ← lift (aread (pofArray x) i);
  lift (deref y).

(** The destructor closes the files of the process. *)
Definition PCB_delete (p : positive) : M U unit :=
  for_range 0 POF_MAXNUM (λ i,
    t ← pof_bits p (Impl.Test i);
    when t (
      pof_bits p (Impl.Clear i) ;;
      q ← pof_entry p i;
      x ← pof_at q;
      RemoveSOF (sofIndex x) ;;
      POF_delete q)) ;;
  modify (λ u, set_pcbs (delete p (pcbs u)) u).

Definition AppendChildPCB (p child : positive) : M U unit :=
  x ← pcb_at p;
  c ← pcb_at child;
  l ← lift (Spec.SortedInsert (PID c) child (childrenPCB x));
  set_family p (parentPCB x) l (childExitValue x).

(** [childrenPCB.SortedRemove(&pid)] removes the first child. *)
Definition RemoveChildPCB (p child : positive) : M U unit :=
  pcb_at child ;;
  x ← pcb_at p;
  set_family p (parentPCB x) (Spec.SortedRemove (childrenPCB x)).2 (childExitValue x).

Definition setParentPCBNULL (p : positive) : M U unit :=
  x ← pcb_at p;
  set_family p None (childrenPCB x) (childExitValue x).

Fixpoint mapcar (f : positive → M U unit) (l : list positive) : M U unit :=
  match l with
  | [] => mret tt
  | p :: l' => f p ;; mapcar f l'
  end.

Definition RemoveChildParentPCB (p : positive) : M U unit :=
  x ← pcb_at p;
  mapcar setParentPCBNULL (Spec.Mapcar (childrenPCB x)).

Definition RemoveParentPCBChild (p : positive) (inputValue : Z) : M U unit :=
  x ← pcb_at p;
  match parentPCB x with
  | None => mret tt
  | Some q =>
      RemoveChildPCB q p ;;
      y ← pcb_at q;
      set_family q (parentPCB y) (childrenPCB y) inputValue
  end.

Definition GetChildPCB (p : positive) (childPID : Z) : M U (option positive) :=
  x ← pcb_at p;
  mret (Spec.Search childPID (childrenPCB x)).

(** [PrintPCB] only reads: the process, its parent and its children. *)
Definition PrintPCB (p : positive) : M U unit :=
  x ← pcb_at p;
  match parentPCB x with Some q => pcb_at q ;; mret tt | None => mret tt end ;;
  mapcar (λ q, pcb_at q ;; mret tt) (Spec.Mapcar (childrenPCB x)).

Definition FindPOFByName (p : positive) (filename : list Z) : M U Z :=
  r ← for_return (Z.to_nat POF_MAXNUM) 0 (λ i,
        t ← pof_bits p (Impl.Test i);
        if t : bool then
          q ← pof_entry p i;
          x ← pof_at q;
          mret (if bool_decide (filename = pof_filename x) then Some i else None)
        else mret None);
  mret (default (-1) r).

Definition GetNumFreePOF (p : positive) : M U Z := pof_bits p Impl.NumClear.

Definition CreatePOF (p : positive) (sofIndex_ : Z) (filename : list Z) : M U Z :=
  pofIndex ← pof_bits p Impl.Find;
  if pofIndex =? -1 then mret (-1)
  else
    q ← POF_new sofIndex_ filename;
    x ← pcb_at p;
    l ← lift (awrite (pofArray x) pofIndex (Some q));
    set_pof_table p (pofMap x) l ;;
    mret pofIndex.

Definition RemovePOF (p : positive) (pofIndex : Z) : M U unit :=
  t ← pof_bits p (Impl.Test pofIndex);
  when t (
    pof_bits p (Impl.Clear pofIndex) ;;
    q ← pof_entry p pofIndex;
    POF_delete q).

Definition TestPOF (p : positive) (pofIndex : Z) : M U bool := pof_bits p (Impl.Test pofIndex).

Definition SetPOFoffset (p : positive) (pofIndex off : Z) : M U unit :=
  q ← pof_entry p pofIndex;
  x ← pof_at q;
  put_pof q (MkPOF (pof_filename x) (sofIndex x) off).
Definition GetPOFoffset (p : positive) (pofIndex : Z) : M U Z :=
  q ← pof_entry p pofIndex;
  x ← pof_at q;
  mret (offset x).
Definition GetPOFsofIndex (p : positive) (pofIndex : Z) : M U Z :=
  q ← pof_entry p pofIndex;
  x ← pof_at q;
  mret (sofIndex x).
End pcb.
