(* ===== verification/Coff.v ===== *)
(** * bin/coff2noff.c: from COFF object files to Nachos executables

    The program copies the segments of a COFF file one after the other behind
    the header of bin/noff.h, which the address spaces of userprog/ read
    again.  It is a sequence of steps that may [exit(1)]. *)
From S2P Require Import Prelude Word AddrSpace.

(** ** bin/coff.h *)

Definition MIPSELMAGIC : Z := 0x162.
Definition OMAGIC : Z := 263. (* 0407 *)

Record filehdr := MkFilehdr {
  f_magic : Z; f_nscns : Z; f_timdat : Z; f_symptr : Z; f_nsyms : Z; f_opthdr : Z; f_flags : Z
}.
Record aouthdr := MkAouthdr {
  aout_magic : Z; vstamp : Z; tsize : Z; dsize : Z; bsize : Z; entry : Z; text_start : Z;
  data_start : Z; bss_start : Z; gprmask : Z; cprmask : list Z; gp_value : Z
}.
Record scnhdr := MkScnhdr {
  s_name : list Z; s_paddr : Z; s_vaddr : Z; s_size : Z; s_scnptr : Z; s_relptr : Z;
  s_lnnoptr : Z; s_nreloc : Z; s_nlnno : Z; s_flags : Z
}.

(** The sizes of the structs, where a [long] has 4 bytes. *)
Definition filehdr_size : Z := 20.
Definition aouthdr_size : Z := 56.
Definition scnhdr_size : Z := 40.

(** An [unsigned short], a [short] and a [long] at an offset. *)
Definition ushort_at (off : nat) (bs : list Z) : Z := of_le (slice off 2 bs).
Definition short_at (off : nat) (bs : list Z) : Z :=
  let x := ushort_at off bs in if x <? 32768 then x else x - 65536.
Definition long_at (off : nat) (bs : list Z) : Z := s32 (of_le (slice off 4 bs)).

Definition filehdr_of_bytes (bs : list Z) : filehdr :=
  MkFilehdr (ushort_at 0 bs) (ushort_at 2 bs) (long_at 4 bs) (long_at 8 bs) (long_at 12 bs)
    (ushort_at 16 bs) (ushort_at 18 bs).
Definition aouthdr_of_bytes (bs : list Z) : aouthdr :=
  MkAouthdr (short_at 0 bs) (short_at 2 bs) (long_at 4 bs) (long_at 8 bs) (long_at 12 bs)
    (long_at 16 bs) (long_at 20 bs) (long_at 24 bs) (long_at 28 bs) (long_at 32 bs)
    [long_at 36 bs; long_at 40 bs; long_at 44 bs; long_at 48 bs] (long_at 52 bs).
Definition scnhdr_of_bytes (bs : list Z) : scnhdr :=
  MkScnhdr (slice 0 8 bs) (long_at 8 bs) (long_at 12 bs) (long_at 16 bs) (long_at 20 bs)
    (long_at 24 bs) (long_at 28 bs) (ushort_at 32 bs) (ushort_at 34 bs) (long_at 36 bs).

(** [strcmp(s_name, literal) == 0]: the literals are shorter than [s_name]. *)
Definition is_named (literal : list Z) (s : scnhdr) : bool :=
  bool_decide (take (length literal + 1) (s_name s) = literal ++ [0]).
Definition text_ : list Z := [46; 116; 101; 120; 116].
Definition data_ : list Z := [46; 100; 97; 116; 97].
Definition rdata_ : list Z := [46; 114; 100; 97; 116; 97].
Definition bss_ : list Z := [46; 98; 115; 115].
Definition sbss_ : list Z := [46; 115; 98; 115; 115].

(** The struct as it is written, on the little-endian host. *)
Definition segment_bytes (s : Segment) : list Z :=
  bytes_le 4 (virtualAddr s) ++ bytes_le 4 (inFileAddr s) ++ bytes_le 4 (seg_size s).
Definition noff_bytes (h : NoffHeader) : list Z :=
  bytes_le 4 (noffMagic h) ++ segment_bytes (seg_code h) ++ segment_bytes (initData h)
  ++ segment_bytes (uninitData h).

(** ** The program *)

(** The messages of the ends with [exit(1)]. *)
Inductive failure :=
  | Usage
  | CannotOpen
  | FileTooShort
  | UnableToWrite
  | NotMipsel
  | NotOmagic
  | TwoData
  | TwoBss
  | UnknownSegment (name : list Z).

#[export] Instance failure_eq_dec : EqDecision failure.
Proof. solve_decision. Defined.

(** The input and the output with their offsets, and the variables of [main].
    [noffFile] is [None] when it could not be opened. *)
Record conv := MkConv {
  coffFile : list Z;
  inOffset : Z;
  noffFile : option (list Z);
  outOffset : Z;
  noffH : NoffHeader;
  inNoffFile : Z
}.

(** A step: a fault, or the state and either an [exit(1)] or a value. *)
Definition Conv (A : Type) : Type := conv → res ((failure + A) * conv).

#[export] Instance Conv_ret : MRet Conv := λ A a s, Ok (inr a, s).
#[export] Instance Conv_bind : MBind Conv := λ A B k m s,
  match m s with
  | Ok (inr a, s') => k a s'
  | Ok (inl e, s') => Ok (inl e, s')
  | Fault f => Fault f
  end.

Definition exit_1 {A} (e : failure) : Conv A := λ s, Ok (inl e, s).
Definition state_ : Conv conv := λ s, Ok (inr s, s).
Definition set_input (off : Z) : Conv unit := λ s,
  Ok (inr tt, MkConv (coffFile s) off (noffFile s) (outOffset s) (noffH s) (inNoffFile s)).
Definition set_output (f : option (list Z)) (off : Z) : Conv unit := λ s,
  Ok (inr tt, MkConv (coffFile s) (inOffset s) f off (noffH s) (inNoffFile s)).
Definition set_noffH (h : NoffHeader) : Conv unit := λ s,
  Ok (inr tt, MkConv (coffFile s) (inOffset s) (noffFile s) (outOffset s) h (inNoffFile s)).
Definition set_inNoffFile (n : Z) : Conv unit := λ s,
  Ok (inr tt, MkConv (coffFile s) (inOffset s) (noffFile s) (outOffset s) (noffH s) n).

(** [lseek(fd, off, 0)]: a negative offset is refused, which nobody looks at. *)
Definition seek_input (off : Z) : Conv unit := if off <? 0 then mret tt else set_input off.
Definition seek_output (off : Z) : Conv unit :=
  s ← state_;
  if off <? 0 then mret tt else set_output (noffFile s) off.

(** A negative size is that of no buffer. *)
Definition Read (nBytes : Z) : Conv (list Z) :=
  if nBytes <? 0 then λ _, Fault OutOfBounds
  else
    s ← state_;
    let buf := take (Z.to_nat nBytes) (drop (Z.to_nat (inOffset s)) (coffFile s)) in
    set_input (inOffset s + zlen buf) ;;
    if negb (zlen buf =? nBytes) then exit_1 FileTooShort
    else mret buf.

(** The host writes all bytes to a file that is open; behind the end of the
    file it fills the gap with zeros. *)
Definition Write (buf : list Z) : Conv unit :=
  s ← state_;
  match noffFile s with
  | None => exit_1 UnableToWrite
  | Some f =>
      let gap := replicate (Z.to_nat (outOffset s) - length f) 0 in
      set_output (Some (splice (Z.to_nat (outOffset s)) buf (f ++ gap))) (outOffset s + zlen buf)
  end.

(** The part of the loop that text and data share: where the segment is put,
    and its copy. *)
Definition segment_to (s : scnhdr) (put : Segment → NoffHeader → NoffHeader) : Conv unit :=
  c ← state_;
  set_noffH (put (MkSegment (s_paddr s) (inNoffFile c) (s_size s)) (noffH c)) ;;
  seek_input (s_scnptr s) ;;
  buffer ← Read (s_size s);
  Write buffer ;;
  set_inNoffFile (add32 (inNoffFile c) (s_size s)).

Definition put_code (x : Segment) (h : NoffHeader) : NoffHeader :=
  MkNoff (noffMagic h) x (initData h) (uninitData h).
Definition put_data (x : Segment) (h : NoffHeader) : NoffHeader :=
  MkNoff (noffMagic h) (seg_code h) x (uninitData h).
Definition put_bss (x : Segment) (h : NoffHeader) : NoffHeader :=
  MkNoff (noffMagic h) (seg_code h) (initData h) x.

Definition bss_segment (s : scnhdr) : Conv unit :=
  c ← state_;
  let u := uninitData (noffH c) in
  if negb (seg_size u =? 0) then
    if s_paddr s =? add32 (virtualAddr u) (seg_size u) then exit_1 TwoBss
    else set_noffH (put_bss (MkSegment (virtualAddr u) (inFileAddr u)
                                       (add32 (seg_size u) (s_size s))) (noffH c))
  else set_noffH (put_bss (MkSegment (s_paddr s) (inFileAddr u) (s_size s)) (noffH c)).

(** One round of the loop over the sections. *)
Definition section (s : scnhdr) : Conv unit :=
  if s_size s =? 0 then mret tt
  else if is_named text_ s then segment_to s put_code
  else if is_named data_ s || is_named rdata_ s then
    c ← state_;
    if negb (seg_size (initData (noffH c)) =? 0) then exit_1 TwoData
    else segment_to s put_data
  else if is_named bss_ s || is_named sbss_ s then bss_segment s
  else exit_1 (UnknownSegment (s_name s)).

Fixpoint copy_sections (ss : list scnhdr) : Conv unit :=
  match ss with
  | [] => mret tt
  | s :: ss => section s ;; copy_sections ss
  end.

(** The section headers, [numsections] structs in one piece. *)
Definition section_headers (numsections : Z) (bs : list Z) : list scnhdr :=
  (λ i, scnhdr_of_bytes (slice (Z.to_nat (scnhdr_size * i)) (Z.to_nat scnhdr_size) bs))
  <$> seqZ 0 numsections.

(** The header whose sizes are set to 0. *)
Definition initial_header (h : NoffHeader) : NoffHeader :=
  let z x := MkSegment (virtualAddr x) (inFileAddr x) 0 in
  MkNoff NOFFMAGIC (z (seg_code h)) (z (initData h)) (z (uninitData h)).

(** [main] from the first [ReadStruct] on. *)
Definition convert : Conv unit :=
  bs ← Read filehdr_size;
  let fileh := filehdr_of_bytes bs in
  if negb (f_magic fileh =? MIPSELMAGIC) then exit_1 NotMipsel
  else
    bs ← Read aouthdr_size;
    if negb (aout_magic (aouthdr_of_bytes bs) =? OMAGIC) then exit_1 NotOmagic
    else
      let numsections := f_nscns fileh in
      bs ← Read (numsections * scnhdr_size);
      c ← state_;
      set_noffH (initial_header (noffH c)) ;;
      set_inNoffFile NoffSize ;;
      seek_output NoffSize ;;
      copy_sections (section_headers numsections bs) ;;
      seek_output 0 ;;
      c ← state_;
      Write (noff_bytes (noffH c)).

(** How the program ends: [exit(0)] with what is in the new file, or
    [exit(1)], where no new file stays. *)
Inductive outcome :=
  | Converted (noff : list Z)
  | Failed (e : failure).

(** [open_input] and [open_output] are the host's answers to the two [open]s;
    with one argument the name of the output is NULL, which cannot be opened.
    The program does not find out that the output is not open.  [garbage] are
    the bytes of the variable [noffH] at first. *)
Definition coff2noff (garbage : list Z) (open_input : list Z → option (list Z))
    (open_output : list Z → bool) (args : list (list Z)) : res outcome :=
  match args with
  | [] => Ok (Failed Usage)
  | input :: rest =>
      match open_input input with
      | None => Ok (Failed CannotOpen)
      | Some coff =>
          let out := match rest with
                     | output :: _ => if open_output output then Some [] else None
                     | [] => None
                     end in
          '(r, c) ← convert (MkConv coff 0 out 0 (noff_of_bytes garbage) 0);
          match r with
          | inl e => Ok (Failed e)
          | inr _ => Ok (Converted (default [] (noffFile c)))
          end
      end
  end.
