(* ===== verification/CoffSpec.v ===== *)
(** * What coff2noff makes of a COFF file

    The executable that it writes starts with a header that userprog/ reads
    back, and its segments hold the bytes that the sections have in the COFF
    file. *)
From S2P Require Import Prelude Word AddrSpace Coff.

(** ** The header is read as it was written *)

Definition segment_ok (s : Segment) : Prop :=
  in_s32 (virtualAddr s) ∧ in_s32 (inFileAddr s) ∧ in_s32 (seg_size s).
Definition noff_ok (h : NoffHeader) : Prop :=
  in_s32 (noffMagic h) ∧ segment_ok (seg_code h) ∧ segment_ok (initData h)
  ∧ segment_ok (uninitData h).

Lemma noff_of_noff_bytes h rest : noff_ok h → noff_of_bytes (noff_bytes h ++ rest) = h.
Proof.
  destruct h as [m [c1 c2 c3] [d1 d2 d3] [u1 u2 u3]].
  intros (Hm & (Hc1 & Hc2 & Hc3) & (Hd1 & Hd2 & Hd3) & (Hu1 & Hu2 & Hu3)). simpl in *.
  unfold noff_of_bytes. f_equal; [exact (word_back m Hm)|f_equal..];
    first [exact (word_back _ Hc1)|exact (word_back _ Hc2)|exact (word_back _ Hc3)
          |exact (word_back _ Hd1)|exact (word_back _ Hd2)|exact (word_back _ Hd3)
          |exact (word_back _ Hu1)|exact (word_back _ Hu2)|exact (word_back _ Hu3)].
Qed.

Lemma noff_of_bytes_ok bs : noff_ok (noff_of_bytes bs).
Proof. unfold noff_of_bytes, noff_ok, segment_ok. simpl. split_and!; apply s32_range. Qed.

Lemma length_noff_bytes h : zlen (noff_bytes h) = NoffSize.
Proof. unfold noff_bytes, segment_bytes, zlen. by rewrite !length_app, !length_bytes_le. Qed.

(** ** Steps that do not exit *)

Lemma Conv_bind_inr {A B} (m : Conv A) (k : A → Conv B) s b s' :
  (m ≫= k) s = Ok (inr b, s') ↔ ∃ a s1, m s = Ok (inr a, s1) ∧ k a s1 = Ok (inr b, s').
Proof.
  unfold mbind, Conv_bind. destruct (m s) as [[[e|a] s1]|f]; naive_solver.
Qed.

Lemma Read_inr n c bs c' :
  Read n c = Ok (inr bs, c') →
  0 ≤ n ∧ zlen bs = n ∧ bs = slice (Z.to_nat (inOffset c)) (Z.to_nat n) (coffFile c)
  ∧ c' = MkConv (coffFile c) (inOffset c + n) (noffFile c) (outOffset c) (noffH c) (inNoffFile c).
Proof.
  unfold Read. destruct (Z.ltb_spec n 0); [done|].
  rewrite Conv_bind_inr. intros (s & s1 & [= <- <-] & Hr).
  apply Conv_bind_inr in Hr as ([] & s2 & [= <-] & Hr).
  destruct (Z.eqb_spec (zlen (take (Z.to_nat n) (drop (Z.to_nat (inOffset c)) (coffFile c)))) n)
    as [E|E]; [|done].
  injection Hr as <- <-. split; [done|]. split; [done|]. split; [done|]. by rewrite E.
Qed.

Lemma Write_inr buf c u c' :
  Write buf c = Ok (inr u, c') →
  ∃ f, noffFile c = Some f
    ∧ c' = MkConv (coffFile c) (inOffset c)
             (Some (splice (Z.to_nat (outOffset c)) buf
                      (f ++ replicate (Z.to_nat (outOffset c) - length f) 0)))
             (outOffset c + zlen buf) (noffH c) (inNoffFile c).
Proof.
  unfold Write. rewrite Conv_bind_inr. intros (s & s1 & [= <- <-] & Hr).
  destruct (noffFile c) as [f|]; [|done]. exists f. split; [done|].
  injection Hr. intros <- _. done.
Qed.

Lemma seek_input_inr off c u c' :
  seek_input off c = Ok (inr u, c') → 0 ≤ off →
  c' = MkConv (coffFile c) off (noffFile c) (outOffset c) (noffH c) (inNoffFile c).
Proof.
  unfold seek_input. intros H Hoff. destruct (Z.ltb_spec off 0); [lia|]. by injection H.
Qed.

Lemma segment_to_inr s put c u c' :
  segment_to s put c = Ok (inr u, c') → 0 ≤ s_scnptr s →
  let buf := slice (Z.to_nat (s_scnptr s)) (Z.to_nat (s_size s)) (coffFile c) in
  0 ≤ s_size s ∧ zlen buf = s_size s
  ∧ ∃ f off, noffFile c = Some f
    ∧ c' = MkConv (coffFile c) off
             (Some (splice (Z.to_nat (outOffset c)) buf
                      (f ++ replicate (Z.to_nat (outOffset c) - length f) 0)))
             (outOffset c + s_size s)
             (put (MkSegment (s_paddr s) (inNoffFile c) (s_size s)) (noffH c))
             (add32 (inNoffFile c) (s_size s)).
Proof.
  unfold segment_to. intros Hr Hp.
  apply Conv_bind_inr in Hr as (s0 & s1 & [= <- <-] & Hr).
  apply Conv_bind_inr in Hr as ([] & s2 & [= <-] & Hr).
  apply Conv_bind_inr in Hr as (u3 & s3 & H3 & Hr). apply seek_input_inr in H3 as ->; [|done].
  apply Conv_bind_inr in Hr as (bs & s4 & H4 & Hr). apply Read_inr in H4 as (Hn & Hl & -> & ->).
  apply Conv_bind_inr in Hr as (u5 & s5 & H5 & Hr). apply Write_inr in H5 as (f & Hf & ->).
  simpl in *. injection Hr as <- <-. split; [done|]. split; [done|].
  exists f, (s_scnptr s + s_size s). split; [done|]. by rewrite Hl.
Qed.

(** ** What the sections are for *)

Inductive kind := KEmpty | KText | KData | KBss | KOther.
#[export] Instance kind_eq_dec : EqDecision kind.
Proof. solve_decision. Defined.

Definition kind_of (s : scnhdr) : kind :=
  if s_size s =? 0 then KEmpty
  else if is_named text_ s then KText
  else if is_named data_ s || is_named rdata_ s then KData
  else if is_named bss_ s || is_named sbss_ s then KBss
  else KOther.
Definition of_kind (k : kind) (ss : list scnhdr) : list scnhdr := filter (λ s, kind_of s = k) ss.
Definition total (ss : list scnhdr) : Z := foldr (λ s n, s_size s + n) 0 ss.

(** The segment [x] of the executable [f] holds the section, if there is one. *)
Definition holds (coff f : list Z) (o : option scnhdr) (x : Segment) : Prop :=
  match o with
  | None => seg_size x = 0
  | Some s =>
      virtualAddr x = s_paddr s ∧ seg_size x = s_size s
      ∧ NoffSize ≤ inFileAddr x ∧ inFileAddr x + seg_size x ≤ zlen f
      ∧ slice (Z.to_nat (inFileAddr x)) (Z.to_nat (seg_size x)) f
        = slice (Z.to_nat (s_scnptr s)) (Z.to_nat (s_size s)) coff
      ∧ zlen (slice (Z.to_nat (s_scnptr s)) (Z.to_nat (s_size s)) coff) = s_size s
  end.
Definition bss_holds (ss : list scnhdr) (x : Segment) : Prop :=
  match ss with
  | [] => seg_size x = 0
  | s :: _ => virtualAddr x = s_paddr s ∧ seg_size x = total ss
  end.

Definition section_ok (s : scnhdr) : Prop := 0 ≤ s_scnptr s ∧ 0 ≤ s_size s ∧ in_s32 (s_paddr s).

Lemma of_kind_snoc k ss s :
  of_kind k (ss ++ [s]) = if decide (kind_of s = k) then of_kind k ss ++ [s] else of_kind k ss.
Proof.
  unfold of_kind. rewrite list.filter_app, list.filter_cons, list.filter_nil.
  destruct (decide (kind_of s = k)); [done|]. by rewrite app_nil_r.
Qed.

Lemma total_app ss ss' : total (ss ++ ss') = total ss + total ss'.
Proof. unfold total. induction ss as [|s ss IH]; simpl; lia. Qed.

Lemma total_nonneg ss : Forall section_ok ss → 0 ≤ total ss.
Proof. induction 1 as [|s ss (_ & Hs & _) Hss IH]; [done|]. unfold total in *. simpl. lia. Qed.

Lemma total_of_kind k ss : Forall section_ok ss → 0 ≤ total (of_kind k ss) ≤ total ss.
Proof.
  induction 1 as [|s ss (_ & Hs & _) Hss IH]; [done|]. unfold of_kind in *. rewrite list.filter_cons.
  destruct (decide (kind_of s = k)); unfold total in *; simpl; lia.
Qed.

Lemma splice_end {A} (n : nat) (buf f : list A) (z : A) :
  (length f ≤ n)%nat →
  splice n buf (f ++ replicate (n - length f) z) = f ++ replicate (n - length f) z ++ buf.
Proof.
  intros Hn. unfold splice.
  rewrite take_ge by (rewrite length_app, length_replicate; lia).
  rewrite drop_ge by (rewrite length_app, length_replicate; lia).
  by rewrite app_nil_r, <- app_assoc.
Qed.

Lemma holds_more coff f g o x : holds coff f o x → holds coff (f ++ g) o x.
Proof.
  destruct o as [s|]; [|done]. intros (Hv & Hs & Hlo & Hhi & Hsl & Hz).
  assert (0 ≤ s_size s) by (rewrite <- Hz; unfold zlen; lia).
  unfold holds, zlen, NoffSize in *. rewrite length_app. do 3 (split; [lia|]). split; [lia|].
  split; [|done]. rewrite <- Hsl. unfold slice. rewrite drop_app_le, take_app_le; [done| |lia].
  rewrite length_drop. lia.
Qed.

(** ** The loop over the sections *)

Definition copied (coff : list Z) (ss : list scnhdr) (c : conv) : Prop :=
  ∃ f, noffFile c = Some f ∧ coffFile c = coff
    ∧ NoffSize ≤ outOffset c ≤ NoffSize + total ss
    ∧ (zlen f = outOffset c ∨ f = [] ∧ outOffset c = NoffSize)
    ∧ inNoffFile c = outOffset c ∧ noff_ok (noffH c) ∧ noffMagic (noffH c) = NOFFMAGIC
    ∧ holds coff f (list.last (of_kind KText ss)) (seg_code (noffH c))
    ∧ holds coff f (list.last (of_kind KData ss)) (initData (noffH c))
    ∧ bss_holds (of_kind KBss ss) (uninitData (noffH c)).

(** The file after a segment was copied, and the new segment in it. *)
Lemma appended coff c s f :
  section_ok s → NoffSize ≤ outOffset c → outOffset c + s_size s < 2 ^ 31 →
  (zlen f = outOffset c ∨ f = [] ∧ outOffset c = NoffSize) →
  let buf := slice (Z.to_nat (s_scnptr s)) (Z.to_nat (s_size s)) coff in
  zlen buf = s_size s →
  ∃ g, splice (Z.to_nat (outOffset c)) buf (f ++ replicate (Z.to_nat (outOffset c) - length f) 0)
       = f ++ g
    ∧ zlen (f ++ g) = outOffset c + s_size s
    ∧ holds coff (f ++ g) (Some s) (MkSegment (s_paddr s) (outOffset c) (s_size s)).
Proof.
  intros (_ & Hsz & _) Hlo Hhi Hf buf Hbuf.
  assert (length f ≤ Z.to_nat (outOffset c))%nat as Hle
    by (destruct Hf as [?|[-> ?]]; unfold zlen, NoffSize in *; simpl in *; lia).
  set (gap := replicate (Z.to_nat (outOffset c) - length f) 0).
  assert (length (f ++ gap) = Z.to_nat (outOffset c)) as Hg
    by (unfold gap; rewrite length_app, length_replicate; lia).
  exists (gap ++ buf). split; [by apply splice_end|].
  assert (zlen (f ++ gap ++ buf) = outOffset c + s_size s) as Hz.
  { rewrite app_assoc. unfold zlen in *. rewrite length_app. unfold NoffSize in *. lia. }
  split; [done|]. unfold holds. simpl. do 3 (split; [done|]). split; [lia|]. split; [|done].
  rewrite app_assoc. unfold slice at 1. rewrite <- Hg, drop_app_length.
  fold buf. apply take_ge. unfold zlen in *. lia.
Qed.

Lemma total_bss ss : Forall section_ok ss → of_kind KBss ss ≠ [] → 0 < total (of_kind KBss ss).
Proof.
  intros Hss. induction Hss as [|s ss (_ & Hs & _) Hss IH]; [done|].
  unfold of_kind in *. rewrite list.filter_cons. case_decide as Hk; [|done]. intros _.
  change (0 < s_size s + total (filter (λ s, kind_of s = KBss) ss)).
  pose proof (total_of_kind KBss ss Hss) as [Ht _]. unfold of_kind in Ht.
  unfold kind_of in Hk. destruct (Z.eqb_spec (s_size s) 0); [done|]. lia.
Qed.

Lemma section_copied coff ss s c u c' :
  copied coff ss c → section_ok s → Forall section_ok ss → NoffSize + total ss + s_size s < 2 ^ 31 →
  section s c = Ok (inr u, c') → copied coff (ss ++ [s]) c'.
Proof.
  intros (f & Hf & Ec & Hout & Hlen & Ein & Hok & Hm & Ht & Hd & Hb) Hs Hss Hfit Hrun.
  pose proof (total_nonneg ss Hss) as Htot.
  pose proof Hs as (Hp & Hsz & Hpa). unfold copied.
  rewrite total_app, !of_kind_snoc. unfold kind_of. unfold section in Hrun.
  assert (total [s] = s_size s) as -> by (unfold total; simpl; lia).
  destruct (Z.eqb_spec (s_size s) 0) as [E0|E0].
  { injection Hrun as <- <-. rewrite !decide_False by done. exists f.
    do 2 (split; [done|]). split; [lia|]. done. }
  assert (∀ put,
    (∀ x, segment_ok x → noff_ok (put x (noffH c))) →
    segment_to s put c = Ok (inr u, c') →
    ∃ f', noffFile c' = Some f' ∧ coffFile c' = coff
      ∧ NoffSize ≤ outOffset c' ≤ NoffSize + (total ss + s_size s)
      ∧ (zlen f' = outOffset c' ∨ f' = [] ∧ outOffset c' = NoffSize)
      ∧ inNoffFile c' = outOffset c' ∧ noff_ok (noffH c')
      ∧ (∀ o x, holds coff f o x → holds coff f' o x)
      ∧ ∃ x, noffH c' = put x (noffH c) ∧ holds coff f' (Some s) x) as Hseg.
  { intros put Hput Hrun'. apply segment_to_inr in Hrun' as (_ & Hz & f0 & off & Hf0 & ->); [|done].
    rewrite Hf in Hf0. injection Hf0 as <-. rewrite Ec in *.
    destruct (appended coff c s f Hs ltac:(lia) ltac:(lia) Hlen Hz) as (g & -> & Hzg & Hh).
    exists (f ++ g). simpl. rewrite Ein. do 2 (split; [done|]). split; [lia|]. split; [by left|].
    split. { unfold add32. apply s32_id. unfold in_s32, NoffSize in *. lia. }
    split. { apply Hput. unfold segment_ok, in_s32, NoffSize in *. simpl. lia. }
    split; [intros; by apply holds_more|]. eexists. split; [done|exact Hh]. }
  destruct Hok as (Hom & Hoc & Hod & Hou).
  destruct (is_named text_ s).
  { rewrite decide_True, !decide_False by done.
    destruct (Hseg put_code (λ x Hx, conj Hom (conj Hx (conj Hod Hou))) Hrun) as (f' & H1 & H2 & H3 & H4 & H5 & H6 & Hmore & x & Ex & Hx).
    exists f'. rewrite Ex in *. simpl. rewrite list.last_snoc.
    do 6 (split; [done|]). split; [done|]. split; [done|]. split; [by apply Hmore|done]. }
  destruct (is_named data_ s || is_named rdata_ s).
  { rewrite decide_False, decide_True, decide_False by done.
    apply Conv_bind_inr in Hrun as (c0 & c1 & [= <- <-] & Hrun).
    destruct (negb _); [done|].
    destruct (Hseg put_data (λ x Hx, conj Hom (conj Hoc (conj Hx Hou))) Hrun) as (f' & H1 & H2 & H3 & H4 & H5 & H6 & Hmore & x & Ex & Hx).
    exists f'. rewrite Ex in *. simpl. rewrite list.last_snoc.
    do 6 (split; [done|]). split; [done|]. split; [by apply Hmore|done]. }
  destruct (is_named bss_ s || is_named sbss_ s); [|done].
  rewrite !decide_False, decide_True by done.
  unfold bss_segment in Hrun. apply Conv_bind_inr in Hrun as (c0 & c1 & [= <- <-] & Hrun).
  simpl in Hrun. destruct (Z.eqb_spec (seg_size (uninitData (noffH c))) 0) as [Eu|Eu]; simpl in Hrun.
  - assert (of_kind KBss ss = []) as Enil.
    { destruct (decide (of_kind KBss ss = [])) as [?|Hne]; [done|].
      pose proof (total_bss ss Hss Hne). destruct (of_kind KBss ss); [done|].
      destruct Hb as [_ Hb]. lia. }
    injection Hrun as <- <-. exists f. simpl. rewrite Enil. destruct Hou as (? & ? & ?).
    do 2 (split; [done|]). split; [lia|]. do 2 (split; [done|]). split.
    { repeat (split; [done|]). unfold segment_ok, in_s32, NoffSize in *. simpl. lia. }
    do 3 (split; [done|]). split; [done|]. unfold total. simpl. lia.
  - destruct (_ =? _); [done|]. injection Hrun as <- <-.
    pose proof (total_of_kind KBss ss Hss) as Hle.
    destruct (of_kind KBss ss) as [|b bs] eqn:Eb; [done|]. destruct Hb as [Hbv Hbs].
    assert (add32 (seg_size (uninitData (noffH c))) (s_size s) = total (b :: bs) + s_size s) as Ea.
    { rewrite Hbs. unfold add32. apply s32_id. unfold in_s32, NoffSize in *. lia. }
    exists f. simpl. rewrite Ea. destruct Hou as (? & ? & ?).
    do 2 (split; [done|]). split; [lia|]. do 2 (split; [done|]). split.
    { repeat (split; [done|]). unfold segment_ok, in_s32, NoffSize in *. simpl in *. lia. }
    do 3 (split; [done|]). split; [done|]. rewrite total_app. unfold total. simpl. lia.
Qed.

Lemma sections_copied coff ss' ss c u c' :
  copied coff ss c → Forall section_ok (ss ++ ss') → NoffSize + total (ss ++ ss') < 2 ^ 31 →
  copy_sections ss' c = Ok (inr u, c') → copied coff (ss ++ ss') c'.
Proof.
  revert ss c. induction ss' as [|s ss' IH]; intros ss c Hc Hok Hfit Hrun.
  - injection Hrun as <- <-. by rewrite app_nil_r.
  - apply Conv_bind_inr in Hrun as ([] & c1 & Hs & Hrun).
    rewrite cons_middle, (assoc_L (++)) in Hok, Hfit |- *. apply (IH _ c1); [|done..].
    apply list.Forall_app in Hok as [Hok Hok2]. apply list.Forall_app in Hok as [Hok1 Hok].
    apply (section_copied coff ss s c () c1); [done|by inversion Hok|done| |done].
    rewrite !total_app in Hfit. pose proof (total_nonneg ss' Hok2).
    unfold total in *. simpl in *. lia.
Qed.

(** ** The whole program *)

(** Nothing is copied to a file that is not open. *)
Lemma sections_None ss c u c' :
  Forall (λ s, 0 ≤ s_scnptr s) ss → noffFile c = None →
  copy_sections ss c = Ok (inr u, c') → noffFile c' = None.
Proof.
  intros Hss. revert c. induction Hss as [|s ss Hp Hss IH]; intros c Hc Hrun.
  - by injection Hrun as <- <-.
  - apply Conv_bind_inr in Hrun as ([] & c1 & Hs & Hrun). apply (IH c1); [|done].
    assert (∀ put, segment_to s put c ≠ Ok (inr (), c1)) as Hno.
    { intros put H. apply segment_to_inr in H as (_ & _ & f & off & Hf & _); [|done]. by rewrite Hc in Hf. }
    unfold section in Hs. destruct (_ =? _); [by injection Hs as <-|].
    destruct (is_named text_ s); [by destruct (Hno _ Hs)|].
    destruct (is_named data_ s || is_named rdata_ s).
    { apply Conv_bind_inr in Hs as (c2 & s2 & [= <- <-] & Hs).
      destruct (negb _); [done|]. by destruct (Hno _ Hs). }
    destruct (is_named bss_ s || is_named sbss_ s); [|done].
    unfold bss_segment in Hs. apply Conv_bind_inr in Hs as (c2 & s2 & [= <- <-] & Hs).
    destruct (negb _); [destruct (_ =? _); [done|]|]; by injection Hs as <-.
Qed.

(** The section headers of a COFF file, behind its two other headers. *)
Definition sections (coff : list Z) : list scnhdr :=
  let n := f_nscns (filehdr_of_bytes (take (Z.to_nat filehdr_size) coff)) in
  section_headers n (slice (Z.to_nat (filehdr_size + aouthdr_size)) (Z.to_nat (n * scnhdr_size)) coff).

Definition section_fits (s : scnhdr) : Prop := 0 ≤ s_scnptr s ∧ 0 ≤ s_size s.

Lemma section_headers_ok n bs :
  Forall section_fits (section_headers n bs) → Forall section_ok (section_headers n bs).
Proof.
  intros Hf. apply list.Forall_forall. intros s Hin.
  pose proof (proj1 (list.Forall_forall _ _) Hf s Hin) as [? ?]. split; [done|]. split; [done|].
  apply list_elem_of_fmap in Hin as (i & -> & _). apply s32_range.
Qed.

Lemma initial_ok h : noff_ok h → noff_ok (initial_header h).
Proof.
  intros (Hm & (?&?&?) & (?&?&?) & (?&?&?)). unfold initial_header, noff_ok, segment_ok. simpl.
  split_and!; done.
Qed.

Lemma convert_copied coff f off garbage u c' :
  noff_ok garbage → Forall section_fits (sections coff) → NoffSize + total (sections coff) < 2 ^ 31 →
  f = Some [] ∨ f = None →
  convert (MkConv coff 0 f off garbage 0) = Ok (inr u, c') →
  ∃ c, copied coff (sections coff) c
    ∧ noffFile c' = (λ f, splice 0 (noff_bytes (noffH c)) f) <$> noffFile c.
Proof.
  intros Hg Hs Hfit Hf Hrun. unfold convert in Hrun.
  apply Conv_bind_inr in Hrun as (b1 & s1 & H1 & Hrun). apply Read_inr in H1 as (_ & _ & -> & ->).
  destruct (negb _); [done|].
  apply Conv_bind_inr in Hrun as (b2 & s2 & H2 & Hrun). apply Read_inr in H2 as (_ & _ & -> & ->).
  destruct (negb _); [done|].
  apply Conv_bind_inr in Hrun as (b3 & s3 & H3 & Hrun). apply Read_inr in H3 as (_ & _ & -> & ->).
  apply Conv_bind_inr in Hrun as (c4 & s4 & [= <- <-] & Hrun).
  apply Conv_bind_inr in Hrun as ([] & s5 & [= <-] & Hrun).
  apply Conv_bind_inr in Hrun as ([] & s6 & [= <-] & Hrun).
  apply Conv_bind_inr in Hrun as ([] & s7 & [= <-] & Hrun).
  apply Conv_bind_inr in Hrun as ([] & c & Hcopy & Hrun).
  apply Conv_bind_inr in Hrun as ([] & s9 & [= <-] & Hrun).
  apply Conv_bind_inr in Hrun as (c10 & s10 & [= <- <-] & Hrun).
  apply Write_inr in Hrun as (f' & Hf' & ->). simpl in Hf'.
  assert (∃ off', copy_sections (sections coff)
    (MkConv coff off' f NoffSize (initial_header garbage) NoffSize) = Ok (inr (), c)) as [off' Hsec]
    by (eexists; exact Hcopy).
  clear Hcopy. destruct Hf as [-> | ->].
  2:{ assert (Forall (λ s, 0 ≤ s_scnptr s) (sections coff)) as Hp
        by (eapply list.Forall_impl; [exact Hs|by intros ? [? _]]).
      assert (noffFile c = None) as Hn by (eapply sections_None; [exact Hp| |exact Hsec]; done).
      by rewrite Hn in Hf'. }
  exists c. split; [|by rewrite Hf'; simpl; rewrite app_nil_r].
  refine (sections_copied coff _ [] _ () c _ (section_headers_ok _ _ Hs) Hfit Hsec).
  exists []. simpl. do 2 (split; [done|]). split; [done|]. split; [by right|]. split; [done|].
  split; [by apply initial_ok|]. done.
Qed.

(** The segment keeps its bytes when the header is written over the first
    ones. *)
Lemma holds_header coff f h o x :
  (NoffSize ≤ zlen f ∨ f = []) → holds coff f o x →
  holds coff (splice 0 (noff_bytes h) f) o x.
Proof.
  intros Hf. pose proof (length_noff_bytes h) as Hl. destruct o as [s|]; [|done].
  intros (Hv & Hs & Hlo & Hhi & Hsl & Hz).
  assert (0 ≤ s_size s) as Hsz by (rewrite <- Hz; unfold zlen; lia).
  unfold holds, zlen, NoffSize in *.
  destruct Hf as [Hf| ->]; [|simpl in *; lia].
  do 3 (split; [done|]). split; [rewrite length_splice; lia|]. split; [|done].
  rewrite <- Hsl. apply slice_splice_ne; lia.
Qed.

(** C21.  The executable that coff2noff writes is one that the kernel
    can load: read back as userprog/ reads it, its header has the magic
    number; the code segment is the last section of code of the COFF file,
    and the data segment the one section of data, each at its address and
    with its bytes; and the size of the uninitialised data is that of all
    their sections.  Sections that are not there have size 0. *)
Theorem coff2noff_correct garbage open_input open_output input rest coff out :
  coff2noff garbage open_input open_output (input :: rest) = Ok (Converted out) →
  open_input input = Some coff →
  Forall section_fits (sections coff) → NoffSize + total (sections coff) < 2 ^ 31 →
  let h := noff_of_bytes (take (Z.to_nat NoffSize) out) in
  noffMagic h = NOFFMAGIC
  ∧ holds coff out (list.last (of_kind KText (sections coff))) (seg_code h)
  ∧ holds coff out (list.last (of_kind KData (sections coff))) (initData h)
  ∧ bss_holds (of_kind KBss (sections coff)) (uninitData h).
Proof.
  intros Hrun Hin Hs Hfit. unfold coff2noff in Hrun. rewrite Hin in Hrun.
  set (f0 := match rest with _ :: _ => _ | [] => _ end) in Hrun.
  destruct (convert _) as [[[e|u] c']|] eqn:Hc; simpl in Hrun; try done.
  injection Hrun as <-.
  apply convert_copied in Hc as
    (c & (f & Hf & _ & [Hlo _] & Hlen & _ & Hok & Hm & Ht & Hd & Hb) & Hout); [|by apply noff_of_bytes_ok|done..|].
  2:{ unfold f0. destruct rest; [by right|]. destruct (open_output _); [by left|by right]. }
  rewrite Hout, Hf. intros h.
  assert (NoffSize ≤ zlen f ∨ f = []) as Hf40.
  { destruct Hlen as [Hlen|[? _]]; [|by right]. left. rewrite Hlen. lia. }
  assert (h = noffH c) as Eh.
  { change h with (noff_of_bytes (take (Z.to_nat NoffSize)
      (noff_bytes (noffH c) ++ drop (length (noff_bytes (noffH c))) f))).
    rewrite take_app_length' by (pose proof (length_noff_bytes (noffH c)); unfold zlen in *; lia).
    rewrite <- (app_nil_r (noff_bytes _)). by apply noff_of_noff_bytes. }
  rewrite Eh. split; [done|]. split; [by apply holds_header|]. split; [by apply holds_header|done].
Qed.

(** The test for contiguous sections of uninitialised data is the wrong way
    round: a section that follows the one before is refused, and one that
    does not is taken for the continuation. *)
Theorem contiguity_inverted c s :
  seg_size (uninitData (noffH c)) ≠ 0 → s_size s ≠ 0 → kind_of s = KBss →
  let u := uninitData (noffH c) in
  section s c
  = if s_paddr s =? add32 (virtualAddr u) (seg_size u) then Ok (inl TwoBss, c)
    else Ok (inr tt, MkConv (coffFile c) (inOffset c) (noffFile c) (outOffset c)
      (put_bss (MkSegment (virtualAddr u) (inFileAddr u) (add32 (seg_size u) (s_size s))) (noffH c))
      (inNoffFile c)).
Proof.
  intros Hu Hs Hk u. unfold kind_of in Hk. unfold section.
  destruct (Z.eqb_spec (s_size s) 0); [done|].
  destruct (is_named text_ s); [done|]. destruct (_ || _); [done|]. destruct (_ || _); [|done].
  unfold bss_segment. unfold mbind at 1, Conv_bind at 1. simpl. fold u.
  destruct (Z.eqb_spec (seg_size u) 0); [done|]. simpl. by destruct (_ =? _).
Qed.

(** ** A program *)

(** An executable with one section of code and one of data, as a COFF file. *)
Definition coff_section (nm : list Z) (paddr size scnptr : Z) : list Z :=
  nm ++ replicate (8 - length nm) 0 ++ bytes_le 4 paddr ++ bytes_le 4 paddr ++ bytes_le 4 size
  ++ bytes_le 4 scnptr ++ replicate 16 0.
Definition coff_file (sections : list (list Z)) (contents : list Z) : list Z :=
  bytes_le 2 MIPSELMAGIC ++ bytes_le 2 (zlen sections) ++ replicate 16 0
  ++ bytes_le 2 OMAGIC ++ replicate 54 0 ++ concat sections ++ contents.

(** Code [1 .. 8] at 0, data [9 .. 12] at 8, and 16 bytes at 12. *)
Definition demo_coff : list Z :=
  coff_file [coff_section text_ 0 8 196; coff_section data_ 8 4 204; coff_section bss_ 12 16 0]
    [1; 2; 3; 4; 5; 6; 7; 8; 9; 10; 11; 12].
Definition demo_noff : list Z :=
  concat (bytes_le 4 <$> [NOFFMAGIC; 0; 40; 8; 8; 48; 4; 12; 0; 16])
  ++ [1; 2; 3; 4; 5; 6; 7; 8; 9; 10; 11; 12].

Lemma coff2noff_correct_witness :
  coff2noff (replicate 40 0) (λ _, Some demo_coff) (λ _, true) [[97]; [98]] = Ok (Converted demo_noff)
  ∧ let h := noff_of_bytes (take 40 demo_noff) in
    noffMagic h = NOFFMAGIC
    ∧ holds demo_coff demo_noff (list.last (of_kind KText (sections demo_coff))) (seg_code h)
    ∧ holds demo_coff demo_noff (list.last (of_kind KData (sections demo_coff))) (initData h)
    ∧ bss_holds (of_kind KBss (sections demo_coff)) (uninitData h).
Proof.
  assert (coff2noff (replicate 40 0) (λ _, Some demo_coff) (λ _, true) [[97]; [98]]
    = Ok (Converted demo_noff)) as Hrun by (vm_compute; reflexivity).
  split; [exact Hrun|].
  apply (coff2noff_correct (replicate 40 0) (λ _, Some demo_coff) (λ _, true) [97] [[98]]
    demo_coff demo_noff Hrun eq_refl); [|vm_compute; reflexivity].
  assert (sections demo_coff = [MkScnhdr (text_ ++ [0; 0; 0]) 0 0 8 196 0 0 0 0 0;
    MkScnhdr (data_ ++ [0; 0; 0]) 8 8 4 204 0 0 0 0 0;
    MkScnhdr (bss_ ++ [0; 0; 0; 0]) 12 12 16 0 0 0 0 0 0]) as ->
    by (vm_compute; reflexivity).
  repeat (apply list.Forall_cons; split; [split; simpl; lia|]). by apply list.Forall_nil.
Defined.
