(* ===== verification/Flat.v ===== *)
(** * bin/coff2flat.c: from COFF object files to memory images

    The program writes the sections of a COFF file one after the other into a
    file that can be copied to memory, with room for a stack behind them.  The
    program includes the headers of the system, [<filehdr.h>] and so on, where
    coff2noff.c has its own: its structures are taken to be those of bin/coff.h.
    The file that a failing run leaves behind is not part of the outcome. *)
From S2P Require Import Prelude Word AddrSpace Coff CoffSpec.

(** ** The program *)

Definition StackSize : Z := 1024.

(** The two functions, and the calls of [lseek], are those of coff2noff.c;
    the state of the two programs is the same, but for a header that this one
    does not have. *)
Definition ReadFlat : Z → Conv (list Z) := Coff.Read.
Definition WriteFlat : list Z → Conv unit := Coff.Write.

(** The end of the memory that a section needs, when [top] is that of the ones
    before. *)
Definition new_top (top : Z) (s : scnhdr) : Z :=
  let end_ := add32 (s_paddr s) (s_size s) in if top <? end_ then end_ else top.

(** The loop over the sections; its result is [top]. *)
Fixpoint load_sections (ss : list scnhdr) (top : Z) : Conv Z :=
  match ss with
  | [] => mret top
  | s :: ss =>
      (if negb (is_named bss_ s) && negb (is_named sbss_ s) then
         seek_input (s_scnptr s) ;;
         buffer ← ReadFlat (s_size s);
         WriteFlat buffer
       else mret tt) ;;
      load_sections ss (new_top top s)
  end.

(** [main] from the first [ReadStruct] on. *)
Definition flatten : Conv unit :=
  bs ← ReadFlat filehdr_size;
  let fileh := filehdr_of_bytes bs in
  if negb (f_magic fileh =? MIPSELMAGIC) then exit_1 NotMipsel
  else
    bs ← ReadFlat aouthdr_size;
    if negb (aout_magic (aouthdr_of_bytes bs) =? OMAGIC) then exit_1 NotOmagic
    else
      bs ← ReadFlat (f_nscns fileh * scnhdr_size);
      top ← load_sections (section_headers (f_nscns fileh) bs) 0;
      seek_output (sub32 (add32 top StackSize) 4) ;;
      WriteFlat (bytes_le 4 0).

(** The answers of the host to the two [open]s; the test after the second one
    looks at the file descriptor of the first. *)
Definition coff2flat (open_input : list Z → option (list Z)) (open_output : list Z → bool)
    (args : list (list Z)) : res outcome :=
  match args with
  | [] => Ok (Failed Usage)
  | input :: rest =>
      match open_input input with
      | None => Ok (Failed CannotOpen)
      | Some coff =>
          let out := match rest with
                     | output :: _ => if open_output output then Some [] else None
                     | [] => None
                     end in
          '(r, c) ← flatten (MkConv coff 0 out 0 (noff_of_bytes []) 0);
          match r with
          | inl e => Ok (Failed e)
          | inr _ => Ok (Converted (default [] (noffFile c)))
          end
      end
  end.

(** ** What it writes *)

Definition stored (s : scnhdr) : bool := negb (is_named bss_ s) && negb (is_named sbss_ s).
Definition stored_sections (ss : list scnhdr) : list scnhdr := filter (λ s, stored s = true) ss.

(** The bytes of a section in the COFF file. *)
Definition contents (coff : list Z) (s : scnhdr) : list Z :=
  slice (Z.to_nat (s_scnptr s)) (Z.to_nat (s_size s)) coff.
Definition image (coff : list Z) (ss : list scnhdr) : list Z := concat (contents coff <$> stored_sections ss).
Definition top_of (ss : list scnhdr) (top : Z) : Z := foldl new_top top ss.

(** The sections that are stored fill the memory from [off] on, in their
    order, and the others lie behind [n]. *)
Fixpoint laid_out (off n : Z) (ss : list scnhdr) : Prop :=
  match ss with
  | [] => off = n
  | s :: ss =>
      if stored s then s_paddr s = off ∧ laid_out (off + s_size s) n ss
      else n ≤ s_paddr s ∧ laid_out off n ss
  end.

Definition in_memory (s : scnhdr) : Prop :=
  0 ≤ s_scnptr s ∧ 0 ≤ s_size s ∧ 0 ≤ s_paddr s ∧ s_paddr s + s_size s < 2 ^ 31 - StackSize.

Lemma new_top_max top s :
  in_memory s → new_top top s = Z.max top (s_paddr s + s_size s).
Proof.
  intros (_ & Hs & Hp & Ht). unfold new_top, add32. unfold StackSize in Ht.
  rewrite s32_id by (unfold in_s32; lia). destruct (Z.ltb_spec top (s_paddr s + s_size s)); lia.
Qed.

Lemma image_cons coff s ss :
  image coff (s :: ss) = (if stored s then contents coff s else []) ++ image coff ss.
Proof. unfold image, stored_sections. rewrite list.filter_cons. by destruct (stored s). Qed.

Lemma image_snoc coff ss s :
  image coff (ss ++ [s]) = image coff ss ++ (if stored s then contents coff s else []).
Proof.
  unfold image, stored_sections. rewrite list.filter_app, list.fmap_app, concat_app. f_equal.
  rewrite list.filter_cons, list.filter_nil. destruct (stored s); simpl; [|done]. by rewrite app_nil_r.
Qed.

(** The loop appends the stored sections to the file. *)
Lemma load_sections_inr coff ss : ∀ done top c f t c',
  coffFile c = coff → noffFile c = Some f → outOffset c = zlen f → f = image coff done →
  Forall in_memory ss → load_sections ss top c = Ok (inr t, c') →
  t = top_of ss top ∧ coffFile c' = coff
  ∧ noffFile c' = Some (image coff (done ++ ss)) ∧ outOffset c' = zlen (image coff (done ++ ss))
  ∧ Forall (λ s, stored s = true → zlen (contents coff s) = s_size s) ss.
Proof.
  induction ss as [|s ss IH]; intros dn top c f t c' Hc Hf Ho Hi Hss Hrun.
  { injection Hrun as <- <-. rewrite app_nil_r. subst f. done. }
  apply list.Forall_cons in Hss as [(Hp & Hs & _) Hss].
  rewrite cons_middle, (assoc_L (++)). apply Conv_bind_inr in Hrun as ([] & c1 & H1 & Hrun).
  assert (coffFile c1 = coff ∧ noffFile c1 = Some (image coff (dn ++ [s]))
    ∧ outOffset c1 = zlen (image coff (dn ++ [s]))
    ∧ (stored s = true → zlen (contents coff s) = s_size s)) as (E1 & E2 & E3 & E4).
  { rewrite image_snoc. unfold stored in *. destruct (negb _ && negb _).
    - apply Conv_bind_inr in H1 as ([] & c2 & H2 & H1). apply seek_input_inr in H2 as ->; [|done].
      apply Conv_bind_inr in H1 as (buf & c3 & H3 & H1). apply Read_inr in H3 as (_ & Hl & -> & ->).
      apply Write_inr in H1 as (f1 & Hf1 & ->). simpl in *. rewrite Hf in Hf1. injection Hf1 as <-. subst.
      unfold contents. split; [done|]. rewrite Ho. unfold zlen in *. rewrite Nat2Z.id, Nat.sub_diag.
      rewrite app_nil_r, length_app. split; [|by rewrite Nat2Z.inj_add]. f_equal. unfold splice.
      rewrite take_ge, drop_ge by lia. by rewrite app_nil_r.
    - injection H1 as <-. rewrite app_nil_r. subst. done. }
  destruct (IH (dn ++ [s]) (new_top top s) c1 _ t c' E1 E2 E3 eq_refl Hss Hrun) as (-> & ? & ? & ? & ?).
  do 4 (split; [done|]). by apply list.Forall_cons.
Qed.

(** *** The addresses *)

Lemma length_image coff ss :
  Forall (λ s, stored s = true → zlen (contents coff s) = s_size s) ss →
  ∀ off n, laid_out off n ss → zlen (image coff ss) = n - off.
Proof.
  induction 1 as [|s ss Hs Hss IH]; intros off n Hl; simpl in Hl.
  - rewrite Hl. change (zlen (image coff [])) with 0. lia.
  - rewrite image_cons. destruct (stored s) eqn:E; destruct Hl as [_ Hl]; [|by apply IH].
    specialize (IH _ _ Hl). specialize (Hs eq_refl). unfold zlen in *. rewrite length_app. lia.
Qed.

(** Every section that is stored is at its address. *)
Lemma image_at coff ss s :
  Forall (λ s, stored s = true → zlen (contents coff s) = s_size s) ss →
  ∀ off n, laid_out off n ss → s ∈ ss → stored s = true →
  off ≤ s_paddr s ∧ s_paddr s + s_size s ≤ n
  ∧ slice (Z.to_nat (s_paddr s - off)) (Z.to_nat (s_size s)) (image coff ss) = contents coff s.
Proof.
  intros Hall. induction Hall as [|x ss Hx Hss IH]; intros off n Hl Hin Hst; [by inversion Hin|].
  pose proof (length_image coff ss Hss) as Hlen. simpl in Hl. rewrite image_cons.
  destruct (stored x) eqn:E; destruct Hl as [Hp Hl].
  - specialize (Hx eq_refl). pose proof (Hlen _ _ Hl) as Hn.
    apply list.elem_of_cons in Hin as [->|Hin].
    + unfold zlen in *. split; [lia|]. split; [lia|]. rewrite Hp, Z.sub_diag. unfold slice. rewrite drop_0.
      apply take_app_length'. lia.
    + destruct (IH _ _ Hl Hin Hst) as (H1 & H2 & H3). unfold zlen in *. split; [lia|]. split; [done|].
      rewrite <- H3. unfold slice. rewrite drop_app_ge by lia. do 2 f_equal. lia.
  - apply list.elem_of_cons in Hin as [->|Hin]; [congruence|]. by apply IH.
Qed.

Lemma laid_behind ss s : ∀ off n, laid_out off n ss → s ∈ ss → stored s = false → n ≤ s_paddr s.
Proof.
  induction ss as [|x ss IH]; intros off n Hl Hin Hst; [by inversion Hin|]. simpl in Hl.
  apply list.elem_of_cons in Hin as [->|Hin].
  - rewrite Hst in Hl. apply Hl.
  - destruct (stored x); destruct Hl as [_ Hl]; by eapply IH.
Qed.

Lemma top_of_bounds ss : Forall in_memory ss → ∀ top, 0 ≤ top < 2 ^ 31 - StackSize →
  Forall (λ s, s_paddr s + s_size s ≤ top_of ss top) ss ∧ top ≤ top_of ss top < 2 ^ 31 - StackSize.
Proof.
  induction 1 as [|s ss Hms Hm IH]; intros top Ht; [split; [done|simpl; lia]|].
  change (top_of (s :: ss) top) with (top_of ss (new_top top s)). rewrite (new_top_max top s Hms).
  destruct Hms as (_ & Hs & Hp & Hend). destruct (IH (Z.max top (s_paddr s + s_size s))) as (H1 & H2); [lia|].
  split; [|lia]. apply list.Forall_cons. split; [lia|done].
Qed.

(** What is stored ends below the top. *)
Lemma laid_out_top ss : Forall in_memory ss → ∀ off n top, laid_out off n ss → off ≤ top → n ≤ top_of ss top.
Proof.
  induction 1 as [|s ss Hms Hm IH]; intros off n top Hl Ht; simpl in Hl; [simpl; lia|].
  change (top_of (s :: ss) top) with (top_of ss (new_top top s)). rewrite (new_top_max top s Hms).
  destruct (stored s); destruct Hl as [Hp Hl]; (eapply IH; [exact Hl|]); lia.
Qed.

(** A section that is stored is behind those before it. *)
Lemma image_in_order coff pre s post :
  Forall (λ s, stored s = true → zlen (contents coff s) = s_size s) (pre ++ s :: post) → stored s = true →
  slice (length (image coff pre)) (Z.to_nat (s_size s)) (image coff (pre ++ s :: post)) = contents coff s
  ∧ (length (image coff pre) + Z.to_nat (s_size s) ≤ length (image coff (pre ++ s :: post)))%nat.
Proof.
  intros Hall Hst. apply list.Forall_app in Hall as [_ [Hs _]%list.Forall_cons]. specialize (Hs Hst).
  assert (image coff (pre ++ s :: post) = image coff pre ++ contents coff s ++ image coff post) as ->.
  { unfold image, stored_sections. rewrite list.filter_app, list.filter_cons, decide_True by done.
    by rewrite list.fmap_app, concat_app. }
  unfold zlen in Hs. split; [|rewrite !length_app; lia]. unfold slice. rewrite drop_app_length.
  apply take_app_length'. lia.
Qed.

(** The file, whatever the layout: what was copied, and the last word of the
    stack. *)
Lemma flatten_inr coff g u c' :
  Forall in_memory (sections coff) →
  flatten (MkConv coff 0 (Some []) 0 g 0) = Ok (inr u, c') →
  let top := top_of (sections coff) 0 in
  let data := image coff (sections coff) in
  Forall (λ s, stored s = true → zlen (contents coff s) = s_size s) (sections coff)
  ∧ (0 ≤ top < 2 ^ 31 - StackSize → zlen data ≤ top →
     noffFile c' = Some (data ++ replicate (Z.to_nat (top + StackSize) - length data) 0)).
Proof.
  intros Hss Hrun top data. unfold flatten, ReadFlat, WriteFlat in Hrun.
  apply Conv_bind_inr in Hrun as (b1 & s1 & H1 & Hrun). apply Read_inr in H1 as (_ & _ & -> & ->).
  destruct (negb _); [done|].
  apply Conv_bind_inr in Hrun as (b2 & s2 & H2 & Hrun). apply Read_inr in H2 as (_ & _ & -> & ->).
  destruct (negb _); [done|].
  apply Conv_bind_inr in Hrun as (b3 & s3 & H3 & Hrun). apply Read_inr in H3 as (_ & _ & -> & ->).
  apply Conv_bind_inr in Hrun as (t & s4 & H4 & Hrun).
  assert (∃ off, load_sections (sections coff) 0 (MkConv coff off (Some []) 0 g 0) = Ok (inr t, s4)) as [off Hl]
    by (eexists; exact H4).
  clear H4. destruct (load_sections_inr coff (sections coff) [] 0 (MkConv coff off (Some []) 0 g 0) [] t s4 eq_refl eq_refl eq_refl eq_refl Hss Hl)
    as (-> & Ec & Ef & Eo & Hall). split; [done|]. intros Ht Hd. fold top in Hrun.
  apply Conv_bind_inr in Hrun as ([] & s5 & H5 & Hrun).
  change (bytes_le 4 0) with (replicate 4 (0 : Z)) in Hrun.
  apply Write_inr in Hrun as (f & Hf & ->). cbn [noffFile].
  unfold seek_output in H5. apply Conv_bind_inr in H5 as (c6 & s6 & [= <- <-] & H5).
  unfold sub32, add32, StackSize in *. rewrite !s32_id in H5 by (rewrite ?s32_id; unfold in_s32; lia).
  replace (top + 1024 - 4 <? 0) with false in H5 by lia.
  injection H5 as <-. cbn [noffFile outOffset] in Hf |- *. rewrite Ef in Hf. injection Hf as <-. f_equal. fold data.
  rewrite splice_end by (unfold zlen in Hd; lia). f_equal.
  rewrite <- replicate_add. f_equal. unfold zlen in *. lia.
Qed.


(** The program of CoffSpec.v, with its sections in memory order. *)
Definition demo_flat : list Z := [1; 2; 3; 4; 5; 6; 7; 8; 9; 10; 11; 12] ++ replicate 1040 0.

