(* ===== verification/Disasm.v ===== *)
(** * The two disassemblers: bin/d.c and the trace of machine/mipssim.cc

    [dump_ascii] of bin/d.c prints an instruction for the programs out and
    disasm; [Machine::OneInstruction] prints it when the debug flag m is set.
    What they print is a list of calls of [printf]. *)
From Stdlib Require Import String Ascii.
From stdpp Require Import strings pretty.
From S2P Require Import Prelude Word Mips Execute.
#[local] Open Scope string_scope.
#[local] Open Scope Z_scope.

(** ** printf *)

Inductive arg := Int (z : Z) | Str (s : string).
Definition call : Type := string * list arg.

Definition hex_digit (d : Z) : string :=
  match String.get (Z.to_nat d) "0123456789abcdef" with Some c => String c EmptyString | None => EmptyString end.

(** At least one and at most [n] digits, or [n] digits. *)
Fixpoint hex_digits (n : nat) (z : Z) : string :=
  match n with
  | O => EmptyString
  | S n => hex_digits n (z / 16) +:+ hex_digit (z mod 16)
  end.
Fixpoint hex (n : nat) (z : Z) : string :=
  match n with
  | O => EmptyString
  | S n => (if z / 16 =? 0 then EmptyString else hex n (z / 16)) +:+ hex_digit (z mod 16)
  end.

(** The conversions that the formats here have: [%s], [%d], [%x] and [%08x]. *)
Definition convert (k : ascii) (a : arg) : string :=
  match a with
  | Str s => s
  | Int z => if Ascii.eqb k "d" then pretty (s32 z) else hex 8 (u32 z)
  end.
Definition convert_08x (a : arg) : string :=
  match a with
  | Str s => s
  | Int z => hex_digits 8 (u32 z)
  end.
Fixpoint printf (fmt : string) (args : list arg) : string :=
  match fmt with
  | EmptyString => EmptyString
  | String c fmt =>
      if Ascii.eqb c "%" then
        match fmt, args with
        | String k fmt, a :: args =>
            if Ascii.eqb k "0" then
              match fmt with
              | String _ (String _ fmt) => convert_08x a +:+ printf fmt args
              | _ => EmptyString
              end
            else convert k a +:+ printf fmt args
        | _, _ => EmptyString
        end
      else String c (printf fmt args)
  end.

Definition text (calls : list call) : string := String.concat EmptyString (map (λ c, printf c.1 c.2) calls).

Definition tab : string := String "009" EmptyString.
Definition newline : string := String "010" EmptyString.

(** ** bin/opstrings.c *)

Definition normalops : list string := [
   "special"; "bcond"; "j"; "jal"; "beq"; "bne"; "blez"; "bgtz";
   "addi"; "addiu"; "slti"; "sltiu"; "andi"; "ori"; "xori"; "lui";
   "cop0"; "cop1"; "cop2"; "cop3"; "024"; "025"; "026"; "027";
   "030"; "031"; "032"; "033"; "034"; "035"; "036"; "037";
   "lb"; "lh"; "lwl"; "lw"; "lbu"; "lhu"; "lwr"; "047";
   "sb"; "sh"; "swl"; "sw"; "054"; "055"; "swr"; "057";
   "lwc0"; "lwc1"; "lwc2"; "lwc3"; "064"; "065"; "066"; "067";
   "swc0"; "swc1"; "swc2"; "swc3"; "074"; "075"; "076"; "077"].

Definition specialops : list string := [
   "sll"; "001"; "srl"; "sra"; "sllv"; "005"; "srlv"; "srav";
   "jr"; "jalr"; "012"; "013"; "syscall"; "break"; "016"; "017";
   "mfhi"; "mthi"; "mflo"; "mtlo"; "024"; "025"; "026"; "027";
   "mult"; "multu"; "div"; "divu"; "034"; "035"; "036"; "037";
   "add"; "addu"; "sub"; "subu"; "and"; "or"; "xor"; "nor";
   "050"; "051"; "slt"; "sltu"; "054"; "055"; "056"; "057";
   "060"; "061"; "062"; "063"; "064"; "065"; "066"; "067";
   "070"; "071"; "072"; "073"; "074"; "075"; "076"; "077"].

(** ** bin/d.c *)

Definition regstrings : list string := [
   "0"; "r1"; "r2"; "r3"; "r4"; "r5"; "r6"; "r7";
   "r8"; "r9"; "r10"; "r11"; "r12"; "r13"; "r14"; "r15";
   "r16"; "r17"; "r18"; "r19"; "r20"; "r21"; "r22"; "r23";
   "r24"; "r25"; "r26"; "r27"; "gp"; "sp"; "r30"; "r31"].

Definition R (i : Z) : res arg := s ← aread regstrings i; Ok (Str s).

Definition off26 (i : Z) : Z := shl32 (Z.land i (2 ^ 26 - 1)) 2.
Definition top4 (i : Z) : Z := Z.land i (Z.lnot (2 ^ 28 - 1)).
Definition off16 (i : Z) : Z := shl32 (immed i) 2.

(** A [printf] of registers, and what comes behind them. *)
Definition print_regs (fmt : string) (rs : list Z) (rest : list arg) : res (list call) :=
  let fix go (l : list Z) : res (list arg) :=
    match l with
    | [] => Ok rest
    | r :: l => a ← R r; args ← go l; Ok (a :: args)
    end in
  args ← go rs; Ok [(fmt, args)].

Definition one_of (op : Z) (ops : list Z) : bool := existsb (Z.eqb op) ops.

(** The operands of a [special] instruction. *)
Definition special_operands (i op : Z) : res (list call) :=
  if one_of op [I_SLL; I_SRL; I_SRA] then print_regs "%s,%s,0x%x" [rd i; rt i] [Int (shamt i)]
  else if one_of op [I_SLLV; I_SRLV; I_SRAV] then print_regs "%s,%s,%s" [rd i; rt i; rs i] []
  else if one_of op [I_JR; I_JALR; I_MFLO; I_MTLO] then print_regs "%s" [rs i] []
  else if one_of op [I_SYSCALL; I_BREAK] then Ok []
  else if one_of op [I_MFHI; I_MTHI] then print_regs "%s" [rd i] []
  else if one_of op [I_MULT; I_MULTU; I_DIV; I_DIVU] then print_regs "%s,%s" [rs i; rt i] []
  else if one_of op [I_ADD; I_ADDU; I_SUB; I_SUBU; I_AND; I_OR; I_XOR; I_NOR; I_SLT; I_SLTU]
  then print_regs "%s,%s,%s" [rd i; rs i; rt i] []
  else Ok [].

Definition bcond_name (op : Z) : string :=
  if op =? I_BLTZ then "bltz"
  else if op =? I_BGEZ then "bgez"
  else if op =? I_BLTZAL then "bltzal"
  else if op =? I_BGEZAL then "bgezal"
  else "BCOND".

(** [off16(instruction)+pc+4] *)
Definition branch_address (i pc : Z) : Z := add32 (add32 (off16 i) pc) 4.

(** The operands of the others. *)
Definition normal_operands (i op pc : Z) : res (list call) :=
  if one_of op [I_J; I_JAL] then Ok [("%08x", [Int (Z.lor (top4 pc) (off26 i))])]
  else if one_of op [I_BEQ; I_BNE] then print_regs "%s,%s,%08x" [rt i; rs i] [Int (branch_address i pc)]
  else if one_of op [I_ADDI; I_ADDIU; I_SLTI; I_SLTIU; I_ANDI; I_ORI; I_XORI]
  then print_regs "%s,%s,0x%x" [rt i; rs i] [Int (immed i)]
  else if one_of op [I_LUI] then print_regs "%s,0x%x" [rt i] [Int (immed i)]
  else if one_of op [I_COP0; I_COP1; I_COP2; I_COP3] then Ok []
  else if one_of op [I_LB; I_LH; I_LWL; I_LW; I_LBU; I_LHU; I_LWR; I_SB; I_SH; I_SWL; I_SW; I_SWR;
                     I_LWC0; I_LWC1; I_LWC2; I_LWC3; I_SWC0; I_SWC1; I_SWC2; I_SWC3] then
    t ← R (rt i); s ← R (rs i); Ok [("%s,0x%x(%s)", [t; Int (immed i); s])]
  else Ok [].

(** [instruction] and [pc] are [int]s. *)
Definition dump_ascii (longdis : bool) (instruction pc : Z) : res (list call) :=
  let opcode := Z.shiftr (u32 instruction) 26 in
  calls ← (
    if instruction =? 0 then Ok [("nop", [])]
    else if opcode =? I_SPECIAL then
      let opcode := Z.land instruction 0x3f in
      name ← aread specialops opcode;
      operands ← special_operands instruction opcode;
      Ok (("%s" +:+ tab, [Str name]) :: operands)
    else if opcode =? I_BCOND then
      operands ← print_regs (tab +:+ "%s,%08x") [rs instruction] [Int (branch_address instruction pc)];
      Ok ((bcond_name (rt instruction), []) :: operands)
    else
      name ← aread normalops opcode;
      operands ← normal_operands instruction opcode pc;
      Ok (("%s" +:+ tab, [Str name]) :: operands));
  Ok ((if longdis then [("%08x: %08x  ", [Int pc; Int instruction])] else []) ++ (tab, []) :: calls)%list.

(** ** bin/disasm.c: the loop over the code, in the memory of Execute.v *)

Section disasm.
Context {W : Type}.
#[local] Abbreviation S := (Execute.State W).

(** The loop over the words of the code, of which [n] are left. *)
Fixpoint disasm_loop (n : nat) (pc : Z) : M S (list call) :=
  match n with
  | O => mret []
  | Datatypes.S n =>
      instr ← fetch pc;
      line ← lift (dump_ascii true instr pc);
      rest ← disasm_loop n (add32 pc 4);
      mret (line ++ (newline, []) :: rest)%list
  end.

(** [s_size] is the size of the section of the code. *)
Definition disasm (s_size : Z) : M S (list call) :=
  disasm_loop (Z.to_nat (divRoundUp s_size 4)) memoffset.

End disasm.

(** ** machine/mipssim.h, machine/mipssim.cc *)

Inductive RegType := NONE | RS | RT | RD | EXTRA.
#[export] Instance RegType_eq_dec : EqDecision RegType.
Proof. solve_decision. Defined.

Record OpString := MkOpString { string_ : string; args : list RegType }.

Definition opStrings : list OpString := [
  MkOpString "Shouldn't happen" [NONE; NONE; NONE];
  MkOpString "ADD r%d,r%d,r%d" [RD; RS; RT];
  MkOpString "ADDI r%d,r%d,%d" [RT; RS; EXTRA];
  MkOpString "ADDIU r%d,r%d,%d" [RT; RS; EXTRA];
  MkOpString "ADDU r%d,r%d,r%d" [RD; RS; RT];
  MkOpString "AND r%d,r%d,r%d" [RD; RS; RT];
  MkOpString "ANDI r%d,r%d,%d" [RT; RS; EXTRA];
  MkOpString "BEQ r%d,r%d,%d" [RS; RT; EXTRA];
  MkOpString "BGEZ r%d,%d" [RS; EXTRA; NONE];
  MkOpString "BGEZAL r%d,%d" [RS; EXTRA; NONE];
  MkOpString "BGTZ r%d,%d" [RS; EXTRA; NONE];
  MkOpString "BLEZ r%d,%d" [RS; EXTRA; NONE];
  MkOpString "BLTZ r%d,%d" [RS; EXTRA; NONE];
  MkOpString "BLTZAL r%d,%d" [RS; EXTRA; NONE];
  MkOpString "BNE r%d,r%d,%d" [RS; RT; EXTRA];
  MkOpString "Shouldn't happen" [NONE; NONE; NONE];
  MkOpString "DIV r%d,r%d" [RS; RT; NONE];
  MkOpString "DIVU r%d,r%d" [RS; RT; NONE];
  MkOpString "J %d" [EXTRA; NONE; NONE];
  MkOpString "JAL %d" [EXTRA; NONE; NONE];
  MkOpString "JALR r%d,r%d" [RD; RS; NONE];
  MkOpString "JR r%d,r%d" [RD; RS; NONE];
  MkOpString "LB r%d,%d(r%d)" [RT; EXTRA; RS];
  MkOpString "LBU r%d,%d(r%d)" [RT; EXTRA; RS];
  MkOpString "LH r%d,%d(r%d)" [RT; EXTRA; RS];
  MkOpString "LHU r%d,%d(r%d)" [RT; EXTRA; RS];
  MkOpString "LUI r%d,%d" [RT; EXTRA; NONE];
  MkOpString "LW r%d,%d(r%d)" [RT; EXTRA; RS];
  MkOpString "LWL r%d,%d(r%d)" [RT; EXTRA; RS];
  MkOpString "LWR r%d,%d(r%d)" [RT; EXTRA; RS];
  MkOpString "Shouldn't happen" [NONE; NONE; NONE];
  MkOpString "MFHI r%d" [RD; NONE; NONE];
  MkOpString "MFLO r%d" [RD; NONE; NONE];
  MkOpString "Shouldn't happen" [NONE; NONE; NONE];
  MkOpString "MTHI r%d" [RS; NONE; NONE];
  MkOpString "MTLO r%d" [RS; NONE; NONE];
  MkOpString "MULT r%d,r%d" [RS; RT; NONE];
  MkOpString "MULTU r%d,r%d" [RS; RT; NONE];
  MkOpString "NOR r%d,r%d,r%d" [RD; RS; RT];
  MkOpString "OR r%d,r%d,r%d" [RD; RS; RT];
  MkOpString "ORI r%d,r%d,%d" [RT; RS; EXTRA];
  MkOpString "RFE" [NONE; NONE; NONE];
  MkOpString "SB r%d,%d(r%d)" [RT; EXTRA; RS];
  MkOpString "SH r%d,%d(r%d)" [RT; EXTRA; RS];
  MkOpString "SLL r%d,r%d,%d" [RD; RT; EXTRA];
  MkOpString "SLLV r%d,r%d,r%d" [RD; RT; RS];
  MkOpString "SLT r%d,r%d,r%d" [RD; RS; RT];
  MkOpString "SLTI r%d,r%d,%d" [RT; RS; EXTRA];
  MkOpString "SLTIU r%d,r%d,%d" [RT; RS; EXTRA];
  MkOpString "SLTU r%d,r%d,r%d" [RD; RS; RT];
  MkOpString "SRA r%d,r%d,%d" [RD; RT; EXTRA];
  MkOpString "SRAV r%d,r%d,r%d" [RD; RT; RS];
  MkOpString "SRL r%d,r%d,%d" [RD; RT; EXTRA];
  MkOpString "SRLV r%d,r%d,r%d" [RD; RT; RS];
  MkOpString "SUB r%d,r%d,r%d" [RD; RS; RT];
  MkOpString "SUBU r%d,r%d,r%d" [RD; RS; RT];
  MkOpString "SW r%d,%d(r%d)" [RT; EXTRA; RS];
  MkOpString "SWL r%d,%d(r%d)" [RT; EXTRA; RS];
  MkOpString "SWR r%d,%d(r%d)" [RT; EXTRA; RS];
  MkOpString "XOR r%d,r%d,r%d" [RD; RS; RT];
  MkOpString "XORI r%d,r%d,%d" [RT; RS; EXTRA];
  MkOpString "SYSCALL" [NONE; NONE; NONE];
  MkOpString "Unimplemented" [NONE; NONE; NONE];
  MkOpString "Reserved" [NONE; NONE; NONE]].

Definition TypeToReg (reg : RegType) (instr : Instruction) : Z :=
  match reg with
  | RS => Mips.rs instr
  | RT => Mips.rt instr
  | RD => Mips.rd instr
  | EXTRA => extra instr
  | NONE => -1
  end.

(** What [OneInstruction] prints of an instruction. *)
Definition trace (pc : Z) (instr : Instruction) : res (list call) :=
  str ← aread opStrings (opCode instr);
  ASSERT (opCode instr <=? MaxOpcode) ;;
  Ok [("At PC = 0x%x: ", [Int pc]);
      (string_ str, (λ t, Int (TypeToReg t instr)) <$> args str);
      (newline, [])].
