(* ===== verification/DisasmSpec.v ===== *)
(** * What the two disassemblers print

    [dump_ascii] of bin/d.c and the trace of machine/mipssim.cc are two
    programs with tables of their own; this file shows where they print the
    same of an instruction, and all the places where they do not. *)
From Stdlib Require Import String Ascii.
From stdpp Require Import strings pretty.
From S2P Require Import Prelude Word Mips Execute ExecuteSpec Disasm.
#[local] Open Scope string_scope.
#[local] Open Scope Z_scope.

(** ** Names and operands *)

Definition lower (c : ascii) : ascii :=
  let n := nat_of_ascii c in
  if ((65 <=? n) && (n <=? 90))%nat then ascii_of_nat (n + 32) else c.

(** The first word of a line, in small letters. *)
Fixpoint mnemonic (s : string) : string :=
  match s with
  | EmptyString => EmptyString
  | String c s => if Ascii.eqb c " " || Ascii.eqb c "009" then EmptyString else String (lower c) (mnemonic s)
  end.

Definition reg_name (r : Z) : string :=
  if r =? 0 then "0" else if r =? 28 then "gp" else if r =? 29 then "sp" else "r" +:+ pretty r.

Definition branches : list Z := [OP_BEQ; OP_BNE; OP_BLEZ; OP_BGTZ; OP_BLTZ; OP_BGEZ; OP_BLTZAL; OP_BGEZAL].

(** The constant of an instruction, as an address where it is one. *)
Definition shown_extra (pc : Z) (i : Instruction) : Z :=
  if one_of (opCode i) [OP_J; OP_JAL] then Z.lor (Z.land pc (- 2 ^ 28)) (4 * extra i)
  else if one_of (opCode i) branches then s32 (pc + 4 + 4 * extra i)
  else extra i.

Definition operand (pc : Z) (i : Instruction) (t : RegType) : arg :=
  match t with
  | RS => Str (reg_name (Mips.rs i))
  | RT => Str (reg_name (Mips.rt i))
  | RD => Str (reg_name (Mips.rd i))
  | EXTRA => Int (shown_extra pc i)
  | NONE => Str EmptyString
  end.

Definition operand_types (str : OpString) : list RegType :=
  filter (λ t, t ≠ NONE) (Disasm.args str).

(** What [dump_ascii] prints instead of the operands of the trace. *)
Definition exceptions (op : Z) : option (list RegType) :=
  if one_of op [OP_BEQ; OP_BNE] then Some [RT; RS; EXTRA]
  else if one_of op [OP_BLEZ; OP_BGTZ] then Some []
  else if one_of op [OP_JR; OP_JALR; OP_MFLO] then Some [RS]
  else if one_of op [OP_MTHI] then Some [RD]
  else None.

Lemma R_Ok r : 0 ≤ r < 32 → R r = Ok (Str (reg_name r)).
Proof.
  intros H. assert (r ∈ seqZ 0 32) as Hr by (apply elem_of_seqZ; lia).
  assert (Forall (λ r, R r = Ok (Str (reg_name r))) (seqZ 0 32)) as Hall
    by (vm_compute; repeat (apply list.Forall_cons; split; [reflexivity|]); by apply list.Forall_nil).
  rewrite list.Forall_forall in Hall. by apply Hall.
Qed.

Lemma field_range w k : 0 ≤ Z.land (Z.shiftr w k) 0x1f < 32.
Proof. apply (land_ones_range _ 5). lia. Qed.

Lemma off26_s32 w : off26 (s32 w) = 4 * Z.land w 0x3ffffff.
Proof.
  unfold off26, shl32. change (2 ^ 26 - 1) with (Z.ones 26). rewrite low_s32 by lia.
  change 0x3ffffff with (Z.ones 26). pose proof (land_ones_range w 26 ltac:(done)).
  rewrite Z.shiftl_mul_pow2 by done. rewrite s32_id by (unfold in_s32; lia). lia.
Qed.

Lemma branch_address_s32 w pc : branch_address (s32 w) pc = s32 (pc + 4 + 4 * sign_extended w).
Proof.
  unfold branch_address, off16. rewrite immed_s32. unfold add32, shl32.
  rewrite Z.shiftl_mul_pow2 by done. change (2 ^ 2) with 4. apply s32_eq_mod. rewrite <- Zplus_mod_idemp_l, s32_mod, Zplus_mod_idemp_l.
  rewrite <- Z.add_assoc, <- Zplus_mod_idemp_l, s32_mod, Zplus_mod_idemp_l. f_equal. lia.
Qed.

(** ** The operations of the two tables *)

Definition agrees (pc : Z) (i : Instruction) (calls : list call) : Prop :=
  ∃ str name operands,
    aread opStrings (opCode i) = Ok str
    ∧ calls = (tab, []) :: name :: operands
    ∧ mnemonic (printf name.1 name.2) = mnemonic (string_ str)
    ∧ mjoin (snd <$> operands) = operand pc i <$> default (operand_types str) (exceptions (opCode i)).

(** The operation is known, and its operands are read from their fields. *)
Ltac entries :=
  repeat match goal with
  | |- context [aread ?t ?k] =>
      number k; let r := eval vm_compute in (aread t k) in change (aread t k) with r
  end.
Ltac agree :=
  entries; unfold special_operands, normal_operands, print_regs, one_of; cbn [existsb]; known_goal;
  rewrite ?R_Ok by apply field_range; cbn [mbind res_bind]; rewrite ?R_Ok by apply field_range;
  cbn [mbind res_bind]; eexists; split; [reflexivity|];
  eexists _, _, _; split; [vm_compute; reflexivity|]; split; [reflexivity|];
  split; [vm_compute; reflexivity|].

Lemma special_agrees w pc i :
  s32 w ≠ 0 → Z.land (Z.shiftr w 26) 0x3f = I_SPECIAL → Z.shiftr (u32 (s32 w)) 26 = I_SPECIAL →
  Decode w = Ok i → opCode i ∉ [OP_UNIMP; OP_RES] →
  ∃ calls, dump_ascii false (s32 w) pc = Ok calls ∧ agrees pc i calls.
Proof.
  intros H0 Ho Hop HD Hok. unfold dump_ascii. rewrite Hop, (proj2 (Z.eqb_neq _ _) H0). known_goal.
  unfold Decode in HD. rewrite Ho in HD. known HD. cbv zeta in HD.
  rewrite <- rs_s32, <- rt_s32, <- rd_s32, <- shamt_s32 in HD.
  change 0x3f with (Z.ones 6). rewrite low_s32 by lia. change (Z.ones 6) with 0x3f.
  six w; known HD; injection HD as <-; cbn [opCode] in Hok;
    try (exfalso; apply Hok; by repeat constructor); agree; reflexivity.
Qed.

(** The branches that compare with zero have no entry in the tables of
    bin/opstrings.c. *)
Lemma bcond_agrees w pc i :
  s32 w ≠ 0 → Z.land (Z.shiftr w 26) 0x3f = I_BCOND → Z.shiftr (u32 (s32 w)) 26 = I_BCOND →
  Decode w = Ok i → opCode i ∉ [OP_UNIMP; OP_RES] →
  ∃ calls, dump_ascii false (s32 w) pc = Ok calls ∧ agrees pc i calls.
Proof.
  intros H0 Ho Hop HD Hok. unfold dump_ascii. rewrite Hop, (proj2 (Z.eqb_neq _ _) H0). known_goal.
  unfold Decode in HD. rewrite Ho in HD. known HD. cbv zeta in HD.
  rewrite bcond_field, extra_IFMT in HD. rewrite <- rs_s32, <- rt_s32, <- rd_s32 in HD.
  rewrite branch_address_s32. unfold bcond_name. set (r := Execute.rt (s32 w)) in *. clearbody r.
  replace (r * 65536 =? 0) with (r =? 0) in HD by lia.
  replace (r * 65536 =? 0x10000) with (r =? 1) in HD by lia.
  replace (r * 65536 =? 0x100000) with (r =? 16) in HD by lia.
  replace (r * 65536 =? 0x110000) with (r =? 17) in HD by lia.
  change I_BLTZ with 0. change I_BGEZ with 1. change I_BLTZAL with 16. change I_BGEZAL with 17.
  destruct (r =? 0); [|destruct (r =? 1); [|destruct (r =? 16); [|destruct (r =? 17)]]];
    injection HD as <-; cbn [opCode] in Hok;
    try (exfalso; apply Hok; by repeat constructor); agree; reflexivity.
Qed.

Lemma normal_agrees w pc i :
  s32 w ≠ 0 → Z.land (Z.shiftr w 26) 0x3f ≠ I_SPECIAL → Z.land (Z.shiftr w 26) 0x3f ≠ I_BCOND →
  Z.shiftr (u32 (s32 w)) 26 = Z.land (Z.shiftr w 26) 0x3f →
  Decode w = Ok i → opCode i ∉ [OP_UNIMP; OP_RES; OP_RFE] →
  ∃ calls, dump_ascii false (s32 w) pc = Ok calls ∧ agrees pc i calls.
Proof.
  intros H0 Ho Ho1 Hop HD Hok. unfold dump_ascii. rewrite Hop, (proj2 (Z.eqb_neq _ _) H0).
  unfold Decode in HD. cbv zeta in HD. rewrite extra_IFMT in HD.
  rewrite <- rs_s32, <- rt_s32, <- rd_s32, <- shamt_s32 in HD.
  set (o := Z.land (Z.shiftr w 26) 0x3f) in *.
  pose proof (land_ones_range (Z.shiftr w 26) 6 ltac:(done)) as Hor. change (Z.ones 6) with 0x3f in Hor.
  fold o in Hor. clearbody o.
  destruct o as [|o|o]; [by destruct Ho|
    repeat match goal with p : positive |- _ => destruct p as [p|p|]; try (exfalso; lia) end
    |exfalso; lia].
  all: try (by destruct Ho1).
  all: known HD; injection HD as <-; cbn [opCode] in Hok;
    try (exfalso; apply Hok; by repeat constructor); known_goal.
  all: agree; unfold operand, shown_extra; cbn [opCode extra];
    rewrite ?off26_s32, ?branch_address_s32, ?immed_s32; reflexivity.
Qed.

Lemma trace_Ok pc i str : aread opStrings (opCode i) = Ok str → trace pc i = Ok [("At PC = 0x%x: ", [Int pc]);
                   (string_ str, (λ t, Int (TypeToReg t i)) <$> Disasm.args str); (newline, [])].
Proof.
  intros H. unfold trace. rewrite H. cbn [mbind res_bind].
  assert ((opCode i <=? MaxOpcode) = true) as ->; [|done].
  unfold aread, aget in H. destruct (0 <=? opCode i) eqn:E; [|done].
  destruct (opStrings !! _) eqn:Hl; [|done]. apply lookup_lt_Some in Hl.
  change (length opStrings) with 64%nat in Hl. unfold MaxOpcode. lia.
Qed.

(** C35.  The disassembler of bin/d.c and the trace of the simulated
    machine agree on every instruction that the machine executes, but for the
    no-operation, which has a name of its own: both print the same mnemonic,
    in small and in capital letters, and the disassembler prints the operands
    that the trace prints, in their order, with the registers by their names
    and the constants of branches and jumps as the addresses they lead to.
    The exceptions are those of the table: BEQ and BNE have their registers
    the other way round, BLEZ and BGTZ have no operands at all, JR and JALR
    have one register only, MFLO has the wrong field of the instruction, and
    so has MTHI. *)
Theorem disassemblers_agree w pc i
    (Hw : 0 < w < 2 ^ 32) (HD : Decode w = Ok i) (Hop : opCode i ∉ [OP_UNIMP; OP_RES; OP_RFE]) :
  ∃ str name operands,
    trace pc i = Ok [("At PC = 0x%x: ", [Int pc]);
                     (string_ str, (λ t, Int (TypeToReg t i)) <$> Disasm.args str); (newline, [])]
    ∧ dump_ascii false (s32 w) pc = Ok ((tab, []) :: name :: operands)
    ∧ mnemonic (printf name.1 name.2) = mnemonic (string_ str)
    ∧ mjoin (snd <$> operands) = operand pc i <$> default (operand_types str) (exceptions (opCode i)).
Proof.
  assert (s32 w ≠ 0) as H0.
  { intros E. apply (f_equal u32) in E. rewrite u32_s32, u32_id in E by (unfold in_u32; lia).
    change (u32 0) with 0 in E. lia. }
  assert (Z.shiftr (u32 (s32 w)) 26 = Z.land (Z.shiftr w 26) 0x3f) as Ho.
  { rewrite u32_s32, u32_id by (unfold in_u32; lia). change 0x3f with (Z.ones 6).
    rewrite Z.land_ones, Z.shiftr_div_pow2 by done. symmetry. apply Z.mod_small.
    split; [apply Z.div_pos; lia|apply Z.div_lt_upper_bound; lia]. }
  assert (opCode i ∉ [OP_UNIMP; OP_RES]) as Hop'.
  { intros H. apply Hop. apply (elem_of_app [OP_UNIMP; OP_RES] [OP_RFE]). by left. }
  assert (∃ calls, dump_ascii false (s32 w) pc = Ok calls ∧ agrees pc i calls) as (calls & Hd & Ha).
  { destruct (Z.eqb_spec (Z.land (Z.shiftr w 26) 0x3f) I_SPECIAL) as [E|E];
      [apply special_agrees; congruence|].
    destruct (Z.eqb_spec (Z.land (Z.shiftr w 26) 0x3f) I_BCOND) as [E'|E'];
      [apply bcond_agrees; congruence|].
    by apply normal_agrees. }
  destruct Ha as (str & name & operands & Hs & -> & Hm & Hops). exists str, name, operands.
  split; [by apply trace_Ok|]. done.
Qed.

(** LW r31,20(sp), and what the two programs print of it. *)
Definition lw_word : Z := 0x8fbf0014.
Definition lw_instr : Instruction := Instr OP_LW 29 31 0 20.

Example dump_lw : text <$> dump_ascii true (s32 lw_word) 0x40 = Ok ("00000040: 8fbf0014  " +:+ tab +:+ "lw" +:+ tab +:+ "r31,0x14(sp)").
Proof. vm_compute. reflexivity. Qed.
Example trace_lw : text <$> trace 0x40 lw_instr = Ok ("At PC = 0x40: LW r31,20(r29)" +:+ newline).
Proof. vm_compute. reflexivity. Qed.

Lemma disassemblers_agree_witness :
  Decode lw_word = Ok lw_instr
  ∧ ∃ str name operands,
    trace 0x40 lw_instr = Ok [("At PC = 0x%x: ", [Int 0x40]);
                     (string_ str, (λ t, Int (TypeToReg t lw_instr)) <$> Disasm.args str); (newline, [])]
    ∧ dump_ascii false (s32 lw_word) 0x40 = Ok ((tab, []) :: name :: operands)
    ∧ mnemonic (printf name.1 name.2) = mnemonic (string_ str)
    ∧ mjoin (snd <$> operands) = operand 0x40 lw_instr <$> default (operand_types str) (exceptions (opCode lw_instr)).
Proof.
  assert (Decode lw_word = Ok lw_instr) as HD by (vm_compute; reflexivity).
  split; [exact HD|]. apply (disassemblers_agree lw_word 0x40 lw_instr); [unfold lw_word; lia|exact HD|].
  apply (bool_decide_unpack _). vm_compute. exact I.
Defined.
