(* ===== verification/Out.v ===== *)
(** * bin/out.c: an object file in print

    What the program prints of the sections, with their relocations in a
    column of their own, and of the external symbols.  It gets its tables from
    the file that [main] has read; their layout is that of headers that are
    not part of the sources. *)
From Stdlib Require Import String Ascii.
From stdpp Require Import strings.
From S2P Require Import Prelude Word Coff Disasm.
#[local] Open Scope string_scope.
#[local] Open Scope Z_scope.

(** ** The tables *)

Definition MAXSYMS : Z := 300.

(** The fields of [struct reloc] and of [SYMR] that are used. *)
Record reloc := MkReloc { r_vaddr : Z; r_symndx : Z; r_extern : bool; r_type : Z }.
Record SYMR := MkSYMR { value : Z; st : Z; sc : Z; iss : Z }.
Record data := MkData { data_words : list Z; relocs : list reloc }.

Definition symbol_type : list string := [
  "Nil"; "Global"; "Static"; "Param"; "Local"; "Label"; "Proc"; "Block";
  "End"; "Member"; "Type"; "File"; "Register"; "Forward"; "StaticProc";
  "Constant"].

Definition storage_class : list string := [
  "Nil"; "Text"; "Data"; "Bss"; "Register"; "Abs"; "Undefined"; "CdbLocal";
  "Bits"; "CdbSystem"; "RegImage"; "Info"; "UserStruct"; "SData"; "SBss";
  "RData"; "Var"; "Common"; "SCommon"; "VarRegister"; "Variant"; "SUndefined";
  "Init"].

Definition section_name : list string := [
  "(null)"; ".text"; ".rdata"; ".data"; ".sdata"; ".sbss"; ".bss";
  ".init"; ".lit8"; ".lit4"].

Definition reloc_type : list string := [
  "abs"; "16"; "32"; "26"; "hi16"; "lo16"; "gpdata"; "gplit"].

(** The characters from an index on, up to the first that is 0. *)
Fixpoint c_string (bytes : list Z) : res string :=
  match bytes with
  | [] => Fault OutOfBounds
  | b :: bytes => if b =? 0 then Ok EmptyString else s ← c_string bytes; Ok (String (Ascii.ascii_of_nat (Z.to_nat b)) s)
  end.
Definition string_at (bytes : list Z) (i : Z) : res string :=
  if 0 <=? i then c_string (drop (Z.to_nat i) bytes) else Fault OutOfBounds.

(** ** Output in columns *)

Record Output := MkOutput { outfile : string; column : Z }.

Definition step_column (column : Z) (c : ascii) : Z :=
  if Ascii.eqb c "010" then 1
  else if Ascii.eqb c "009" then Z.land (column + 7) (Z.lnot 7) + 1
  else column + 1.
Fixpoint columns (s : string) (column : Z) : Z :=
  match s with
  | EmptyString => column
  | String c s => columns s (step_column column c)
  end.

(** [buf] has room for 100 characters. *)
Definition myprintf (form : string) (args : list arg) : M Output unit :=
  let buf := printf form args in
  if 100 <=? Z.of_nat (String.length buf) then fail OutOfBounds
  else modify (λ o, MkOutput (outfile o +:+ buf) (columns buf (column o))).

(** One round of the loop for every column that is missing. *)
Fixpoint mytab_loop (rounds : nat) : M Output unit :=
  match rounds with
  | O => mret tt
  | S rounds =>
      modify (λ o, MkOutput (outfile o +:+ " ") (column o + 1)) ;;
      mytab_loop rounds
  end.
Definition mytab (n : Z) : M Output bool :=
  c ← gets column;
  mytab_loop (Z.to_nat (n - c)) ;;
  gets (λ o, column o =? n).

Fixpoint print_calls (calls : list call) : M Output unit :=
  match calls with
  | [] => mret tt
  | (form, args) :: calls => myprintf form args ;; print_calls calls
  end.

(** ** The sections *)

Definition quote : string := String "034" EmptyString.

Section tables.
Context (symbols : list SYMR) (sspace : list Z).

(** What is printed of a relocation. *)
Definition reloc_calls (rp : reloc) : res (list call) :=
  target ← (if r_extern rp then
              if MAXSYMS <=? r_symndx rp then Ok ("sym $%d", [Int (r_symndx rp)])
              else sym ← aread symbols (r_symndx rp);
                   name ← string_at sspace (iss sym);
                   Ok (quote +:+ "%s" +:+ quote, [Str name])
            else name ← aread section_name (r_symndx rp); Ok ("%s", [Str name]));
  type ← aread reloc_type (r_type rp);
  Ok [target; (" %s", [Str type])].

(** The loop over the relocations, which the first one of the address ends. *)
Fixpoint print_relocs (vaddr : Z) (l : list reloc) : M Output unit :=
  match l with
  | [] => mret tt
  | rp :: l =>
      if vaddr =? r_vaddr rp then
        mytab 57 ;;
        calls ← lift (reloc_calls rp);
        print_calls calls
      else print_relocs vaddr l
  end.
Definition print_reloc (vaddr : Z) (d : data) : M Output unit :=
  print_relocs vaddr (relocs d) ;;
  myprintf newline [].

(** A word of data, with the characters in it. *)
Definition shown_char (c : Z) : string :=
  if (32 <=? c) && (c <? 127) then String (Ascii.ascii_of_nat (Z.to_nat c)) EmptyString else ".".
Definition word_calls (pc word : Z) : list call :=
  ("%08x: %08x  ", [Int pc; Int word])
    :: ((λ c, ("%s", [Str (shown_char (s8 c))])) <$> bytes_le 4 (u32 word))
    ++ [(tab +:+ "%d", [Int word])].

Fixpoint print_words (is_text : bool) (d : data) (pc : Z) (words : list Z) : M Output unit :=
  match words with
  | [] => mret tt
  | word :: words =>
      calls ← lift (if is_text then dump_ascii true word pc else Ok (word_calls pc word));
      print_calls calls ;;
      print_reloc pc d ;;
      print_words is_text d (add32 pc 4) words
  end.

Definition is_text (head : scnhdr) : bool := bool_decide (take 5 (s_name head) = text_).

Definition print_section (head : scnhdr) (d : data) : M Output unit :=
  name ← lift (c_string (s_name head));
  myprintf ("Section: %s" +:+ tab +:+ "%d/%d" +:+ newline)
    [Str name; Int (s_size head); Int (zlen (relocs d))] ;;
  print_words (is_text head) d (s_vaddr head) (data_words d).

(** ** The external symbols *)

(** [scUndefined] is a constant of a header that is not part of the sources. *)
Definition print_symbol (scUndefined : Z) (sym : SYMR) : M Output unit :=
  (if sc sym =? scUndefined then myprintf (tab +:+ " ") [] else myprintf "%08x " [Int (value sym)]) ;;
  type ← lift (aread symbol_type (st sym));
  myprintf "%s" [Str type] ;;
  mytab 25 ;;
  class ← lift (aread storage_class (sc sym));
  myprintf "%s" [Str class] ;;
  mytab 41 ;;
  name ← lift (string_at sspace (iss sym));
  myprintf ("%s" +:+ newline) [Str name].

Fixpoint print_symbols (scUndefined : Z) (l : list SYMR) : M Output unit :=
  match l with
  | [] => mret tt
  | sym :: l => print_symbol scUndefined sym ;; print_symbols scUndefined l
  end.

(** The end of [main], behind the loops that read the file into the arrays;
    [symbols] is the whole array, of which [iextMax] elements have been read. *)
Fixpoint print_sections (l : list (scnhdr * data)) : M Output unit :=
  match l with
  | [] => mret tt
  | (head, d) :: l => print_section head d ;; print_sections l
  end.
End tables.

(** The title is printed by [printf] itself, which leaves [column] alone; it
    ends with a line break, and [column] is 1 before it. *)
Definition symbols_title : string :=
  "External Symbols:" +:+ newline +:+ "Value" +:+ tab +:+ " Type" +:+ tab +:+ tab
  +:+ "Storage Class" +:+ tab +:+ "Name" +:+ newline.

Definition print_file (scUndefined : Z) (symbols : list SYMR) (iextMax : Z) (sspace : list Z)
    (sections : list (scnhdr * data)) : M Output unit :=
  print_sections symbols sspace sections ;;
  modify (λ o, MkOutput (outfile o +:+ symbols_title) (column o)) ;;
  print_symbols sspace scUndefined (take (Z.to_nat (Z.min MAXSYMS iextMax)) symbols).
