(* ===== verification/OutSpec.v ===== *)
(** * The columns of bin/out.c

    Every word of a section is a line of its own, and its relocation stands
    in the column 57, whatever the instruction or the datum before it. *)
From Stdlib Require Import String Ascii.
From stdpp Require Import strings pretty.
From S2P Require Import Prelude Word Mips Execute Coff Disasm DisasmSpec Out.
#[local] Open Scope string_scope.
#[local] Open Scope Z_scope.

(** ** Strings *)

Lemma sapp_cons c s t : String c s +:+ t = String c (s +:+ t).
Proof. done. Qed.
Lemma sapp_nil s : s +:+ EmptyString = s.
Proof. induction s as [|c s IH]; [done|]. by rewrite ?sapp_cons, IH. Qed.
Lemma sapp_assoc s t u : (s +:+ t) +:+ u = s +:+ (t +:+ u).
Proof. induction s as [|c s IH]; [done|]. by rewrite ?sapp_cons, IH. Qed.
Lemma length_sapp s t : String.length (s +:+ t) = (String.length s + String.length t)%nat.
Proof. induction s as [|c s IH]; [done|]. rewrite sapp_cons. simpl. by rewrite IH. Qed.

Lemma text_nil : text [] = EmptyString.
Proof. done. Qed.
Lemma text_cons c calls : text (c :: calls) = printf c.1 c.2 +:+ text calls.
Proof. unfold text. destruct calls; simpl; [by rewrite sapp_nil|done]. Qed.
Lemma text_app l l' : text (l ++ l')%list = text l +:+ text l'.
Proof. induction l as [|c l IH]; [done|]. simpl. by rewrite !text_cons, IH, sapp_assoc. Qed.

Lemma columns_app s t c : columns (s +:+ t) c = columns t (columns s c).
Proof. revert c. induction s as [|x s IH]; intros c; [done|]. rewrite sapp_cons. apply IH. Qed.

(** Text of at most [n] characters that stays on its line and has no tabs. *)
Fixpoint plain (s : string) : bool :=
  match s with
  | EmptyString => true
  | String c s => negb (Ascii.eqb c "010" || Ascii.eqb c "009") && plain s
  end.
Definition fits (n : nat) (s : string) : Prop := plain s = true ∧ (String.length s ≤ n)%nat.

Lemma fits_le m n s : fits m s → (m ≤ n)%nat → fits n s.
Proof. intros [H1 H2] H. split; [done|lia]. Qed.
Lemma fits_nil : fits 0 EmptyString.
Proof. done. Qed.
Lemma fits_cons c n s : Ascii.eqb c "010" || Ascii.eqb c "009" = false → fits n s → fits (S n) (String c s).
Proof. intros Hc [H1 H2]. split; [by simpl; rewrite Hc|simpl; lia]. Qed.
Lemma fits_app m n s t : fits m s → fits n t → fits (m + n) (s +:+ t).
Proof.
  intros [H1 H2] [H3 H4]. split; [|rewrite length_sapp; lia]. clear H2.
  induction s as [|c s IH]; [done|]. rewrite sapp_cons. simpl in *. apply andb_true_iff in H1 as [-> H1]. by apply IH.
Qed.

Lemma columns_plain s c : plain s = true → columns s c = c + Z.of_nat (String.length s).
Proof.
  revert c. induction s as [|x s IH]; intros c H; simpl in *; [lia|].
  apply andb_true_iff in H as [Hx H]. rewrite IH by done. unfold step_column.
  apply negb_true_iff, orb_false_iff in Hx as [-> ->]. lia.
Qed.

(** *** The conversions *)

Lemma hex_digit_fits d : 0 ≤ d < 16 → plain (hex_digit d) = true ∧ String.length (hex_digit d) = 1%nat.
Proof.
  intros H. assert (d ∈ seqZ 0 16) as Hd by (apply elem_of_seqZ; lia).
  assert (Forall (λ d, plain (hex_digit d) = true ∧ String.length (hex_digit d) = 1%nat) (seqZ 0 16)) as Hall
    by (repeat (apply list.Forall_cons; split; [done|]); by apply list.Forall_nil).
  rewrite list.Forall_forall in Hall. by apply Hall.
Qed.

Lemma hex_digits_fits n z : plain (hex_digits n z) = true ∧ String.length (hex_digits n z) = n.
Proof.
  revert z. induction n as [|n IH]; intros z; [done|]. simpl.
  destruct (IH (z / 16)) as [H1 H2]. destruct (hex_digit_fits (z mod 16)) as [H3 H4]; [by apply Z.mod_pos_bound|].
  split; [|rewrite length_sapp; lia]. apply (fits_app n 1); (split; [done|lia]).
Qed.

Lemma hex_fits n z : fits n (hex n z).
Proof.
  revert z. induction n as [|n IH]; intros z; [done|]. cbn [hex].
  destruct (hex_digit_fits (z mod 16)) as [H3 H4]; [by apply Z.mod_pos_bound|].
  eapply fits_le; [apply (fits_app n 1)|lia]; [|split; [done|lia]].
  destruct (z / 16 =? 0); [|by apply IH]. eapply fits_le; [apply fits_nil|lia].
Qed.

Lemma pretty_N_go_fits k x m s : (x < 10 ^ N.of_nat k)%N → fits m s → fits (k + m) (pretty_N_go x s).
Proof.
  revert x m s. induction k as [|k IH]; intros x m s Hx Hs.
  { assert (x = 0%N) as -> by (simpl in Hx; lia). by rewrite pretty_N_go_0. }
  destruct (decide (x = 0%N)) as [->|H0]; [rewrite pretty_N_go_0; eapply fits_le; [exact Hs|lia]|].
  rewrite pretty_N_go_step by lia.
  replace (S k + m)%nat with (k + S m)%nat by lia. apply IH.
  - apply N.Div0.div_lt_upper_bound. rewrite Nat2N.inj_succ, N.pow_succ_r in Hx by lia. lia.
  - apply fits_cons; [|done]. pose proof (N.mod_lt x 10 ltac:(done)). unfold pretty_N_char. by repeat case_match.
Qed.

Lemma pretty_fits z : in_s32 z → fits 11 (pretty z).
Proof.
  intros Hz. destruct z as [|p|p]; [by split; [|simpl; lia]| |]; unfold in_s32 in Hz.
  all: assert (fits 10 (pretty (Npos p))) as H by
    (apply (pretty_N_go_fits 10 _ 0); [|apply fits_nil];
     change (10 ^ N.of_nat 10)%N with 10000000000%N; lia).
  - eapply fits_le; [exact H|lia].
  - by apply (fits_cons "-" 10).
Qed.

(** ** The lines of a section *)

Definition short (c : call) : Prop := Z.of_nat (String.length (printf c.1 c.2)) < 100.

Lemma reg_name_fits r : 0 ≤ r < 32 → fits 3 (reg_name r).
Proof.
  intros H. assert (r ∈ seqZ 0 32) as Hr by (apply elem_of_seqZ; lia).
  assert (forallb (λ r, plain (reg_name r) && (String.length (reg_name r) <=? 3)%nat) (seqZ 0 32) = true) as Hall
    by (vm_compute; reflexivity).
  rewrite forallb_forall in Hall. apply list_elem_of_In, Hall, andb_true_iff in Hr as [H1 H2].
  split; [done|]. by apply Nat.leb_le.
Qed.

Ltac printed := cbn [fst snd printf convert convert_08x Ascii.eqb Bool.eqb].

(** A text of constants, registers and numbers. *)
Ltac fits_tac :=
  eapply fits_le; [
    repeat first [apply fits_nil
      | apply reg_name_fits, field_range
      | apply hex_fits
      | apply (conj (proj1 (hex_digits_fits _ _))); rewrite (proj2 (hex_digits_fits _ _)); apply le_n
      | apply fits_cons; [reflexivity|]
      | apply fits_app]
    |simpl; lia].

Lemma short_fits n c : fits n (printf c.1 c.2) → (n < 100)%nat → short c.
Proof. intros [_ H] Hn. unfold short. lia. Qed.

Definition one_call (n : nat) (r : res (list call)) : Prop :=
  ∃ calls, r = Ok calls ∧ Forall short calls ∧ fits n (text calls).

Lemma one_call_one n c : (n < 100)%nat → fits n (printf c.1 c.2) → one_call n (Ok [c]).
Proof.
  intros Hn H. exists [c]. split; [done|]. split; [|exact H].
  apply list.Forall_cons. split; [|by apply list.Forall_nil]. by eapply short_fits.
Qed.
Lemma one_call_none n : one_call n (Ok []).
Proof. exists []. split; [done|]. split; [by apply list.Forall_nil|]. eapply fits_le; [apply fits_nil|lia]. Qed.

Lemma special_operands_fit i op : one_call 19 (special_operands i op).
Proof.
  unfold special_operands, print_regs.
  repeat match goal with |- context [if ?b then _ else _] => destruct b end; try apply one_call_none;
    rewrite !R_Ok by apply field_range; cbn [mbind res_bind];
    (apply one_call_one; [lia|]); printed; fits_tac.
Qed.

Lemma normal_operands_fit i op pc : one_call 19 (normal_operands i op pc).
Proof.
  unfold normal_operands, print_regs.
  repeat match goal with |- context [if ?b then _ else _] => destruct b end; try apply one_call_none;
    rewrite ?R_Ok by apply field_range; cbn [mbind res_bind];
    rewrite ?R_Ok by apply field_range; cbn [mbind res_bind];
    (apply one_call_one; [lia|]); printed; fits_tac.
Qed.

Lemma columns_head pc i : columns (printf "%08x: %08x  " [Int pc; Int i]) 1 = 21.
Proof.
  assert (fits 20 (printf "%08x: %08x  " [Int pc; Int i])) as [Hp _] by (printed; fits_tac).
  rewrite columns_plain by done. printed. cbn [String.length].
  rewrite length_sapp, (proj2 (hex_digits_fits _ _)). cbn [String.length].
  rewrite length_sapp, (proj2 (hex_digits_fits _ _)). done.
Qed.

(** A name and a tab lead from the column 25 to the column 33. *)
Lemma columns_name name : fits 7 name → columns tab (columns name 25) = 33.
Proof.
  intros [Hp Hl]. rewrite (columns_plain name) by done.
  destruct (String.length name) as [|[|[|[|[|[|[|[|n]]]]]]]]; [reflexivity..|lia].
Qed.

Lemma table_fits (l : list string) k :
  forallb (λ s, plain s && (String.length s <=? 7)%nat) l = true → 0 ≤ k < zlen l →
  ∃ name, aread l k = Ok name ∧ fits 7 name.
Proof.
  intros Hl Hk. unfold aread, aget, zlen in *. rewrite (proj2 (Z.leb_le 0 k)) by lia.
  destruct (lookup_lt_is_Some_2 l (Z.to_nat k)) as [name Hn]; [lia|]. rewrite Hn. exists name. split; [done|].
  rewrite forallb_forall in Hl. apply list_elem_of_lookup_2, list_elem_of_In, Hl, andb_true_iff in Hn as [H1 H2].
  split; [done|]. by apply Nat.leb_le.
Qed.

(** No line is longer than 51 characters. *)
Definition fits_line (calls : list call) : Prop :=
  Forall short calls ∧ columns (text calls) 1 ≤ 52.

Lemma line_of_operands pc i name ops :
  fits 7 name → one_call 19 ops →
  ∃ calls, (operands ← ops; Ok (("%s" +:+ tab, [Str name]) :: operands)) = Ok calls
  ∧ fits_line (("%08x: %08x  ", [Int pc; Int i]) :: (tab, []) :: calls).
Proof.
  intros Hn (calls & -> & Hs & Hf). eexists; split; [reflexivity|]. split.
  - repeat (apply list.Forall_cons; split); [| | |done].
    + eapply (short_fits 20); [|lia]. printed. fits_tac.
    + done.
    + unfold short. change (printf _ _) with (name +:+ tab). rewrite length_sapp.
      destruct Hn. change (String.length tab) with 1%nat. lia.
  - rewrite !text_cons, !columns_app. cbn [fst snd]. rewrite columns_head.
    change (printf ("%s" +:+ tab) [Str name]) with (name +:+ tab).
    rewrite columns_app, (columns_plain (text calls)) by apply Hf.
    change (columns (printf tab []) 21) with 25. rewrite columns_name by done. destruct Hf. lia.
Qed.

Lemma bcond_name_fits r : fits 7 (bcond_name r).
Proof.
  unfold bcond_name. repeat match goal with |- context [if ?b then _ else _] => destruct b end; fits_tac.
Qed.

(** The branches that compare with zero are printed in two pieces of their
    own. *)
Lemma line_of_bcond pc i ad :
  fits_line [("%08x: %08x  ", [Int pc; Int i]); (tab, []); (bcond_name (rt i), []);
             (tab +:+ "%s,%08x", [Str (reg_name (rs i)); Int ad])].
Proof.
  assert (printf (bcond_name (rt i)) [] = bcond_name (rt i)) as Hb.
  { unfold bcond_name. by repeat match goal with |- context [if ?b then _ else _] => destruct b end. }
  assert (fits 19 (printf "%s,%08x" [Str (reg_name (rs i)); Int ad])) as Ho.
  { printed. pose proof (field_range i 21) as Hr. fold (rs i) in Hr. fits_tac. }
  pose proof (bcond_name_fits (rt i)) as Hn. split.
  - repeat (apply list.Forall_cons; split); [| | | |by apply list.Forall_nil].
    + eapply (short_fits 20); [|lia]. printed. fits_tac.
    + done.
    + eapply (short_fits 7); [|lia]. cbn [fst snd]. by rewrite Hb.
    + unfold short. cbn [fst snd]. destruct Ho.
      change (printf (tab +:+ _) ?a) with (tab +:+ printf "%s,%08x" a). rewrite length_sapp.
      change (String.length tab) with 1%nat. lia.
  - rewrite !text_cons, !columns_app. cbn [fst snd]. rewrite columns_head, Hb.
    change (columns (text []) ?c) with c. change (columns (printf tab []) 21) with 25.
    change (printf (tab +:+ _) ?a) with (tab +:+ printf "%s,%08x" a).
    rewrite columns_app, columns_name, columns_plain by first [done|apply Ho]. destruct Ho. lia.
Qed.

Lemma dump_ascii_fits i pc : ∃ calls, dump_ascii true i pc = Ok calls ∧ fits_line calls.
Proof.
  unfold dump_ascii. cbv zeta. set (op := Z.shiftr (u32 i) 26).
  assert (0 ≤ op < 64) as Hop.
  { unfold op. pose proof (Z.mod_pos_bound i (2 ^ 32) eq_refl) as H. unfold u32.
    rewrite Z.shiftr_div_pow2 by done. split; [apply Z.div_pos; lia|apply Z.div_lt_upper_bound; lia]. }
  destruct (i =? 0).
  { eexists; split; [reflexivity|]. split.
    - repeat (apply list.Forall_cons; split); [|done|done|by apply list.Forall_nil].
      eapply (short_fits 20); [|lia]. printed. fits_tac.
    - cbn [app]. rewrite !text_cons, !columns_app. cbn [fst snd]. by rewrite columns_head. }
  destruct (op =? I_SPECIAL); [|destruct (op =? I_BCOND)].
  - destruct (table_fits specialops (Z.land i 0x3f)) as (name & -> & Hn); [reflexivity| |].
    { apply (land_ones_range _ 6). lia. }
    destruct (line_of_operands pc i name _ Hn (special_operands_fit i (Z.land i 0x3f))) as (calls & Hc & Hf).
    cbn [mbind res_bind] in *. rewrite Hc. by eexists.
  - unfold print_regs. rewrite R_Ok by apply field_range. cbn [mbind res_bind].
    eexists; split; [reflexivity|]. apply line_of_bcond.
  - destruct (table_fits normalops op) as (name & -> & Hn); [reflexivity|exact Hop|].
    destruct (line_of_operands pc i name _ Hn (normal_operands_fit i op pc)) as (calls & Hc & Hf).
    cbn [mbind res_bind] in *. rewrite Hc. by eexists.
Qed.

Lemma columns_tab c : columns tab c ≤ c + 8.
Proof.
  change (columns tab c) with (Z.land (c + 7) (Z.lnot (Z.ones 3)) + 1).
  rewrite <- Z.ldiff_land, Z.ldiff_ones_r, Z.shiftr_div_pow2, Z.shiftl_mul_pow2 by done.
  change (2 ^ 3) with 8. pose proof (Z.mul_div_le (c + 7) 8 eq_refl). lia.
Qed.

Lemma shown_char_fits c : fits 1 (shown_char c).
Proof.
  unfold shown_char. destruct ((32 <=? c) && (c <? 127)) eqn:E; [|fits_tac].
  apply andb_true_iff in E as [H1 H2]. apply Z.leb_le in H1. apply Z.ltb_lt in H2.
  apply (fits_cons _ 0); [|apply fits_nil].
  assert (forallb (λ c, negb (Ascii.eqb (ascii_of_nat (Z.to_nat c)) "010" || Ascii.eqb (ascii_of_nat (Z.to_nat c)) "009"))
    (seqZ 32 95) = true) as Hall by (vm_compute; reflexivity).
  rewrite forallb_forall in Hall. apply negb_true_iff, Hall, list_elem_of_In, elem_of_seqZ. lia.
Qed.

Lemma word_calls_fit pc word : fits_line (word_calls pc word).
Proof.
  assert (bytes_le 4 (u32 word) = [u32 word mod 256; u32 word / 256 mod 256; u32 word / 256 / 256 mod 256;
    u32 word / 256 / 256 / 256 mod 256]) as Hb by done.
  unfold word_calls. rewrite Hb. cbn [fmap list_fmap app]. set (a := s8 _). set (b := s8 _). set (c := s8 _). set (d := s8 _).
  pose proof (pretty_fits (s32 word) (s32_range word)) as Hw.
  assert (∀ x, short ("%s", [Str (shown_char x)])) as Hx.
  { intros x. apply (short_fits 1); [|lia]. printed. rewrite sapp_nil. apply shown_char_fits. }
  split.
  - repeat (apply list.Forall_cons; split); [|apply Hx..| |by apply list.Forall_nil].
    + eapply (short_fits 20); [|lia]. printed. fits_tac.
    + unfold short. cbn [fst snd]. change (printf _ _) with (tab +:+ pretty (s32 word) +:+ EmptyString).
      rewrite sapp_nil, length_sapp. destruct Hw. change (String.length tab) with 1%nat. lia.
  - rewrite !text_cons, !columns_app. cbn [fst snd]. rewrite columns_head.
    change (columns (text []) ?c) with c.
    assert (∀ x k, columns (printf "%s" [Str (shown_char x)]) k ≤ k + 1) as Hc.
    { intros x k. printed. rewrite sapp_nil. destruct (shown_char_fits x).
      rewrite columns_plain by done. lia. }
    change (printf (tab +:+ _) _) with (tab +:+ pretty (s32 word) +:+ EmptyString).
    rewrite sapp_nil, columns_app, (columns_plain (pretty _)) by apply Hw. destruct Hw.
    etrans; [apply Z.add_le_mono_r, columns_tab|].
    pose proof (Hc a 21). pose proof (Hc b (columns (printf "%s" [Str (shown_char a)]) 21)) as H2.
    pose proof (Hc c (columns (printf "%s" [Str (shown_char b)]) (columns (printf "%s" [Str (shown_char a)]) 21))) as H3.
    pose proof (Hc d (columns (printf "%s" [Str (shown_char c)])
      (columns (printf "%s" [Str (shown_char b)]) (columns (printf "%s" [Str (shown_char a)]) 21)))) as H4.
    lia.
Qed.

(** ** The output *)

Lemma print_calls_Ok calls : ∀ o, Forall short calls →
  print_calls calls o = Ok (tt, MkOutput (outfile o +:+ text calls) (columns (text calls) (column o))).
Proof.
  induction calls as [|[form args] calls IH]; intros o Hs.
  { simpl. change (text []) with EmptyString. rewrite sapp_nil. by destruct o. }
  apply list.Forall_cons in Hs as [Hc Hs]. simpl. unfold short in Hc. cbn [fst snd] in Hc.
  rewrite (M_bind_step _ _ o tt (MkOutput (outfile o +:+ printf form args) (columns (printf form args) (column o)))).
  - rewrite IH by done. simpl. by rewrite text_cons, columns_app, sapp_assoc.
  - unfold myprintf. by rewrite (proj2 (Z.leb_gt _ _) Hc).
Qed.

Fixpoint spaces (n : nat) : string :=
  match n with O => EmptyString | S n => String " " (spaces n) end.

Lemma columns_spaces n c : columns (spaces n) c = c + Z.of_nat n.
Proof. revert c. induction n as [|n IH]; intros c; simpl columns; [lia|]. rewrite IH. unfold step_column. simpl. lia. Qed.

Lemma mytab_Ok n o : column o ≤ n →
  mytab n o = Ok (true, MkOutput (outfile o +:+ spaces (Z.to_nat (n - column o))) n).
Proof.
  intros Hn. unfold mytab. rewrite (M_bind_step _ _ o (column o) o) by done.
  assert (∀ k o, mytab_loop k o = Ok (tt, MkOutput (outfile o +:+ spaces k) (column o + Z.of_nat k))) as Hl.
  { induction k as [|k IH]; intros o'; simpl.
    - rewrite sapp_nil, Z.add_0_r. by destruct o'.
    - rewrite (M_bind_step _ _ o' tt (MkOutput (outfile o' +:+ " ") (column o' + 1))) by done.
      rewrite IH. simpl. rewrite sapp_assoc. do 3 f_equal. lia. }
  rewrite (M_bind_step _ _ o tt _ (Hl _ _)).
  replace (column o + Z.of_nat (Z.to_nat (n - column o))) with n by lia.
  unfold gets. simpl. by rewrite Z.eqb_refl.
Qed.

Section tables.
Context (symbols : list SYMR) (sspace : list Z).

Definition relocation (d : data) (vaddr : Z) : option reloc := List.find (λ rp, vaddr =? r_vaddr rp) (relocs d).
Definition code_calls (is_text : bool) (pc word : Z) : res (list call) :=
  if is_text then dump_ascii true word pc else Ok (word_calls pc word).

(** What belongs on the line of the word at an address. *)
Definition is_line (is_text : bool) (d : data) (w : Z * Z) (l : string) : Prop :=
  ∃ code, text <$> code_calls is_text w.1 w.2 = Ok code
  ∧ match relocation d w.1 with
    | None => l = code +:+ newline
    | Some rp => ∃ n t, l = code +:+ spaces n +:+ t +:+ newline
        ∧ columns (code +:+ spaces n) 1 = 57 ∧ text <$> reloc_calls symbols sspace rp = Ok t
    end.

Fixpoint at_addresses (pc : Z) (words : list Z) : list (Z * Z) :=
  match words with
  | [] => []
  | word :: words => (pc, word) :: at_addresses (add32 pc 4) words
  end.

(** The tables have the names of a relocation, and they fit the buffer. *)
Definition printable (rp : reloc) : Prop :=
  ∃ cs, reloc_calls symbols sspace rp = Ok cs ∧ Forall short cs.

Lemma print_relocs_Ok vaddr l o : Forall printable l → column o ≤ 57 →
  ∃ s c, print_relocs symbols sspace vaddr l o = Ok (tt, MkOutput (outfile o +:+ s) c)
  ∧ match List.find (λ rp, vaddr =? r_vaddr rp) l with
    | None => s = EmptyString
    | Some rp => ∃ t, s = spaces (Z.to_nat (57 - column o)) +:+ t ∧ text <$> reloc_calls symbols sspace rp = Ok t
    end.
Proof.
  intros Hl Ho. induction Hl as [|rp l (cs & Hcs & Hs) _ IH]; simpl.
  { exists EmptyString, (column o). rewrite sapp_nil. by destruct o. }
  destruct (vaddr =? r_vaddr rp); [|exact IH].
  rewrite (M_bind_step _ _ o true _ (mytab_Ok 57 o Ho)). rewrite Hcs. unfold lift. mrun.
  rewrite print_calls_Ok by done. simpl. exists (spaces (Z.to_nat (57 - column o)) +:+ text cs), (columns (text cs) 57).
  split; [by rewrite sapp_assoc|]. by exists (text cs).
Qed.

Lemma code_calls_fit is_text pc word : ∃ calls, code_calls is_text pc word = Ok calls ∧ fits_line calls.
Proof.
  unfold code_calls. destruct is_text; [apply dump_ascii_fits|]. eexists; split; [done|apply word_calls_fit].
Qed.

Lemma print_newline o : myprintf newline [] o = Ok (tt, MkOutput (outfile o +:+ newline) 1).
Proof. done. Qed.

Lemma print_word_Ok is_text d pc word calls o :
  Forall printable (relocs d) → column o = 1 → code_calls is_text pc word = Ok calls → fits_line calls →
  ∃ l, (print_calls calls ;; print_reloc symbols sspace pc d) o = Ok (tt, MkOutput (outfile o +:+ l) 1)
  ∧ is_line is_text d (pc, word) l.
Proof.
  intros Hd Ho Hc [Hs Hf]. rewrite (M_bind_step _ _ o tt _ (print_calls_Ok calls o Hs)).
  unfold print_reloc. rewrite Ho.
  destruct (print_relocs_Ok pc (relocs d) (MkOutput (outfile o +:+ text calls) (columns (text calls) 1)) Hd)
    as (s & c & Hr & Hm); [simpl; lia|].
  rewrite (M_bind_step _ _ _ _ _ Hr), print_newline. cbn [outfile].
  exists (text calls +:+ s +:+ newline). split; [by rewrite !sapp_assoc|].
  exists (text calls). cbn [fst snd]. rewrite Hc. split; [done|]. unfold relocation.
  destruct (List.find _ _) as [rp|]; simpl in Hm.
  - destruct Hm as (t & -> & Ht). exists (Z.to_nat (57 - columns (text calls) 1)), t.
    rewrite sapp_assoc. split; [done|]. split; [|done]. rewrite columns_app, columns_spaces. lia.
  - by subst s.
Qed.
End tables.

(** The sections of an object file are printed whole, word by
    word: every word has a line of its own, which begins with its address and
    its instruction or its datum, whatever they are, and where the section has
    a relocation for the address, the first one of them begins in the column
    57 of the line. *)
Theorem print_words_lines symbols sspace is_text d o words
    (Hd : Forall (printable symbols sspace) (relocs d)) (Ho : column o = 1) : ∀ pc,
  ∃ ls, print_words symbols sspace is_text d pc words o
        = Ok (tt, MkOutput (outfile o +:+ String.concat EmptyString ls) 1)
  ∧ Forall2 (is_line symbols sspace is_text d) (at_addresses pc words) ls.
Proof.
  revert o Ho. induction words as [|word words IH]; intros o Ho pc; simpl.
  { exists []. simpl. rewrite sapp_nil. split; [by destruct o; simpl in Ho; subst|by apply list.Forall2_nil]. }
  destruct (code_calls_fit is_text pc word) as (calls & Hc & Hf). 
  destruct (print_word_Ok symbols sspace is_text d pc word calls o Hd Ho Hc Hf) as (l & Hl & Hline).
  unfold code_calls in Hc. rewrite Hc. unfold lift at 1. mrun.
  apply M_bind_Ok in Hl as ([] & o1 & H1 & H2).
  rewrite (M_bind_step _ _ _ _ _ H1), (M_bind_step _ _ _ _ _ H2).
  destruct (IH (MkOutput (outfile o +:+ l) 1) eq_refl (add32 pc 4)) as (ls & -> & Hls).
  exists (l :: ls). split; [|by apply list.Forall2_cons].
  cbn [outfile]. rewrite sapp_assoc. do 4 f_equal. destruct ls; simpl; [by rewrite sapp_nil|done].
Qed.

(** A call of an external procedure, and the no-operation behind it. *)
Definition demo_symbols : list SYMR := [MkSYMR 0 6 1 0].
Definition demo_sspace : list Z := [109; 97; 105; 110; 0].
Definition demo_data : data := MkData [0x0c000010; 0] [MkReloc 0 0 true 3].
Definition demo_head : scnhdr := MkScnhdr [46; 116; 101; 120; 116; 0; 0; 0] 0 0 8 0 0 0 1 0 0.

Example print_demo :
  (λ r, outfile r.2) <$> print_section demo_symbols demo_sspace demo_head demo_data (MkOutput EmptyString 1)
  = Ok ("Section: .text" +:+ tab +:+ "8/1" +:+ newline
        +:+ "00000000: 0c000010  " +:+ tab +:+ "jal" +:+ tab +:+ "00000040" +:+ spaces 16
        +:+ quote +:+ "main" +:+ quote +:+ " 26" +:+ newline
        +:+ "00000004: 00000000  " +:+ tab +:+ "nop" +:+ newline).
Proof. vm_compute. reflexivity. Qed.

Lemma print_words_lines_witness :
  ∃ ls, print_words demo_symbols demo_sspace true demo_data 0 (data_words demo_data) (MkOutput EmptyString 1)
        = Ok (tt, MkOutput (EmptyString +:+ String.concat EmptyString ls) 1)
  ∧ Forall2 (is_line demo_symbols demo_sspace true demo_data) (at_addresses 0 (data_words demo_data)) ls.
Proof.
  apply (print_words_lines demo_symbols demo_sspace true demo_data (MkOutput EmptyString 1)
    (data_words demo_data)); [|reflexivity].
  apply list.Forall_cons. split; [|by apply list.Forall_nil].
  exists [(quote +:+ "%s" +:+ quote, [Str "main"]); (" %s", [Str "26"])]. split; [reflexivity|].
  repeat (apply list.Forall_cons; split; [reflexivity|]). by apply list.Forall_nil.
Defined.
