(* ===== verification/CommandLine.v ===== *)
(** * threads/main.cc, threads/system.cc, threads/utility.cc: the command line

    What a kernel makes of its arguments, in every build: the settings that
    [Initialize] reads, the tests of the threads assignment, and the commands
    that [main] performs. *)
From Stdlib Require Import String Ascii.
From stdpp Require Import strings.
From S2P Require Import Prelude Word.
#[local] Open Scope string_scope.
#[local] Open Scope Z_scope.

(** The build flags; FILESYS and FILESYS_STUB both define FILESYS_NEEDED. *)
Record build := MkBuild {
  THREADS : bool; USER_PROGRAM : bool; FILESYS_NEEDED : bool; FILESYS : bool; NETWORK : bool
}.

(** The DEFINES of the five Makefiles. *)
Definition threads_build : build := MkBuild true false false false false.
Definition userprog_build : build := MkBuild false true true false false.
Definition vm_build : build := MkBuild false true true false false.
Definition filesys_build : build := MkBuild true true true true false.
Definition network_build : build := MkBuild false true true true true.

(** ** [atoi] *)

Definition is_space (c : ascii) : bool :=
  let n := Z.of_nat (nat_of_ascii c) in (n =? 32) || ((9 <=? n) && (n <=? 13)).
Definition digit (c : ascii) : option Z :=
  let n := Z.of_nat (nat_of_ascii c) - 48 in if (0 <=? n) && (n <=? 9) then Some n else None.

Fixpoint digits (s : string) (acc : Z) : Z :=
  match s with
  | EmptyString => acc
  | String c s => match digit c with Some d => digits s (10 * acc + d) | None => acc end
  end.
(** A number that is too large for a [long] is the largest one. *)
Definition saturate (z : Z) : Z := Z.max (- 2 ^ 31) (Z.min (2 ^ 31 - 1) z).
Fixpoint atoi (s : string) : Z :=
  match s with
  | EmptyString => 0
  | String c s' =>
      if is_space c then atoi s'
      else if Ascii.eqb c "-" then saturate (- digits s' 0)
      else if Ascii.eqb c "+" then saturate (digits s' 0)
      else saturate (digits s 0)
  end.

(** ** threads/utility.cc *)

Fixpoint strchr (s : string) (c : ascii) : bool :=
  match s with
  | EmptyString => Ascii.eqb c "000"
  | String c' s => Ascii.eqb c' c || strchr s c
  end.
(** [enableFlags], or no flags before [DebugInit]. *)
Definition DebugIsEnabled (enableFlags : option string) (flag : ascii) : bool :=
  match enableFlags with
  | Some flags => strchr flags flag || strchr flags "+"
  | None => false
  end.

(** ** [Initialize] *)

(** [rely] is the argument of [atof], if there is one. *)
Record settings := MkSettings {
  debugArgs : string; randomYield : bool; seed : option Z; debugUserProg : bool;
  format : bool; rely : option string; netname : Z
}.
Definition no_settings : settings := MkSettings EmptyString false None false false None 0.

Definition set_debugArgs (v : string) (s : settings) : settings :=
  MkSettings v (randomYield s) (seed s) (debugUserProg s) (format s) (rely s) (netname s).
Definition set_seed (v : Z) (s : settings) : settings :=
  MkSettings (debugArgs s) true (Some v) (debugUserProg s) (format s) (rely s) (netname s).
Definition set_debugUserProg (s : settings) : settings :=
  MkSettings (debugArgs s) (randomYield s) (seed s) true (format s) (rely s) (netname s).
Definition set_format (s : settings) : settings :=
  MkSettings (debugArgs s) (randomYield s) (seed s) (debugUserProg s) true (rely s) (netname s).
Definition set_rely (v : string) (s : settings) : settings :=
  MkSettings (debugArgs s) (randomYield s) (seed s) (debugUserProg s) (format s) (Some v) (netname s).
Definition set_netname (v : Z) (s : settings) : settings :=
  MkSettings (debugArgs s) (randomYield s) (seed s) (debugUserProg s) (format s) (rely s) v.

Definition streq (s t : string) : bool := String.eqb s t.

(** [ASSERT(argc > n)], for the arguments [args] behind this one: the first of
    them, or the first two. *)
Definition argument (args : list string) : res string :=
  match args with a :: _ => Ok a | [] => Fault AssertFailed end.
Definition arguments (args : list string) : res (string * string) :=
  match args with a :: a' :: _ => Ok (a, a') | _ => Fault AssertFailed end.

(** One round of the loop: the settings and [argCount]. *)
Definition init_arg (b : build) (arg : string) (args : list string) (s : settings) : res (settings * nat) :=
  '(s, argCount) ← (
    if streq arg "-d" then
      match args with
      | [] => Ok (set_debugArgs "+" s, 1%nat)
      | flags :: _ => Ok (set_debugArgs flags s, 2%nat)
      end
    else if streq arg "-rs" then n ← argument args; Ok (set_seed (atoi n) s, 2%nat)
    else Ok (s, 1%nat));
  let s := if USER_PROGRAM b && streq arg "-s" then set_debugUserProg s else s in
  let s := if FILESYS_NEEDED b && streq arg "-f" then set_format s else s in
  if negb (NETWORK b) then Ok (s, argCount)
  else if streq arg "-l" then r ← argument args; Ok (set_rely r s, 2%nat)
  else if streq arg "-m" then n ← argument args; Ok (set_netname (atoi n) s, 2%nat)
  else Ok (s, argCount).

(** [argv += argCount], for an [argv] of which [arg :: args] is left. *)
Fixpoint init_loop (b : build) (args : list string) (s : settings) : res settings :=
  match args with
  | [] => Ok s
  | arg :: args =>
      '(s, argCount) ← init_arg b arg args s;
      match argCount, args with
      | 2%nat, _ :: args => init_loop b args s
      | 1%nat, _ => init_loop b args s
      | _, _ => Ok s
      end
  end.
Definition Initialize_args (b : build) (argv : list string) : res settings :=
  init_loop b (tail argv) no_settings.

(** ** [main] *)

Inductive command :=
  | PrintCopyright
  | StartProcess (file : string)
  | ConsoleTest (files : option (string * string))
  | Halt
  | Copy (from to : string)
  | Print (file : string)
  | Remove (file : string)
  | List
  | PrintFileSystem
  | PerformanceTest
  | MailTest (farAddr : Z).

(** [argv[0][1]]; [None] is the end of a string of one character. *)
Definition second_char (s : string) : res (option ascii) :=
  match s with
  | EmptyString => Fault OutOfBounds
  | String _ EmptyString => Ok None
  | String _ (String c _) => Ok (Some c)
  end.

(** The loop of the threads assignment: [testnum], and what it leaves of
    [argv]. *)
Fixpoint threads_loop (argv : list string) (testnum : Z) : res (Z * list string) :=
  match argv with
  | [] => Ok (testnum, argv)
  | arg :: args =>
      c ← second_char arg;
      if bool_decide (c = Some "q"%char) then
        match args with
        | [] => Fault NullDeref
        | n :: args => threads_loop args (atoi n)
        end
      else threads_loop args 1
  end.

Section main.
Context (b : build).
(** Whether a program can be opened and started; [StartProcess] returns only
    if not. *)
Variable starts : string → bool.

(** The commands of one round, [argCount], and whether the last command does
    not return. *)
Definition main_arg (arg : string) (args : list string) : res (list command * nat * bool) :=
  let copyright := if streq arg "-z" then [PrintCopyright] else [] in
  '(cs, argCount, ends) ← (
    if negb (USER_PROGRAM b) then Ok ([], 1%nat, false)
    else if streq arg "-x" then
      file ← argument args;
      Ok ([StartProcess file], 2%nat, starts file)
    else if streq arg "-c" then
      match args with
      | [] => Ok ([ConsoleTest None; Halt], 1%nat, true)
      | _ => files ← arguments args; Ok ([ConsoleTest (Some files); Halt], 3%nat, true)
      end
    else Ok ([], 1%nat, false));
  if (ends : bool) then Ok ((copyright ++ cs)%list, argCount, true)
  else
    '(cs', argCount) ← (
      if negb (FILESYS b) then Ok ([], argCount)
      else if streq arg "-cp" then '(from, to) ← arguments args; Ok ([Copy from to], 3%nat)
      else if streq arg "-p" then file ← argument args; Ok ([Print file], 2%nat)
      else if streq arg "-r" then file ← argument args; Ok ([Remove file], 2%nat)
      else if streq arg "-l" then Ok ([List], argCount)
      else if streq arg "-D" then Ok ([PrintFileSystem], argCount)
      else if streq arg "-t" then Ok ([PerformanceTest], argCount)
      else Ok ([], argCount));
    '(cs'', argCount) ← (
      if NETWORK b && streq arg "-o" then n ← argument args; Ok ([MailTest (atoi n)], 2%nat)
      else Ok ([], argCount));
    Ok ((copyright ++ cs ++ cs' ++ cs'')%list, argCount, false).

Fixpoint main_loop (args : list string) : res (list command) :=
  match args with
  | [] => Ok []
  | arg :: args =>
      '(cs, argCount, ends) ← main_arg arg args;
      if (ends : bool) then Ok cs
      else
        rest ← match argCount, args with
               | 3%nat, _ :: _ :: args => main_loop args
               | 2%nat, _ :: args => main_loop args
               | 1%nat, _ => main_loop args
               | _, _ => Ok []
               end;
        Ok (cs ++ rest)%list
  end.

(** All that [main] makes of [argv]: the settings, [testnum] and the commands.
    The second loop begins where the first one has ended. *)
Definition main_args (argv : list string) : res (settings * Z * list command) :=
  s ← Initialize_args b argv;
  '(testnum, argv) ← (if THREADS b then threads_loop (tail argv) 1 else Ok (1, argv));
  cs ← main_loop (tail argv);
  Ok (s, testnum, cs).
End main.
