(* ===== verification/CommandLineSpec.v ===== *)
(** * What a command line means

    A command line is written as a list of options; the kernel of every build
    without the threads assignment reads from it what was written, and the
    kernels with it perform no command at all. *)
From Stdlib Require Import String Ascii.
From stdpp Require Import strings.
From S2P Require Import Prelude Word CommandLine.
#[local] Open Scope string_scope.
#[local] Open Scope Z_scope.

(** ** Options *)

Inductive option_ :=
  | Debug (flags : string) | RandomSeed (n : string)
  | SingleStep | FormatDisk
  | Reliability (r : string) | NetName (n : string)
  | Copyright
  | RunProgram (file : string) | TestConsole (input output : string)
  | CopyFile (from to : string) | PrintFile (file : string) | RemoveFile (file : string)
  | ListDirectory | PrintAll | TestPerformance
  | TestMail (n : string)
  | TestNumber (n : string).

Definition flag (o : option_) : string :=
  match o with
  | Debug _ => "-d" | RandomSeed _ => "-rs" | SingleStep => "-s" | FormatDisk => "-f"
  | Reliability _ => "-l" | NetName _ => "-m" | Copyright => "-z"
  | RunProgram _ => "-x" | TestConsole _ _ => "-c"
  | CopyFile _ _ => "-cp" | PrintFile _ => "-p" | RemoveFile _ => "-r"
  | ListDirectory => "-l" | PrintAll => "-D" | TestPerformance => "-t" | TestMail _ => "-o"
  | TestNumber _ => "-q"
  end.
Definition values (o : option_) : list string :=
  match o with
  | Debug v | RandomSeed v | Reliability v | NetName v | RunProgram v | PrintFile v | RemoveFile v
  | TestMail v | TestNumber v => [v]
  | TestConsole v w | CopyFile v w => [v; w]
  | _ => []
  end.
Definition render (o : option_) : list string := flag o :: values o.

Definition flags : list string :=
  ["-d"; "-rs"; "-s"; "-f"; "-l"; "-m"; "-z"; "-x"; "-c"; "-cp"; "-p"; "-r"; "-D"; "-t"; "-o"; "-q"].

(** The options that a build has; -l lists the directory where it is not the
    reliability of the network. *)
Definition available (b : build) (o : option_) : bool :=
  match o with
  | Debug _ | RandomSeed _ | Copyright => true
  | SingleStep | RunProgram _ | TestConsole _ _ => USER_PROGRAM b
  | FormatDisk => FILESYS_NEEDED b
  | Reliability _ | NetName _ | TestMail _ => NETWORK b
  | CopyFile _ _ | PrintFile _ | RemoveFile _ | PrintAll | TestPerformance => FILESYS b
  | ListDirectory => FILESYS b && negb (NETWORK b)
  | TestNumber _ => THREADS b
  end.

(** A value that is the name of an option would be taken for it; the loop of
    the threads assignment looks at the second character only. *)
Definition no_test_number (v : string) : bool :=
  match second_char v with Ok c => negb (bool_decide (c = Some "q"%char)) | Fault _ => false end.
Definition plain_values (b : build) (o : option_) : bool :=
  match o with TestNumber _ => true | _ => negb (THREADS b) || forallb no_test_number (values o) end.
Definition well_formed (b : build) (o : option_) : Prop :=
  available b o = true ∧ Forall (λ v, v ∉ flags) (values o) ∧ plain_values b o = true.

(** ** What is meant *)

Definition setting (o : option_) (s : settings) : settings :=
  match o with
  | Debug flags => set_debugArgs flags s
  | RandomSeed n => set_seed (atoi n) s
  | SingleStep => set_debugUserProg s
  | FormatDisk => set_format s
  | Reliability r => set_rely r s
  | NetName n => set_netname (atoi n) s
  | _ => s
  end.
Definition settings_of (os : list option_) : settings := foldl (λ s o, setting o s) no_settings os.

(** Every option but -q sets [testnum] back to 1. *)
Definition testnum_of (os : list option_) : Z :=
  foldl (λ _ o, match o with TestNumber n => atoi n | _ => 1 end) 1 os.

(** The reliability of the network is, for the kernel that has files, also
    the wish to see the directory. *)
Definition commands (b : build) (o : option_) : list command :=
  match o with
  | Copyright => [PrintCopyright]
  | RunProgram file => [StartProcess file]
  | TestConsole input output => [ConsoleTest (Some (input, output)); Halt]
  | CopyFile from to => [Copy from to]
  | PrintFile file => [Print file]
  | RemoveFile file => [Remove file]
  | ListDirectory => [List]
  | PrintAll => [PrintFileSystem]
  | TestPerformance => [PerformanceTest]
  | TestMail n => [MailTest (atoi n)]
  | Reliability _ => if FILESYS b then [List] else []
  | _ => []
  end.

Definition last_one (starts : string → bool) (o : option_) : bool :=
  match o with RunProgram file => starts file | TestConsole _ _ => true | _ => false end.

(** ** The loops *)

Lemma not_flag v f : v ∉ flags → f ∈ flags → streq v f = false.
Proof. intros Hv Hf. apply String.eqb_neq. congruence. Qed.
Ltac not_flags H :=
  rewrite ?(not_flag _ "-d" H), ?(not_flag _ "-rs" H), ?(not_flag _ "-s" H), ?(not_flag _ "-f" H),
    ?(not_flag _ "-l" H), ?(not_flag _ "-m" H), ?(not_flag _ "-z" H), ?(not_flag _ "-x" H),
    ?(not_flag _ "-c" H), ?(not_flag _ "-cp" H), ?(not_flag _ "-p" H), ?(not_flag _ "-r" H),
    ?(not_flag _ "-D" H), ?(not_flag _ "-t" H), ?(not_flag _ "-o" H) by (apply (bool_decide_unpack _); vm_compute; exact I).

Lemma init_loop_value b v args s : v ∉ flags → init_loop b (v :: args) s = init_loop b args s.
Proof. intros H. simpl. unfold init_arg. not_flags H. by destruct b as [[] [] [] [] []]. Qed.

Lemma main_loop_value b starts v args : v ∉ flags → main_loop b starts (v :: args) = main_loop b starts args.
Proof.
  intros H. simpl. unfold main_arg. not_flags H.
  destruct b as [[] [] [] [] []]; simpl; by destruct (main_loop _ _ args).
Qed.

Lemma init_loop_option b o args s : well_formed b o →
  init_loop b (render o ++ args)%list s = init_loop b args (setting o s).
Proof.
  intros (Ha & Hv & _). destruct o; cbn [render flag values app setting] in *.
  all: repeat match goal with H : Forall _ (_ :: _) |- _ => apply list.Forall_cons in H as [? H] end.
  all: destruct b as [[] [] [] [] []]; try discriminate Ha; try reflexivity.
  all: lazymatch goal with |- init_loop ?b (_ :: ?r) ?s = _ => transitivity (init_loop b r s); [reflexivity|] end.
  all: by rewrite !init_loop_value.
Qed.

Lemma main_loop_option b starts o args : well_formed b o →
  main_loop b starts (render o ++ args)%list
  = if last_one starts o then Ok (commands b o)
    else rest ← main_loop b starts args; Ok (commands b o ++ rest)%list.
Proof.
  intros (Ha & Hv & _). destruct o; cbn [render flag values app commands last_one] in *.
  all: repeat match goal with H : Forall _ (_ :: _) |- _ => apply list.Forall_cons in H as [? H] end.
  all: destruct b as [[] [] [] [] []]; try discriminate Ha; try reflexivity.
  all: try (simpl; unfold main_arg; simpl; by destruct (starts file)).
  all: match goal with
    | |- main_loop _ _ (_ :: ?v :: ?w :: ?r) = _ =>
        by rewrite <- (main_loop_value _ _ w r), <- (main_loop_value _ _ v (w :: r))
    | |- main_loop _ _ (_ :: ?v :: ?r) = _ => by rewrite <- (main_loop_value _ _ v r)
    end.
Qed.

Section main.
Context (b : build) (starts : string → bool).

(** The commands up to the first one that does not return. *)
Fixpoint performed (os : list option_) : list command :=
  match os with
  | [] => []
  | o :: os => commands b o ++ (if last_one starts o then [] else performed os)
  end%list.

Lemma init_loop_options os : ∀ s, Forall (well_formed b) os →
  init_loop b (concat (render <$> os)) s = Ok (foldl (λ s o, setting o s) s os).
Proof.
  induction os as [|o os IH]; intros s Hos; [done|].
  apply list.Forall_cons in Hos as [Ho Hos]. cbn [fmap list_fmap concat].
  rewrite init_loop_option by done. by apply IH.
Qed.

Lemma main_loop_options os : Forall (well_formed b) os →
  main_loop b starts (concat (render <$> os)) = Ok (performed os).
Proof.
  induction 1 as [|o os Ho Hos IH]; [done|]. cbn [fmap list_fmap concat performed].
  rewrite main_loop_option by done. destruct (last_one starts o); [by rewrite app_nil_r|]. by rewrite IH.
Qed.

Lemma threads_loop_option o args t : well_formed b o → THREADS b = true →
  threads_loop (render o ++ args)%list t
  = threads_loop args (match o with TestNumber n => atoi n | _ => 1 end).
Proof.
  intros (_ & _ & Hp) Hb. unfold plain_values in Hp. rewrite Hb in Hp.
  assert (∀ v args t, no_test_number v = true → threads_loop (v :: args) t = threads_loop args 1) as Hv.
  { intros v args' t' H. unfold no_test_number in H. simpl. destruct (second_char v) as [c|]; [|done].
    simpl. by destruct (bool_decide _). }
  destruct o; simpl in Hp; rewrite ?andb_true_r in Hp; try reflexivity.
  all: cbn [render flag values app]; rewrite (Hv (String _ _)) by reflexivity.
  all: rewrite ?andb_true_iff in Hp; repeat match type of Hp with _ ∧ _ => destruct Hp as [? Hp] end.
  all: by rewrite !Hv.
Qed.

Lemma threads_loop_options os : ∀ t, Forall (well_formed b) os → THREADS b = true →
  threads_loop (concat (render <$> os)) t
  = Ok (foldl (λ _ o, match o with TestNumber n => atoi n | _ => 1 end) t os, []).
Proof.
  induction os as [|o os IH]; intros t Hos Hb; [done|].
  apply list.Forall_cons in Hos as [Ho Hos]. cbn [fmap list_fmap concat].
  rewrite threads_loop_option by done. by apply IH.
Qed.

(** C37.  A kernel reads from its command line what was written on
    it: for every list of options that the build has, with values that are not
    themselves taken for options, [Initialize] finds the settings, each the
    last one written, and [main] performs the commands in their order, up to
    the first one that does not return.  But a kernel that is built with the
    threads assignment, as the one with the file system is, only takes its
    [testnum] from them and performs none of the commands.  ([render] writes
    the reliability of the network with the option -l, which system.cc reads;
    the comments at the top of main.cc and of its usage say -n, which nothing
    reads.) *)
Theorem main_args_correct nachos os (Hos : Forall (well_formed b) os) :
  main_args b starts (nachos :: concat (render <$> os))
  = Ok (settings_of os, if THREADS b then testnum_of os else 1,
        if THREADS b then [] else performed os).
Proof.
  unfold main_args, Initialize_args. cbn [tail]. rewrite init_loop_options by done. cbn [mbind res_bind].
  destruct (THREADS b) eqn:Hb; [by rewrite threads_loop_options|].
  cbn [mbind res_bind tail]. by rewrite main_loop_options.
Qed.
End main.

(** A file is copied to another machine; and what the kernel of the file system
    does when it is asked for a copy. *)
Definition demo_options : list option_ :=
  [RandomSeed "42"; CopyFile "unix" "small"; PrintFile "small"; TestMail "1"].
Definition copy_options : list option_ := [FormatDisk; CopyFile "unix" "small"; ListDirectory].

Lemma main_args_correct_witness :
  main_args network_build (λ _, true) ("nachos" :: concat (render <$> demo_options))
  = Ok (MkSettings EmptyString true (Some 42) false false None 0, 1,
        [Copy "unix" "small"; Print "small"; MailTest 1])
  ∧ main_args filesys_build (λ _, true) ("nachos" :: concat (render <$> copy_options))
  = Ok (MkSettings EmptyString false None false true None 0, 1, []).
Proof.
  split; (rewrite main_args_correct; [reflexivity|]);
  repeat (apply list.Forall_cons; split; [split_and!; [reflexivity|by apply (bool_decide_unpack _)|reflexivity]|]);
  by apply list.Forall_nil.
Defined.
