(* ===== verification/OldTests.v ===== *)
(** * threads/ping.cc, threads/lockTest.cc, threads/semaphore_ping.cc

    Three small programs of kernel threads that [main] can call instead of
    [ThreadTest], and how each of them ends. *)
From Stdlib Require Import String.
From S2P Require Import Prelude Word NList Coro Interrupt Threads Synch.
#[local] Open Scope Z_scope.

(** What the programs print. *)
Inductive line :=
  | Message (msg : string)
  | SeesCounter (number val : Z)
  | SeesFinal (number val : Z).
#[export] Instance line_eq_dec : EqDecision line.
Proof. solve_decision. Defined.

(** The functions called through pointers. *)
Inductive old_fun :=
  | PingPong_ (msg : string)
  | LockT_ (number : Z)
  | SPingPong_ (msg : string).

(** The global variables, and what was printed, the last first.  The addresses
    that are constructed before [main] are constants; those of ping.cc are
    [None] until [Ping] allocates the objects. *)
Record old_state := MkOld {
  Counter : Z;
  pingLock : option positive;
  cv : option positive;
  printed_lines : list line
}.

#[export] Instance old_userland : Userland old_state := {
  user_ReadRegister _ := fail NullDeref;
  user_WriteRegister _ _ := fail NullDeref;
  user_DelayedLoad00 := mret tt;
  user_RestoreState _ := fail NullDeref
}.

#[local] Abbreviation K := (Kernel old_fun old_state).
#[local] Abbreviation kcode := (code (Kernel old_fun old_state) old_fun).

Definition old_var {A} (f : old_state → A) : M K A := gets (λ k, f (user k)).
Definition set_Counter (v : Z) : M K unit :=
  on_user (modify (λ u, MkOld v (pingLock u) (cv u) (printed_lines u))).
Definition set_pingLock (v : positive) : M K unit :=
  on_user (modify (λ u, MkOld (Counter u) (Some v) (cv u) (printed_lines u))).
Definition set_cv (v : positive) : M K unit :=
  on_user (modify (λ u, MkOld (Counter u) (pingLock u) (Some v) (printed_lines u))).
Definition print_line (l : line) : M K unit :=
  on_user (modify (λ u, MkOld (Counter u) (pingLock u) (cv u) (l :: printed_lines u))).

(** [currentThread->Yield()]. *)
Definition Yield_ : kcode unit := CallYield (Ret tt).
(** [for (i = 0; i < n; i++) body]. *)
Fixpoint times (n : nat) (body : kcode unit) : kcode unit :=
  match n with
  | O => mret tt
  | S n => body ;; times n body
  end.

(** The thread that a test adds. *)
Definition fork_one (f : old_fun) : kcode unit := t ← run (Thread_new []); Fork t f.

(** ** threads/ping.cc *)

Definition PingPong (msg : string) : kcode unit :=
  l ← run (l ← old_var pingLock; lift (deref l));
  Acquire l ;;
  times 5 (
    run (print_line (Message msg)) ;;
    c ← run (c ← old_var cv; lift (deref c));
    Signal c l ;;
    Wait c l) ;;
  Release l.

Definition Ping : kcode unit :=
  run (l ← Lock_new; set_pingLock l) ;;
  run (c ← Condition_new; set_cv c) ;;
  fork_one (PingPong_ "ping") ;;
  PingPong "pong".

(** ** threads/lockTest.cc *)

(** The address of the global lock. *)
Definition Testl : positive := 1.

Definition LockT (number : Z) : kcode unit :=
  times 3 (
    Acquire Testl ;;
    val ← run (old_var Counter);
    run (print_line (SeesCounter number val)) ;;
    Yield_ ;;
    run (c ← old_var Counter; set_Counter (add32 c 1)) ;;
    Release Testl ;;
    Yield_) ;;
  while (
    c ← run (old_var Counter);
    if c <? 12 then Yield_ ;; mret true else mret false) ;;
  val ← run (old_var Counter);
  run (print_line (SeesFinal number val)).

Definition LockTest : kcode unit :=
  fork_one (LockT_ 1) ;; fork_one (LockT_ 2) ;; fork_one (LockT_ 3) ;;
  LockT 0.

(** ** threads/semaphore_ping.cc *)

(** The address of the global semaphore. *)
Definition pingSem : positive := 1.

Definition SPingPong (msg : string) : kcode unit :=
  times 5 (
    P pingSem ;;
    run (print_line (Message msg)) ;;
    Yield_ ;;
    V pingSem ;;
    Yield_).

Definition SemaphorePing : kcode unit :=
  fork_one (SPingPong_ "ping") ;;
  SPingPong "pong".

(** ** Running them *)

Definition old_call (f : old_fun) : kcode unit :=
  match f with
  | PingPong_ msg => PingPong msg
  | LockT_ number => LockT number
  | SPingPong_ msg => SPingPong msg
  end.

(** [Initialize], without the timer, and the end of [main]. *)
Definition old_main (test : kcode unit) : kcode unit :=
  run (modify (set_threadToBeDestroyed None)) ;;
  t ← run (Thread_new []);
  run (modify (set_currentThread t)) ;;
  run (setStatus t RUNNING) ;;
  Enable ;;
  test ;;
  ThreadFinish.

Definition old_boot : K :=
  MkKernel (MkHardware Interrupt_new Statistics_new) 1%positive None Spec.empty ∅
    {[ pingSem := MkSemaphore 1 Spec.empty ]} {[ Testl := MkLock false None Spec.empty ]} ∅
    (MkOld 0 None None []).

Fixpoint old_execute (n : nat) (c : config (S := K) (F := old_fun)) : K * option fault :=
  match n with
  | O => (state c, None)
  | S n =>
      match step current_Yield old_call start c with
      | Ok c' => old_execute n c'
      | Fault f => (state c, Some f)
      end
  end.

(** The state at the end, and how the program ended. *)
Definition old_run (n : nat) (test : kcode unit) : K * option fault :=
  old_execute n (Config old_boot (old_main test) ∅).
Definition shown (k : K) : list line := reverse (printed_lines (user k)).

(** ** How they end *)

Definition old_result (n : nat) (test : kcode unit) : list line * option fault :=
  let '(k, r) := old_run n test in (shown k, r).

Definition ping_pong : list line := concat (replicate 5 [Message "pong"; Message "ping"]).

(** Every thread of [LockTest] sees the counter at the value that the one
    before it has left, and all of them see the number of all rounds at the
    end. *)
Theorem LockTest_prints : ∃ n, old_result n LockTest
  = (((λ i, SeesCounter (i mod 4) i) <$> seqZ 0 12)
     ++ [SeesFinal 2 12; SeesFinal 1 12; SeesFinal 0 12; SeesFinal 3 12], Some Halted).
Proof. exists 3000%nat. vm_compute. reflexivity. Qed.

(** The threads of [SemaphorePing] take turns. *)
Theorem SemaphorePing_prints : ∃ n, old_result n SemaphorePing = (ping_pong, Some Halted).
Proof. exists 3000%nat. vm_compute. reflexivity. Qed.

(** So do those of [Ping], but the one that prints ping never ends: it waits
    for a signal behind its last round, and when nothing else can happen, the
    machine is halted with it on the queue of the condition. *)
Theorem Ping_blocks : ∃ n k t, old_run n Ping = (k, Some Halted)
  ∧ shown k = ping_pong
  ∧ th_status <$> threads k !! t = Some BLOCKED
  ∧ (c ← cv (user k); x ← conditions k !! c; Some (Spec.elems (blocked x)))%stdpp = Some [(0, t)].
Proof.
  exists 3000%nat. eexists. exists 2%positive. split; [vm_compute; reflexivity|].
  split; [vm_compute; reflexivity|]. split; vm_compute; reflexivity.
Qed.
