(* ===== verification/Debugger.v ===== *)
(** * machine/machine.cc, machine/interrupt.cc: the debugger

    [Machine::Debugger], which [Run] calls between two instructions, the
    commands of the user, and what it prints of the machine and of the pending
    interrupts. *)
From Stdlib Require Import String Ascii.
From stdpp Require Import strings pretty.
From S2P Require Import Prelude Word NList Machine Interrupt Disasm CommandLine.
#[local] Open Scope string_scope.
#[local] Open Scope Z_scope.

(** ** What is printed *)

(** [Machine::DumpState]. *)
Definition dump_register (registers : list Z) (i : Z) : res (list call) :=
  r ← aread registers i;
  let ends := Str (if Z.rem i 4 =? 3 then newline else EmptyString) in
  Ok [(if i =? StackReg then tab +:+ "SP(%d):" +:+ tab +:+ "0x%x%s"
       else if i =? RetAddrReg then tab +:+ "RA(%d):" +:+ tab +:+ "0x%x%s"
       else tab +:+ "%d:" +:+ tab +:+ "0x%x%s", [Int i; Int r; ends])].
Fixpoint dump_registers (n : nat) (i : Z) (registers : list Z) : res (list call) :=
  match n with
  | O => Ok []
  | S n => c ← dump_register registers i; cs ← dump_registers n (i + 1) registers; Ok (c ++ cs)%list
  end.
Definition dump_special (registers : list Z) (name : string) (r : Z) (ends : string) : res (list call) :=
  v ← aread registers r; Ok [(tab +:+ name +:+ ":" +:+ tab +:+ "0x%x" +:+ ends, [Int v])].
Definition Machine_DumpState (registers : list Z) : res (list call) :=
  gp ← dump_registers (Z.to_nat NumGPRegs) 0 registers;
  hi ← dump_special registers "Hi" HiReg EmptyString;
  lo ← dump_special registers "Lo" LoReg newline;
  pc ← dump_special registers "PC" PCReg EmptyString;
  next ← dump_special registers "NextPC" NextPCReg EmptyString;
  prev ← dump_special registers "PrevPC" PrevPCReg newline;
  load ← dump_special registers "Load" LoadReg EmptyString;
  loadv ← dump_special registers "LoadV" LoadValueReg newline;
  Ok (("Machine registers:" +:+ newline, [])
      :: gp ++ hi ++ lo ++ pc ++ next ++ prev ++ load ++ loadv ++ [(newline, [])])%list.

Definition intLevelNames (level : IntStatus) : string :=
  match level with IntOff => "off" | IntOn => "on" end.
Definition intTypeNames (type : IntType) : string :=
  match type with
  | TimerInt => "timer"
  | DiskInt => "disk"
  | ConsoleWriteInt => "console write"
  | ConsoleReadInt => "console read"
  | NetworkSendInt => "network send"
  | NetworkRecvInt => "network recv"
  end.
Definition PrintPending {F} (pend : PendingInterrupt F) : list call :=
  [("Interrupt handler %s, scheduled at %d" +:+ newline, [Str (intTypeNames (type_ pend)); Int (when_ pend)])].

(** [Interrupt::DumpState]; [pending] are the elements of the list. *)
Definition Interrupt_DumpState {F} (totalTicks : Z) (level : IntStatus) (pending : list (PendingInterrupt F))
    : list call :=
  ([("Time: %d, interrupts %s" +:+ newline, [Int totalTicks; Str (intLevelNames level)]);
    ("Pending interrupts:" +:+ newline, [])]
   ++ concat (PrintPending <$> pending)
   ++ [("End of pending interrupts" +:+ newline, [])])%list.

(** ** The commands *)

(** What [sscanf] with [%d] finds at the start of a line. *)
Fixpoint scan_int (s : string) : option Z :=
  match s with
  | EmptyString => None
  | String c s' =>
      if is_space c then scan_int s'
      else
        let number (s : string) (sign : Z) :=
          match s with
          | EmptyString => None
          | String c _ => match digit c with Some _ => Some (saturate (sign * digits s 0)) | None => None end
          end in
        if Ascii.eqb c "-" then number s' (-1)
        else if Ascii.eqb c "+" then number s' 1
        else number s 1
  end.

Record debugger := MkDebugger { singleStep : bool; runUntilTime : Z }.

(** The answer to a line, which [fgets] has read. *)
Definition debugger_command (buf : string) (d : debugger) : debugger * list call :=
  match scan_int buf with
  | Some num => (MkDebugger (singleStep d) num, [])
  | None =>
      match buf with
      | String c _ =>
          if Ascii.eqb c "c" then (MkDebugger false 0, [])
          else if Ascii.eqb c "?" then
            (MkDebugger (singleStep d) 0,
             [("Machine commands:" +:+ newline, []);
              ("    <return>  execute one instruction" +:+ newline, []);
              ("    <number>  run until the given timer tick" +:+ newline, []);
              ("    c         run until completion" +:+ newline, []);
              ("    ?         print help message" +:+ newline, [])])
          else (MkDebugger (singleStep d) 0, [])
      | EmptyString => (MkDebugger (singleStep d) 0, [])
      end
  end.

Definition Debugger {F} (totalTicks : Z) (level : IntStatus) (pending : list (PendingInterrupt F))
    (registers : list Z) (buf : string) (d : debugger) : res (debugger * list call) :=
  state ← Machine_DumpState registers;
  let '(d, help) := debugger_command buf d in
  Ok (d, Interrupt_DumpState totalTicks level pending ++ state ++ ("%d> ", [Int totalTicks]) :: help)%list.

(** The test of [Run], after an instruction that has ended at [totalTicks]. *)
Definition stops_at (d : debugger) (totalTicks : Z) : bool := singleStep d && (runUntilTime d <=? totalTicks).

(** The times at which the user is asked, when instructions end at [times] and
    the user types [lines]. *)
Fixpoint session (d : debugger) (times : list Z) (lines : list string) : list Z :=
  match times with
  | [] => []
  | t :: times =>
      if stops_at d t then
        match lines with
        | [] => [t]
        | buf :: lines => t :: session (debugger_command buf d).1 times lines
        end
      else session d times lines
  end.

(** ** What the commands mean *)

Fixpoint from_time (n : Z) (times : list Z) : list Z :=
  match times with
  | [] => []
  | t :: ts => if n <=? t then times else from_time n ts
  end.

Lemma session_from b n times lines :
  session (MkDebugger true n) times lines = session (MkDebugger true n) (from_time n times) lines
  ∧ session (MkDebugger false b) times lines = [].
Proof.
  induction times as [|t times [IH1 IH2]]; [done|]. split; simpl; [|done].
  unfold stops_at. simpl. destruct (n <=? t) eqn:E; [|done]. simpl. unfold stops_at. simpl. by rewrite E.
Qed.

(** Where a line lets the program run to; [None] is its end. *)
Definition target (buf : string) : option Z :=
  match scan_int buf, buf with
  | Some n, _ => Some n
  | None, String c _ => if Ascii.eqb c "c" then None else Some 0
  | None, EmptyString => Some 0
  end.

(** When the user is asked, a number lets the program run to the first
    instruction that ends at that time or later, a line that begins with c to
    its end, and any other line, the one that asks for help included, for one
    instruction: every time is 0 or later. *)
Theorem session_command d t times buf lines :
  stops_at d t = true →
  session d (t :: times) (buf :: lines)
  = t :: match target buf with
         | Some n => session (MkDebugger true n) (from_time n times) lines
         | None => []
         end.
Proof.
  intros Hs. cbn [session]. rewrite Hs. f_equal.
  unfold stops_at in Hs. apply andb_true_iff in Hs as [Hs _]. unfold debugger_command, target. rewrite Hs.
  destruct (scan_int buf) as [n|]; [apply (session_from 0)|].
  destruct buf as [|c buf]; [apply (session_from 0)|].
  destruct (Ascii.eqb c "c"); [apply (session_from 0 0)|].
  destruct (Ascii.eqb c "?"); apply (session_from 0).
Qed.

(** Four instructions: the user lets the second one run alone and the others
    up to the time 35. *)
Example session_demo : session (MkDebugger true 0) [10; 20; 30; 40] [newline; "35" +:+ newline; "c" +:+ newline] = [10; 20; 40].
Proof. reflexivity. Qed.
