(* ===== verification/CondCodes.v ===== *)
(** * bin/execute.c: the condition codes

    Four macros that compute the flags of an older machine: negative, zero,
    overflow and carry, without a wider integer. *)
From S2P Require Import Prelude Word.

Record flags := MkFlags { N : bool; Z_ : bool; V : bool; C : bool }.

(** [b31(z)], as a truth value of its bit. *)
Definition b31 (z : Z) : bool := ctrue (Z.land (Z.shiftr z 31) 0x1).

Definition cc_add (rr op1 op2 : Z) : flags :=
  MkFlags (rr <? 0) (rr =? 0)
    ((0 <=? Z.lxor op1 op2) && (Z.lxor op1 rr <? 0))
    (u32 rr <? u32 op2).

Definition cc_sub (rr op1 op2 : Z) : flags :=
  MkFlags (rr <? 0) (rr =? 0)
    (b31 (Z.lor (Z.land (Z.land op1 (Z.lnot op2)) (Z.lnot rr)) (Z.land (Z.land (Z.lnot op1) op2) rr)))
    (u32 op1 <? u32 op2).

Definition cc_logic (rr : Z) : flags := MkFlags (rr <? 0) (rr =? 0) false false.

Definition cc_mulscc (rr op1 op2 : Z) : flags :=
  MkFlags (rr <? 0) (rr =? 0)
    (b31 (Z.lor (Z.land (Z.land op1 op2) (Z.lnot rr)) (Z.land (Z.land (Z.lnot op1) (Z.lnot op2)) rr)))
    (b31 (Z.lor (Z.land op1 op2) (Z.land (Z.lnot rr) (Z.lor op1 op2)))).

(** ** What they mean *)

(** The flags of a result: the exact value of the operation on the numbers
    with sign, and on those without. *)
Definition flags_of (signed unsigned : Z) : flags :=
  MkFlags (s32 signed <? 0) (s32 signed =? 0)
    (negb ((- 2 ^ 31 <=? signed) && (signed <? 2 ^ 31)))
    (negb ((0 <=? unsigned) && (unsigned <? 2 ^ 32))).

Lemma b31_testbit z : b31 z = Z.testbit z 31.
Proof.
  unfold b31. change 0x1 with (2 ^ 0). rewrite ctrue_land_bit by done. by rewrite Z.shiftr_spec.
Qed.

Lemma s32_wrap z : - 2 ^ 32 <= z < 2 ^ 32 →
  s32 z = if z <? - 2 ^ 31 then z + 2 ^ 32 else if z <? 2 ^ 31 then z else z - 2 ^ 32.
Proof.
  intros Hz. unfold s32. destruct (Z.ltb_spec z (- 2 ^ 31)); [|destruct (Z.ltb_spec z (2 ^ 31))].
  - rewrite <- (Z_mod_plus_full _ 1), Z.mod_small; lia.
  - rewrite Z.mod_small; lia.
  - rewrite <- (Z_mod_plus_full _ (-1)), Z.mod_small; lia.
Qed.

(** The bits 31 are the signs, and the signs are decided by the ranges. *)
Ltac signs :=
  repeat rewrite ?b31_testbit, ?Z.lor_spec, ?Z.land_spec, ?Z.lnot_spec by done;
  rewrite ?in_s32_sign by first [assumption | apply s32_range];
  unfold in_s32 in *; rewrite ?u32_of_s32 by first [assumption | apply s32_range];
  rewrite ?s32_wrap by lia.
Ltac flags_done :=
  repeat match goal with |- context [if ?x <? ?y then _ else _] => destruct (Z.ltb_spec x y) end;
  repeat match goal with
  | |- context [?x <? ?y] => destruct (Z.ltb_spec x y)
  | |- context [?x <=? ?y] => destruct (Z.leb_spec x y)
  end; simpl; try reflexivity; exfalso; lia.

Lemma cc_add_correct a b : in_s32 a → in_s32 b → cc_add (add32 a b) a b = flags_of (a + b) (u32 a + u32 b).
Proof.
  intros Ha Hb. unfold cc_add, flags_of, add32. f_equal.
  - assert ((0 <=? Z.lxor a b) = Bool.eqb (a <? 0) (b <? 0)) as ->.
    { pose proof (Z.lxor_nonneg a b). destruct (Z.leb_spec 0 (Z.lxor a b)), (Z.ltb_spec a 0), (Z.ltb_spec b 0);
        simpl; try done; lia. }
    assert ((Z.lxor a (s32 (a + b)) <? 0) = negb (Bool.eqb (a <? 0) (s32 (a + b) <? 0))) as ->.
    { pose proof (Z.lxor_nonneg a (s32 (a + b))).
      destruct (Z.ltb_spec (Z.lxor a (s32 (a + b))) 0), (Z.ltb_spec a 0), (Z.ltb_spec (s32 (a + b)) 0);
        simpl; try done; lia. }
    signs. flags_done.
  - rewrite u32_s32. pose proof (u32_range a). pose proof (u32_range b).
    assert (u32 (a + b) = if u32 a + u32 b <? 2 ^ 32 then u32 a + u32 b else u32 a + u32 b - 2 ^ 32) as ->.
    { unfold u32, in_u32 in *. rewrite Z.add_mod by done. destruct (Z.ltb_spec (a mod 2 ^ 32 + b mod 2 ^ 32) (2 ^ 32)).
      - apply Z.mod_small. lia.
      - rewrite <- (Z_mod_plus_full _ (-1)). apply Z.mod_small. lia. }
    unfold in_u32 in *. flags_done.
Qed.

Lemma cc_sub_correct a b : in_s32 a → in_s32 b → cc_sub (sub32 a b) a b = flags_of (a - b) (u32 a - u32 b).
Proof.
  intros Ha Hb. unfold cc_sub, flags_of, sub32. f_equal.
  - signs. flags_done.
  - pose proof (u32_range a). pose proof (u32_range b). unfold in_u32 in *. flags_done.
Qed.

Lemma cc_mulscc_correct a b : in_s32 a → in_s32 b → cc_mulscc (add32 a b) a b = flags_of (a + b) (u32 a + u32 b).
Proof.
  intros Ha Hb. unfold cc_mulscc, flags_of, add32. f_equal; signs; flags_done.
Qed.

(** The flags that the macros compute of a sum and of a difference
    of 32 bits, from the operands and the result alone, are those of the exact
    value: the sign and whether the result is zero, the overflow when the
    value of the operands with sign does not fit, and the carry or borrow when
    that of the operands without sign does not. *)
Theorem condition_codes_correct a b (Ha : in_s32 a) (Hb : in_s32 b) :
  cc_add (add32 a b) a b = flags_of (a + b) (u32 a + u32 b)
  ∧ cc_mulscc (add32 a b) a b = flags_of (a + b) (u32 a + u32 b)
  ∧ cc_sub (sub32 a b) a b = flags_of (a - b) (u32 a - u32 b).
Proof. auto using cc_add_correct, cc_mulscc_correct, cc_sub_correct. Qed.

(** The largest number and one more. *)
Lemma condition_codes_correct_witness :
  cc_add (add32 0x7fffffff 1) 0x7fffffff 1 = MkFlags true false true false
  ∧ cc_mulscc (add32 (-1) 1) (-1) 1 = MkFlags false true false true.
Proof.
  split.
  - apply (condition_codes_correct 0x7fffffff 1); unfold in_s32; lia.
  - apply (condition_codes_correct (-1) 1); unfold in_s32; lia.
Defined.
