(* ===== verification/Exceptions.v ===== *)
(** * userprog/exception.cc, userprog/progtest.cc: system calls and exceptions

    What the kernel does for a user program, and the loop of
    [Machine::Run] that executes it.  An instruction that raises an exception
    does nothing after the handler; the machine notes the exception, and the
    handler, which may switch threads, runs after the instruction. *)
From S2P Require Import Prelude Word NList Bitmap Machine Mips Coro Interrupt Threads Synch Directory UserState MemoryMgr AddrSpace Pcb.

(** userprog/syscall.h *)
Definition SC_Halt : Z := 0.
Definition SC_Exit : Z := 1.
Definition SC_Exec : Z := 2.
Definition SC_Join : Z := 3.
Definition SC_Create : Z := 4.
Definition SC_Open : Z := 5.
Definition SC_Read : Z := 6.
Definition SC_Write : Z := 7.
Definition SC_Close : Z := 8.
Definition SC_Fork : Z := 9.
Definition SC_Yield : Z := 10.
Definition SC_Kill : Z := 11.
Definition ConsoleInput : Z := 0.
Definition ConsoleOutput : Z := 1.

(** A [char] array as a string: without a terminator it is read beyond its
    end. *)
Definition c_str (buffer : list Z) : res (list Z) :=
  if bool_decide (0 ∈ buffer) then Ok (c_string buffer) else Fault OutOfBounds.

Section exceptions.
Context {V : Type} `{!Files V}.
#[local] Abbreviation U := (UserKernel V).
#[local] Abbreviation K := (Kernel user_fun (UserKernel V)).
#[local] Abbreviation kcode := (code (Kernel user_fun (UserKernel V)) user_fun).

Definition read_reg (i : Z) : kcode Z := run_user (on_machine (ReadRegister i)).
Definition write_reg (i v : Z) : kcode unit := run_user (on_machine (WriteRegister i v)).

(** [currentThread->space], and its [thisPCB]. *)
Definition current_space : kcode positive :=
  run (t ← current; th ← thread t; lift (deref (space th))).
Definition pcb_of (sp : positive) : kcode positive :=
  a ← run_user (space_at sp); mret (thisPCB a).
Definition pid_of (p : positive) : kcode Z := x ← run_user (pcb_at p); mret (PID x).

(** The start of every system call. *)
Definition invoked (call : Z) : kcode (positive * positive * Z) :=
  sp ← current_space;
  p ← pcb_of sp;
  pid ← pid_of p;
  run_user (print (Invoked pid call)) ;;
  mret (sp, p, pid).

Definition UpdatePCRegs : kcode unit :=
  pcreg ← read_reg PCReg;
  prevpcreg ← read_reg PrevPCReg;
  nextpcreg ← read_reg NextPCReg;
  write_reg PCReg (add32 pcreg 4) ;;
  write_reg PrevPCReg (add32 prevpcreg 4) ;;
  write_reg NextPCReg (add32 nextpcreg 4).

(** [machine->WriteRegister(2, v); UpdatePCRegs(); return;] *)
Definition answer (v : Z) : kcode unit := write_reg 2 v ;; UpdatePCRegs.

(** The string at the address in register 4. *)
Definition read_filename (sp : positive) : kcode (list Z) :=
  filenameAddr ← read_reg 4;
  '(_, buffer) ← ReadString sp filenameAddr (uninit 256) 256;
  run (lift (c_str buffer)).

(** ** Processes *)

Definition ExitSystemcall : kcode unit :=
  sp ← current_space;
  p ← pcb_of sp;
  val ← read_reg 4;
  pid ← pid_of p;
  run_user (print (Invoked pid SC_Exit)) ;;
  run_user (print (Exited pid val)) ;;
  run_user (RemoveChildParentPCB p) ;;
  run_user (RemoveParentPCBChild p val) ;;
  RemovePCB p ;;
  GetNumFreePCBs ;;
  ReleaseMemory sp ;;
  GetNumFreePages ;;
  run_user (AddrSpace_delete sp) ;;
  run_user (PCB_delete p) ;;
  t ← run current;
  Finish t.

Definition set_space (t : tid) (sp : positive) : M K unit :=
  th ← thread t;
  set_thread t (MkThread (stack th) (machineState th) (th_status th) (userRegisters th) (Some sp)).

(** From [new Thread] on. *)
Definition fork_child (sp p child childSpace : positive) (pid : Z) : kcode unit :=
  childThread ← run (Thread_new (uninit NumTotalRegs));
  run (set_space childThread childSpace) ;;
  run_user (set_thisThread child childThread) ;;
  c ← run_user (pcb_at child);
  run_user (set_family child (Some p) (childrenPCB c) (childExitValue c)) ;;
  run_user (AppendChildPCB p child) ;;
  run_user (PrintPCB p) ;;
  run_user (PrintPCB child) ;;
  childPCReg ← read_reg 4;
  a ← run_user (space_at childSpace);
  run_user (print (ForkStarted pid childPCReg (numPages a))) ;;
  write_reg PCReg childPCReg ;;
  write_reg NextPCReg (add32 childPCReg 4) ;;
  write_reg PrevPCReg (sub32 childPCReg 4) ;;
  run_user (SaveUserRegisters childSpace) ;;
  Fork childThread (Dummy_ 0) ;;
  run_user (RestoreUserRegisters sp) ;;
  c ← run_user (pcb_at child);
  answer (PID c).

Definition ForkSystemcall : kcode unit :=
  '(sp, p, pid) ← invoked SC_Fork;
  run_user (SaveUserRegisters sp) ;;
  child ← CreatePCB;
  match child with
  | None => answer (-1)
  | Some child =>
      childSpace ← AddrSpace_Fork sp child;
      fork_child sp p child childSpace pid
  end.

Definition ExecSystemcall : kcode unit :=
  '(sp, p, pid) ← invoked SC_Exec;
  filename ← read_filename sp;
  run_user (print (ExecLoading pid filename)) ;;
  executable ← run_user (on_files (fs_Open filename));
  match executable with
  | None =>
      answer (-1) ;;
      run (fail AssertFailed)
  | Some exe =>
      replaceSuccess ← ReplaceMemory sp exe filename;
      if negb replaceSuccess then answer (-1)
      else
        run_user (on_files (of_delete exe)) ;;
        run_user (InitRegisters sp) ;;
        run_user (RestoreState sp) ;;
        write_reg 2 1
  end.

Definition YieldSystemcall : kcode unit :=
  invoked SC_Yield ;;
  CallYield (Ret tt) ;;
  UpdatePCRegs.

(** [while (processMgr->IsSet(joinPID)) currentThread->Yield();] *)
Definition wait_for (joinPID : Z) : kcode unit :=
  while (
    alive ← IsSet joinPID;
    if alive : bool then CallYield (Ret tt) ;; mret true else mret false).

Definition JoinSystemcall : kcode unit :=
  sp ← current_space;
  p ← pcb_of sp;
  joinPID ← read_reg 4;
  pid ← pid_of p;
  run_user (print (Invoked pid SC_Join)) ;;
  total ← run_user (gets (λ u, NumTotalPID (processMgr u)));
  if (joinPID <? 0) || (total <=? joinPID) then answer (-1)
  else
    run_user (PrintPCB p) ;;
    child ← run_user (GetChildPCB p joinPID);
    match child with
    | None => answer (-1)
    | Some child =>
        run_user (PrintPCB p) ;;
        run_user (PrintPCB child) ;;
        c ← run_user (pcb_at child);
        q ← run (lift (deref (parentPCB c)));
        parentPID ← pid_of q;
        (if negb (parentPID =? pid) then write_reg 2 (-1) ;; run (lift (ASSERT false))
         else mret tt) ;;
        wait_for joinPID ;;
        run_user (PrintPCB p) ;;
        x ← run_user (pcb_at p);
        answer (childExitValue x)
    end.

(** Killing another process. *)
Definition kill_process (p : positive) (pid killPID : Z) : kcode unit :=
  run_user (PrintPCB p) ;;
  x ← run_user (pcb_at p);
  killThread ← run (lift (deref (thisThread x)));
  th ← run (thread killThread);
  killSpace ← run (lift (deref (space th)));
  run_user (RemoveChildParentPCB p) ;;
  run_user (RemoveParentPCBChild p (-1)) ;;
  RemovePCB p ;;
  GetNumFreePCBs ;;
  ReleaseMemory killSpace ;;
  GetNumFreePages ;;
  run_user (AddrSpace_delete killSpace) ;;
  run_user (PCB_delete p) ;;
  run (RemoveThread killThread) ;;
  answer 0.

Definition KillSystemcall : kcode unit :=
  sp ← current_space;
  p ← pcb_of sp;
  killPID ← read_reg 4;
  pid ← pid_of p;
  run_user (print (Invoked pid SC_Kill)) ;;
  killPCB ← GetPCB killPID;
  match killPCB with
  | Some q =>
      run_user (print (Killed pid killPID)) ;;
      if killPID =? pid then
        ExitSystemcall ;;
        write_reg 2 0
      else kill_process q pid killPID
  | None =>
      run_user (print (CannotKill pid killPID)) ;;
      answer (-1)
  end.

(** ** Files *)

Definition CreateSystemcall : kcode unit :=
  '(sp, p, pid) ← invoked SC_Create;
  filename ← read_filename sp;
  run_user (on_files (fs_Create filename 0)) ;;
  UpdatePCRegs.

(** The entry of the system's table, a new one if the file has none. *)
Definition open_sof (p : positive) (filename : list Z) (sofIndex pofIndex : Z) : M K Z :=
  if sofIndex =? -1 then
    lift (ASSERT (pofIndex =? -1)) ;;
    freePOF ← on_user (GetNumFreePOF p);
    full ← (if freePOF =? 0 then mret true
            else n ← on_user GetNumFreeSOF; mret (n =? 0));
    if full : bool then mret (-1) else CreateSOF filename
  else mret sofIndex.

Definition OpenSystemcall : kcode unit :=
  '(sp, p, pid) ← invoked SC_Open;
  filename ← read_filename sp;
  sofIndex ← run_user (FindSOFByName filename);
  pofIndex ← run_user (FindPOFByName p filename);
  sofIndex ← run (open_sof p filename sofIndex pofIndex);
  if sofIndex =? -1 then answer (-1)
  else
    pofIndex ← (if pofIndex =? -1 then run_user (CreatePOF p sofIndex filename)
                else mret pofIndex);
    if pofIndex =? -1 then answer (-1)
    else
      run_user (IncSOFCounter sofIndex) ;;
      answer (add32 pofIndex 2).

Definition CloseSystemcall : kcode unit :=
  '(sp, p, pid) ← invoked SC_Close;
  id ← read_reg 4;
  let pofIndex := sub32 id 2 in
  sofIndex ← run_user (GetPOFsofIndex p pofIndex);
  run_user (RemovePOF p pofIndex) ;;
  run_user (RemoveSOF sofIndex) ;;
  UpdatePCRegs.

(** [new char[size + 1]]. *)
Definition new_buffer (size : Z) : res (list Z) :=
  if size + 1 <? 0 then Fault OutOfBounds else Ok (uninit (size + 1)).
Definition terminate (buffer : list Z) (size : Z) : res (list Z) := awrite buffer size 0.

Definition WriteSystemcall : kcode unit :=
  '(sp, p, pid) ← invoked SC_Write;
  virtAddr ← read_reg 4;
  size ← read_reg 5;
  pofIndex ← read_reg 6;
  buffer ← run (lift (new_buffer size));
  buffer ← userReadWrite sp buffer virtAddr size FromMemory;
  buffer ← run (lift (terminate buffer size));
  (if pofIndex =? ConsoleOutput then run_user (print (ConsolePrint (c_string buffer)))
   else if pofIndex =? ConsoleInput then mret tt
   else if 2 <=? pofIndex then
     let i := pofIndex - 2 in
     isOpen ← run_user (TestPOF p i);
     if isOpen : bool then
       sofIndex ← run_user (GetPOFsofIndex p i);
       off ← run_user (GetPOFoffset p i);
       WriteSOF buffer size off sofIndex ;;
       run_user (SetPOFoffset p i (add32 off size))
     else mret tt
   else mret tt) ;;
  UpdatePCRegs.

(** [buffer[i] = getchar()] for all [i] below [size]. *)
Fixpoint getchars (n : nat) : M V (list Z) :=
  match n with
  | O => mret []
  | S n' => c ← getchar; l ← getchars n'; mret (c mod 256 :: l)
  end.

Definition ReadSystemcall : kcode unit :=
  '(sp, p, pid) ← invoked SC_Read;
  virtAddr ← read_reg 4;
  size ← read_reg 5;
  pofIndex ← read_reg 6;
  buffer ← run (lift (new_buffer size));
  (if pofIndex =? ConsoleInput then
     chars ← run_user (on_files (getchars (Z.to_nat size)));
     buffer ← run (lift (b ← read_into (size + 1) chars buffer; terminate b size));
     userReadWrite sp buffer virtAddr size IntoMemory ;;
     mret tt
   else if pofIndex =? ConsoleOutput then mret tt
   else if 2 <=? pofIndex then
     let i := pofIndex - 2 in
     isOpen ← run_user (TestPOF p i);
     if isOpen : bool then
       sofIndex ← run_user (GetPOFsofIndex p i);
       off ← run_user (GetPOFoffset p i);
       data ← ReadSOF size off sofIndex;
       buffer ← run (lift (b ← read_into (size + 1) data buffer; terminate b size));
       userReadWrite sp buffer virtAddr size IntoMemory ;;
       run_user (SetPOFoffset p i (add32 off (zlen data))) ;;
       write_reg 2 (zlen data)
     else mret tt
   else mret tt) ;;
  UpdatePCRegs.

(** ** Faults of the memory *)

Definition with_VMLock (f : positive → Z → kcode unit) : kcode unit :=
  l ← run_user (gets VMLock);
  Acquire l ;;
  sp ← current_space;
  pcb_of sp ;;
  virtAddr ← read_reg BadVAddrReg;
  f sp virtAddr ;;
  Release l.

Definition PageFaultHandler : kcode unit := with_VMLock PageIn.
Definition ReadOnlyExceptionHandler : kcode unit := with_VMLock COW.

(** ** [ExceptionHandler] *)

Definition syscall (type : Z) : option (kcode unit) :=
  if type =? SC_Halt then Some (run Halt)
  else if type =? SC_Exit then Some ExitSystemcall
  else if type =? SC_Fork then Some ForkSystemcall
  else if type =? SC_Exec then Some ExecSystemcall
  else if type =? SC_Yield then Some YieldSystemcall
  else if type =? SC_Join then Some JoinSystemcall
  else if type =? SC_Kill then Some KillSystemcall
  else if type =? SC_Create then Some CreateSystemcall
  else if type =? SC_Open then Some OpenSystemcall
  else if type =? SC_Close then Some CloseSystemcall
  else if type =? SC_Write then Some WriteSystemcall
  else if type =? SC_Read then Some ReadSystemcall
  else None.

Definition ExceptionHandler (which : ExceptionType) : kcode unit :=
  type ← read_reg 2;
  match which with
  | SyscallException =>
      match syscall type with
      | Some c => c
      | None => run (lift (ASSERT false))
      end
  | PageFaultException => PageFaultHandler
  | ReadOnlyException => ReadOnlyExceptionHandler
  | _ => run (lift (ASSERT false))
  end.

(** ** machine/mipssim.cc: [Run] *)

(** The machine notes the exception. *)
Definition note_exception (which : ExceptionType)
    : M (Machine (option ExceptionType)) unit :=
  modify (λ m, MkMachine (mainMemory m) (registers m) (tlb m) (pageTable m) (pageTableSize m)
                 (tables m) (status m) (Some which)).
Definition take_exception : M (Machine (option ExceptionType)) (option ExceptionType) :=
  m ← get;
  put (MkMachine (mainMemory m) (registers m) (tlb m) (pageTable m) (pageTableSize m)
         (tables m) (status m) None) ;;
  mret (kernel m).

Definition user_instruction : kcode unit :=
  run_user (on_machine (OneInstruction false note_exception)) ;;
  which ← run_user (on_machine take_exception);
  match which with
  | Some which =>
      run (setStatus_ SystemMode) ;;
      ExceptionHandler which ;;
      run (setStatus_ UserMode)
  | None => mret tt
  end.

Definition Machine_Run : kcode unit :=
  run (setStatus_ UserMode) ;;
  while (user_instruction ;; OneTick ;; mret true).

(** The body of a forked process. *)
Definition Dummy (d : Z) : kcode unit :=
  sp ← current_space;
  run_user (RestoreUserRegisters sp) ;;
  run_user (RestoreState sp) ;;
  Machine_Run.

Definition user_call (f : user_fun) : kcode unit := match f with Dummy_ d => Dummy d end.

(** userprog/progtest.cc: the table entry of the process is printed before it
    is known to exist. *)
Definition StartProcess (filename : list Z) : kcode unit :=
  executable ← run_user (on_files (fs_Open filename));
  match executable with
  | None => mret tt
  | Some exe =>
      newPCB ← CreatePCB;
      p ← run (lift (deref newPCB));
      t ← run current;
      run_user (set_thisThread p t) ;;
      run_user (PrintPCB p) ;;
      sp ← run_user (AddrSpace_new exe p filename);
      run (set_space t sp) ;;
      run_user (on_files (of_delete exe)) ;;
      run_user (InitRegisters sp) ;;
      run_user (RestoreState sp) ;;
      Machine_Run ;;
      run (lift (ASSERT false))
  end.

(** One step of the kernel with its user programs. *)
Definition user_step : config (S := K) (F := user_fun) → res config :=
  step current_Yield user_call start.
End exceptions.

(** ** Starting a kernel for user programs

    threads/system.cc with the build flags USER_PROGRAM and FILESYS_STUB,
    and the [-x] of threads/main.cc. *)
Section startup.
Context {V : Type} `{!Files V}.
#[local] Abbreviation K := (Kernel user_fun (UserKernel V)).
#[local] Abbreviation kcode := (code (Kernel user_fun (UserKernel V)) user_fun).

Definition empty_bits : Impl.BitMap := Impl.MkBitMap 0 0 [].

(** Before [main]: the global lock [VMLock] exists; what [Initialize] makes
    is still [NULL]. *)
Definition user_boot (fs : V) (m : Machine (option ExceptionType)) : K :=
  MkKernel (MkHardware Interrupt_new Statistics_new) 1%positive None Spec.empty ∅ ∅
    {[ 1%positive := MkLock false None Spec.empty ]} ∅
    (MkUser m ∅ ∅ ∅ ∅ (MkProcessMgr 0 empty_bits [] 1%positive)
       (MkMemoryMgr empty_bits 1%positive [] [] 0) (MkSOFMgr empty_bits []) 1%positive fs []).

Definition user_Initialize (fs : V) : kcode unit :=
  run (modify (set_threadToBeDestroyed None)) ;;
  t ← run (Thread_new (uninit NumTotalRegs));
  run (modify (set_currentThread t)) ;;
  run (setStatus t RUNNING) ;;
  Enable ;;
  m ← run (lift (Machine_new false false [] None));
  run_user (modify (set_machine m)) ;;
  run MemoryMgr_new ;;
  run (ProcessMgr_new PIDMAP_SIZE) ;;
  run_user SOFMgr_new.

(** nachos -x filename *)
Definition user_main (fs : V) (filename : list Z) : kcode unit :=
  user_Initialize fs ;;
  StartProcess filename ;;
  ThreadFinish.

Definition no_machine : Machine (option ExceptionType) :=
  MkMachine [] [] None None 0 ∅ SystemMode None.

Definition user_start (fs : V) (filename : list Z) : config (S := K) (F := user_fun) :=
  Config (user_boot fs no_machine) (user_main fs filename) ∅.

Fixpoint user_execute (n : nat) (c : config (S := K) (F := user_fun)) : K * option fault :=
  match n with
  | O => (state c, None)
  | S n' =>
      match user_step c with
      | Ok c' => user_execute n' c'
      | Fault f => (state c, Some f)
      end
  end.

(** What the kernel prints, and how it ends. *)
Definition user_prints (n : nat) (fs : V) (filename : list Z) : list kevent * option fault :=
  let '(k, r) := user_execute n (user_start fs filename) in
  (reverse (kprinted (user k)), r).
End startup.
