(* ===== verification/ExecSpec.v ===== *)
(** * Exec does not return to its caller

    [ExecSystemcall] of userprog/exception.cc replaces the program of the
    process that calls it; userprog/syscall.h says that it starts another one
    and answers its identifier. *)
From S2P Require Import Prelude Word NList Bitmap Machine Mips Coro Interrupt Threads Synch UserState UnixFs MemoryMgr AddrSpace Pcb Exceptions.

(** ** Partial correctness

    [post m s Q]: if [m] ends without a fault, then with [Q]. *)
Definition post {S A} (m : M S A) (s : S) (Q : A → S → Prop) : Prop :=
  ∀ a s', m s = Ok (a, s') → Q a s'.

Section post.
Context {S : Type}.
Lemma post_mret {A} (a : A) (s : S) (Q : A → S → Prop) : Q a s → post (mret a) s Q.
Proof. by intros HQ b s' [= <- <-]. Qed.
Lemma post_bind {A B} (m : M S A) (f : A → M S B) s Q :
  post m s (λ a s', post (f a) s' Q) → post (m ≫= f) s Q.
Proof.
  unfold post, mbind, M_bind. intros H b s' Hr. destruct (m s) as [[a s1]|] eqn:E; [|done]. by eapply H.
Qed.
Lemma post_get (s : S) (Q : S → S → Prop) : Q s s → post get s Q.
Proof. by intros HQ b s' [= <- <-]. Qed.
Lemma post_modify f (s : S) (Q : unit → S → Prop) : Q tt (f s) → post (modify f) s Q.
Proof. by intros HQ b s' [= <- <-]. Qed.
Lemma post_lift {A} (r : res A) (s : S) (Q : A → S → Prop) : (∀ a, r = Ok a → Q a s) → post (lift r) s Q.
Proof. unfold post, lift. intros HQ b s' Hr. destruct r; [|done]. injection Hr as <- <-. by apply HQ. Qed.
Lemma post_mono {A} (m : M S A) s (Q Q' : A → S → Prop) : post m s Q → (∀ a s', Q a s' → Q' a s') → post m s Q'.
Proof. unfold post. eauto. Qed.

Lemma post_for_range (I : Z → S → Prop) (body : Z → M S unit) lo hi s :
  lo ≤ hi → I lo s → (∀ i s, lo ≤ i < hi → I i s → post (body i) s (λ _ s', I (i + 1) s')) →
  post (for_range lo hi body) s (λ _ s', I hi s').
Proof.
  intros Hle H0 Hstep. unfold for_range.
  assert (∀ n i s, lo ≤ i → i + Z.of_nat n = hi → I i s → post (for_ n i body) s (λ _ s', I hi s')) as Hn.
  { induction n as [|n IH]; intros i s1 Hi Hn Hs; simpl; [apply post_mret; by replace hi with i by lia|].
    apply post_bind. eapply post_mono; [apply Hstep; [lia|done]|]. intros ? s2 H2. apply IH; [lia|lia|done]. }
  apply Hn; [done|lia|done].
Qed.
End post.

Section exec.
Context {V : Type} `{!Files V}.
#[local] Abbreviation U := (UserKernel V).
#[local] Abbreviation K := (Kernel user_fun (UserKernel V)).
Variables (yield : code (Kernel user_fun (UserKernel V)) user_fun unit).
Variables (call : user_fun → code (Kernel user_fun (UserKernel V)) user_fun unit) (me : tid).
#[local] Abbreviation returns := (Coro.returns yield call start me).
Implicit Types (u : U) (k : K).

Lemma post_on_machine {A} (m : M (Machine (option ExceptionType)) A) u (Q : A → U → Prop) :
  post m (machine u) (λ a x, Q a (set_machine x u)) → post (on_machine m) u Q.
Proof.
  intros H a u' Hr. unfold on_machine, get, lift, modify, mbind, M_bind, mret, M_ret in Hr.
  destruct (m (machine u)) as [[b x]|] eqn:E; [|done]. injection Hr as <- <-. by apply H.
Qed.

Lemma post_on_files {A} (m : M V A) u (Q : A → U → Prop) :
  (∀ a v, Q a (set_files v u)) → post (on_files m) u Q.
Proof.
  intros H a u' Hr. unfold on_files, get, lift, modify, mbind, M_bind, mret, M_ret in Hr.
  destruct (m (files u)) as [[b x]|] eqn:E; [|done]. injection Hr as <- <-. by apply H.
Qed.

Lemma run_user_inv {A} (m : M U A) k a k' Q :
  returns (run_user m) k a k' → post m (user k) Q → Q a (user k').
Proof.
  intros Hr%returns_run_inv HQ. unfold on_user, get, lift, modify, mbind, M_bind, mret, M_ret in Hr.
  destruct (m (user k)) as [[b u]|] eqn:E; [|done]. injection Hr as <- <-. by apply HQ.
Qed.

(** The page table of the process is as new: no page is in a frame. *)
Definition blank sp u : Prop :=
  ∃ a, spaces u !! sp = Some a
    ∧ tables (machine u) !! pageTable_ a = Some (blank_page garbage_flag <$> seqZ 0 (numPages a)).

(** The registers a program starts with, but for the answer in register 2. *)
Definition start_register (n i : Z) : Z :=
  if i =? NextPCReg then 4 else if i =? StackReg then s32 (n * PageSize - 16) else 0.

Lemma post_WriteRegister i v u (Q : unit → U → Prop) :
  (∀ r, (∀ j, aget r j = if decide (j = i) then Some v else aget (registers (machine u)) j) →
     Q tt (set_machine (with_registers (λ _, r) (machine u)) u)) →
  post (on_machine (WriteRegister i v)) u Q.
Proof.
  intros HQ. apply post_on_machine. unfold WriteRegister, set_reg.
  apply post_bind, post_lift. intros [] _. apply post_bind, post_get. apply post_bind, post_lift.
  intros r Hr. apply post_modify, HQ. intros j. unfold awrite in Hr.
  destruct (aget (registers (machine u)) i) as [x|] eqn:E; [|done]. injection Hr as <-.
  apply aget_Some_lt in E. rewrite aget_insert by done. by repeat case_decide; subst.
Qed.

(** The process has the program that it starts anew, and the machine its page
    table. *)
Definition fresh_program sp (answer : Z) u : Prop :=
  blank sp u ∧ ∃ a, spaces u !! sp = Some a
    ∧ (∀ i, 0 ≤ i < NumTotalRegs →
         aget (registers (machine u)) i = Some (if i =? 2 then answer else start_register (numPages a) i))
    ∧ pageTable (machine u) = Some (pageTable_ a) ∧ pageTableSize (machine u) = numPages a.

Lemma blank_registers sp u r : blank sp u → blank sp (set_machine (with_registers r (machine u)) u).
Proof. done. Qed.

Lemma post_space_at sp u (Q : AddrSpace → U → Prop) :
  (∀ a, spaces u !! sp = Some a → Q a u) → post (space_at sp) u Q.
Proof.
  intros HQ. apply post_bind, post_get, post_lift. intros a. unfold deref.
  destruct (spaces u !! sp) eqn:E; [|done]. intros [= <-]. by apply HQ.
Qed.

Lemma post_replace_table sp u : post (replace_table sp) u (λ _, blank sp).
Proof.
  unfold replace_table. apply post_bind, post_space_at. intros a Ha. apply post_bind.
  apply post_bind, post_get, post_on_machine, post_modify. apply post_bind.
  apply post_bind, post_get. apply post_bind, post_on_machine, post_modify, post_mret.
  apply post_modify. eexists. split; [apply lookup_insert_eq|]. apply lookup_insert_eq.
Qed.

Lemma ReplaceMemory_inv sp exe filename k b k' :
  returns (ReplaceMemory sp exe filename) k b k' → b = true ∧ blank sp (user k').
Proof.
  unfold ReplaceMemory. intros (noffH & k1 & _ & H)%returns_bind_inv.
  apply returns_bind_inv in H as (? & k2 & _ & H). apply returns_bind_inv in H as (? & k3 & _ & H).
  apply returns_bind_inv in H as (? & k4 & Hr & H).
  pose proof (run_user_inv _ _ _ _ _ Hr (post_replace_table sp _)) as Hb. cbv beta in Hb.
  apply returns_bind_inv in H as (? & k5 & Hp & [<- <-]%returns_ret_inv).
  split; [done|]. eapply (run_user_inv _ _ _ _ (λ _, blank sp)); [exact Hp|]. by apply post_modify.
Qed.

Lemma post_InitRegisters sp u :
  blank sp u →
  post (InitRegisters sp) u (λ _ u', blank sp u' ∧ ∃ a, spaces u' !! sp = Some a
    ∧ ∀ i, 0 ≤ i < NumTotalRegs → aget (registers (machine u')) i = Some (start_register (numPages a) i)).
Proof.
  intros Hb. unfold InitRegisters. apply post_bind.
  eapply post_mono; [apply (post_for_range (λ n u, blank sp u
    ∧ ∀ i, 0 ≤ i < n → aget (registers (machine u)) i = Some 0)); [done|split; [done|lia]|]|].
  - intros i u1 Hi [Hb1 Hz]. apply post_WriteRegister. intros r Hr. split; [done|]. intros j Hj. simpl.
    rewrite Hr. case_decide; [done|]. apply Hz. lia.
  - cbv beta. intros _ u1 [Hb1 Hz]. apply post_bind, post_WriteRegister. intros r1 Hr1. apply post_bind.
    apply post_WriteRegister. intros r2 Hr2. apply post_bind, post_space_at. intros a Ha.
    apply post_WriteRegister. intros r3 Hr3. split; [done|]. exists a. split; [done|]. intros i Hi. simpl.
    rewrite Hr3. simpl. rewrite Hr2. simpl. rewrite Hr1. simpl. unfold start_register.
    destruct (Z.eqb_spec i NextPCReg) as [->|]; [done|].
    destruct (Z.eqb_spec i StackReg) as [->|]; [done|]. repeat case_decide; try done. by apply Hz.
Qed.

Lemma current_space_inv k sp k' :
  returns current_space k sp k' → ∃ th, threads k !! currentThread k = Some th ∧ space th = Some sp.
Proof.
  intros H%returns_run_inv. revert H.
  unfold current, thread, gets, get, lift, deref, mbind, M_bind, mret, M_ret.
  destruct (threads k !! currentThread k) as [th|] eqn:E; [|done]. destruct (space th) as [x|] eqn:Es; [|done].
  intros [= -> _]. eauto.
Qed.

(** C19.  A program that calls Exec does not go on: when
    [ExecSystemcall] comes back to the loop of [Machine::Run], whatever the
    other threads did whenever it had lost the processor, the process of the
    thread has a new page table, none of whose pages is in the memory, the
    machine translates with it, and the registers are those of a program that
    starts: the program counter is 0, and not behind the system call, the one
    after it is 4, and all the others are 0 but for the stack pointer and the
    answer 1 in register 2.
    So nothing of the caller is left that could take the answer.  (If there is
    no such file, ExecSystemcall does not come back either: it aborts.) *)
Theorem Exec_replaces_caller k k'
    (Hrun : returns ExecSystemcall k tt k') :
  ∃ th sp, threads k !! currentThread k = Some th ∧ space th = Some sp ∧ fresh_program sp 1 (user k').
Proof.
  unfold ExecSystemcall, invoked in Hrun.
  apply returns_bind_inv in Hrun as ([[sp p] pid] & k1 & H1 & Hrun).
  apply returns_bind_inv in H1 as (sp' & k2 & Hsp & H1).
  apply current_space_inv in Hsp as (th & Hth & Hsp). exists th.
  apply returns_bind_inv in H1 as (? & k3 & _ & H1). apply returns_bind_inv in H1 as (? & k4 & _ & H1).
  apply returns_bind_inv in H1 as (? & k5 & _ & H1). apply returns_ret_inv in H1 as [[= -> _ _] _].
  exists sp. split; [done|]. split; [done|].
  apply returns_bind_inv in Hrun as (filename & k6 & _ & H). apply returns_bind_inv in H as (? & k7 & _ & H).
  apply returns_bind_inv in H as ([exe|] & k8 & _ & H).
  2: { apply returns_bind_inv in H as (? & k9 & _ & H). by apply returns_run_inv in H. }
  apply returns_bind_inv in H as (b & k9 & Hr & H). apply ReplaceMemory_inv in Hr as [-> Hb]. cbn [negb] in H.
  apply returns_bind_inv in H as (? & k10 & Hd & H).
  assert (blank sp (user k10)) as Hb10.
  { eapply (run_user_inv _ _ _ _ (λ _, blank sp)); [exact Hd|]. by apply post_on_files. }
  apply returns_bind_inv in H as (? & k11 & Hi & H).
  pose proof (run_user_inv _ _ _ _ _ Hi (post_InitRegisters sp _ Hb10)) as (Hb11 & a & Ha & Hregs).
  apply returns_bind_inv in H as (? & k12 & Hs & H).
  eapply (run_user_inv _ _ _ _ (λ _, fresh_program sp 1)); [exact H|].
  eapply (run_user_inv _ _ _ _ (λ _ u, post (on_machine (WriteRegister 2 1)) u (λ _, fresh_program sp 1))); [exact Hs|].
  unfold RestoreState. apply post_bind, post_space_at. intros a' Ha'. rewrite Ha in Ha'. injection Ha' as <-.
  apply post_on_machine, post_modify. apply post_WriteRegister. intros r Hr. split; [done|].
  exists a. split; [done|]. split; [|done]. intros i Hi'. simpl. rewrite Hr. simpl.
  destruct (Z.eqb_spec i 2) as [->|]; [done|]. rewrite decide_False by done. by apply Hregs.
Qed.
End exec.

(** ** A process that executes its own program again

    The file "a" is an executable whose code begins with the name "a". *)
Definition exec_file : list Z :=
  concat (bytes_le 4 <$> [NOFFMAGIC; 0; NoffSize; 128; 0; NoffSize + 128; 0; 0; 0; 64]) ++ 97 :: replicate 127 0.
Definition exec_host : Unix := MkUnix {[ [97] := 1 ]} {[ 1 := exec_file ]} ∅ ∅ [].

(** What [StartProcess] does before the program runs; register 4 gets the
    address of the name, and register 8 some value. *)
Definition exec_start : code (Kernel user_fun (UserKernel Unix)) user_fun unit :=
  user_Initialize exec_host ;;
  exe ← run_user (on_files (fs_Open [97]));
  exe ← run (lift (deref exe));
  p ← CreatePCB;
  p ← run (lift (deref p));
  t ← run current;
  run_user (set_thisThread p t) ;;
  sp ← run_user (AddrSpace_new exe p [97]);
  run (set_space t sp) ;;
  run_user (on_files (of_delete exe)) ;;
  run_user (InitRegisters sp) ;;
  run_user (RestoreState sp) ;;
  write_reg PCReg 64 ;; write_reg NextPCReg 68 ;; write_reg 8 5.

Lemma eval_returns {S F A} y (cl : F → code S F unit) (st : tid → M S (option (code S F unit))) me n (c : code S F A) s :
  match eval y cl st me n c s with Done _ _ => true | _ => false end = true →
  ∃ a s', Coro.returns y cl st me c s a s'.
Proof. intros H. destruct (eval y cl st me n c s) eqn:E; try done. do 2 eexists. by eapply returns_done. Qed.

#[local] Abbreviation run_one c k := (eval current_Yield user_call start 1%positive (Z.to_nat 20000) c k).
Definition exec_kernel : Kernel user_fun (UserKernel Unix) :=
  match run_one exec_start (user_boot exec_host no_machine) with
  | Done _ k => k
  | _ => user_boot exec_host no_machine
  end.

Lemma Exec_replaces_caller_witness :
  aget (registers (machine (user exec_kernel))) PCReg = Some 64 ∧
  ∃ k', Coro.returns current_Yield user_call start 1%positive ExecSystemcall exec_kernel tt k'
    ∧ ∃ th sp, threads exec_kernel !! currentThread exec_kernel = Some th ∧ space th = Some sp
        ∧ fresh_program sp 1 (user k').
Proof.
  split; [vm_compute; reflexivity|].
  destruct (eval_returns current_Yield user_call start 1%positive (Z.to_nat 20000) ExecSystemcall exec_kernel)
    as ([] & k' & Hr); [vm_compute; reflexivity|].
  exists k'. split; [exact Hr|]. exact (Exec_replaces_caller _ _ _ exec_kernel k' Hr).
Defined.
