(* ===== verification/Shell.v ===== *)
(** * test/shell.c: the shell

    A program of the simulated machine: it prints a prompt, reads a line from
    the console, calls Exec with what is typed, waits with Join for the process
    that Exec answers, and begins again.  The model gets the characters that
    are typed, and tells the system calls it makes until it waits for more, or
    until a call does not return.  On the kernel of this repository that is the
    first Exec (file ExecSpec): it replaces the shell. *)
From S2P Require Import Prelude Word.

Definition newline : Z := 10.
Definition buffer_size : Z := 60.

(** The system calls; the prompt is [Write(prompt, 2, output)], and a [Read]
    is the consumption of a character. *)
Inductive call :=
  | WritePrompt
  | Exec (name : list Z)
  | Join (pid : Z).

(** The characters in front of the first 0. *)
Fixpoint c_chars (l : list Z) : list Z :=
  match l with
  | [] => []
  | c :: l => if c =? 0 then [] else c :: c_chars l
  end.

(** The [do] loop: the buffer, [i] and the characters that are left; [None]
    when [Read] waits for a character. *)
Fixpoint read_line (input buffer : list Z) (i : Z) : res (option (list Z * Z * list Z)) :=
  match input with
  | [] => Ok None
  | ch :: input =>
      buffer ← awrite buffer i ch;
      if ch =? newline then Ok (Some (buffer, i + 1, input)) else read_line input buffer (i + 1)
  end.

Section shell.
(** What [Exec] answers to the shell, [None] when it does not return to it. *)
Variable exec : list Z → option Z.

(** The rest of a round: the buffer and the system calls, and whether the
    shell is still there afterwards. *)
Definition execute_line (buffer : list Z) (i : Z) : res (list Z * list call * bool) :=
  let i := i - 1 in
  buffer ← awrite buffer i 0;
  Ok (if 0 <? i then
        let name := c_chars buffer in
        match exec name with
        | None => (buffer, [Exec name], false)
        | Some newProc => (buffer, [Exec name; Join newProc], true)
        end
      else (buffer, [], true)).

(** [while (1)]; every round but the last one takes a character at least. *)
Fixpoint shell_loop (rounds : nat) (input buffer : list Z) : res (list call) :=
  match rounds with
  | O => Fault OutOfFuel
  | S rounds =>
      line ← read_line input buffer 0;
      match line with
      | None => Ok [WritePrompt]
      | Some (buffer, i, input) =>
          '(buffer, calls, alive) ← execute_line buffer i;
          if alive : bool then
            rest ← shell_loop rounds input buffer;
            Ok (WritePrompt :: calls ++ rest)
          else Ok (WritePrompt :: calls)
      end
  end.
(** [buffer] is not initialised. *)
Definition shell (input garbage : list Z) : res (list call) :=
  shell_loop (S (length input)) input garbage.

(** ** What it does *)

(** A line fits the buffer with its newline, and has no 0. *)
Definition is_line (l : list Z) : Prop :=
  Forall (λ c, c ≠ newline ∧ c ≠ 0) l ∧ zlen l < buffer_size.
Definition typed (lines : list (list Z)) : list Z := concat ((λ l, l ++ [newline]) <$> lines).

(** The calls that the lines ask for. *)
Fixpoint session (lines : list (list Z)) : list call :=
  match lines with
  | [] => [WritePrompt]
  | [] :: lines => WritePrompt :: session lines
  | line :: lines =>
      match exec line with
      | None => [WritePrompt; Exec line]
      | Some newProc => WritePrompt :: Exec line :: Join newProc :: session lines
      end
  end.

Lemma read_line_Ok l : ∀ done rest input,
  Forall (λ c, c ≠ newline ∧ c ≠ 0) l → (length l < length rest)%nat →
  ∃ rest', read_line (l ++ newline :: input) (done ++ rest) (zlen done)
    = Ok (Some (done ++ l ++ newline :: rest', zlen done + zlen l + 1, input))
  ∧ length rest = (length l + 1 + length rest')%nat.
Proof.
  induction l as [|c l IH]; intros dn rest input Hl Hlen; simpl in Hlen.
  - destruct rest as [|x rest]; [simpl in Hlen; lia|]. exists rest. simpl.
    rewrite awrite_middle. simpl. split; [|done]. do 4 f_equal. unfold zlen; simpl; lia.
  - apply list.Forall_cons in Hl as [[Hc _] Hl]. destruct rest as [|x rest]; [simpl in Hlen; lia|].
    simpl. rewrite awrite_middle. cbn [mbind res_bind]. rewrite (proj2 (Z.eqb_neq _ _) Hc).
    destruct (IH (dn ++ [c]) rest input Hl) as (rest' & Hr & Hlen'); [simpl in Hlen; lia|].
    assert (zlen (dn ++ [c]) = zlen dn + 1) as Hz by (unfold zlen; rewrite length_app; simpl; lia).
    rewrite Hz, <- app_assoc in Hr. cbn [app] in Hr. rewrite Hr. exists rest'. rewrite <- app_assoc.
    split; [|lia]. do 4 f_equal. unfold zlen; simpl; lia.
Qed.

Lemma c_chars_app l rest : Forall (λ c, c ≠ newline ∧ c ≠ 0) l → c_chars (l ++ 0 :: rest) = l.
Proof. induction 1 as [|c l [_ Hc] _ IH]; [done|]. simpl. by rewrite (proj2 (Z.eqb_neq _ _) Hc), IH. Qed.

Lemma execute_line_Ok l rest : Forall (λ c, c ≠ newline ∧ c ≠ 0) l →
  execute_line (l ++ newline :: rest) (zlen l + 1)
  = Ok (match l with
        | [] => (l ++ 0 :: rest, [], true)
        | _ => match exec l with
               | None => (l ++ 0 :: rest, [Exec l], false)
               | Some newProc => (l ++ 0 :: rest, [Exec l; Join newProc], true)
               end
        end).
Proof.
  intros Hl. unfold execute_line. rewrite Z.add_simpl_r, awrite_middle. cbn [mbind res_bind].
  rewrite c_chars_app by done. by destruct l.
Qed.

Lemma shell_loop_Ok lines : ∀ rounds buffer,
  Forall is_line lines → zlen buffer = buffer_size → (length lines < rounds)%nat →
  shell_loop rounds (typed lines) buffer = Ok (session lines).
Proof.
  induction lines as [|l lines IH]; intros rounds buffer Hl Hb Hr; (destruct rounds as [|rounds]; [simpl in Hr; lia|]).
  { done. }
  apply list.Forall_cons in Hl as [[Hc Hlen] Hl].
  destruct (read_line_Ok l [] buffer (typed lines) Hc) as (rest & Hread & Hrest).
  { unfold zlen, buffer_size in *. lia. }
  cbn [app] in Hread. change (zlen []) with 0 in Hread. rewrite Z.add_0_l in Hread.
  assert (typed (l :: lines) = l ++ newline :: typed lines) as -> by (unfold typed; cbn [fmap list_fmap concat]; by rewrite <- app_assoc).
  assert (shell_loop rounds (typed lines) (l ++ 0 :: rest) = Ok (session lines)) as Hrest'.
  { apply IH; [done| |simpl in Hr; lia]. unfold zlen, buffer_size in *. rewrite length_app. simpl. lia. }
  cbn [shell_loop]. rewrite Hread. cbn [mbind res_bind]. rewrite execute_line_Ok by done. cbn [mbind res_bind].
  destruct l as [|c l]; [by rewrite Hrest'|]. cbn [session].
  destruct (exec (c :: l)) as [pid|]; [by rewrite Hrest'|done].
Qed.

Lemma read_line_overflow l : ∀ done rest,
  Forall (λ c, c ≠ newline ∧ c ≠ 0) l → (length rest < length l)%nat →
  read_line l (done ++ rest) (zlen done) = Fault OutOfBounds.
Proof.
  induction l as [|c l IH]; intros dn rest Hl Hlen; simpl in Hlen; [lia|].
  apply list.Forall_cons in Hl as [[Hc _] Hl]. simpl. destruct rest as [|x rest].
  - unfold awrite, aget. rewrite app_nil_r, (proj2 (Z.leb_le 0 _)) by (unfold zlen; lia).
    by rewrite lookup_ge_None_2 by (unfold zlen; lia).
  - rewrite awrite_middle. cbn [mbind res_bind]. rewrite (proj2 (Z.eqb_neq _ _) Hc).
    specialize (IH (dn ++ [c]) rest Hl ltac:(simpl in Hlen; lia)). rewrite <- app_assoc in IH. cbn [app] in IH.
    rewrite <- IH. f_equal. unfold zlen. rewrite length_app. simpl. lia.
Qed.

(** The session, when [Exec] never returns to the shell. *)
Lemma session_replaced empty line rest :
  (∀ name, exec name = None) → line ≠ [] →
  session (replicate empty [] ++ line :: rest) = replicate (S empty) WritePrompt ++ [Exec line].
Proof.
  intros He Hl. induction empty as [|n IH]; [by destruct line; [|simpl; rewrite He]|].
  change (session (replicate (S n) [] ++ line :: rest)) with (WritePrompt :: session (replicate n [] ++ line :: rest)).
  by rewrite IH.
Qed.
Lemma session_empty empty : session (replicate empty []) = replicate (S empty) WritePrompt.
Proof.
  induction empty as [|n IH]; [done|].
  change (session (replicate (S n) [])) with (WritePrompt :: session (replicate n [])). by rewrite IH.
Qed.
End shell.

(** The kernel of userprog/exception.cc: [Exec] replaces its caller, or aborts
    ([ExecSpec.Exec_replaces_caller]). *)
Definition nachos_exec (name : list Z) : option Z := None.

(** C38.  The shell on the kernel of this repository executes one
    program, and not a line after the other as it means to: it prints a prompt
    for every empty line, calls Exec with the first line that is not empty,
    and is gone, whatever is typed behind it.  On a kernel whose Exec answers,
    as userprog/syscall.h says, it would execute the lines in their order,
    with one Exec and one Join for each that is not empty, up to the first one
    for which Exec does not return.  This holds of lines of at most 59
    characters; when 61 characters have been typed without a newline, the
    shell has written behind its buffer. *)
Theorem shell_executes garbage (Hg : zlen garbage = buffer_size) :
  (∀ empty line rest, Forall is_line (line :: rest) → line ≠ [] →
     shell nachos_exec (typed (replicate empty [] ++ line :: rest)) garbage
     = Ok (replicate (S empty) WritePrompt ++ [Exec line]))
  ∧ (∀ empty, shell nachos_exec (typed (replicate empty [])) garbage = Ok (replicate (S empty) WritePrompt))
  ∧ (∀ exec lines, Forall is_line lines → shell exec (typed lines) garbage = Ok (session exec lines))
  ∧ ∀ exec l, Forall (λ c, c ≠ newline ∧ c ≠ 0) l → buffer_size < zlen l →
      shell exec l garbage = Fault OutOfBounds.
Proof.
  assert (∀ exec lines, Forall is_line lines → shell exec (typed lines) garbage = Ok (session exec lines)) as H.
  { intros exec lines Hl. apply shell_loop_Ok; [done|done|]. clear. induction lines as [|l lines IH]; [simpl; lia|].
    unfold typed in *. cbn [fmap list_fmap concat]. rewrite !length_app. simpl in *. lia. }
  assert (∀ n, Forall is_line (replicate n [])) as Hempty
    by (intros n; apply Forall_replicate; split; [by apply Forall_nil_2|done]).
  split; [|split; [|split; [done|]]].
  - intros empty line rest Hl Hne. rewrite H; [by rewrite session_replaced|]. by apply Forall_app_2.
  - intros empty. rewrite H by done. by rewrite session_empty.
  - intros exec l Hc Hlen. unfold shell. cbn [shell_loop].
    pose proof (read_line_overflow l [] garbage Hc) as Ho. cbn [app] in Ho. change (zlen []) with 0 in Ho.
    rewrite Ho; [done|]. unfold zlen, buffer_size in *. lia.
Qed.

(** The lines "", "sort" and "halt", on this kernel and on one whose Exec
    answers. *)
Definition demo_lines : list (list Z) := [[]; [115; 111; 114; 116]; [104; 97; 108; 116]].

Lemma shell_executes_witness :
  shell nachos_exec (typed demo_lines) (replicate 60 7)
  = Ok [WritePrompt; WritePrompt; Exec [115; 111; 114; 116]]
  ∧ shell (λ name, Some (zlen name)) (typed demo_lines) (replicate 60 7)
    = Ok [WritePrompt; WritePrompt; Exec [115; 111; 114; 116]; Join 4; WritePrompt;
          Exec [104; 97; 108; 116]; Join 4; WritePrompt]
  ∧ shell nachos_exec (replicate 61 115) (replicate 60 7) = Fault OutOfBounds.
Proof.
  assert (Forall is_line demo_lines) as Hl.
  { repeat (apply list.Forall_cons; split; [split; [by apply (bool_decide_unpack _)|reflexivity]|]).
    by apply list.Forall_nil. }
  destruct (shell_executes (replicate 60 7) eq_refl) as (H1 & _ & H2 & H3).
  split; [|split; [exact (H2 _ _ Hl)|apply H3; [by apply (bool_decide_unpack _)|reflexivity]]].
  refine (H1 1%nat _ [[104; 97; 108; 116]] _ _); [|discriminate]. by apply list.Forall_cons in Hl as [_ Hl].
Defined.
