(* ===== verification/Logic.v ===== *)
(** * A program logic for the threads of the kernel

    What one thread assumes of the others, and what it must leave to them, is
    a relation [rely] between the states at which it loses the processor and
    gets it again; [inv] holds at every context switch.  [swp t c g s Q] says
    that thread [t], executing [c] from the state [s], only ends the
    simulation by [Halted], respects the other threads at every operation and,
    if [c] ends, ends it with [Q].  States come with a ghost state [g].

    Procedures (what is called through pointers, and [Thread::Yield]) have
    specifications, [pre] and [post], so that they may call each other
    without end.  [steps_sound] is the soundness of the logic for the
    executions of file Coro, of all threads in any order. *)
From S2P Require Import Prelude Coro.

Section logic.
Context {S F G : Type}.
Variable yield : code S F unit.
Variable call : F → code S F unit.
Variable start : tid → M S (option (code S F unit)).
Variable current : S → tid.

(** The threads that may run again. *)
Variable live : G → tid → Prop.
(** [inv] holds when a thread gets the processor, [always] at any time. *)
Variable inv : G → S → Prop.
Variable always : S → Prop.
Variable rely : tid → G → S → G → S → Prop.
(** What holds of a thread that has not run before. *)
Variable root : tid → G → S → Prop.
(** The specifications of the procedures; [None] is [Thread::Yield]. *)
Variable pre : option F → tid → G → S → Prop.
Variable post : option F → tid → G → S → G → S → Prop.

Definition unstarted (s : S) (t : tid) : Prop := ∃ c s', start t s = Ok (Some c, s').

(** What an operation of thread [t] leaves to the others. *)
Definition guar (t : tid) (g : G) (s : S) (g' : G) (s' : S) : Prop :=
  (always s → always s') ∧
  ∀ t', t' ≠ t → live g' t' → (live g t' ∧ rely t' g s g' s') ∨ root t' g' s'.

(** A context switch to [next]; [k] is the thread [t] afterwards. *)
Definition switch_ok (t old next : tid) (g : G) (s : S) (k : G → S → Prop) : Prop :=
  old = t ∧ current s = next ∧ live g next ∧ ¬ unstarted s t ∧ inv g s ∧
  (live g t → ∀ g' s', inv g' s' → current s' = t → live g' t →
     rely t g s g' s' → k g' s').

Fixpoint swp (t : tid) {A} (c : code S F A) (g : G) (s : S) (Q : A → G → S → Prop)
    {struct c} : Prop :=
  match c with
  | Ret a => λ Q, Q a g s
  | Act m k => λ Q,
      match m s with
      | Ok (x, s') => ∃ g', guar t g s g' s' ∧ swp t (k x) g' s' Q
      | Fault f => f = Halted
      end
  | Loop body st k => λ Q,
      ∃ I, I st g s ∧ ∀ st g s, I st g s → swp t (body st) g s (λ r g' s',
        match r with inl st' => I st' g' s' | inr x => swp t (k x) g' s' Q end)
  | CallFun f k => λ Q,
      pre (Some f) t g s ∧ ∀ g' s', post (Some f) t g s g' s' → swp t k g' s' Q
  | CallYield k => λ Q,
      pre None t g s ∧ ∀ g' s', post None t g s g' s' → swp t k g' s' Q
  | SWITCH old next k => λ Q,
      switch_ok t old next g s (λ g' s', swp t k g' s' Q)
  end Q.

Lemma switch_ok_mono t old next g s (k k' : G → S → Prop) :
  switch_ok t old next g s k → (∀ g s, k g s → k' g s) → switch_ok t old next g s k'.
Proof. unfold switch_ok. naive_solver. Qed.

Lemma swp_mono {A} t (c : code S F A) g s (Q Q' : A → G → S → Prop) :
  swp t c g s Q → (∀ a g s, Q a g s → Q' a g s) → swp t c g s Q'.
Proof.
  revert g s Q Q'.
  induction c as [A a|A X m k IH|A V X c IHc st k IH|A f c IH|A c IH|A o n c IH];
    intros g s Q Q' H HQ; simpl in *.
  - by apply HQ.
  - destruct (m s) as [[x s']|]; [|done]. destruct H as (g' & Hg & H).
    exists g'. split; [done|]. by eapply IH.
  - destruct H as (I & H0 & H). exists I. split; [done|]. intros st' g' s' Hi.
    eapply IHc; [by apply H|]. intros [st1|x] g1 s1; [done|]. intros Hk. by eapply IH.
  - destruct H as [H0 H]. split; [done|]. intros g' s' Hp. eapply IH; [by apply H|done].
  - destruct H as [H0 H]. split; [done|]. intros g' s' Hp. eapply IH; [by apply H|done].
  - eapply switch_ok_mono; [exact H|]. intros g' s' Hk. eapply IH; [exact Hk|done].
Qed.

Lemma swp_ret {A} t (a : A) g s (Q : A → G → S → Prop) : Q a g s → swp t (mret a) g s Q.
Proof. done. Qed.

Lemma swp_bind {A B} t (c : code S F A) (k : A → code S F B) g s Q :
  swp t c g s (λ a g' s', swp t (k a) g' s' Q) → swp t (c ≫= k) g s Q.
Proof.
  unfold mbind, code_mbind. revert k g s Q.
  induction c as [A a|A X m c IH|A V X b IHb st c IH|A f c IH|A c IH|A o n c IH];
    intros k g s Q H; simpl in *.
  - done.
  - destruct (m s) as [[x s']|]; [|done]. destruct H as (g' & Hg & H).
    exists g'. split; [done|]. by apply IH.
  - destruct H as (I & H0 & H). exists I. split; [done|]. intros st' g' s' Hi.
    eapply swp_mono; [by apply H|]. intros [st1|x] g1 s1; [done|]. by apply IH.
  - destruct H as [H0 H]. split; [done|]. intros g' s' Hp. by apply IH, H.
  - destruct H as [H0 H]. split; [done|]. intros g' s' Hp. by apply IH, H.
  - eapply switch_ok_mono; [exact H|]. intros g' s' Hk. by apply IH.
Qed.

(** A sequential operation that does not fault. *)
Lemma swp_run {A} t (m : M S A) g s a s' g' (Q : A → G → S → Prop) :
  m s = Ok (a, s') → guar t g s g' s' → Q a g' s' → swp t (run m) g s Q.
Proof. intros H Hg HQ. simpl. rewrite H. eauto. Qed.

(** Loops, with an invariant. *)
Lemma swp_iterate {V X} t (body : V → code S F (V + X)) (I : V → G → S → Prop) st g s Q :
  I st g s →
  (∀ st g s, I st g s → swp t (body st) g s (λ r g' s',
     match r with inl st' => I st' g' s' | inr x => Q x g' s' end)) →
  swp t (iterate body st) g s Q.
Proof. intros H0 H. by exists I. Qed.

Lemma swp_until {X} t (c : code S F (option X)) (I : G → S → Prop) g s Q :
  I g s →
  (∀ g s, I g s → swp t c g s (λ r g' s',
     match r with Some x => Q x g' s' | None => I g' s' end)) →
  swp t (until c) g s Q.
Proof.
  intros H0 H. apply (swp_iterate _ _ (λ _, I)); [done|]. intros _ g' s' Hi.
  apply swp_bind. eapply swp_mono; [by apply H|]. by intros [x|].
Qed.

Lemma swp_while t (c : code S F bool) (I : G → S → Prop) g s Q :
  I g s →
  (∀ g s, I g s → swp t c g s (λ b g' s', if b : bool then I g' s' else Q tt g' s')) →
  swp t (while c) g s Q.
Proof.
  intros H0 H. apply (swp_iterate _ _ (λ _, I)); [done|]. intros _ g' s' Hi.
  apply swp_bind. eapply swp_mono; [by apply H|]. by intros [|].
Qed.

(** ** Soundness *)

Hypothesis rely_refl : ∀ t g s, rely t g s g s.
Hypothesis rely_trans : ∀ t g s g1 s1 g2 s2,
  rely t g s g1 s1 → rely t g1 s1 g2 s2 → rely t g s g2 s2.

(** The procedures meet their specifications. *)
Definition body_of (p : option F) : code S F unit :=
  match p with Some f => call f | None => yield end.
Hypothesis procedures : ∀ p t g s, pre p t g s →
  swp t (body_of p) g s (λ _ g' s', post p t g s g' s').

(** A thread that gets the processor for the first time, or again. *)
Definition never {A} (_ : A) (_ : G) (_ : S) : Prop := False.
Hypothesis root_rely : ∀ t g s g' s', root t g s → rely t g s g' s' → root t g' s'.
Hypothesis started_rely : ∀ t g s g' s',
  ¬ unstarted s t → rely t g s g' s' → ¬ unstarted s' t.
Hypothesis start_Some : ∀ t g s,
  inv g s → current s = t → live g t → root t g s →
  ∃ c g' s', start t s = Ok (Some c, s') ∧ guar t g s g' s' ∧ swp t c g' s' never.
Hypothesis start_None : ∀ t g s,
  inv g s → current s = t → live g t → ¬ unstarted s t → start t s = Ok (None, s).

(** The other threads: not started, or suspended and fit to go on. *)
Definition parked (g : G) (s : S) (conts : gmap tid (code S F unit)) (t : tid) : Prop :=
  root t g s ∨ ∃ k g0 s0, conts !! t = Some k ∧ ¬ unstarted s0 t ∧ rely t g0 s0 g s ∧
    ∀ g' s', inv g' s' → current s' = t → live g' t →
      rely t g0 s0 g' s' → swp t k g' s' never.

Definition config_ok (c : config (S := S) (F := F)) : Prop :=
  ∃ g t, swp t (running c) g (state c) never ∧ always (state c) ∧
    ∀ t', t' ≠ t → live g t' → parked g (state c) (suspended c) t'.

Lemma parked_guar t g s g' s' conts :
  guar t g s g' s' →
  (∀ t', t' ≠ t → live g t' → parked g s conts t') →
  ∀ t', t' ≠ t → live g' t' → parked g' s' conts t'.
Proof.
  intros [_ Hg] Hp t' Ht Hl. destruct (Hg t' Ht Hl) as [(Hl0 & Hr)|?]; [|by left].
  destruct (Hp t' Ht Hl0) as [?|(k & g0 & s0 & Hk & Hu & Hr0 & Hw)].
  - left. by eapply root_rely.
  - right. exists k, g0, s0. eauto.
Qed.

Definition step_outcome (r : res (config (S := S) (F := F))) : Prop :=
  match r with Ok c' => config_ok c' | Fault f => f = Halted end.

(** What the switch leads to. *)
Lemma switch_sound t old next g s conts (k : code S F unit) :
  switch_ok t old next g s (λ g' s', swp t k g' s' never) → always s →
  (∀ t', t' ≠ t → live g t' → parked g s conts t') →
  step_outcome (step yield call start (Config s (SWITCH old next k) conts)).
Proof.
  intros (-> & Hc & Hl & Hu & Hi & Hk) Ha Hp. unfold step. simpl.
  assert (∀ t', live g t' → parked g s (<[t := k]> conts) t') as Hall.
  { intros t' Hl'. destruct (decide (t' = t)) as [->|Ht].
    - right. exists k, g, s. rewrite lookup_insert_eq. auto.
    - destruct (Hp t' Ht Hl') as [?|(k' & g0 & s0 & Hk' & Hr)]; [by left|].
      right. exists k', g0, s0. by rewrite lookup_insert_ne. }
  destruct (Hall next Hl) as [Hr|(k' & g0 & s0 & Hk' & Hu0 & Hr & Hw)].
  - destruct (start_Some _ _ _ Hi Hc Hl Hr) as (c & g' & s' & Hs & Hg & Hw).
    rewrite Hs. simpl. exists g', next. simpl. split_and!; [done|by apply Hg|].
    apply (parked_guar _ _ _ _ _ _ Hg). auto.
  - rewrite (start_None _ _ _ Hi Hc Hl) by (by eapply started_rely).
    simpl. rewrite Hk'. simpl. exists g, next. simpl. auto.
Qed.

Lemma step_sound c : config_ok c → step_outcome (step yield call start c).
Proof.
  intros (g & t & Hw & Ha & Hp). destruct c as [s c conts]. simpl in *.
  destruct c as [a|X m k|V X b st k|f k|k|o nx k].
  - done.
  - unfold step. simpl in *. destruct (m s) as [[x s']|f]; [|done].
    destruct Hw as (g' & Hg & Hw). exists g', t. simpl.
    split_and!; [done|by apply Hg|]. by apply (parked_guar _ _ _ _ _ _ Hg).
  - unfold step. simpl. exists g, t. simpl. split_and!; [|done|done].
    destruct Hw as (I & H0 & H). apply swp_bind. eapply swp_mono; [by apply H|].
    intros [st'|x] g' s' Hx; [|done]. by exists I.
  - unfold step. simpl. exists g, t. simpl. split_and!; [|done|done].
    destruct Hw as [H0 H]. apply swp_bind. eapply swp_mono; [by apply (procedures (Some f))|].
    auto.
  - unfold step. simpl. exists g, t. simpl. split_and!; [|done|done].
    destruct Hw as [H0 H]. apply swp_bind. eapply swp_mono; [by apply (procedures None)|].
    auto.
  - by eapply switch_sound.
Qed.

(** Every state that is reached is as promised, and a run ends only by
    [Halted]. *)
Lemma steps_sound n c :
  config_ok c →
  match steps yield call start n c with
  | Ok c' => config_ok c' ∧ always (state c')
  | Fault f => f = Halted
  end.
Proof.
  revert c. induction n as [|n IH]; intros c Hc; simpl.
  - split; [done|]. by destruct Hc as (g & t & _ & ? & _).
  - pose proof (step_sound c Hc) as Hs. destruct (step yield call start c) as [c'|f]; [|done].
    by apply IH.
Qed.
End logic.
