(* ===== verification/KernelState.v ===== *)
(** * The state of the scheduler

    [sched E L s]: the queues of the kernel state [s] (the ready list and the
    queues of semaphores, locks and conditions) are intact, hold each thread
    at most once, none of the threads [E] that are in hand, and only threads
    of [L], those that have not finished; their stacks are intact, and the
    thread to be destroyed is none of them.  The lemmas say how the
    operations of the scheduler change the state; [frame] is what they keep. *)
From S2P Require Import Prelude Word NList Machine Coro Interrupt Threads Synch.

(** ** Queues *)

Section queues.
Context {A : Type}.
Implicit Types a : Spec.alist A.

Definition intact a : Prop := Spec.last_null a = false.

Lemma Append_intact x a :
  intact a → ∃ a', Spec.Append x a = Ok a' ∧ intact a' ∧ Spec.Mapcar a' = Spec.Mapcar a ++ [x].
Proof.
  intros Ha. unfold Spec.Append, Spec.push_back, Spec.Mapcar. rewrite Ha.
  destruct (Spec.elems a) as [|y l]; eexists; split_and!; try done.
  simpl. f_equal. by rewrite fmap_app.
Qed.

Lemma Remove_intact a :
  intact a →
  match Spec.Remove a with
  | (None, a') => a' = a ∧ Spec.Mapcar a = []
  | (Some x, a') => intact a' ∧ Spec.Mapcar a = x :: Spec.Mapcar a'
  end.
Proof.
  intros Ha. unfold Spec.Remove, Spec.SortedRemove, Spec.Mapcar.
  destruct (Spec.elems a) as [|[k y] l] eqn:E; simpl; [done|].
  split; [|done]. unfold intact, Spec.mk in *. simpl. by destruct l.
Qed.

(** The items of all the queues of a kind of object. *)
Definition waiters {B} (q : B → Spec.alist A) (m : gmap positive B) : list A :=
  concat ((λ x, Spec.Mapcar (q x.2)) <$> map_to_list m).

(** One queue apart from the others. *)
Lemma waiters_insert {B} (q : B → Spec.alist A) (m : gmap positive B) p x :
  m !! p = Some x →
  ∃ rest, waiters q m ≡ₚ Spec.Mapcar (q x) ++ rest ∧
    ∀ x', waiters q (<[p := x']> m) ≡ₚ Spec.Mapcar (q x') ++ rest.
Proof.
  intros Hx. exists (waiters q (delete p m)). unfold waiters. split; [|intros x'].
  - rewrite <- (insert_delete_id m p x Hx) at 1.
    by rewrite (concat_perm _ _ (fmap_Permutation _ _ _
                  (map_to_list_insert _ _ _ (lookup_delete_eq m p)))).
  - rewrite <- insert_delete_eq.
    by rewrite (concat_perm _ _ (fmap_Permutation _ _ _
                  (map_to_list_insert _ _ x' (lookup_delete_eq m p)))).
Qed.

Definition all_intact {B} (q : B → Spec.alist A) (m : gmap positive B) : Prop :=
  map_Forall (λ _ x, intact (q x)) m.

Lemma all_intact_insert {B} (q : B → Spec.alist A) (m : gmap positive B) p x :
  all_intact q m → intact (q x) → all_intact q (<[p := x]> m).
Proof. intros Hm Hx. by apply map_Forall_insert_2. Qed.
End queues.

Section state.
Context {F U : Type}.
#[local] Abbreviation K := (Kernel F U).
Implicit Types (s : K) (t : tid) (E : list tid) (L : gset tid).

(** All the threads in queues. *)
Definition waiting s : list tid :=
  Spec.Mapcar (readyList s) ++ waiters queue (semaphores s)
  ++ waiters lock_queue (locks s) ++ waiters blocked (conditions s).

Definition queues_intact s : Prop :=
  intact (readyList s) ∧ all_intact queue (semaphores s)
  ∧ all_intact lock_queue (locks s) ∧ all_intact blocked (conditions s).

(** A thread whose stack has not overflown, and that runs no user program. *)
Definition thread_ok s t : Prop :=
  ∃ th, threads s !! t = Some th ∧ (stack th = None ∨ stack th = Some STACK_FENCEPOST)
        ∧ space th = None.

(** The first frame of a thread that has not run. *)
Definition first_frame s t : option F := threads s !! t ≫= machineState.

Definition sched E L s : Prop :=
  queues_intact s ∧ NoDup (E ++ waiting s) ∧ (∀ t, t ∈ E ++ waiting s → t ∈ L)
  ∧ (∀ t, t ∈ L → thread_ok s t)
  ∧ (∀ d, threadToBeDestroyed s = Some d → is_Some (threads s !! d) ∧ d ∉ L).

(** What the operations of the scheduler keep of the synchronization objects
    and of the threads. *)
Definition holding (x : Lock) : bool * option tid := (isHeld x, lockHolder x).
Definition same_objects s s' : Prop :=
  value <$> semaphores s = value <$> semaphores s' ∧ holding <$> locks s = holding <$> locks s'.
Definition same_frames s s' : Prop := ∀ t, first_frame s t = first_frame s' t.

#[export] Instance same_objects_equiv : Equivalence same_objects.
Proof.
  split; [done|by intros s1 s2 [??]|].
  intros s1 s2 s3 [??] [??]. split; congruence.
Qed.
#[export] Instance same_frames_equiv : Equivalence same_frames.
Proof.
  split; [done|by intros s1 s2 H t|]. intros s1 s2 s3 H H' t. by rewrite H, H'.
Qed.

(** What the scheduler keeps altogether. *)
Definition frame s s' : Prop :=
  same_objects s s' ∧ same_frames s s' ∧ user s = user s' ∧ hardware s = hardware s'
  ∧ currentThread s = currentThread s' ∧ (∀ t, thread_ok s t → thread_ok s' t).

#[export] Instance frame_pre : PreOrder frame.
Proof.
  split.
  - intros s. by split_and!.
  - intros s1 s2 s3 (?&?&?&?&?&?) (?&?&?&?&?&?).
    split_and!; [by etrans|by etrans|congruence..|auto].
Qed.

Lemma sched_perm E E' L s : E ≡ₚ E' → sched E L s → sched E' L s.
Proof.
  intros Hp (Hq & Hn & Hl & Ht & Hd).
  refine (conj Hq (conj _ (conj _ (conj Ht Hd)))); [by rewrite <- Hp|].
  intros t. rewrite <- Hp. apply Hl.
Qed.

(** A queue apart from the others, and the threads in hand before it. *)
Lemma queue_apart (E a q rest b : list tid) :
  E ++ a ++ (q ++ rest) ++ b ≡ₚ (E ++ q) ++ a ++ rest ++ b.
Proof.
  rewrite <- (assoc_L (++) E q). apply Permutation_app_head.
  rewrite <- (assoc_L (++) q rest b), !(assoc_L (++)). do 2 apply Permutation_app_tail.
  apply Permutation_app_comm.
Qed.

(** Changing queues: the threads in hand are put there or come from there. *)
Lemma sched_queues E E' L s s' :
  sched E L s → queues_intact s' → E ++ waiting s ≡ₚ E' ++ waiting s' →
  threads s' = threads s → threadToBeDestroyed s' = threadToBeDestroyed s →
  sched E' L s'.
Proof.
  intros (Hq & Hn & Hl & Ht & Hd) Hq' Hp Et Ed. split_and!; [done| | | |].
  - by rewrite <- Hp.
  - intros t. rewrite <- Hp. apply Hl.
  - intros t. unfold thread_ok. rewrite Et. apply Ht.
  - rewrite Ed, Et. apply Hd.
Qed.

(** *** The status of a thread *)

Lemma set_thread_status s t th st :
  threads s !! t = Some th →
  let s' := set_threads (<[t := MkThread (stack th) (machineState th) st
                                 (userRegisters th) (space th)]> (threads s)) s in
  frame s s' ∧ ∀ E L, sched E L s → sched E L s'.
Proof.
  intros Ht s'.
  assert (∀ t, thread_ok s t → thread_ok s' t) as Hok.
  { intros t' (th' & Ht' & H). unfold thread_ok. simpl.
    destruct (decide (t' = t)) as [->|].
    - rewrite lookup_insert_eq. eexists. split; [done|]. simpl. by simplify_eq.
    - rewrite lookup_insert_ne by done. eauto. }
  split.
  - split_and!; try done. intros t'. unfold first_frame. simpl.
    destruct (decide (t' = t)) as [->|].
    + by rewrite lookup_insert_eq, Ht.
    + by rewrite lookup_insert_ne.
  - intros E L (Hq & Hn & Hl & Hth & Hd). split_and!; try done.
    + intros t' Hl'. by apply Hok, Hth.
    + intros d Hd'. destruct (Hd d Hd') as [Hs ?]. split; [|done]. simpl.
      apply lookup_insert_is_Some'. auto.
Qed.

Lemma setStatus_Ok s t st :
  thread_ok s t →
  ∃ s', setStatus t st s = Ok (tt, s') ∧ frame s s' ∧ waiting s' = waiting s
    ∧ ∀ E L, sched E L s → sched E L s'.
Proof.
  intros (th & Ht & _). destruct (set_thread_status s t th st Ht) as [Hf Hs].
  unfold setStatus, set_thread, thread. unfold get, lift, modify.
  eexists. split; [|split; [exact Hf|split; [done|exact Hs]]].
  unfold mbind, M_bind, deref. rewrite Ht. cbn. by rewrite Ht.
Qed.

(** *** The ready list *)

Lemma frame_readyList l s : frame s (set_readyList l s).
Proof. repeat split; auto. Qed.

Lemma ReadyToRun_Ok E L s t :
  sched (t :: E) L s →
  ∃ s', ReadyToRun t s = Ok (tt, s') ∧ frame s s' ∧ sched E L s'.
Proof.
  intros Hs. assert (thread_ok s t) as Ht.
  { destruct Hs as (_ & _ & Hl & Hth & _). apply Hth, Hl. set_solver. }
  destruct (setStatus_Ok s t READY Ht) as (s1 & H1 & Hf & Hw & Hs1). specialize (Hs1 _ _ Hs).
  pose proof Hs1 as ((Hr & Hq) & _).
  destruct (Append_intact t (readyList s1) Hr) as (l & Ha & Hi & Hm).
  unfold ReadyToRun. rewrite (M_bind_step _ _ _ _ _ H1).
  exists (set_readyList l s1). split_and!.
  - unfold on_readyList, get, lift, modify, mbind, M_bind. simpl. by rewrite Ha.
  - etrans; [exact Hf|apply frame_readyList].
  - apply (sched_queues (t :: E) _ _ s1); try done.
    unfold waiting. simpl. rewrite Hm. rewrite <- !app_assoc. simpl.
    by rewrite <- !Permutation_middle.
Qed.

Lemma FindNextToRun_Ok E L s :
  sched E L s →
  (∃ s', FindNextToRun s = Ok (None, s') ∧ frame s s' ∧ sched E L s') ∨
  (∃ n s', FindNextToRun s = Ok (Some n, s') ∧ frame s s' ∧ sched (n :: E) L s').
Proof.
  intros Hs. pose proof Hs as ((Hr & Hq) & _). pose proof (Remove_intact _ Hr) as H.
  unfold FindNextToRun, on_readyList, get, lift, modify, mbind, M_bind, mret, M_ret.
  destruct (Spec.Remove (readyList s)) as [[n|] l] eqn:E1.
  - right. destruct H as [Hi Hm]. exists n, (set_readyList l s).
    split; [done|]. split; [apply frame_readyList|].
    apply (sched_queues E _ _ s); try done.
    unfold waiting. simpl. rewrite Hm. simpl. by rewrite <- Permutation_middle.
  - left. destruct H as [-> Hm]. exists (set_readyList (readyList s) s).
    split; [done|]. split; [apply frame_readyList|].
    by apply (sched_queues E _ _ s).
Qed.

(** *** The queues of the synchronization objects

    An object is updated without change of what it is worth ([frame]) or with
    ([same_but]); its queue gains or loses threads that are in hand. *)

Lemma put_semaphore_sched E E' L s p x x' :
  sched E L s → semaphores s !! p = Some x → intact (queue x') →
  E ++ Spec.Mapcar (queue x) ≡ₚ E' ++ Spec.Mapcar (queue x') →
  sched E' L (set_semaphores (<[p := x']> (semaphores s)) s).
Proof.
  intros Hs Hx Hi Hp. pose proof Hs as ((Hr & Hm & Hlc) & _).
  destruct (waiters_insert queue _ _ _ Hx) as (rest & H1 & H2).
  apply (sched_queues E _ _ s); [done| | |done|done].
  - split; [done|]. split; [by apply all_intact_insert|done].
  - unfold waiting. simpl. rewrite H1, H2.
    by rewrite queue_apart, Hp, <- queue_apart.
Qed.

Lemma put_lock_sched E E' L s p x x' :
  sched E L s → locks s !! p = Some x → intact (lock_queue x') →
  E ++ Spec.Mapcar (lock_queue x) ≡ₚ E' ++ Spec.Mapcar (lock_queue x') →
  sched E' L (set_locks (<[p := x']> (locks s)) s).
Proof.
  intros Hs Hx Hi Hp. pose proof Hs as ((Hr & Hm & Hl & Hc) & _).
  destruct (waiters_insert lock_queue _ _ _ Hx) as (rest & H1 & H2).
  apply (sched_queues E _ _ s); [done| | |done|done].
  - split; [done|]. split; [done|]. split; [by apply all_intact_insert|done].
  - unfold waiting. simpl. rewrite H1, H2.
    rewrite !(app_assoc (Spec.Mapcar (readyList s))).
    by rewrite queue_apart, Hp, <- queue_apart.
Qed.

Lemma put_condition_sched E E' L s p x x' :
  sched E L s → conditions s !! p = Some x → intact (blocked x') →
  E ++ Spec.Mapcar (blocked x) ≡ₚ E' ++ Spec.Mapcar (blocked x') →
  sched E' L (set_conditions (<[p := x']> (conditions s)) s).
Proof.
  intros Hs Hx Hi Hp. pose proof Hs as ((Hr & Hm & Hl & Hc) & _).
  destruct (waiters_insert blocked _ _ _ Hx) as (rest & H1 & H2).
  apply (sched_queues E _ _ s); [done| | |done|done].
  - split; [done|]. split; [done|]. split; [done|by apply all_intact_insert].
  - unfold waiting. simpl. rewrite H1, H2.
    rewrite <- (app_nil_r (Spec.Mapcar (blocked x) ++ rest)),
      <- (app_nil_r (Spec.Mapcar (blocked x') ++ rest)).
    rewrite !(app_assoc (waiters queue (semaphores s))),
      !(app_assoc (Spec.Mapcar (readyList s))).
    by rewrite queue_apart, Hp, <- queue_apart.
Qed.

(** *** Waiting for objects, and waking who waits *)

Lemma frame_put_semaphore s p x x' :
  semaphores s !! p = Some x → value x' = value x →
  frame s (set_semaphores (<[p := x']> (semaphores s)) s).
Proof.
  intros Hx Hv. split; [|repeat split; auto]. split; [|done]. simpl.
  rewrite fmap_insert, insert_id; [done|]. rewrite lookup_fmap, Hx. simpl. by rewrite Hv.
Qed.

Lemma frame_put_lock s p x x' :
  locks s !! p = Some x → holding x' = holding x →
  frame s (set_locks (<[p := x']> (locks s)) s).
Proof.
  intros Hx Hv. split; [|repeat split; auto]. split; [done|]. simpl.
  rewrite fmap_insert, insert_id; [done|]. rewrite lookup_fmap, Hx. simpl. by rewrite Hv.
Qed.

Lemma get_semaphore_Ok s p x : semaphores s !! p = Some x → get_semaphore p s = Ok (x, s).
Proof. intros Hx. unfold get_semaphore, get, lift, deref, mbind, M_bind. by rewrite Hx. Qed.
Lemma get_lock_Ok s p x : locks s !! p = Some x → get_lock p s = Ok (x, s).
Proof. intros Hx. unfold get_lock, get, lift, deref, mbind, M_bind. by rewrite Hx. Qed.

Lemma queue_current_Ok E L s p x :
  sched (currentThread s :: E) L s → semaphores s !! p = Some x →
  ∃ s', queue_current p s = Ok (tt, s') ∧ frame s s' ∧ sched E L s'.
Proof.
  intros Hs Hx. assert (intact (queue x)) as Hi
    by (destruct Hs as ((_ & Hm & _) & _); exact (Hm _ _ Hx)).
  destruct (Append_intact (currentThread s) _ Hi) as (q & Hq & Hi' & Hm).
  unfold queue_current. rewrite (M_bind_step _ _ _ _ _ (get_semaphore_Ok _ _ _ Hx)).
  unfold current, gets, lift, mbind, M_bind. rewrite Hq.
  eexists. split; [reflexivity|]. split; [by eapply frame_put_semaphore|].
  eapply put_semaphore_sched; [exact Hs|done|done|]. simpl. rewrite Hm.
  by rewrite app_assoc, <- Permutation_cons_append.
Qed.

Lemma queue_on_lock_Ok E L s p x :
  sched (currentThread s :: E) L s → locks s !! p = Some x →
  ∃ s', queue_on_lock p s = Ok (tt, s') ∧ frame s s' ∧ sched E L s'.
Proof.
  intros Hs Hx. assert (intact (lock_queue x)) as Hi
    by (destruct Hs as ((_ & _ & Hm & _) & _); exact (Hm _ _ Hx)).
  destruct (Append_intact (currentThread s) _ Hi) as (q & Hq & Hi' & Hm).
  unfold queue_on_lock. rewrite (M_bind_step _ _ _ _ _ (get_lock_Ok _ _ _ Hx)).
  unfold current, gets, lift, mbind, M_bind. rewrite Hq.
  eexists. split; [reflexivity|]. split; [by eapply frame_put_lock|].
  eapply put_lock_sched; [exact Hs|done|done|]. simpl. rewrite Hm.
  by rewrite app_assoc, <- Permutation_cons_append.
Qed.

Lemma wake_Ok E L s (w : option tid) :
  sched (option_list w ++ E) L s →
  ∃ s', wake w s = Ok (tt, s') ∧ frame s s' ∧ sched E L s'.
Proof. destruct w as [w|]; [apply ReadyToRun_Ok|]. intros Hs. by exists s. Qed.

Lemma wake_waiter_Ok E L s p x :
  sched E L s → semaphores s !! p = Some x →
  ∃ s', (t ← remove_waiter p; wake t) s = Ok (tt, s') ∧ frame s s' ∧ sched E L s'
    ∧ is_Some (semaphores s' !! p).
Proof.
  intros Hs Hx. assert (intact (queue x)) as Hi
    by (destruct Hs as ((_ & Hm & _) & _); exact (Hm _ _ Hx)).
  pose proof (Remove_intact _ Hi) as Hr.
  unfold remove_waiter.
  destruct (Spec.Remove (queue x)) as [w q] eqn:Eq.
  set (s1 := set_semaphores (<[p := MkSemaphore (value x) q]> (semaphores s)) s).
  assert (sched (option_list w ++ E) L s1) as Hs1.
  { eapply put_semaphore_sched; [exact Hs|done| |]; destruct w as [w|]; simpl.
    - by destruct Hr.
    - destruct Hr as [-> _]. done.
    - destruct Hr as [_ ->]. by rewrite <- Permutation_middle.
    - by destruct Hr as [-> _]. }
  assert (frame s s1) as Hf1 by (by eapply frame_put_semaphore).
  destruct (wake_Ok E L s1 w Hs1) as (s2 & H2 & Hf2 & Hs2).
  exists s2. split_and!; [|by etrans|done..|].
  - unfold mbind, M_bind. rewrite (get_semaphore_Ok _ _ _ Hx), Eq. exact H2.
  - destruct Hf2 as ((Hv & _) & _). apply (f_equal (lookup p)) in Hv.
    rewrite !lookup_fmap in Hv. unfold s1 in Hv. simpl in Hv.
    rewrite lookup_insert_eq in Hv. destruct (semaphores s2 !! p); [eauto|done].
Qed.

Lemma free_lock_Ok E L s p x :
  sched E L s → locks s !! p = Some x →
  ∃ s1 x1, free_lock p s
           = Ok (tt, set_locks (<[p := MkLock false None (lock_queue x1)]> (locks s1)) s1)
    ∧ frame s s1 ∧ sched E L s1 ∧ locks s1 !! p = Some x1 ∧ holding x1 = holding x.
Proof.
  intros Hs Hx. assert (intact (lock_queue x)) as Hi
    by (destruct Hs as ((_ & _ & Hm & _) & _); exact (Hm _ _ Hx)).
  pose proof (Remove_intact _ Hi) as Hr.
  destruct (Spec.Remove (lock_queue x)) as [w q] eqn:Eq.
  set (x1 := MkLock (isHeld x) (lockHolder x) q).
  set (s1 := set_locks (<[p := x1]> (locks s)) s).
  assert (sched (option_list w ++ E) L s1) as Hs1.
  { eapply put_lock_sched; [exact Hs|done| |]; destruct w as [w|]; simpl.
    - by destruct Hr.
    - destruct Hr as [-> _]. done.
    - destruct Hr as [_ ->]. by rewrite <- Permutation_middle.
    - by destruct Hr as [-> _]. }
  assert (frame s s1) as Hf1 by (by eapply frame_put_lock).
  destruct (wake_Ok E L s1 w Hs1) as (s2 & H2 & Hf2 & Hs2).
  assert (locks s2 = locks s1) as Hl.
  { destruct w as [w|]; [|by injection H2 as <-]. clear -H2. unfold wake, ReadyToRun, setStatus,
      set_thread, thread, on_readyList, get, lift, modify in H2. minv.
    repeat (case_match; simplify_eq/=; minv); done. }
  exists s2, x1. split_and!; [|by etrans|done..| |done].
  - unfold free_lock, mbind, M_bind. rewrite (get_lock_Ok _ _ _ Hx), Eq. cbn.
    unfold mbind, M_bind in H2. fold x1 s1. rewrite H2. done.
  - rewrite Hl. unfold s1. simpl. by rewrite lookup_insert_eq.
Qed.

(** *** The thread that finished *)

Lemma delete_carcass_Ok E L s :
  sched E L s → currentThread s ∈ L →
  ∃ s', delete_carcass s = Ok (tt, s') ∧ same_objects s s' ∧ user s = user s'
    ∧ hardware s = hardware s' ∧ currentThread s = currentThread s'
    ∧ (∀ t, t ∈ L → threads s' !! t = threads s !! t) ∧ sched E L s'.
Proof.
  intros Hs Hc. pose proof Hs as (Hq & Hn & Hl & Ht & Hd).
  unfold delete_carcass, gets, mbind, M_bind.
  destruct (threadToBeDestroyed s) as [d|] eqn:Ed; [|eexists; by split_and!].
  destruct (Hd d eq_refl) as [[th Hth] HdL].
  unfold Thread_delete, thread, current, get, gets, lift, modify, mbind, M_bind, deref.
  rewrite Hth. cbn. rewrite bool_decide_eq_true_2 by (intros ->; done). cbn.
  eexists. split; [done|]. split; [done|]. do 3 (split; [done|]).
  assert (∀ t, t ∈ L → delete d (threads s) !! t = threads s !! t) as Hdel.
  { intros t Htl. apply lookup_delete_ne. by intros ->. }
  split; [exact Hdel|]. split; [done|]. split; [done|]. split; [done|]. split; [|done].
  intros t Htl. unfold thread_ok. cbn. rewrite Hdel by done. by apply Ht.
Qed.
End state.
