(* ===== verification/KernelLogic.v ===== *)
(** * The logic of file Logic for the kernel of threads

    A client (a program of threads) gives an invariant [cinv] of its data,
    what each thread relies on ([crely]), and which threads start how
    ([croot]).  The ghost state adds the set of the threads that have not
    finished.  The specifications say that interrupts, the scheduler and the
    synchronization objects keep what the running thread [t] knows, as far as
    it is stable, whatever the timer does. *)
From S2P Require Import Prelude Word NList Machine Coro Logic Interrupt Threads Synch KernelState.

(** What a client is: [cinv g s] holds whenever a thread gets the processor,
    [calways s] at any time, [crely t] is what the others leave to thread [t],
    [croot f t] what holds when thread [t] starts with the function [f];
    interrupts may change the rest of the state up to [ueq]. *)
Class Client (F U G : Type) `{!Userland U} := {
  is_handler : F → Prop;
  cinv : G → Kernel F U → Prop;
  calways : Kernel F U → Prop;
  crely : tid → G → Kernel F U → G → Kernel F U → Prop;
  croot : F → tid → G → Kernel F U → Prop;
  ueq : U → U → Prop;
  ueq_refl : ∀ u, ueq u u;
  cinv_view : ∀ g s s', same_objects s s' ∧ ueq (user s) (user s') → cinv g s → cinv g s';
  calways_view : ∀ s s', same_objects s s' ∧ ueq (user s) (user s') → calways s → calways s';
  crely_view : ∀ t g s s', same_objects s s' ∧ ueq (user s) (user s') → crely t g s g s';
  crely_trans : ∀ t g s g1 s1 g2 s2,
    crely t g s g1 s1 → crely t g1 s1 g2 s2 → crely t g s g2 s2;
  croot_rely : ∀ f t g s g' s', crely t g s g' s' → croot f t g s → croot f t g' s';
  DelayedLoad00_ok : ∀ u : U, ∃ u', user_DelayedLoad00 u = Ok (tt, u') ∧ ueq u u'
}.

Section logic.
Context {F U G : Type} `{!Userland U, !Client F U G}.
#[local] Abbreviation K := (Kernel F U).
#[local] Abbreviation kcode := (code (Kernel F U) F).
#[local] Abbreviation GL := (gset tid * G)%type.
Implicit Types (s : K) (t : tid) (gl : GL) (P R : GL → K → Prop).

(** What the client notices of a state, up to what interrupts change. *)
Definition same_view s s' : Prop := same_objects s s' ∧ ueq (user s) (user s').

(** ** The protocol *)

Definition klive gl t : Prop := t ∈ gl.1.

Definition krely t gl s gl' s' : Prop :=
  crely t gl.2 s gl'.2 s' ∧ first_frame s t = first_frame s' t ∧ (t ∈ gl'.1 → t ∈ gl.1).

Definition kroot t gl s : Prop :=
  ∃ f, first_frame s t = Some f ∧ ¬ is_handler f ∧ croot f t gl.2 s.

Definition hw_ok (l : IntStatus) (h : bool) (m : MachineStatus) (hd : Hardware F) : Prop :=
  level (interrupt hd) = l ∧ inHandler (interrupt hd) = h ∧ status_ (interrupt hd) = m
  ∧ intact (pending (interrupt hd))
  ∧ Forall (λ kp, is_handler (handler kp.2)) (Spec.elems (pending (interrupt hd))).

(** Thread [t] executes, with the threads [E] in hand. *)
Definition kstate l h m t (E : list tid) R gl s : Prop :=
  hw_ok l h m (hardware s) ∧ sched E gl.1 s ∧ currentThread s = t ∧ thread_ok s t
  ∧ first_frame s t = None ∧ R gl s.

Definition cP P gl s : Prop := cinv gl.2 s ∧ P gl s.
Definition running t l P : GL → K → Prop := kstate l false SystemMode t [t] (cP P).
Definition anything gl s : Prop := True.

Definition kinv gl s : Prop :=
  hw_ok IntOff false SystemMode (hardware s) ∧ sched [currentThread s] gl.1 s ∧ cinv gl.2 s.

(** [Thread::Yield], an interrupt handler, the function of a thread. *)
Definition kpre (p : option F) t gl s : Prop :=
  match p with
  | None => running t IntOn anything gl s
  | Some f =>
      (is_handler f ∧ ∃ E, kstate IntOff true SystemMode t E (cP anything) gl s)
      ∨ (¬ is_handler f ∧ running t IntOn (λ gl, croot f t gl.2) gl s)
  end.

Definition kpost (p : option F) t gl s gl' s' : Prop :=
  match p with
  | None => running t IntOn anything gl' s' ∧ krely t gl s gl' s'
  | Some f =>
      (is_handler f → krely t gl s gl' s'
         ∧ ∀ E, kstate IntOff true SystemMode t E (cP anything) gl s →
                kstate IntOff true SystemMode t E (cP anything) gl' s')
      ∧ (¬ is_handler f → running t IntOn anything gl' s')
  end.

Definition kwp t {A} (c : kcode A) gl s (Q : A → GL → K → Prop) : Prop :=
  swp start currentThread klive kinv calways krely kroot kpre kpost t c gl s Q.
Definition kguar t gl s gl' s' : Prop := guar klive calways krely kroot t gl s gl' s'.

(** What a thread knows whatever the others do. *)
Definition stable t P : Prop := ∀ gl s gl' s', krely t gl s gl' s' → P gl s → P gl' s'.

(** A change of the data by the client, in thread [t]. *)
Definition cstep t gl s (g' : G) s' : Prop :=
  (calways s → calways s') ∧ cinv g' s' ∧ ∀ t', t' ≠ t → crely t' gl.2 s g' s'.

Lemma same_view_user s s' : same_objects s s' → user s = user s' → same_view s s'.
Proof. intros Ho Hu. split; [done|]. rewrite Hu. apply ueq_refl. Qed.

Lemma frame_view s s' : frame s s' → same_view s s'.
Proof. intros (Ho & _ & Hu & _). by apply same_view_user. Qed.

Lemma same_view_refl s : same_view s s.
Proof. by apply same_view_user. Qed.

Lemma krely_refl t gl s : krely t gl s gl s.
Proof. split; [apply crely_view, same_view_refl|done]. Qed.

Lemma krely_trans t gl s gl1 s1 gl2 s2 :
  krely t gl s gl1 s1 → krely t gl1 s1 gl2 s2 → krely t gl s gl2 s2.
Proof.
  intros (H & Hf & Hl) (H' & Hf' & Hl'). split; [by eapply crely_trans|].
  split; [congruence|auto].
Qed.

Lemma krely_view t gl s s' :
  same_view s s' → first_frame s t = first_frame s' t → krely t gl s gl s'.
Proof. intros Hv Hf. split; [by apply crely_view|done]. Qed.

Lemma stable_view t P gl s s' :
  stable t P → same_view s s' → first_frame s t = first_frame s' t → P gl s → P gl s'.
Proof. intros Hp Hv Hf. apply Hp. by apply krely_view. Qed.

Lemma stable_anything t : stable t anything.
Proof. done. Qed.

Lemma stable_krely t gl s : stable t (krely t gl s).
Proof. intros gl1 s1 gl2 s2 H H'. by eapply krely_trans. Qed.

Lemma stable_croot t f : stable t (λ gl, croot f t gl.2).
Proof. intros gl s gl' s' (H & _). by apply croot_rely. Qed.

(** *** Operations that the others do not notice *)

Lemma kguar_view t gl s s' :
  same_view s s' → (∀ t', t' ∈ gl.1 → first_frame s t' = first_frame s' t') → kguar t gl s gl s'.
Proof.
  intros Hv Hf. split; [by apply calways_view|]. intros t' _ Hl. left.
  split; [done|]. apply krely_view; auto.
Qed.

Lemma kwp_view {A} t (m : M K A) gl s a s' (Q : A → GL → K → Prop) :
  m s = Ok (a, s') → same_view s s' →
  (∀ t', t' ∈ gl.1 → first_frame s t' = first_frame s' t') →
  Q a gl s' → kwp t (run m) gl s Q.
Proof. intros Hm Hv Hf HQ. by eapply swp_run, HQ; [|apply kguar_view]. Qed.

Lemma kwp_frame {A} t (m : M K A) gl s a s' (Q : A → GL → K → Prop) :
  m s = Ok (a, s') → frame s s' → Q a gl s' → kwp t (run m) gl s Q.
Proof.
  intros Hm Hf HQ. eapply kwp_view; [done|by apply frame_view| |done].
  intros t' _. apply Hf.
Qed.

Lemma kwp_id {A} t (m : M K A) gl s a (Q : A → GL → K → Prop) :
  m s = Ok (a, s) → Q a gl s → kwp t (run m) gl s Q.
Proof. intros Hm. by apply kwp_frame. Qed.

Lemma kwp_hw {A} t (m : M K A) gl s a hd (Q : A → GL → K → Prop) :
  m s = Ok (a, set_hardware hd s) → Q a gl (set_hardware hd s) → kwp t (run m) gl s Q.
Proof.
  intros Hm.
  apply (kwp_view t m gl s a (set_hardware hd s)); [done| |done]. by apply same_view_user.
Qed.

Lemma kwp_bind {A B} t (c : kcode A) (k : A → kcode B) gl s Q :
  kwp t c gl s (λ a gl' s', kwp t (k a) gl' s' Q) → kwp t (c ≫= k) gl s Q.
Proof. apply swp_bind. Qed.

Lemma kwp_mono {A} t (c : kcode A) gl s (Q Q' : A → GL → K → Prop) :
  kwp t c gl s Q → (∀ a gl s, Q a gl s → Q' a gl s) → kwp t c gl s Q'.
Proof. apply swp_mono. Qed.

Lemma kwp_ret {A} t (a : A) gl s (Q : A → GL → K → Prop) : Q a gl s → kwp t (mret a) gl s Q.
Proof. done. Qed.

(** *** How the state of the kernel changes *)

Lemma cP_stable t P gl s gl' s' :
  stable t P → cinv gl'.2 s' → krely t gl s gl' s' → cP P gl s → cP P gl' s'.
Proof. intros Hs Hc Hr [_ Hp]. split; [done|by eapply Hs]. Qed.

Lemma cP_view t P gl s s' :
  stable t P → same_view s s' → first_frame s t = first_frame s' t → cP P gl s → cP P gl s'.
Proof.
  intros Hs Hv Hf [Hc Hp]. split; [by eapply cinv_view|]. by eapply stable_view.
Qed.

Lemma kstate_hw l h m l' h' m' t E P gl s hd :
  stable t P → kstate l h m t E (cP P) gl s → hw_ok l' h' m' hd →
  kstate l' h' m' t E (cP P) gl (set_hardware hd s).
Proof.
  intros Hs (_ & Hsc & Hc & Ht & Hf & Hp) Hh. do 5 (split; [done|]).
  apply (cP_view t P gl s); [done| |done|done]. by apply same_view_user.
Qed.

Lemma kstate_frame l h m t E E' P gl s s' :
  stable t P → kstate l h m t E (cP P) gl s → frame s s' → sched E' gl.1 s' →
  kstate l h m t E' (cP P) gl s'.
Proof.
  intros Hs (Hh & _ & Hc & Ht & Hf & Hp) Hfr Hsc.
  pose proof Hfr as (Ho & Hff & Hu & Hhw & Hcu & Hok).
  split; [by rewrite <- Hhw|]. split; [done|]. split; [congruence|]. split; [auto|].
  split; [by rewrite <- Hff|]. apply (cP_view t P gl s); [done|by apply frame_view|apply Hff|done].
Qed.

Lemma kstate_weaken l h m t E P P' gl s :
  kstate l h m t E (cP P) gl s → P' gl s → kstate l h m t E (cP P') gl s.
Proof. intros (Hh & Hsc & Hc & Ht & Hf & [Hi _]) Hp. by do 6 (split; [done|]). Qed.

Ltac kread := apply kwp_bind; eapply kwp_id; [reflexivity|]; cbv beta.

(** ** Interrupts *)

(** A pending interrupt is taken out and put back. *)
Lemma remove_pending_Ok l h m s :
  hw_ok l h m (hardware s) →
  ∃ r hd, remove_pending s = Ok (r, set_hardware hd s) ∧ hw_ok l h m hd
    ∧ stats hd = stats (hardware s)
    ∧ match r with Some (_, p) => is_handler (handler p) | None => True end.
Proof.
  intros (Hl & Hh & Hm & Hi & Hp). unfold remove_pending, gets, on_interrupt, modify, mbind, M_bind.
  simpl. unfold Spec.SortedRemove.
  destruct (Spec.elems (pending (interrupt (hardware s)))) as [|[k p] q] eqn:E; cbn;
    eexists _, _; (split; [done|]).
  - repeat split; try done. simpl. by rewrite E.
  - apply list.Forall_cons in Hp as [Hp Hq]. repeat split; try done.
    unfold intact, Spec.mk in *. simpl. by destruct q.
Qed.

Lemma insert_pending_Ok l h m p when s :
  hw_ok l h m (hardware s) → is_handler (handler p) →
  ∃ hd, insert_pending p when s = Ok (tt, set_hardware hd s) ∧ hw_ok l h m hd.
Proof.
  intros (Hl & Hh & Hm & Hi & Hp) Hk.
  destruct (SortedInsert_total when p _ Hi) as (q & Hq & Hperm).
  unfold insert_pending, gets, on_interrupt, modify, lift, mbind, M_bind. simpl. rewrite Hq.
  eexists. split; [done|]. repeat split; try done. simpl. rewrite Hperm. by constructor.
Qed.

Lemma Schedule_Ok l h m f fromNow type s :
  hw_ok l h m (hardware s) → is_handler f → 0 < fromNow →
  ∃ hd, Schedule f fromNow type s = Ok (tt, set_hardware hd s) ∧ hw_ok l h m hd.
Proof.
  intros Hh Hf Hn.
  destruct (insert_pending_Ok l h m (MkPending f (add32 (totalTicks (stats (hardware s))) fromNow) type)
              (add32 (totalTicks (stats (hardware s))) fromNow) s Hh Hf) as (hd & Hi & Hh').
  exists hd. split; [|done]. unfold Schedule, now, gets, lift, mbind, M_bind, ASSERT. simpl.
  by rewrite (proj2 (Z.ltb_lt _ _) Hn).
Qed.

Section thread.
Variable t : tid.
#[local] Abbreviation DL := (on_user (F := F) user_DelayedLoad00).

(** The operations on the interrupt hardware alone. *)
Lemma kwp_on_interrupt f l h m l' h' m' E P gl s (Q : unit → GL → K → Prop) :
  stable t P → kstate l h m t E (cP P) gl s →
  (∀ i, pending (f i) = pending i) →
  (∀ i, level i = l → level (f i) = l') → (∀ i, inHandler i = h → inHandler (f i) = h') →
  (∀ i, status_ i = m → status_ (f i) = m') →
  (∀ s', kstate l' h' m' t E (cP P) gl s' → Q tt gl s') →
  kwp t (run (on_interrupt f)) gl s Q.
Proof.
  intros Hs Hk Hp Hl Hh Hm HQ. eapply kwp_hw; [reflexivity|]. apply HQ.
  eapply kstate_hw; [done|exact Hk|]. destruct Hk as ((?&?&?&?&?)&_).
  repeat split; simpl; auto; by rewrite Hp.
Qed.

Lemma kwp_on_stats f l h m E P gl s (Q : unit → GL → K → Prop) :
  stable t P → kstate l h m t E (cP P) gl s →
  (∀ s', kstate l h m t E (cP P) gl s' → Q tt gl s') →
  kwp t (run (on_stats f)) gl s Q.
Proof.
  intros Hs Hk HQ. eapply kwp_hw; [reflexivity|]. apply HQ.
  eapply kstate_hw; [done|exact Hk|]. by destruct Hk as ((?&?&?&?&?)&_).
Qed.

Lemma kwp_insert_pending p when l h m E P gl s (Q : unit → GL → K → Prop) :
  stable t P → kstate l h m t E (cP P) gl s → is_handler (handler p) →
  (∀ s', kstate l h m t E (cP P) gl s' → Q tt gl s') →
  kwp t (run (insert_pending p when)) gl s Q.
Proof.
  intros Hs Hk Hp HQ. destruct (insert_pending_Ok l h m p when s) as (hd & Hi & Hh); [apply Hk|done|].
  eapply kwp_hw; [exact Hi|]. apply HQ. by eapply kstate_hw.
Qed.

Lemma kwp_DelayedLoad00 l h m E P gl s (Q : unit → GL → K → Prop) :
  stable t P → kstate l h m t E (cP P) gl s →
  (∀ s', kstate l h m t E (cP P) gl s' → Q tt gl s') →
  kwp t (run DL) gl s Q.
Proof.
  intros Hs Hk HQ. destruct (DelayedLoad00_ok (user s)) as (u & Hu & Hq).
  eapply (kwp_view t DL gl s tt (set_user u s)).
  - unfold on_user, get, lift, modify, mbind, M_bind. by rewrite Hu.
  - by split.
  - done.
  - apply HQ. destruct Hk as (Hh & Hsc & Hc & Ht & Hf & Hp). do 5 (split; [done|]).
    apply (cP_view t P gl s); [done|by split|done|done].
Qed.

(** A handler is called. *)
Lemma kwp_handler f E P gl s (Q : unit → GL → K → Prop) :
  stable t P → is_handler f → kstate IntOff true SystemMode t E (cP P) gl s →
  (∀ gl' s', kstate IntOff true SystemMode t E (cP P) gl' s' → Q tt gl' s') →
  kwp t (CallFun f (Ret tt)) gl s Q.
Proof.
  intros Hs Hf Hk HQ. pose proof (kstate_weaken _ _ _ _ _ _ anything _ _ Hk I) as Hk0.
  split; [left; eauto|]. intros gl' s' [Hp _]. destruct (Hp Hf) as [Hr Hp']. simpl.
  apply HQ. eapply kstate_weaken; [by apply Hp'|].
  destruct Hk as (_ & _ & _ & _ & _ & _ & Hpp). by eapply Hs.
Qed.

Lemma fire_ok md when p E P gl s :
  stable t P → is_handler (handler p) → kstate IntOff false md t E (cP P) gl s →
  kwp t (fire DL md when p) gl s (λ _, kstate IntOff false md t E (cP P)).
Proof.
  intros Hs Hp Hk. unfold fire.
  kread. kread.
  destruct (_ && _ && _).
  - apply kwp_bind. eapply kwp_insert_pending; [done..|]. intros s1 H1. cbv beta. by apply kwp_ret.
  - apply kwp_bind. eapply kwp_DelayedLoad00; [done..|]. intros s1 H1. cbv beta.
    apply kwp_bind. eapply (kwp_on_interrupt _ _ _ _ IntOff true md); [done..|]. intros s2 H2. cbv beta.
    apply kwp_bind. eapply (kwp_on_interrupt _ _ _ _ IntOff true SystemMode); [done..|]. intros s3 H3. cbv beta.
    apply kwp_bind. eapply kwp_handler; [done..|]. intros gl4 s4 H4. cbv beta.
    apply kwp_bind. eapply (kwp_on_interrupt _ _ _ _ IntOff true md); [done..|]. intros s5 H5. cbv beta.
    apply kwp_bind. eapply (kwp_on_interrupt _ _ _ _ IntOff false md); [done..|]. intros s6 H6. cbv beta.
    by apply kwp_ret.
Qed.

Lemma CheckIfDue_ok adv md E P gl s :
  stable t P → kstate IntOff false md t E (cP P) gl s →
  kwp t (CheckIfDue DL adv) gl s (λ _, kstate IntOff false md t E (cP P)).
Proof.
  intros Hs Hk. unfold CheckIfDue. pose proof Hk as (Hh & _). pose proof Hh as (Hl & _ & Hm & _).
  kread. kread.
  apply kwp_bind. eapply kwp_id; [cbn; by rewrite Hl|]. cbv beta.
  destruct (remove_pending_Ok _ _ _ _ Hh) as (r & hd & Hr & Hhd & Hst & Hp).
  apply kwp_bind. eapply kwp_hw; [exact Hr|]. cbv beta.
  assert (kstate IntOff false md t E (cP P) gl (set_hardware hd s)) as H1 by (by eapply kstate_hw).
  change (hw s) with (hardware s). rewrite Hm. destruct r as [[when p]|]; [|by apply kwp_ret].
  kread. destruct (adv && _); [|destruct (_ <? _)].
  - apply kwp_bind. eapply kwp_on_stats; [done..|]. intros s2 H2. cbv beta. by apply fire_ok.
  - apply kwp_bind. eapply kwp_insert_pending; [done..|]. intros s2 H2. cbv beta. by apply kwp_ret.
  - by apply fire_ok.
Qed.

Lemma due_interrupts_ok md E P gl s :
  stable t P → kstate IntOff false md t E (cP P) gl s →
  kwp t (while (CheckIfDue DL false)) gl s (λ _, kstate IntOff false md t E (cP P)).
Proof.
  intros Hs Hk. apply swp_while with (I := kstate IntOff false md t E (cP P)); [done|].
  intros gl' s' H. eapply kwp_mono; [by apply CheckIfDue_ok|]. by intros [].
Qed.

(** ** The scheduler *)

Lemma kwp_yield (k : kcode unit) P gl s (Q : unit → GL → K → Prop) :
  stable t P → running t IntOn P gl s →
  (∀ gl' s', running t IntOn P gl' s' → kwp t k gl' s' Q) →
  kwp t (CallYield k) gl s Q.
Proof.
  intros Hs Hk HQ. split; [by eapply kstate_weaken|]. intros gl' s' [Hr Hp]. apply HQ.
  eapply kstate_weaken; [done|]. destruct Hk as (_ & _ & _ & _ & _ & _ & Hpp). by eapply Hs.
Qed.

Lemma OneTick_ok P gl s (Q : unit → GL → K → Prop) :
  stable t P → running t IntOn P gl s →
  (∀ gl' s', running t IntOn P gl' s' → Q tt gl' s') →
  kwp t OneTick gl s Q.
Proof.
  intros Hs Hk HQ. unfold OneTick, Interrupt.OneTick.
  assert (status_ (interrupt (hw s)) = SystemMode) as Hm by apply Hk.
  kread. rewrite Hm.
  apply kwp_bind. eapply kwp_hw; [reflexivity|]. cbv beta.
  assert (running t IntOn P gl (set_hardware (MkHardware (interrupt (hw s))
    ((if decide (status_ (interrupt (hw s)) = SystemMode) then system_tick else user_tick)
       (stats (hw s)))) s)) as H1.
  { eapply kstate_hw; [done|exact Hk|]. by destruct Hk as ((?&?&?&?&?)&_). }
  apply kwp_bind. eapply (kwp_on_interrupt _ _ _ _ IntOff false SystemMode); [done..|].
  intros s2 H2. cbv beta.
  apply kwp_bind. eapply kwp_mono; [by apply due_interrupts_ok|]. intros [] gl3 s3 H3. cbv beta.
  apply kwp_bind. eapply (kwp_on_interrupt _ _ _ _ IntOn false SystemMode); [done..|].
  intros s4 H4. cbv beta. kread. destruct (yieldOnReturn _); [|by apply HQ].
  apply kwp_bind. eapply (kwp_on_interrupt _ _ _ _ IntOn false SystemMode); [done..|].
  intros s5 H5. cbv beta.
  apply kwp_bind. eapply (kwp_on_interrupt _ _ _ _ IntOn false SystemMode); [done..|].
  intros s6 H6. cbv beta. eapply kwp_yield; [done..|]. intros gl7 s7 H7.
  eapply (kwp_on_interrupt _ _ _ _ IntOn false SystemMode); [done..|]. intros s8 H8. by apply HQ.
Qed.

Lemma SetLevel_ok l l' P gl s (Q : IntStatus → GL → K → Prop) :
  stable t P → running t l P gl s →
  (∀ gl' s', running t l' P gl' s' → Q l gl' s') →
  kwp t (SetLevel l') gl s Q.
Proof.
  intros Hs Hk HQ. unfold SetLevel, Interrupt.SetLevel.
  assert (level (interrupt (hw s)) = l ∧ inHandler (interrupt (hw s)) = false) as [Hl Hh]
    by (split; apply Hk).
  kread. rewrite Hl. kread. rewrite Hh.
  apply kwp_bind. eapply kwp_id; [by rewrite orb_true_r|]. cbv beta.
  apply kwp_bind. eapply (kwp_on_interrupt _ _ _ _ l' false SystemMode); [done..|].
  intros s1 H1. cbv beta. apply kwp_bind.
  destruct (bool_decide (l' = IntOn)) eqn:El'; simpl; [|by apply kwp_ret, HQ].
  apply bool_decide_eq_true in El' as ->. destruct (bool_decide (l = IntOff)).
  - apply (OneTick_ok P); [done..|]. intros gl2 s2 H2. by apply kwp_ret, HQ.
  - by apply kwp_ret, HQ.
Qed.

Lemma Enable_ok P gl s (Q : unit → GL → K → Prop) :
  stable t P → running t IntOff P gl s →
  (∀ gl' s', running t IntOn P gl' s' → Q tt gl' s') → kwp t Enable gl s Q.
Proof.
  intros Hs Hk HQ. apply kwp_bind. eapply SetLevel_ok; [done..|]. intros gl' s' H'.
  by apply kwp_ret, HQ.
Qed.

Lemma Idle_ok P gl s (Q : unit → GL → K → Prop) :
  stable t P → kstate IntOff false SystemMode t [] (cP P) gl s →
  (∀ gl' s', kstate IntOff false SystemMode t [] (cP P) gl' s' → Q tt gl' s') →
  kwp t Idle gl s Q.
Proof.
  intros Hs Hk HQ. unfold Idle, Interrupt.Idle.
  apply kwp_bind. eapply (kwp_on_interrupt _ _ _ _ IntOff false IdleMode); [done..|].
  intros s1 H1. cbv beta. apply kwp_bind. eapply kwp_mono; [by apply CheckIfDue_ok|].
  intros b gl2 s2 H2. cbv beta. destruct b; [|done].
  apply kwp_bind. eapply kwp_mono; [by apply due_interrupts_ok|]. intros [] gl3 s3 H3. cbv beta.
  apply kwp_bind. eapply (kwp_on_interrupt _ _ _ _ IntOff false IdleMode); [done..|].
  intros s4 H4. cbv beta.
  eapply (kwp_on_interrupt _ _ _ _ IntOff false SystemMode); [done..|]. intros s5 H5. by apply HQ.
Qed.

Lemma next_thread_ok P gl s (Q : tid → GL → K → Prop) :
  stable t P → kstate IntOff false SystemMode t [] (cP P) gl s →
  (∀ n gl' s', kstate IntOff false SystemMode t [n] (cP P) gl' s' → Q n gl' s') →
  kwp t next_thread gl s Q.
Proof.
  intros Hs Hk HQ. apply swp_until with (I := kstate IntOff false SystemMode t [] (cP P)); [done|].
  clear gl s Hk. intros gl s Hk. apply kwp_bind.
  destruct (FindNextToRun_Ok [] gl.1 s) as [(s' & Hf & Hfr & Hsc)|(n & s' & Hf & Hfr & Hsc)];
    [apply Hk| |]; (eapply kwp_frame; [exact Hf|done|]); cbv beta iota.
  - apply kwp_bind. eapply (Idle_ok P); [done|by eapply kstate_frame|]. intros gl2 s2 H2.
    by apply kwp_ret.
  - apply kwp_ret, HQ. by eapply kstate_frame.
Qed.

(** What the thread knows when it is resumed. *)
Lemma resumed P gl s gl' s' :
  stable t P → P gl s → first_frame s t = None → krely t gl s gl' s' →
  kinv gl' s' → currentThread s' = t → t ∈ gl'.1 →
  running t IntOff P gl' s'.
Proof.
  intros Hs Hp Hf Hr (Hh & Hsc & Hc) Ht Hl. pose proof Hr as (_ & Hff & _).
  subst t. split; [done|]. split; [done|]. split; [done|]. split; [by apply Hsc|].
  split; [congruence|]. split; [done|]. by eapply Hs.
Qed.

Lemma Run_ok n P gl s (Q : unit → GL → K → Prop) :
  stable t P → kstate IntOff false SystemMode t [n] (cP P) gl s →
  (t ∈ gl.1 → ∀ gl' s', running t IntOff P gl' s' → Q tt gl' s') →
  kwp t (Run n) gl s Q.
Proof.
  intros Hs (Hh & Hsc & Hc & (th & Hth & Hst & Hsp) & Hf & Hi & Hp) HQ. unfold Run.
  kread. rewrite Hc.
  assert (thread t s = Ok (th, s)) as Htt
    by (unfold thread, get, lift, deref, mbind, M_bind; by rewrite Hth).
  apply kwp_bind. eapply (kwp_id _ _ _ _ tt).
  { unfold save_user. unfold current, gets. rewrite (M_bind_step _ _ _ _ _ eq_refl).
    rewrite Hc, (M_bind_step _ _ _ _ _ Htt). by rewrite Hsp. }
  cbv beta. apply kwp_bind. eapply (kwp_id _ _ _ _ tt).
  { unfold CheckOverflow. rewrite (M_bind_step _ _ _ _ _ Htt). by destruct Hst as [-> | ->]. }
  cbv beta. apply kwp_bind. eapply kwp_view; [reflexivity|by apply same_view_user|done|]. cbv beta.
  set (s1 := set_currentThread n s).
  destruct (setStatus_Ok s1 n RUNNING) as (s2 & H2 & Hf2 & Hw2 & Hs2).
  { destruct Hsc as (_ & _ & Hl & Hok & _). apply Hok, Hl. set_solver. }
  apply kwp_bind. eapply kwp_frame; [exact H2|done|]. cbv beta.
  pose proof Hf2 as (Ho & Hff & Hu & Hhw & Hcu & Hok).
  assert (currentThread s2 = n) as Hcn by done.
  assert (same_view s s2) as Hv by (by apply same_view_user).
  assert (first_frame s2 t = None) as Hft by (by rewrite <- Hff).
  split; [done|]. split; [done|]. split; [apply Hsc; set_solver|].
  split; [intros (c & s3 & H3)|split].
  - unfold Threads.start in H3. minv. unfold thread, get, lift, mbind, M_bind in *.
    unfold first_frame in Hft. destruct (threads s2 !! t) as [th2|]; [|done].
    simpl in *. simplify_eq. by rewrite Hft in *.
  - split; [by rewrite <- Hhw|]. split; [|by eapply cinv_view]. rewrite Hcn. by apply Hs2.
  - intros Hl gl' s' Hi' Hc' Hl' Hr. change (kwp t (run delete_carcass ;; run restore_user) gl' s' Q).
    assert (running t IntOff P gl' s') as Hk.
    { eapply (resumed P gl s2); [done| |done..]. apply (stable_view t P gl s); [done|done|apply Hff|done]. }
    destruct (delete_carcass_Ok [t] gl'.1 s') as (s3 & H3 & Ho3 & Hu3 & Hh3 & Hc3 & Ht3 & Hs3);
      [apply Hk|congruence|].
    assert (∀ t', t' ∈ gl'.1 → first_frame s' t' = first_frame s3 t') as Hff3
      by (intros t' Ht'; unfold first_frame; by rewrite Ht3).
    apply kwp_bind. eapply kwp_view; [exact H3|by apply same_view_user|done|]. cbv beta.
    destruct Hk as (Hh' & _ & _ & Hok' & Hf' & Hp').
    eapply (kwp_id _ _ _ _ tt).
    { unfold restore_user, current, gets. rewrite (M_bind_step _ _ _ _ _ eq_refl).
      destruct Hok' as (th' & Hth' & _ & Hsp'). rewrite <- Hc3, Hc'.
      unfold thread, get, lift, deref, mbind, M_bind. rewrite Ht3, Hth' by done. cbn.
      by rewrite Hsp'. }
    apply HQ; [done|]. split; [by rewrite <- Hh3|]. split; [done|]. split; [congruence|].
    split; [apply Hs3; done|]. split; [by rewrite <- Hff3|].
    apply (cP_view t P gl' s'); [done|by apply same_view_user|by apply Hff3|done].
Qed.

(** A change of the data, with what else happens to the state in the same
    operation: first what nobody notices, up to [s1]. *)
Lemma kwp_client {A} (m : M K A) l h md E E' P P' gl s s1 a g' s' (Q : A → GL → K → Prop) :
  m s = Ok (a, s') → kstate l h md t E (cP P) gl s →
  same_view s s1 → cstep t gl s1 g' s' →
  same_frames s s' → hardware s' = hardware s → currentThread s' = currentThread s →
  thread_ok s' t → sched E' gl.1 s' → P' (gl.1, g') s' →
  (kstate l h md t E' (cP P') (gl.1, g') s' → Q a (gl.1, g') s') →
  kwp t (run m) gl s Q.
Proof.
  intros Hm (Hh & _ & Hc & _ & Hf & _) Hv (Ha & Hi & Hr) Hff Hhw Hcu Hok Hsc Hp HQ.
  eapply swp_run; [exact Hm| |apply HQ].
  - split; [intros; by eapply Ha, calways_view|]. intros t' Ht' Hl. left. split; [done|].
    split; [|by split]. eapply crely_trans; [by apply crely_view|]. by apply Hr.
  - split; [by rewrite Hhw|]. split; [done|]. split; [congruence|]. split; [done|].
    split; [by rewrite <- Hff|done].
Qed.

(** A change of the data of the client alone. *)
Lemma kwp_user {A} (m : M K A) l P P' gl s a u g' (Q : A → GL → K → Prop) :
  m s = Ok (a, set_user u s) → running t l P gl s →
  cstep t gl s g' (set_user u s) → P' (gl.1, g') (set_user u s) →
  (running t l P' (gl.1, g') (set_user u s) → Q a (gl.1, g') (set_user u s)) →
  kwp t (run m) gl s Q.
Proof.
  intros Hm Hk Hc Hp HQ. eapply kwp_client with (P' := P') (E' := [t]);
    [exact Hm|exact Hk|apply same_view_refl|exact Hc|done..| | |done|done]; apply Hk.
Qed.

Lemma Sleep_ok P gl s (Q : unit → GL → K → Prop) :
  stable t P → kstate IntOff false SystemMode t [] (cP P) gl s →
  (∀ gl' s', running t IntOff P gl' s' → Q tt gl' s') →
  kwp t (Sleep t) gl s Q.
Proof.
  intros Hs Hk HQ. unfold Sleep. pose proof Hk as (Hh & Hsc & Hc & Hok & _).
  apply kwp_bind. eapply (kwp_id _ _ _ _ tt).
  { unfold is_current, current, gets, lift, mbind, M_bind. rewrite Hc.
    by rewrite bool_decide_eq_true_2. }
  cbv beta. kread. destruct Hh as (Hl & _). change (hw s) with (hardware s). rewrite Hl.
  apply kwp_bind. eapply kwp_id; [reflexivity|]. cbv beta.
  destruct (setStatus_Ok s t BLOCKED Hok) as (s1 & H1 & Hf1 & _ & Hs1).
  apply kwp_bind. eapply kwp_frame; [exact H1|done|]. cbv beta.
  apply kwp_bind. eapply (next_thread_ok P); [done|eapply kstate_frame; eauto|].
  intros n gl2 s2 H2. cbv beta. apply (Run_ok n P); auto.
Qed.

Lemma current_Sleep_ok P gl s (Q : unit → GL → K → Prop) :
  stable t P → kstate IntOff false SystemMode t [] (cP P) gl s →
  (∀ gl' s', running t IntOff P gl' s' → Q tt gl' s') →
  kwp t current_Sleep gl s Q.
Proof.
  intros Hs Hk HQ. unfold current_Sleep. kread. destruct Hk as (Hh & Hsc & Hc & Hk).
  rewrite Hc. by apply (Sleep_ok P).
Qed.

Lemma Yield_ok l P gl s (Q : unit → GL → K → Prop) :
  stable t P → running t l P gl s →
  (∀ gl' s', running t l P gl' s' → Q tt gl' s') →
  kwp t (Yield t) gl s Q.
Proof.
  intros Hs Hk HQ. unfold Yield.
  apply kwp_bind. eapply (SetLevel_ok l IntOff P); [done..|]. clear gl s Hk. intros gl s Hk. cbv beta.
  apply kwp_bind. eapply (kwp_id _ _ _ _ tt).
  { unfold is_current, current, gets, lift, mbind, M_bind. destruct Hk as (_ & _ & -> & _).
    by rewrite bool_decide_eq_true_2. }
  cbv beta. apply kwp_bind.
  destruct (FindNextToRun_Ok [t] gl.1 s) as [(s' & Hf & Hfr & Hsc)|(n & s' & Hf & Hfr & Hsc)];
    [apply Hk| |]; (eapply kwp_frame; [exact Hf|done|]); cbv beta iota;
    apply kwp_bind, (kwp_mono _ _ _ _ (λ _, running t IntOff P));
    try (intros [] gl2 s2 H2; cbv beta in H2 |- *; apply kwp_bind;
         eapply (SetLevel_ok _ l P); [done|exact H2|]; intros; by apply kwp_ret, HQ).
  - apply kwp_ret. by eapply kstate_frame.
  - apply (sched_perm _ [t; n]) in Hsc; [|apply perm_swap].
    destruct (ReadyToRun_Ok [n] gl.1 s' t Hsc) as (s2 & H2 & Hf2 & Hs2).
    apply kwp_bind. eapply kwp_frame; [exact H2|done|]. cbv beta.
    apply (Run_ok n P); [done| |auto]. eapply kstate_frame; [done|exact Hk|by etrans|done].
Qed.

Lemma current_Yield_ok gl s :
  kpre None t gl s → kwp t current_Yield gl s (λ _ gl' s', kpost None t gl s gl' s').
Proof.
  intros Hk. unfold current_Yield. kread.
  destruct Hk as (Hh & Hsc & Hc & Hok & Hf & Hi & _). rewrite Hc.
  apply (Yield_ok IntOn (krely t gl s)); [apply stable_krely| |].
  - do 6 (split; [done|]). apply krely_refl.
  - intros gl' s' Hk. split.
    + by eapply kstate_weaken.
    + by destruct Hk as (_ & _ & _ & _ & _ & _ & Hp).
Qed.

Lemma ThreadFinish_ok l gl s (Q : unit → GL → K → Prop) :
  running t l anything gl s → kwp t ThreadFinish gl s Q.
Proof.
  intros Hk. unfold ThreadFinish. kread. replace (currentThread s) with t by (symmetry; apply Hk).
  unfold Finish. apply kwp_bind. eapply (SetLevel_ok l IntOff anything); [done..|].
  clear gl s Hk. intros [L g] s Hk. cbv beta.
  apply kwp_bind. eapply (kwp_id _ _ _ _ tt).
  { unfold is_current, current, gets, lift, mbind, M_bind. destruct Hk as (_ & _ & -> & _).
    by rewrite bool_decide_eq_true_2. }
  cbv beta. destruct Hk as (Hh & (Hq & Hn & Hl & Ht & Hd) & Hc & Hok & Hf & Hi & _).
  apply kwp_bind. eapply (swp_run _ _ _ _ _ _ _ _ _ _ _ _ _ tt
                            (set_threadToBeDestroyed (Some t) s) (L ∖ {[t]}, g)).
  - unfold modify. by rewrite Hc.
  - split; [by apply calways_view, same_view_user|]. intros t' Ht' Hl'. left.
    unfold klive in *. simpl in *. split; [set_solver|]. split; [|set_solver].
    by apply crely_view, same_view_user.
  - cbv beta. simpl in *. apply list.NoDup_cons in Hn as [Hn1 Hn2].
    eapply (Sleep_ok (λ gl _, t ∉ gl.1)).
    + intros gl1 s1 gl2 s2 (_ & _ & Hr) Hp ?. by apply Hp, Hr.
    + split; [done|]. split; [|do 3 (split; [done|]); split; [|simpl; set_solver]].
      2: { eapply cinv_view; [|exact Hi]. by apply same_view_user. }
      split; [done|]. split; [done|]. split.
      * intros t' Hin. simpl. apply elem_of_difference. split; [apply Hl; set_solver|].
        intros ->%elem_of_singleton. done.
      * split; [intros t' Hin; apply Ht; set_solver|]. intros d [= <-]. split; [|set_solver].
        destruct Hok as (th & Hth & _). eauto.
    + intros gl' s' (_ & (_ & _ & Hl' & _) & _ & _ & _ & _ & Hp). destruct Hp. apply Hl'. set_solver.
Qed.

(** ** Synchronization

    The client is told the state in which its data change ([cstep]), and
    chooses the new ghost state. *)

Lemma kstate_sem l h m E P gl s p :
  (∀ g s, cinv g s → is_Some (semaphores s !! p)) →
  kstate l h m t E (cP P) gl s → ∃ x, semaphores s !! p = Some x.
Proof. intros Hp (_ & _ & _ & _ & _ & Hi & _). by eapply Hp. Qed.

Lemma kstate_lock l h m E P gl s p :
  (∀ g s, cinv g s → is_Some (locks s !! p)) →
  kstate l h m t E (cP P) gl s → ∃ x, locks s !! p = Some x.
Proof. intros Hp (_ & _ & _ & _ & _ & Hi & _). by eapply Hp. Qed.

(** What follows a change of the data: the interrupts are restored. *)
Lemma kwp_change (m : M K unit) l P P' gl s s1 g' s' (Q : unit → GL → K → Prop) :
  stable t P' → m s = Ok (tt, s') → running t IntOff P gl s → frame s s1 →
  threads s' = threads s1 → hardware s' = hardware s1 → currentThread s' = currentThread s1 →
  sched [t] gl.1 s' → cstep t gl s1 g' s' → P' (gl.1, g') s' →
  (∀ gl' s', running t l P' gl' s' → Q tt gl' s') →
  kwp t (run m ;; SetLevel l ;; mret tt) gl s Q.
Proof.
  intros Hs Hm Hk Hf1 Et Eh Ec Hsc Hc Hp HQ. pose proof Hf1 as (_ & Hff & _ & Hhw & Hcu & Hok).
  apply kwp_bind. eapply kwp_client with (P' := P') (E' := [t]); [exact Hm|exact Hk| |exact Hc|..].
  - by apply frame_view.
  - intros t'. rewrite Hff. unfold first_frame. by rewrite Et.
  - congruence.
  - congruence.
  - unfold thread_ok. rewrite Et. apply Hok, Hk.
  - done.
  - done.
  - intros Hk'. apply kwp_bind. eapply (SetLevel_ok _ l P'); [done..|]. intros gl2 s2 H2.
    by apply kwp_ret, HQ.
Qed.

Lemma changed_semaphore E L s o x v :
  sched E L s → semaphores s !! o = Some x →
  sched E L (set_semaphores (<[o := MkSemaphore v (queue x)]> (semaphores s)) s).
Proof.
  intros Hs Hx. eapply put_semaphore_sched; [done|done| |done].
  destruct Hs as ((_ & Hm & _) & _). exact (Hm _ _ Hx).
Qed.

Lemma changed_lock E L s o x h w :
  sched E L s → locks s !! o = Some x →
  sched E L (set_locks (<[o := MkLock h w (lock_queue x)]> (locks s)) s).
Proof.
  intros Hs Hx. eapply put_lock_sched; [done|done| |done].
  destruct Hs as ((_ & _ & Hm & _) & _). exact (Hm _ _ Hx).
Qed.

Lemma P_ok o l P P' gl s (Q : unit → GL → K → Prop) :
  stable t P → (∀ g s, cinv g s → is_Some (semaphores s !! o)) →
  (∀ gl s x, running t IntOff P gl s → semaphores s !! o = Some x → value x ≠ 0 →
     let s' := set_semaphores (<[o := MkSemaphore (sub32 (value x) 1) (queue x)]> (semaphores s)) s in
     ∃ g', cstep t gl s g' s' ∧ P' (gl.1, g') s') →
  stable t P' → running t l P gl s →
  (∀ gl' s', running t l P' gl' s' → Q tt gl' s') → kwp t (Synch.P o) gl s Q.
Proof.
  intros Hs Ho Hstep Hs' Hk HQ. unfold Synch.P.
  apply kwp_bind. eapply (SetLevel_ok _ IntOff P); [done..|]. clear gl s Hk. intros gl s Hk. cbv beta.
  apply kwp_bind. apply swp_while with (I := running t IntOff P); [done|].
  clear gl s Hk. intros gl s Hk. destruct (kstate_sem _ _ _ _ _ _ _ _ Ho Hk) as [x Hx].
  apply kwp_bind. eapply kwp_id; [by apply get_semaphore_Ok|]. cbv beta.
  destruct (value x =? 0) eqn:Ev.
  - destruct (queue_current_Ok [] gl.1 s o x) as (s1 & H1 & Hf1 & Hs1); [|done|].
    { destruct Hk as (_ & ? & -> & _). done. }
    apply kwp_bind. eapply kwp_frame; [exact H1|done|]. cbv beta.
    apply kwp_bind. eapply (current_Sleep_ok P); [done|by eapply kstate_frame|].
    intros gl2 s2 H2. by apply kwp_ret.
  - apply Z.eqb_neq in Ev. apply kwp_ret. cbv beta iota.
    destruct (Hstep gl s x Hk Hx Ev) as (g' & Hc & Hp').
    eapply (kwp_change _ l P P' _ _ s); [done| |done|done| | | | |exact Hc|done|done]; try done.
    + unfold decrement. by rewrite (M_bind_step _ _ _ _ _ (get_semaphore_Ok _ _ _ Hx)).
    + apply changed_semaphore; [apply Hk|done].
Qed.

Lemma V_ok o l P P' gl s (Q : unit → GL → K → Prop) :
  stable t P → (∀ g s, cinv g s → is_Some (semaphores s !! o)) →
  (∀ gl s x, running t IntOff P gl s → semaphores s !! o = Some x →
     let s' := set_semaphores (<[o := MkSemaphore (add32 (value x) 1) (queue x)]> (semaphores s)) s in
     ∃ g', cstep t gl s g' s' ∧ P' (gl.1, g') s') →
  stable t P' → running t l P gl s →
  (∀ gl' s', running t l P' gl' s' → Q tt gl' s') → kwp t (Synch.V o) gl s Q.
Proof.
  intros Hs Ho Hstep Hs' Hk HQ. unfold Synch.V.
  apply kwp_bind. eapply (SetLevel_ok _ IntOff P); [done..|]. clear gl s Hk. intros gl s Hk. cbv beta.
  destruct (kstate_sem _ _ _ _ _ _ _ _ Ho Hk) as [x0 Hx0].
  destruct (wake_waiter_Ok [t] gl.1 s o x0) as (s1 & H1 & Hf1 & Hs1 & [x Hx]); [apply Hk|done|].
  apply kwp_bind. eapply kwp_frame; [exact H1|done|]. cbv beta.
  assert (running t IntOff P gl s1) as Hk1 by (by eapply kstate_frame). clear s x0 Hx0 Hk H1 Hf1.
  destruct (Hstep gl s1 x Hk1 Hx) as (g' & Hc & Hp').
  eapply (kwp_change _ l P P' _ _ s1); [done| |done|done| | | | |exact Hc|done|done]; try done.
  - unfold increment. by rewrite (M_bind_step _ _ _ _ _ (get_semaphore_Ok _ _ _ Hx)).
  - by apply changed_semaphore.
Qed.

Lemma Acquire_ok o l P P' gl s (Q : unit → GL → K → Prop) :
  stable t P → (∀ g s, cinv g s → is_Some (locks s !! o)) →
  (∀ gl s x, running t IntOff P gl s → locks s !! o = Some x → isHeld x = false →
     let s' := set_locks (<[o := MkLock true (Some t) (lock_queue x)]> (locks s)) s in
     ∃ g', cstep t gl s g' s' ∧ P' (gl.1, g') s') →
  stable t P' → running t l P gl s →
  (∀ gl' s', running t l P' gl' s' → Q tt gl' s') → kwp t (Acquire o) gl s Q.
Proof.
  intros Hs Ho Hstep Hs' Hk HQ. unfold Synch.Acquire.
  apply kwp_bind. eapply (SetLevel_ok _ IntOff P); [done..|]. clear gl s Hk. intros gl s Hk. cbv beta.
  apply kwp_bind. apply swp_while with (I := running t IntOff P); [done|].
  clear gl s Hk. intros gl s Hk. destruct (kstate_lock _ _ _ _ _ _ _ _ Ho Hk) as [x Hx].
  apply kwp_bind. eapply kwp_id; [by apply get_lock_Ok|]. cbv beta.
  destruct (isHeld x) eqn:Ev.
  - destruct (queue_on_lock_Ok [] gl.1 s o x) as (s1 & H1 & Hf1 & Hs1); [|done|].
    { destruct Hk as (_ & ? & -> & _). done. }
    apply kwp_bind. eapply kwp_frame; [exact H1|done|]. cbv beta.
    apply kwp_bind. eapply (current_Sleep_ok P); [done|by eapply kstate_frame|].
    intros gl2 s2 H2. by apply kwp_ret.
  - apply kwp_ret. cbv beta iota. destruct (Hstep gl s x Hk Hx Ev) as (g' & Hc & Hp').
    eapply (kwp_change _ l P P' _ _ s); [done| |done|done| | | | |exact Hc|done|done]; try done.
    + unfold take_lock. rewrite (M_bind_step _ _ _ _ _ (get_lock_Ok _ _ _ Hx)).
      unfold current, gets. rewrite (M_bind_step _ _ _ _ _ eq_refl).
      by replace (currentThread s) with t by (symmetry; apply Hk).
    + apply changed_lock; [apply Hk|done].
Qed.

Lemma Release_ok o l P P' gl s (Q : unit → GL → K → Prop) :
  stable t P → (∀ g s, cinv g s → is_Some (locks s !! o)) →
  (∀ gl s x, running t IntOff P gl s → locks s !! o = Some x →
     lockHolder x = Some t ∧
     let s' := set_locks (<[o := MkLock false None (lock_queue x)]> (locks s)) s in
     ∃ g', cstep t gl s g' s' ∧ P' (gl.1, g') s') →
  stable t P' → running t l P gl s →
  (∀ gl' s', running t l P' gl' s' → Q tt gl' s') → kwp t (Release o) gl s Q.
Proof.
  intros Hs Ho Hstep Hs' Hk HQ. unfold Synch.Release.
  apply kwp_bind. eapply (SetLevel_ok _ IntOff P); [done..|]. clear gl s Hk. intros gl s Hk. cbv beta.
  destruct (kstate_lock _ _ _ _ _ _ _ _ Ho Hk) as [x0 Hx0].
  destruct (Hstep gl s x0 Hk Hx0) as [Hmine _].
  apply kwp_bind. eapply (kwp_id _ _ _ _ true).
  { unfold isHeldByCurrentThread. rewrite (M_bind_step _ _ _ _ _ (get_lock_Ok _ _ _ Hx0)).
    unfold current, gets. rewrite (M_bind_step _ _ _ _ _ eq_refl).
    replace (currentThread s) with t by (symmetry; apply Hk). rewrite Hmine.
    by rewrite bool_decide_eq_true_2. }
  cbv beta. unfold cwhen. destruct (free_lock_Ok [t] gl.1 s o x0) as (s1 & x & H1 & Hf1 & Hs1 & Hx & _);
    [apply Hk|done|].
  assert (running t IntOff P gl s1) as Hk1 by (by eapply kstate_frame).
  destruct (Hstep gl s1 x Hk1 Hx) as (_ & g' & Hc & Hp').
  eapply (kwp_change _ l P P' _ _ s1); [done|exact H1|done|done| | | | |exact Hc|done|done]; try done.
  by apply changed_lock.
Qed.

(** ** New threads *)

Lemma SetLevel_Off_ok l P gl s (Q : IntStatus → GL → K → Prop) :
  stable t P → running t l P gl s →
  (∀ hd, running t IntOff P gl (set_hardware hd s) → Q l gl (set_hardware hd s)) →
  kwp t (SetLevel IntOff) gl s Q.
Proof.
  intros Hs Hk HQ. unfold SetLevel, Interrupt.SetLevel.
  assert (level (interrupt (hw s)) = l ∧ inHandler (interrupt (hw s)) = false) as [Hl Hh]
    by (split; apply Hk).
  kread. rewrite Hl. kread. apply kwp_bind. eapply kwp_id; [reflexivity|]. cbv beta.
  apply kwp_bind. eapply kwp_hw; [reflexivity|]. cbv beta.
  apply kwp_ret, HQ. eapply kstate_hw; [done|exact Hk|]. by destruct Hk as ((?&?&?&?&?)&_).
Qed.

(** [new Thread] and [Fork]: the client gives the new thread its part. *)
Lemma spawn_ok f regs l P P' gl s (Q : unit → GL → K → Prop) :
  stable t P → ¬ is_handler f →
  (∀ gl s t', running t IntOff P gl s → t' ∉ gl.1 →
     ∃ g', cstep t gl s g' s ∧ croot f t' g' s ∧ P' ({[t']} ∪ gl.1, g') s) →
  stable t P' → running t l P gl s →
  (∀ gl' s', running t l P' gl' s' → Q tt gl' s') →
  kwp t (t' ← run (Thread_new regs); Fork t' f) gl s Q.
Proof.
  intros Hs Hf Hstep Hs' Hk HQ.
  set (t' := fresh (dom (threads s))).
  assert (threads s !! t' = None) as Hnew by (apply not_elem_of_dom, is_fresh).
  set (th := MkThread (F := F) None None JUST_CREATED regs None).
  set (s1 := set_threads (<[t' := th]> (threads s)) s).
  assert (∀ t0 th0, threads s !! t0 = Some th0 → t0 ≠ t') as Hne by (intros t0 th0 H ->; congruence).
  (* threads that exist are as before when the new one changes *)
  assert (∀ th1 t0, is_Some (threads s !! t0) → <[t' := th1]> (threads s) !! t0 = threads s !! t0)
    as Hother by (intros th1 t0 [th0 H0]; apply lookup_insert_ne; intros ->; congruence).
  assert (∀ th1, running t l P gl (set_threads (<[t' := th1]> (threads s)) s)) as Hk1.
  { intros th1. destruct Hk as (Hh & (Hq & Hn & Hl & Ht & Hd) & Hc & Hok & Hff & Hp).
    assert (∀ t0, thread_ok s t0 → thread_ok (set_threads (<[t' := th1]> (threads s)) s) t0) as Hok1.
    { intros t0 (th0 & H0 & ?). exists th0. simpl. by rewrite Hother by eauto. }
    assert (first_frame s t = first_frame (set_threads (<[t' := th1]> (threads s)) s) t) as Hff1.
    { destruct Hok as (th0 & H0 & _). unfold first_frame. simpl. by rewrite Hother by eauto. }
    split; [done|]. split; [|split; [done|split; [by apply Hok1|split; [congruence|]]]].
    - split; [done|]. split; [done|]. split; [done|]. split; [intros t0 H0; by apply Hok1, Ht|].
      intros d Hd'. destruct (Hd d Hd') as [H0 ?]. simpl. by rewrite Hother.
    - apply (cP_view t P gl s); [done|by apply same_view_user|done|done]. }
  assert (∀ th1 t0, t0 ∈ gl.1 →
    first_frame s t0 = first_frame (set_threads (<[t' := th1]> (threads s)) s) t0) as Hff.
  { intros th1 t0 H0. unfold first_frame. simpl.
    destruct Hk as (_ & (_ & _ & _ & Ht & _) & _). destruct (Ht _ H0) as (th0 & Hth0 & _).
    by rewrite Hother by eauto. }
  assert (t' ∉ gl.1) as Hfresh.
  { intros H0. destruct Hk as (_ & (_ & _ & _ & Ht & _) & _).
    destruct (Ht _ H0) as (th0 & Hth0 & _). congruence. }
  apply kwp_bind. eapply (kwp_view t _ gl s t' s1); [reflexivity|by apply same_view_user|apply Hff|].
  cbv beta. unfold Fork.
  set (th2 := MkThread (F := F) (Some STACK_FENCEPOST) (Some f) JUST_CREATED regs None).
  set (s2 := set_threads (<[t' := th2]> (threads s)) s).
  apply kwp_bind. eapply (kwp_view t _ gl s1 tt s2).
  { assert (thread t' s1 = Ok (th, s1)) as H1.
    { unfold thread, get, lift, deref, mbind, M_bind. simpl. by rewrite lookup_insert_eq. }
    unfold StackAllocate, set_thread. rewrite (M_bind_step _ _ _ _ _ H1).
    rewrite (M_bind_step _ _ _ _ _ H1). unfold modify, s1, s2, set_threads. simpl.
    by rewrite insert_insert_eq. }
  { by apply same_view_user. }
  { intros t0 H0. unfold s1, s2. by rewrite <- (Hff th _ H0), <- (Hff th2 _ H0). }
  cbv beta. apply kwp_bind. eapply SetLevel_Off_ok; [exact Hs|apply Hk1|].
  intros hd Hk2. cbv beta.
  (* the new thread becomes ready *)
  set (s3 := set_hardware hd s2). fold s3 in Hk2.
  destruct (Hstep gl s3 t' Hk2 Hfresh) as (g' & (Ha & Hi & Hr) & Hroot & Hp').
  assert (threads s3 !! t' = Some th2) as Ht' by (unfold s3, s2; simpl; by rewrite lookup_insert_eq).
  assert (sched [t'; t] ({[t']} ∪ gl.1) s3) as Hsc3.
  { destruct Hk2 as (_ & (Hq & Hn & Hl & Ht & Hd) & _). split; [done|]. split; [|split; [|split]].
    - apply list.NoDup_cons. split; [|done]. intros Hin. by apply Hfresh, Hl.
    - intros t0 Hin. apply elem_of_union. apply elem_of_cons in Hin as [->|Hin]; [left; set_solver|].
      right. by apply Hl.
    - intros t0 [->%elem_of_singleton|Hin]%elem_of_union; [|by apply Ht].
      exists th2. simpl. auto.
    - intros d Hd'. destruct (Hd d Hd') as [H0 H1]. split; [done|].
      intros [->%elem_of_singleton|?]%elem_of_union; [|done].
      destruct Hk as (_ & (_ & _ & _ & _ & Hd0) & _). destruct (Hd0 t' Hd') as [[? ?] _]. congruence. }
  destruct (ReadyToRun_Ok [t] _ s3 t' Hsc3) as (s4 & H4 & Hf4 & Hs4).
  pose proof Hf4 as (_ & Hff4 & _ & Hh4 & Hc4 & Hok4).
  apply kwp_bind. eapply (swp_run _ _ _ _ _ _ _ _ _ _ _ _ _ tt s4 ({[t']} ∪ gl.1, g')); [exact H4| |].
  - split; [intros H0; eapply calways_view; [by apply frame_view|by apply Ha]|].
    intros t0 Ht0 Hl0. unfold klive in *. simpl in *.
    apply elem_of_union in Hl0 as [->%elem_of_singleton|Hl0].
    + right. exists f. split; [|split; [done|]].
      * rewrite <- Hff4. exact (f_equal (λ o, o ≫= machineState) Ht').
      * eapply croot_rely; [by apply crely_view, frame_view|done].
    + left. split; [done|]. split; [|by split].
      eapply crely_trans; [by apply Hr|]. by apply crely_view, frame_view.
  - cbv beta. apply kwp_bind. eapply (SetLevel_ok IntOff l P'); [done| |].
    + destruct Hk2 as (Hh & _ & Hc & Hok & Hff2 & _).
      split; [by rewrite <- Hh4|]. split; [done|]. split; [congruence|]. split; [auto|].
      split; [by rewrite <- Hff4|]. apply (cP_view t P' _ s3); [done|by apply frame_view|apply Hff4|].
      done.
    + intros gl5 s5 H5. by apply kwp_ret, HQ.
Qed.

(** The function of a thread is called. *)
Lemma kwp_function f gl s (Q : unit → GL → K → Prop) :
  ¬ is_handler f → running t IntOn (λ gl, croot f t gl.2) gl s →
  (∀ gl' s', running t IntOn anything gl' s' → Q tt gl' s') →
  kwp t (CallFun f (Ret tt)) gl s Q.
Proof.
  intros Hf Hk HQ. split; [by right|]. intros gl' s' [_ Hp]. apply HQ. by apply Hp.
Qed.

Lemma ThreadRoot_ok f gl s (Q : unit → GL → K → Prop) :
  ¬ is_handler f → running t IntOff (λ gl, croot f t gl.2) gl s → kwp t (ThreadRoot f) gl s Q.
Proof.
  intros Hf Hk. unfold ThreadRoot.
  apply kwp_bind. eapply (Enable_ok (λ gl, croot f t gl.2)); [apply stable_croot|done|].
  clear gl s Hk. intros gl s Hk. cbv beta.
  apply kwp_bind. apply kwp_function; [done..|]. clear gl s Hk. intros gl s Hk. cbv beta.
  by eapply ThreadFinish_ok.
Qed.

(** ** Handlers that only touch the hardware and the devices *)

Definition quiet s s' : Prop :=
  threads s' = threads s ∧ currentThread s' = currentThread s
  ∧ threadToBeDestroyed s' = threadToBeDestroyed s ∧ readyList s' = readyList s
  ∧ semaphores s' = semaphores s ∧ locks s' = locks s ∧ conditions s' = conditions s
  ∧ ueq (user s) (user s').

Lemma quiet_view s s' : quiet s s' → same_view s s' ∧ ∀ t', first_frame s t' = first_frame s' t'.
Proof.
  intros (Et & _ & _ & _ & Es & El & _ & Hu). split; [split; [split|]|].
  - by rewrite Es.
  - by rewrite El.
  - done.
  - intros t'. unfold first_frame. by rewrite Et.
Qed.

Lemma kstate_quiet l h m l' h' m' E P gl s s' :
  stable t P → kstate l h m t E (cP P) gl s → quiet s s' → hw_ok l' h' m' (hardware s') →
  kstate l' h' m' t E (cP P) gl s'.
Proof.
  intros Hs (_ & Hsc & Hc & Hok & Hf & Hp) Hq Hh. destruct (quiet_view _ _ Hq) as [Hv Hff].
  destruct Hq as (Et & Ec & Ed & Er & Es & El & Eo & _).
  split; [done|]. split; [|split; [congruence|split; [|split]]].
  - unfold sched, queues_intact, waiting, thread_ok in *. by rewrite Et, Ed, Er, Es, El, Eo.
  - unfold thread_ok in *. by rewrite Et.
  - by rewrite <- Hff.
  - by apply (cP_view t P gl s).
Qed.

Lemma kwp_quiet {A} (m : M K A) gl s a s' (Q : A → GL → K → Prop) :
  m s = Ok (a, s') → quiet s s' → Q a gl s' → kwp t (run m) gl s Q.
Proof. intros Hm [Hv Hf]%quiet_view HQ. by eapply kwp_view. Qed.

Lemma kpost_quiet f gl s s' :
  is_handler f → quiet s s' → hw_ok IntOff true SystemMode (hardware s') →
  kpost (Some f) t gl s gl s'.
Proof.
  intros Hf Hq Hh. split; [|done]. intros _. split.
  - destruct (quiet_view _ _ Hq) as [Hv Hff]. by apply krely_view.
  - intros E Hk. by eapply kstate_quiet.
Qed.

(** A handler that calls another one at its end. *)
Lemma kwp_chain f f' gl s s1 :
  is_handler f → is_handler f' → kpre (Some f) t gl s →
  quiet s s1 → hw_ok IntOff true SystemMode (hardware s1) →
  kwp t (CallFun f' (Ret tt)) gl s1 (λ _ gl' s', kpost (Some f) t gl s gl' s').
Proof.
  intros Hf Hf' [[_ (E & Hk)]|[? _]] Hq Hh; [|done]. split.
  - left. split; [done|]. exists E. by eapply kstate_quiet.
  - intros gl2 s2 [Hp _]. destruct (Hp Hf') as [Hr Hk2]. split; [|done]. intros _.
    destruct (kpost_quiet f gl s s1 Hf Hq Hh) as [Hp1 _]. destruct (Hp1 Hf) as [Hr1 Hk1].
    split; [by eapply krely_trans|auto].
Qed.
End thread.

(** ** Soundness *)

Variable call : F → kcode unit.
Hypothesis handlers_ok : ∀ f t gl s, is_handler f →
  kpre (Some f) t gl s → kwp t (call f) gl s (λ _ gl' s', kpost (Some f) t gl s gl' s').
Hypothesis functions_ok : ∀ f t gl s, ¬ is_handler f →
  running t IntOn (λ gl, croot f t gl.2) gl s →
  kwp t (call f) gl s (λ _, running t IntOn anything).

Lemma procedures_ok p t gl s :
  kpre p t gl s →
  kwp t (body_of current_Yield call p) gl s (λ _ gl' s', kpost p t gl s gl' s').
Proof.
  intros Hp. destruct p as [f|]; [|by apply current_Yield_ok]. simpl.
  pose proof Hp as [[Hf _]|[Hf Hk]]; [by apply handlers_ok|].
  eapply kwp_mono; [by apply functions_ok|]. intros [] gl' s' H. by split.
Qed.

Lemma start_first t gl s :
  kinv gl s → currentThread s = t → klive gl t → kroot t gl s →
  ∃ c gl' s', start t s = Ok (Some c, s') ∧ kguar t gl s gl' s' ∧ kwp t c gl' s' never.
Proof.
  intros (Hh & Hsc & Hi) Hc Hl (f & Hff & Hf & Hr).
  pose proof Hsc as (Hq & Hn & Hw & Ht & Hd). destruct (Ht t Hl) as (th & Hth & Hst & Hsp).
  unfold first_frame in Hff. rewrite Hth in Hff. simpl in Hff.
  set (th' := MkThread (F := F) (stack th) None (th_status th) (userRegisters th) (space th)).
  set (s' := set_threads (<[t := th']> (threads s)) s).
  exists (ThreadRoot f), gl, s'. split; [|split].
  - assert (thread t s = Ok (th, s)) as H1
      by (unfold thread, get, lift, deref, mbind, M_bind; by rewrite Hth).
    unfold Threads.start. rewrite (M_bind_step _ _ _ _ _ H1), Hff. unfold set_thread.
    unfold mbind at 1, M_bind at 1. rewrite (M_bind_step _ _ _ _ _ H1). done.
  - split; [by apply calways_view, same_view_user|]. intros t0 Ht0 Hl0. left. split; [done|].
    apply krely_view; [by apply same_view_user|]. unfold first_frame. simpl.
    by rewrite lookup_insert_ne.
  - apply ThreadRoot_ok; [done|]. split; [done|]. split; [|split; [done|split; [|split]]].
    + rewrite Hc in Hsc. split; [done|]. split; [by rewrite <- Hc|]. split; [by rewrite <- Hc|].
      split.
      * intros t0 H0. destruct (decide (t0 = t)) as [->|Hne].
        -- exists th'. simpl. by rewrite lookup_insert_eq.
        -- unfold thread_ok. simpl. rewrite lookup_insert_ne by done. by apply Ht.
      * intros d Hd'. destruct (Hd d Hd') as [H0 H1]. split; [|done]. simpl.
        apply lookup_insert_is_Some'. auto.
    + exists th'. simpl. by rewrite lookup_insert_eq.
    + unfold first_frame. simpl. by rewrite lookup_insert_eq.
    + split; [eapply cinv_view; [|exact Hi]; by apply same_view_user|].
      eapply croot_rely; [|exact Hr]. by apply crely_view, same_view_user.
Qed.

Lemma started_None t s :
  thread_ok s t → ¬ unstarted start s t → start t s = Ok (None, s).
Proof.
  intros (th & Hth & _) Hu.
  assert (thread t s = Ok (th, s)) as H1
    by (unfold thread, get, lift, deref, mbind, M_bind; by rewrite Hth).
  unfold unstarted, Threads.start in *. rewrite (M_bind_step _ _ _ _ _ H1) in *.
  destruct (machineState th) as [f|] eqn:Ef; [|done]. destruct Hu. unfold set_thread.
  eexists _, _. unfold mbind at 1, M_bind at 1. rewrite (M_bind_step _ _ _ _ _ H1). reflexivity.
Qed.

Lemma unstarted_frame t s : unstarted start s t ↔ is_Some (first_frame s t).
Proof.
  unfold unstarted, first_frame, Threads.start. split.
  - intros (c & s' & H). minv. unfold thread, get, lift, mbind, M_bind in *.
    destruct (threads s !! t) as [th|]; [|done]. simpl in *. simplify_eq.
    destruct (machineState _); [eauto|]. by minv.
  - intros [f Hf]. destruct (threads s !! t) as [th|] eqn:Hth; [|done]. simpl in Hf.
    assert (thread t s = Ok (th, s)) as H1
      by (unfold thread, get, lift, deref, mbind, M_bind; by rewrite Hth).
    eexists _, _. rewrite (M_bind_step _ _ _ _ _ H1), Hf. unfold set_thread.
    unfold mbind at 1, M_bind at 1. rewrite (M_bind_step _ _ _ _ _ H1). reflexivity.
Qed.

Definition kconfig_ok : config (S := K) (F := F) → Prop :=
  config_ok start currentThread klive kinv calways krely kroot kpre kpost.

(** An execution of the kernel keeps what the client always wants, and ends
    only by [Halted]. *)
Lemma kernel_sound n c :
  kconfig_ok c →
  match steps current_Yield call start n c with
  | Ok c' => calways (state c')
  | Fault f => f = Halted
  end.
Proof.
  intros Hc. unshelve epose proof (steps_sound current_Yield call start currentThread klive kinv
    calways krely kroot kpre kpost krely_refl krely_trans procedures_ok _ _ start_first _ n c Hc) as H.
  - intros t gl s gl' s' (f & Hff & Hf & Hr) (H & Hff' & _). exists f.
    split; [congruence|]. split; [done|]. by eapply croot_rely.
  - intros t gl s gl' s' Hu (_ & Hff & _). by rewrite unstarted_frame, <- Hff, <- unstarted_frame.
  - intros t gl s (_ & (_ & _ & _ & Ht & _) & _) _ Hl Hu. apply started_None; auto.
  - destruct (steps _ _ _ _ _); [by destruct H|done].
Qed.
End logic.

(** An operation that only reads the state. *)
Ltac kread := apply kwp_bind; eapply kwp_id; [reflexivity|]; cbv beta.
