(* ===== verification/ThreadTestLogic.v ===== *)
(** * The programs of threads/threadtest.cc are correct for every schedule

    [worker enter leave] is the program of HW1_SEMAPHORES and of HW1_LOCKS,
    with what it does at the two ends of its critical section.  It is a client
    of the logic of file KernelLogic.  The ghost state has an [entry] for each
    worker: its thread, how many times it has incremented the shared variable,
    and whether it has arrived at the barrier; and it says who is in the
    critical section. *)
From S2P Require Import Prelude Word NList Machine Coro Logic Interrupt Threads Synch Devices ThreadTest KernelState KernelLogic.

(** ** The ghost state *)

Record entry := MkEntry { owner : tid; rounds_done : Z; arrived : bool }.

(** [inside] is the thread in the critical section, [printed] says that it has
    read and printed the shared variable, [boss] is the thread of [main]. *)
Record ghost := MkGhost {
  entries : gmap Z entry;
  inside : option tid;
  printed : bool;
  boss : tid
}.

Definition workers : list Z := [0; 1; 2; 3; 4].

Definition total (f : entry → Z) (m : gmap Z entry) : Z :=
  foldr (λ w z, from_option f 0 (m !! w) + z) 0 workers.

Definition all_arrived (m : gmap Z entry) : Prop :=
  ∀ w, w ∈ workers → ∃ e, m !! w = Some e ∧ arrived e = true.

Definition arrivals : gmap Z entry → Z := total (λ e, if arrived e then 1 else 0).

Lemma workers_cases w (Q : Z → Prop) : w ∈ workers → Q 0 → Q 1 → Q 2 → Q 3 → Q 4 → Q w.
Proof.
  unfold workers. intros Hw H0 H1 H2 H3 H4.
  repeat (apply elem_of_cons in Hw as [->|Hw]; [done|]). by apply elem_of_nil in Hw.
Qed.

Lemma total_insert f m w e :
  w ∈ workers → total f (<[w := e]> m) = total f m - from_option f 0 (m !! w) + f e.
Proof.
  intros Hw. unfold total. apply (workers_cases w (λ w, _ = _) Hw); simpl;
    rewrite lookup_insert_eq, !lookup_insert_ne by done; simpl; lia.
Qed.

Lemma arrivals_all m : arrivals m = 5 → all_arrived m.
Proof.
  intros H w Hw. assert (∀ w, 0 ≤ from_option (λ e, if arrived e then 1 else 0) 0 (m !! w) ≤ 1) as Hb.
  { intros w'. destruct (m !! w') as [[? ? []]|]; simpl; lia. }
  assert (from_option (λ e, if arrived e then 1 else 0) 0 (m !! w) = 1) as H1.
  { unfold arrivals, total in H. simpl in H.
    pose proof (Hb 0). pose proof (Hb 1). pose proof (Hb 2). pose proof (Hb 3). pose proof (Hb 4).
    apply (workers_cases w (λ w, from_option (λ e, if arrived e then 1 else 0) 0 (m !! w) = 1) Hw); lia. }
  destruct (m !! w) as [e|]; [|done]. exists e. split; [done|]. simpl in H1. by destruct (arrived e).
Qed.

(** ** What the workers keep *)

(** The values of the shared variable that are printed, in order. *)
Definition seen (events : list event) : list Z :=
  omap (λ e, match e with Sees _ v => Some v | _ => None end) events.

Definition entries_ok (m : gmap Z entry) : Prop :=
  ∀ w e, m !! w = Some e →
    w ∈ workers ∧ 0 ≤ rounds_done e ≤ 5 ∧ (arrived e = true → rounds_done e = 5).

(** The shared variable counts the rounds, [count] the arrivals; every value
    is printed by just one worker. *)
Definition data_ok (g : ghost) (u : test_state) : Prop :=
  entries_ok (entries g) ∧ SharedVariable u = total rounds_done (entries g)
  ∧ count u = arrivals (entries g) ∧ (testnum u = 5 ∨ entries g = ∅)
  ∧ (printed g = true → inside g ≠ None)
  ∧ seen (reverse (output u)) = seqZ 0 (SharedVariable u + if printed g then 1 else 0).

(** What is printed: at the end the value 25, and no value is seen twice. *)
Definition output_ok (events : list event) : Prop :=
  (∀ w v, Final w v ∈ events → v = 25) ∧ ∃ n, seen events = seqZ 0 n.

Definition test_rely (t : tid) (g : ghost) (s : Kernel test_fun test_state) (g' : ghost)
    (s' : Kernel test_fun test_state) : Prop :=
  (∀ w e, entries g !! w = Some e → owner e = t → entries g' !! w = Some e)
  ∧ (all_arrived (entries g) → all_arrived (entries g'))
  ∧ (inside g = Some t →
       inside g' = Some t ∧ printed g' = printed g ∧ SharedVariable (user s') = SharedVariable (user s))
  ∧ boss g' = boss g ∧ (t = boss g → ∀ w, entries g !! w = None → entries g' !! w = None).

Lemma all_arrived_total m :
  entries_ok m → all_arrived m → total rounds_done m = 25.
Proof.
  intros Hok Ha. assert (∀ w, w ∈ workers → from_option rounds_done 0 (m !! w) = 5) as H.
  { intros w Hw. destruct (Ha w Hw) as (e & He & Hb). rewrite He. simpl.
    destruct (Hok w e He) as (_ & _ & H5). by apply H5. }
  unfold total. simpl. unfold workers in H.
  by rewrite (H 0), (H 1), (H 2), (H 3), (H 4) by set_solver.
Qed.

Lemma total_bounds m : entries_ok m → 0 ≤ total rounds_done m ≤ 25.
Proof.
  intros Hok. assert (∀ w, 0 ≤ from_option rounds_done 0 (m !! w) ≤ 5) as H.
  { intros w. destruct (m !! w) as [e|] eqn:He; simpl; [|lia]. by apply (Hok w e). }
  unfold total. simpl.
  pose proof (H 0). pose proof (H 1). pose proof (H 2). pose proof (H 3). pose proof (H 4). lia.
Qed.

Section test.
Context {RAND : Rand}.
(** The random numbers are those of [rand()]. *)
Hypothesis rand_ok : ∀ n, 0 ≤ rand n < 2 ^ 31.
(** Whether the timer runs, [-rs]. *)
Variable randomYield : bool.
(** How the state says who is in the critical section. *)
Variable mutex : option tid → gmap positive Z → gmap positive (bool * option tid) → Prop.

#[local] Abbreviation K := (Kernel test_fun test_state).
#[local] Abbreviation kcode := (code (Kernel test_fun test_state) test_fun).
#[local] Abbreviation GL := (gset tid * ghost)%type.
Implicit Types (s : K) (t : tid) (g : ghost) (gl : GL).

Definition timer_handler_ (f : test_fun) : Prop :=
  match f with
  | TimerHandler_ | TimerInterruptHandler_ _ => randomYield = true
  | _ => False
  end.

Definition timer_ok (u : test_state) : Prop :=
  randomYield = true → test_timer u = Some (MkTimer true (TimerInterruptHandler_ 0)).

Definition test_inv g s : Prop :=
  mutex (inside g) (value <$> semaphores s) (holding <$> locks s)
  ∧ is_Some (semaphores s !! mx)
  ∧ (∃ x, semaphores s !! br = Some x ∧ (value x ≠ 0 → all_arrived (entries g)))
  ∧ data_ok g (user s) ∧ timer_ok (user s).

Definition test_root (f : test_fun) t g s : Prop :=
  match f with
  | SimpleThread_ w => entries g !! w = Some (MkEntry t 0 false)
  | _ => False
  end.

(** Interrupts only take random numbers. *)
Definition user_eq (u u' : test_state) : Prop :=
  ∃ n, u' = MkTest (SharedVariable u) (count u) (testnum u) (elevator u) (test_timer u) n (output u).

Lemma value_lookup s s' p x :
  same_objects s s' → semaphores s !! p = Some x →
  ∃ x', semaphores s' !! p = Some x' ∧ value x' = value x.
Proof.
  intros [Hv _] Hx. apply (f_equal (lookup p)) in Hv. rewrite !lookup_fmap, Hx in Hv. simpl in Hv.
  destruct (semaphores s' !! p) as [x'|]; [|done]. simpl in Hv. exists x'. split; congruence.
Qed.

#[local] Program Instance test_client : Client test_fun test_state ghost := {
  is_handler := timer_handler_;
  cinv := test_inv;
  calways s := output_ok (reverse (output (user s)));
  crely := test_rely;
  croot := test_root;
  ueq := user_eq
}.
Next Obligation. intros []. by eexists. Qed.
Next Obligation.
  intros g s s' [Ho [n Hu]] (Hm & [x Hmx] & (y & Hbr & Hy) & Hd & Ht).
  destruct (value_lookup _ _ _ _ Ho Hmx) as (x' & Hx' & _).
  destruct (value_lookup _ _ _ _ Ho Hbr) as (y' & Hy' & Hv).
  destruct Ho as [Hv1 Hv2]. rewrite Hv1, Hv2 in Hm. unfold test_inv. rewrite Hu.
  split; [done|]. split; [eauto|]. split; [|done]. exists y'. by rewrite Hv.
Qed.
Next Obligation. intros s s' [_ [n Hu]]. cbv beta. by rewrite Hu. Qed.
Next Obligation.
  intros t g s s' [_ [n Hu]]. unfold test_rely. rewrite Hu. repeat split; auto.
Qed.
Next Obligation.
  intros t g s g1 s1 g2 s2 (He & Ha & Hc & Hb & Hn) (He' & Ha' & Hc' & Hb' & Hn').
  split; [eauto|]. split; [auto|]. split; [|split; [congruence|]].
  - intros H. destruct (Hc H) as (H1 & H2 & H3). destruct (Hc' H1) as (? & ? & ?).
    split_and!; congruence.
  - intros -> w Hw. apply Hn'; [done|]. by apply Hn.
Qed.
Next Obligation. intros f t g s g' s' (He & _) Hr. destruct f; try done. simpl in *. eauto. Qed.
Next Obligation. intros [? ? ? ? ? n ?]. eexists. split; [done|]. by exists n. Qed.

(** ** The steps of a worker *)

Lemma cstep_user t gl s g' u :
  test_inv gl.2 s → inside g' = inside gl.2 → boss g' = boss gl.2 →
  (∀ w e, entries gl.2 !! w = Some e → owner e ≠ t → entries g' !! w = Some e) →
  boss gl.2 = t ∨ (∀ w, entries gl.2 !! w = None → entries g' !! w = None) →
  (all_arrived (entries gl.2) → all_arrived (entries g')) →
  inside gl.2 = Some t ∨ (printed g' = printed gl.2 ∧ SharedVariable u = SharedVariable (user s)) →
  data_ok g' u → test_timer u = test_timer (user s) →
  (output_ok (reverse (output (user s))) → output_ok (reverse (output u))) →
  cstep t gl s g' (set_user u s).
Proof.
  intros (Hm & Hmx & (y & Hy & Hb) & _ & Ht) Hin Hbo He Hnew Ha Hp Hd Htm Ho.
  split; [done|]. split.
  - split; [by rewrite Hin|]. split; [done|]. split; [exists y; auto|]. split; [done|].
    intros H. simpl. rewrite Htm. by apply Ht.
  - intros t' Hne. split; [intros w e Hw Hown; apply (He w e Hw); by rewrite Hown|].
    split; [done|]. split; [|split; [done|by intros ->; destruct Hnew]].
    intros Hi. destruct Hp as [Hi'|[Hp Hs]]; [by rewrite Hi in Hi'; simplify_eq|].
    split_and!; [by rewrite Hin|done|done].
Qed.

Lemma seen_snoc out e :
  seen (reverse (e :: out)) = seen (reverse out) ++ seen [e].
Proof. unfold seen. by rewrite reverse_cons, omap_app. Qed.

Lemma output_ok_snoc out e :
  (∀ w v, e = Final w v → v = 25) → (∃ n, seen (reverse (e :: out)) = seqZ 0 n) →
  output_ok (reverse out) → output_ok (reverse (e :: out)).
Proof.
  intros He Hs [Hf _]. split; [|done]. intros w v. rewrite reverse_cons, elem_of_app.
  intros [Hin|Hin%list_elem_of_singleton]; [by eapply Hf|by eapply He].
Qed.

(** Worker [w] is thread [t]; it has incremented the variable [n] times. *)
Definition W t (w n : Z) (a : bool) (gl : GL) s : Prop := entries gl.2 !! w = Some (MkEntry t n a).
Definition In t (w n : Z) (b : bool) (gl : GL) s : Prop :=
  W t w n false gl s ∧ inside gl.2 = Some t ∧ printed gl.2 = b.
Definition Printed t (w n v : Z) (gl : GL) s : Prop :=
  In t w n true gl s ∧ SharedVariable (user s) = v.
Definition Open t (w n : Z) (gl : GL) s : Prop :=
  W t w n true gl s ∧ all_arrived (entries gl.2).

Lemma stable_W t w n a : stable t (W t w n a).
Proof. intros gl s gl' s' ((He & _) & _) H. by apply He. Qed.
Lemma stable_In t w n b : stable t (In t w n b).
Proof.
  intros gl s gl' s' ((He & _ & Hc & _) & _) (H1 & H2 & H3). destruct (Hc H2) as (? & ? & _).
  split; [by apply He|]. split; congruence.
Qed.
Lemma stable_Printed t w n v : stable t (Printed t w n v).
Proof.
  intros gl s gl' s' Hr [Hi Hv]. split; [by eapply stable_In|]. destruct Hi as (_ & Hi & _).
  destruct Hr as ((_ & _ & Hc & _) & _). destruct (Hc Hi) as (_ & _ & ?). congruence.
Qed.
Lemma stable_Open t w n : stable t (Open t w n).
Proof. intros gl s gl' s' ((He & Ha & _) & _) [H1 H2]. split; [by apply He|auto]. Qed.
Hint Resolve stable_W stable_In stable_Printed stable_Open stable_anything : core.

Lemma running_inv t l P gl s : running t l P gl s → test_inv gl.2 s ∧ P gl s.
Proof. by intros (_ & _ & _ & _ & _ & H). Qed.

(** [printf] of [Sees]. *)
Lemma print_seen_ok t w n gl s (Q : unit → GL → K → Prop) :
  running t IntOn (In t w n false) gl s →
  (∀ gl' s', running t IntOn (Printed t w n (SharedVariable (user s))) gl' s' → Q tt gl' s') →
  kwp t (run (printf (Sees w (SharedVariable (user s))))) gl s Q.
Proof.
  intros Hk HQ. destruct (running_inv _ _ _ _ _ Hk) as [Hi (Hw & Hc & Hp)].
  pose proof Hi as (_ & _ & _ & (He & Hs & Hn & Htn & Hpr & Hsee) & _).
  set (g' := MkGhost (entries gl.2) (inside gl.2) true (boss gl.2)).
  assert (0 ≤ SharedVariable (user s)) as H0 by (rewrite Hs; by apply total_bounds).
  assert (seen (reverse (Sees w (SharedVariable (user s)) :: output (user s)))
          = seqZ 0 (SharedVariable (user s) + 1)) as Hseen.
  { rewrite seen_snoc, Hsee, Hp, Z.add_0_r, seqZ_app by lia. simpl. done. }
  eapply kwp_user with (g' := g') (P' := Printed t w n (SharedVariable (user s)));
    [reflexivity|exact Hk| |done|intros H; by apply HQ].
  apply cstep_user; simpl; auto.
  - split_and!; try done. simpl. congruence.
  - apply output_ok_snoc; [done|]. eauto.
Qed.

(** The increment. *)
Lemma increment_ok t w n v gl s (Q : unit → GL → K → Prop) :
  n < 5 → running t IntOn (Printed t w n v) gl s →
  (∀ gl' s', running t IntOn (In t w (n + 1) false) gl' s' → Q tt gl' s') →
  kwp t (run (set_SharedVariable (add32 v 1))) gl s Q.
Proof.
  intros Hn5 Hk HQ. destruct (running_inv _ _ _ _ _ Hk) as [Hi ((Hw & Hc & Hp) & Hv)].
  pose proof Hi as (_ & _ & _ & (He & Hs & Hn & Htn & Hpr & Hsee) & _). subst v.
  destruct (He w _ Hw) as (Hwk & Hnb & _). simpl in Hnb.
  pose proof (total_bounds _ He) as Hb.
  assert (add32 (SharedVariable (user s)) 1 = SharedVariable (user s) + 1) as ->
    by (unfold add32; rewrite s32_id; [done|unfold in_s32; lia]).
  set (g' := MkGhost (<[w := MkEntry t (n + 1) false]> (entries gl.2)) (inside gl.2) false (boss gl.2)).
  assert (In t w (n + 1) false (gl.1, g') s) as HP' by (split; [apply lookup_insert_eq|done]).
  eapply kwp_user with (g' := g') (P' := In t w (n + 1) false);
    [reflexivity|exact Hk| |done|intros H; by apply HQ].
  apply cstep_user; simpl; auto.
  - intros w' e' Hw' Ho. rewrite lookup_insert_ne; [done|]. intros <-.
    unfold W in Hw. by simplify_eq.
  - right. intros w' Hw'. rewrite lookup_insert_ne; [done|]. intros <-. unfold W in Hw. congruence.
  - intros Ha. destruct (Ha w Hwk) as (e & He' & Hae). unfold W in Hw. by simplify_eq.
  - split_and!; simpl.
    + intros w' e'. rewrite lookup_insert_Some. intros [[<- <-]|[_ H']]; [|by apply He].
      simpl. split; [done|]. split; [lia|done].
    + rewrite total_insert, Hw by done. simpl. lia.
    + unfold arrivals. rewrite total_insert, Hw by done. simpl. unfold arrivals in Hn. lia.
    + destruct Htn as [?|H0]; [by left|]. unfold W in Hw. by rewrite H0 in Hw.
    + done.
    + rewrite Hsee, Hp. f_equal. lia.
Qed.

(** A semaphore other than that of the critical section changes. *)
Hypothesis mutex_frame : ∀ i vs ls p v,
  p = mx ∨ p = br → mutex i vs ls → mutex i (<[p := v]> vs) ls.

Lemma cstep_semaphore t gl s p x' :
  test_inv gl.2 s → p = mx ∨ p = br →
  (p = br → value x' ≠ 0 → all_arrived (entries gl.2)) →
  cstep t gl s gl.2 (set_semaphores (<[p := x']> (semaphores s)) s).
Proof.
  intros (Hm & Hmx & (y & Hy & Hb) & Hd & Ht) Hp Hx. split; [done|]. split.
  - split; [simpl; rewrite fmap_insert; by apply mutex_frame|]. split; [|split; [|done]]; simpl.
    + apply lookup_insert_is_Some'. auto.
    + destruct (decide (p = br)) as [->|Hne].
      * rewrite lookup_insert_eq. exists x'. auto.
      * rewrite lookup_insert_ne by done. eauto.
  - intros t' _. repeat split; auto.
Qed.

Lemma mx_exists g s : test_inv g s → is_Some (semaphores s !! mx).
Proof. by intros (_ & H & _). Qed.
Lemma br_exists g s : test_inv g s → is_Some (semaphores s !! br).
Proof. intros (_ & _ & (x & H & _) & _). eauto. Qed.

Lemma pair_eta gl (P : GL → K → Prop) s : P gl s → P (gl.1, gl.2) s.
Proof. by destruct gl. Qed.

(** The semaphore [mx] protects [count], but keeps nothing more. *)
Lemma P_mx_ok t w n a gl s (Q : unit → GL → K → Prop) :
  running t IntOn (W t w n a) gl s →
  (∀ gl' s', running t IntOn (W t w n a) gl' s' → Q tt gl' s') → kwp t (P mx) gl s Q.
Proof.
  intros Hk HQ. eapply P_ok; [..|exact Hk|exact HQ]; [done|exact mx_exists| |done].
  intros gl1 s1 x H1 Hx _. destruct (running_inv _ _ _ _ _ H1) as [Hi Hw].
  exists gl1.2. split; [|done]. by apply cstep_semaphore; [|left|].
Qed.

Lemma V_mx_ok t w n a gl s (Q : unit → GL → K → Prop) :
  running t IntOn (W t w n a) gl s →
  (∀ gl' s', running t IntOn (W t w n a) gl' s' → Q tt gl' s') → kwp t (V mx) gl s Q.
Proof.
  intros Hk HQ. eapply V_ok; [..|exact Hk|exact HQ]; [done|exact mx_exists| |done].
  intros gl1 s1 x H1 Hx. destruct (running_inv _ _ _ _ _ H1) as [Hi Hw].
  exists gl1.2. split; [|done]. by apply cstep_semaphore; [|left|].
Qed.

(** The barrier: [V br] by who knows that all have arrived; after [P br] it
    is known. *)
Lemma V_br_ok t w n gl s (Q : unit → GL → K → Prop) :
  running t IntOn (Open t w n) gl s →
  (∀ gl' s', running t IntOn (Open t w n) gl' s' → Q tt gl' s') → kwp t (V br) gl s Q.
Proof.
  intros Hk HQ. eapply V_ok; [..|exact Hk|exact HQ]; [done|exact br_exists| |done].
  intros gl1 s1 x H1 Hx. destruct (running_inv _ _ _ _ _ H1) as [Hi [Hw Ha]].
  exists gl1.2. split; [|done]. apply cstep_semaphore; [done|by right|done].
Qed.

Lemma P_br_ok t w n gl s (Q : unit → GL → K → Prop) :
  running t IntOn (W t w n true) gl s →
  (∀ gl' s', running t IntOn (Open t w n) gl' s' → Q tt gl' s') → kwp t (P br) gl s Q.
Proof.
  intros Hk HQ. eapply P_ok; [..|exact Hk|exact HQ]; [done|exact br_exists| |done].
  intros gl1 s1 x H1 Hx Hv. destruct (running_inv _ _ _ _ _ H1) as [Hi Hw].
  assert (all_arrived (entries gl1.2)) as Ha.
  { destruct Hi as (_ & _ & (y & Hy & Hb) & _). apply Hb. by simplify_eq. }
  exists gl1.2. split; [|done]. apply cstep_semaphore; [done|by right|done].
Qed.

(** The arrival at the barrier. *)
Lemma arrive_ok t w gl s (Q : unit → GL → K → Prop) :
  running t IntOn (W t w 5 false) gl s →
  (∀ gl' s', running t IntOn (W t w 5 true) gl' s' → Q tt gl' s') →
  kwp t (run (set_count (add32 (count (user s)) 1))) gl s Q.
Proof.
  intros Hk HQ. destruct (running_inv _ _ _ _ _ Hk) as [Hi Hw]. unfold W in Hw.
  pose proof Hi as (_ & _ & _ & (He & Hs & Hn & Htn & Hpr & Hsee) & _).
  destruct (He w _ Hw) as (Hwk & _).
  assert (∀ w, 0 ≤ from_option (λ e, if arrived e then 1 else 0) 0 (entries gl.2 !! w) ≤ 1) as Hb
    by (intros w'; destruct (_ !! w') as [[? ? []]|]; simpl; lia).
  assert (0 ≤ count (user s) ≤ 5) as Hcb.
  { rewrite Hn. unfold arrivals, total. simpl.
    pose proof (Hb 0). pose proof (Hb 1). pose proof (Hb 2). pose proof (Hb 3). pose proof (Hb 4). lia. }
  assert (add32 (count (user s)) 1 = count (user s) + 1) as ->
    by (unfold add32; rewrite s32_id; [done|unfold in_s32; lia]).
  set (g' := MkGhost (<[w := MkEntry t 5 true]> (entries gl.2)) (inside gl.2) (printed gl.2) (boss gl.2)).
  assert (W t w 5 true (gl.1, g') s) as HP' by apply lookup_insert_eq.
  eapply kwp_user with (g' := g') (P' := W t w 5 true);
    [reflexivity|exact Hk| |done|intros H; by apply HQ].
  apply cstep_user; simpl; auto.
  - intros w' e' Hw' Ho. rewrite lookup_insert_ne; [done|]. intros <-. by simplify_eq.
  - right. intros w' Hw'. rewrite lookup_insert_ne; [done|]. intros <-. congruence.
  - intros Ha. destruct (Ha w Hwk) as (e & He' & Hae). by simplify_eq.
  - split_and!; simpl; try done.
    + intros w' e'. rewrite lookup_insert_Some. intros [[<- <-]|[_ H']]; [|by apply He]. done.
    + rewrite total_insert, Hw by done. simpl. lia.
    + unfold arrivals. rewrite total_insert, Hw by done. simpl. unfold arrivals in Hn. lia.
    + destruct Htn as [?|H0]; [by left|]. by rewrite H0 in Hw.
Qed.

Lemma barrier_ok t w gl s (Q : unit → GL → K → Prop) :
  running t IntOn (W t w 5 false) gl s →
  (∀ gl' s', running t IntOn (Open t w 5) gl' s' → Q tt gl' s') →
  kwp t barrier gl s Q.
Proof.
  intros Hk HQ. unfold barrier.
  apply kwp_bind. eapply P_mx_ok; [exact Hk|]. clear gl s Hk. intros gl s Hk. cbv beta.
  kread. apply kwp_bind. eapply arrive_ok; [exact Hk|]. clear gl s Hk. intros gl s Hk. cbv beta.
  apply kwp_bind. eapply V_mx_ok; [exact Hk|]. clear gl s Hk. intros gl s Hk. cbv beta.
  kread. kread.
  assert (∀ gl s, running t IntOn (W t w 5 true) gl s → kwp t (P br ;; V br) gl s Q) as Hrest.
  { intros gl1 s1 H1. apply kwp_bind. eapply P_br_ok; [exact H1|]. intros gl2 s2 H2. cbv beta.
    eapply V_br_ok; [exact H2|]. done. }
  apply kwp_bind. destruct (running_inv _ _ _ _ _ Hk) as [Hi Hw].
  destruct (count (user s) =? testnum (user s)) eqn:E; [|by apply kwp_ret, Hrest].
  apply Z.eqb_eq in E. destruct Hi as (_ & _ & _ & (_ & _ & Hn & Htn & _) & _).
  destruct Htn as [H5|H0]; [|unfold W in Hw; by rewrite H0 in Hw].
  eapply (V_br_ok t w 5).
  - eapply kstate_weaken; [exact Hk|]. split; [done|]. apply arrivals_all. congruence.
  - intros gl1 s1 H1. cbv beta. apply Hrest. eapply kstate_weaken; [exact H1|].
    by destruct (running_inv _ _ _ _ _ H1) as [_ [? _]].
Qed.

Lemma final_value_ok t w gl s (Q : unit → GL → K → Prop) :
  running t IntOn (Open t w 5) gl s →
  (∀ gl' s', running t IntOn anything gl' s' → Q tt gl' s') →
  kwp t (final_value w) gl s Q.
Proof.
  intros Hk HQ. unfold final_value. kread.
  destruct (running_inv _ _ _ _ _ Hk) as [Hi [Hw Ha]].
  pose proof Hi as (_ & _ & _ & (He & Hs & Hn & Htn & Hpr & Hsee) & _).
  assert (SharedVariable (user s) = 25) as H25 by (rewrite Hs; by apply all_arrived_total).
  assert (seen (reverse (Final w (SharedVariable (user s)) :: output (user s)))
          = seen (reverse (output (user s)))) as Hseen by (rewrite seen_snoc; simpl; apply app_nil_r).
  eapply kwp_user with (g' := gl.2) (P' := anything);
    [reflexivity|exact Hk| |done|intros H; by apply HQ].
  apply cstep_user; simpl; auto.
  - split_and!; simpl; try done. by rewrite Hseen.
  - apply output_ok_snoc; [by intros ? ? [= <- <-]|]. rewrite Hseen, Hsee. eauto.
Qed.

(** ** The worker *)

Variables enter leave : kcode unit.
Hypothesis enter_ok : ∀ t w n gl s (Q : unit → GL → K → Prop),
  running t IntOn (W t w n false) gl s →
  (∀ gl' s', running t IntOn (In t w n false) gl' s' → Q tt gl' s') → kwp t enter gl s Q.
Hypothesis leave_ok : ∀ t w n gl s (Q : unit → GL → K → Prop),
  running t IntOn (In t w n false) gl s →
  (∀ gl' s', running t IntOn (W t w n false) gl' s' → Q tt gl' s') → kwp t leave gl s Q.

Definition work (which : Z) : kcode unit :=
  enter ;;
  val ← run (var SharedVariable);
  run (printf (Sees which val)) ;;
  yield_ ;;
  run (set_SharedVariable (add32 val 1)) ;;
  leave ;;
  yield_.

Definition worker (which : Z) : kcode unit :=
  rounds 5 0 (λ _, work which) ;;
  barrier ;;
  final_value which.

Lemma yield_ok t P gl s (Q : unit → GL → K → Prop) :
  stable t P → running t IntOn P gl s →
  (∀ gl' s', running t IntOn P gl' s' → Q tt gl' s') → kwp t yield_ gl s Q.
Proof. intros Hs Hk HQ. by eapply kwp_yield. Qed.

Lemma work_ok t w n gl s (Q : unit → GL → K → Prop) :
  n < 5 → running t IntOn (W t w n false) gl s →
  (∀ gl' s', running t IntOn (W t w (n + 1) false) gl' s' → Q tt gl' s') →
  kwp t (work w) gl s Q.
Proof.
  intros Hn Hk HQ. unfold work.
  apply kwp_bind. eapply enter_ok; [exact Hk|]. clear gl s Hk. intros gl s Hk. cbv beta.
  kread. set (v := SharedVariable (user s)).
  apply kwp_bind. eapply print_seen_ok; [exact Hk|]. fold v. clearbody v. clear gl s Hk.
  intros gl s Hk. cbv beta.
  apply kwp_bind. eapply (yield_ok t (Printed t w n v)); [auto|exact Hk|]. clear gl s Hk. intros gl s Hk. cbv beta.
  apply kwp_bind. eapply increment_ok; [exact Hn|exact Hk|]. clear gl s Hk. intros gl s Hk. cbv beta.
  apply kwp_bind. eapply leave_ok; [exact Hk|]. clear gl s Hk. intros gl s Hk. cbv beta.
  eapply (yield_ok t (W t w (n + 1) false)); [auto|exact Hk|done].
Qed.

Lemma rounds_ok t w k n num gl s (Q : unit → GL → K → Prop) :
  n + Z.of_nat k = 5 → running t IntOn (W t w n false) gl s →
  (∀ gl' s', running t IntOn (W t w 5 false) gl' s' → Q tt gl' s') →
  kwp t (rounds k num (λ _, work w)) gl s Q.
Proof.
  revert n num gl s. induction k as [|k IH]; intros n num gl s Hn Hk HQ; simpl.
  - replace n with 5 in Hk by lia. by apply HQ.
  - apply kwp_bind. eapply work_ok; [|exact Hk|]; [lia|]. intros gl1 s1 H1.
    eapply (IH (n + 1)); [lia|done|done].
Qed.

Lemma worker_ok t w gl s :
  running t IntOn (W t w 0 false) gl s →
  kwp t (worker w) gl s (λ _, running t IntOn anything).
Proof.
  intros Hk. unfold worker.
  apply kwp_bind. eapply (rounds_ok t w 5 0); [done|exact Hk|]. clear gl s Hk.
  intros gl s Hk. cbv beta.
  apply kwp_bind. eapply barrier_ok; [exact Hk|]. clear gl s Hk. intros gl s Hk. cbv beta.
  eapply final_value_ok; [exact Hk|done].
Qed.

(** ** The timer *)

Lemma next_interrupt_positive n : 0 < add32 1 (Z.rem (rand n) (TimerTicks * 2)).
Proof.
  pose proof (rand_ok n). assert (0 ≤ Z.rem (rand n) (TimerTicks * 2) < 200) as Hr
    by (unfold TimerTicks; apply Z.rem_bound_pos; lia).
  unfold add32. rewrite s32_id; [lia|]. unfold in_s32. lia.
Qed.

Lemma TimerInterruptHandler_ok d t gl s :
  randomYield = true → kpre (Some (TimerInterruptHandler_ d)) t gl s →
  kwp t (run TimerInterruptHandler) gl s
    (λ _ gl' s', kpost (Some (TimerInterruptHandler_ d)) t gl s gl' s').
Proof.
  intros Hry [[_ (E & (Hl & Hh & Hm & Hi & Hp) & _)]|[[] _]]; [|done].
  set (i := interrupt (hardware s)). set (hd := MkHardware (set_yieldOnReturn true i) (stats (hardware s))).
  assert (hw_ok IntOff true SystemMode hd) as Hhd by done.
  eapply (kwp_quiet t _ gl s tt (set_hardware hd s)).
  - unfold TimerInterruptHandler, getStatus, YieldOnReturn, gets, lift, ASSERT, when, mbind, M_bind.
    simpl. rewrite Hm, bool_decide_eq_true_2 by done. by rewrite Hh.
  - repeat split; try done. apply ueq_refl.
  - apply kpost_quiet; [done| |done]. repeat split; try done. apply ueq_refl.
Qed.

Lemma TimerExpired_ok t gl s :
  randomYield = true → kpre (Some TimerHandler_) t gl s →
  kwp t TimerExpired gl s (λ _ gl' s', kpost (Some TimerHandler_) t gl s gl' s').
Proof.
  intros Hry Hpre. pose proof Hpre as [[_ (E & Hk)]|[[] _]]; [|done].
  pose proof Hk as (Hh & _ & _ & _ & _ & Hi & _). pose proof Hi as (_ & _ & _ & _ & Ht).
  specialize (Ht Hry). unfold TimerExpired.
  assert (∀ n hd, quiet s (set_hardware hd (set_user
    (MkTest (SharedVariable (user s)) (count (user s)) (testnum (user s)) (elevator (user s))
       (test_timer (user s)) n (output (user s))) s))) as Hq
    by (intros n hd; repeat split; try done; by exists n).
  apply kwp_bind. eapply (kwp_quiet t _ gl s (user s) (set_user (user s) s)); [done| |].
  { repeat split; try done. apply ueq_refl. }
  cbv beta. apply kwp_bind. eapply kwp_id; [simpl; by rewrite Ht|]. cbv beta.
  set (n := rand_calls (user s)).
  set (s2 := set_user (MkTest (SharedVariable (user s)) (count (user s)) (testnum (user s))
    (elevator (user s)) (test_timer (user s)) (Datatypes.S n) (output (user s))) s).
  apply kwp_bind.
  eapply (kwp_quiet t _ gl _ (add32 1 (Z.rem (rand n) (TimerTicks * 2))) s2); [done| |].
  { exact (Hq _ (hardware s)). }
  cbv beta.
  destruct (Schedule_Ok IntOff true SystemMode TimerHandler_
    (add32 1 (Z.rem (rand n) (TimerTicks * 2))) TimerInt s2) as (hd & Hs & Hhd);
    [done|done|apply next_interrupt_positive|].
  apply kwp_bind. eapply kwp_hw; [exact Hs|]. cbv beta.
  apply kwp_chain; [done|done|done|apply Hq|done].
Qed.

(** ** The whole program *)

Lemma test_handlers_ok f t gl s :
  is_handler f → kpre (Some f) t gl s →
  kwp t (test_call worker f) gl s (λ _ gl' s', kpost (Some f) t gl s gl' s').
Proof.
  intros Hf Hk. destruct f; try done; simpl.
  - by apply TimerExpired_ok.
  - exact (TimerInterruptHandler_ok _ t gl s Hf Hk).
Qed.

Lemma test_functions_ok f t gl s :
  ¬ is_handler f → running t IntOn (λ gl, croot f t gl.2) gl s →
  kwp t (test_call worker f) gl s (λ _, running t IntOn anything).
Proof.
  intros Hf Hk. pose proof (running_inv _ _ _ _ _ Hk) as [_ Hr]. destruct f; try done.
  by apply worker_ok.
Qed.

(** *** The main thread *)

Definition Boss t (i : Z) (gl : GL) s : Prop :=
  W t 0 0 false gl s ∧ boss gl.2 = t ∧ ∀ w, i ≤ w → entries gl.2 !! w = None.

Lemma stable_Boss t i : stable t (Boss t i).
Proof.
  intros gl s gl' s' ((He & _ & _ & Hb & Hn) & _) (H1 & H2 & H3).
  split; [by apply He|]. split; [congruence|]. intros w Hw. apply Hn; [done|]. by apply H3.
Qed.

Lemma total_new f m w e :
  w ∈ workers → m !! w = None → f e = 0 → total f (<[w := e]> m) = total f m.
Proof. intros Hw Hm He. rewrite total_insert, Hm by done. simpl. lia. Qed.

(** A new worker. *)
Lemma data_ok_new g u w t :
  w ∈ workers → entries g !! w = None → testnum u = 5 → data_ok g u →
  data_ok (MkGhost (<[w := MkEntry t 0 false]> (entries g)) (inside g) (printed g) (boss g)) u.
Proof.
  intros Hw Hn H5 (He & Hs & Hc & _ & Hp & Hsee). split_and!; simpl; try done.
  - intros w' e'. rewrite lookup_insert_Some. intros [[<- <-]|[_ H']]; [|by apply He]. done.
  - by rewrite total_new.
  - unfold arrivals. by rewrite total_new.
  - by left.
Qed.

Lemma fork_threads_ok t n i gl s (Q : unit → GL → K → Prop) :
  0 < i → i + Z.of_nat n ≤ 5 → running t IntOn (Boss t i) gl s →
  (∀ gl' s', running t IntOn (W t 0 0 false) gl' s' → Q tt gl' s') →
  kwp t (fork_threads n i) gl s Q.
Proof.
  revert i gl s. induction n as [|n IH]; intros i gl s Hi Hn Hk HQ; simpl.
  - apply (kwp_ret t), HQ. eapply kstate_weaken; [exact Hk|].
    by destruct (running_inv _ _ _ _ _ Hk) as [_ [? _]].
  - change (kwp t ((t' ← run (Thread_new []); Fork t' (SimpleThread_ i)) ;; fork_threads n (i + 1)) gl s Q).
    apply kwp_bind. eapply (spawn_ok t (SimpleThread_ i) [] IntOn (Boss t i) (Boss t (i + 1)));
      [apply stable_Boss|by intros []| |apply stable_Boss|exact Hk|].
    + clear gl s Hk. intros gl s t' Hk Ht'. destruct (running_inv _ _ _ _ _ Hk) as [Hinv (H0 & Hb & Hnone)].
      assert (i ∈ workers) as Hw.
      { assert (i = 1 ∨ i = 2 ∨ i = 3 ∨ i = 4) as [-> |[-> |[-> | ->]]] by lia; set_solver. }
      pose proof (Hnone i ltac:(lia)) as Hi0. unfold W in H0.
      pose proof Hinv as (Hm & Hmx & (y & Hy & Hby) & Hd & Ht).
      set (g' := MkGhost (<[i := MkEntry t' 0 false]> (entries gl.2)) (inside gl.2) (printed gl.2) (boss gl.2)).
      assert (∀ w, w ≠ i → entries g' !! w = entries gl.2 !! w) as Hne
        by (intros w ?; by apply lookup_insert_ne).
      assert (¬ all_arrived (entries gl.2)) as Hna
        by (intros Ha; destruct (Ha i Hw) as (e & He & _); congruence).
      exists g'. split; [|split; [apply lookup_insert_eq|]].
      * split; [done|]. split.
        -- split; [done|]. split; [done|]. split; [exists y; naive_solver|]. split; [|done].
           apply data_ok_new; [done..| |done].
           destruct Hd as (_ & _ & _ & [?|He] & _); [done|]. by rewrite He in H0.
        -- intros t0 Ht0. split.
           ++ intros w e Hwe _. rewrite Hne; [done|]. intros ->. congruence.
           ++ split; [done|]. split; [done|]. split; [done|]. intros ->. done.
      * split; [|split; [done|]].
        -- unfold W. simpl. rewrite lookup_insert_ne by lia. done.
        -- intros w Hw'. simpl. rewrite lookup_insert_ne by lia. apply Hnone. lia.
    + intros gl1 s1 H1. eapply (IH (i + 1)); [lia|lia|done|done].
Qed.

Lemma ThreadTest_ok t gl s :
  running t IntOn (λ gl _, entries gl.2 = ∅ ∧ boss gl.2 = t) gl s →
  kwp t (ThreadTest worker 4) gl s (λ _, running t IntOn anything).
Proof.
  intros Hk. unfold ThreadTest. destruct (running_inv _ _ _ _ _ Hk) as [Hi [H0 Hb]].
  set (g' := MkGhost (<[0 := MkEntry t 0 false]> (entries gl.2)) (inside gl.2) (printed gl.2) (boss gl.2)).
  apply kwp_bind. eapply kwp_user with (g' := g') (P' := Boss t 1); [reflexivity|exact Hk| | |].
  - apply cstep_user; simpl; auto.
    + intros w e. by rewrite H0.
    + intros Ha. destruct (Ha 0) as (e & He & _); [set_solver|]. by rewrite H0 in He.
    + pose proof Hi as (_ & _ & _ & (He & Hs & Hc & _ & Hp & Hsee) & _).
      apply data_ok_new; [set_solver|by rewrite H0|done|]. split_and!; try done. by left.
  - split; [apply lookup_insert_eq|]. split; [done|]. intros w Hw. simpl.
    rewrite lookup_insert_ne by lia. by rewrite H0.
  - intros H1. cbv beta. apply kwp_bind. eapply fork_threads_ok; [| |exact H1|]; [done|done|].
    intros gl2 s2 H2. cbv beta. by apply worker_ok.
Qed.

(** *** The start *)

Hypothesis mutex_boot : mutex None (value <$> semaphores boot) (holding <$> locks boot).

Definition main_thread : tid := 1%positive.
Definition first_ghost : ghost := MkGhost ∅ None false main_thread.

Definition boot_with (hd : Hardware test_fun) (u : test_state) : K :=
  set_user u (set_hardware hd boot).

Lemma start_timer_ok :
  ∃ hd u, when randomYield (Timer_new (TimerInterruptHandler_ 0) true) boot
          = Ok (tt, boot_with hd u)
    ∧ hw_ok IntOff false SystemMode hd ∧ timer_ok u ∧ output u = [] ∧ data_ok first_ghost u.
Proof.
  unfold when, timer_ok, hw_ok. simpl. destruct randomYield eqn:Hry.
  - set (u1 := MkTest 0 0 1 (elevator test_vars) None 1 []).
    destruct (Schedule_Ok IntOff false SystemMode TimerHandler_
      (add32 1 (Z.rem (rand 0) (TimerTicks * 2))) TimerInt (set_user u1 boot)) as (hd & Hs & Hhd).
    + by split_and!.
    + done.
    + apply next_interrupt_positive.
    + exists hd, (MkTest 0 0 1 (elevator test_vars) (Some (MkTimer true (TimerInterruptHandler_ 0))) 1 []).
      split; [|split; [exact Hhd|]].
      * unfold Timer_new. rewrite (M_bind_step _ _ boot (add32 1 (Z.rem (rand 0) (TimerTicks * 2)))
          (set_user u1 boot) eq_refl). by rewrite (M_bind_step _ _ _ _ _ Hs).
      * split; [done|]. split; [done|]. split_and!; try done. by right.
  - exists (hardware boot), test_vars. split; [done|]. split; [|split; [done|split; [done|]]].
    + by split_and!.
    + split_and!; try done. by right.
Qed.

Lemma kwp_early {A} (m : M K A) s a s' (Q : A → GL → K → Prop) :
  m s = Ok (a, s') → output (user s') = output (user s) →
  Q a (∅, first_ghost) s' → kwp main_thread (run m) (∅, first_ghost) s Q.
Proof.
  intros Hm Ho HQ. eapply swp_run; [exact Hm| |exact HQ]. split; [simpl; by rewrite Ho|].
  intros t' _ Hl. unfold klive in Hl. simpl in Hl. set_solver.
Qed.

Lemma boot_sched t th hd u :
  machineState th = None → stack th = None → space th = None →
  sched [t] {[t]} (set_threads {[t := th]} (set_currentThread t (boot_with hd u))).
Proof.
  intros Hf Hst Hsp.
  assert (waiting (set_threads {[t := th]} (set_currentThread t (boot_with hd u))) = []) as Hw
    by (vm_compute; reflexivity).
  split; [|split; [|split; [|split]]].
  - split; [done|]. split; [|split; [|done]]; simpl; repeat apply all_intact_insert; try done.
  - rewrite Hw. apply NoDup_singleton.
  - intros t'. rewrite Hw. set_solver.
  - intros t' ->%elem_of_singleton. exists th. simpl. rewrite lookup_singleton_eq. auto.
  - done.
Qed.

Lemma main_ok :
  kconfig_ok (Config boot (main worker randomYield) ∅).
Proof.
  exists (∅, first_ghost), main_thread. split; [|split].
  - destruct start_timer_ok as (hd & u & Hs & Hhd & Ht & Ho & Hd).
    change (kwp main_thread (main worker randomYield) (∅, first_ghost) boot never).
    unfold main, Initialize. apply kwp_bind.
    apply kwp_bind. eapply kwp_early; [exact Hs|done|]. cbv beta.
    set (s0 := set_threadToBeDestroyed None (boot_with hd u)).
    set (new := MkThread (F := test_fun) None None JUST_CREATED [] None).
    apply kwp_bind. apply (kwp_early _ _ tt s0); [done|done|]. cbv beta.
    apply kwp_bind. apply (kwp_early _ _ main_thread (set_threads {[main_thread := new]} s0));
      [done|done|]. cbv beta.
    apply kwp_bind.
    apply (kwp_early _ _ tt (set_currentThread main_thread (set_threads {[main_thread := new]} s0)));
      [done|done|]. cbv beta.
    set (th := MkThread (F := test_fun) None None RUNNING [] None).
    set (s1 := set_threads {[main_thread := th]} (set_currentThread main_thread (boot_with hd u))).
    apply kwp_bind.
    eapply (swp_run _ _ _ _ _ _ _ _ _ _ _ _ _ tt s1 ({[main_thread]}, first_ghost)); [done| |].
    { split; [done|]. intros t' Hne Hl. unfold klive in Hl. simpl in Hl. set_solver. }
    cbv beta.
    assert (running main_thread IntOff (λ gl _, entries gl.2 = ∅ ∧ boss gl.2 = main_thread)
              ({[main_thread]}, first_ghost) s1) as Hk.
    { split; [done|]. split; [by apply boot_sched|]. split; [done|].
      split; [by exists th; auto|]. split; [done|]. split; [|done].
      split; [done|]. split; [by eexists|]. split; [by eexists|]. done. }
    eapply Enable_ok; [|exact Hk|].
    + intros gl s gl' s' ((_ & _ & _ & Hb & Hn) & _) [H0 H1]. split; [|congruence].
      apply map_empty. intros w. apply Hn; [done|]. by rewrite H0.
    + intros gl s Hk1. cbv beta. apply kwp_bind. eapply kwp_mono; [by apply ThreadTest_ok|].
      intros [] gl' s' Hk2. by eapply ThreadFinish_ok.
  - split; [|by exists 0]. intros w v Hin. by apply elem_of_nil in Hin.
  - intros t' _ Hl. unfold klive in Hl. simpl in Hl. set_solver.
Qed.

(** The program in every execution: what it prints, and how it ends. *)
Lemma worker_prints n :
  output_ok (prints worker n randomYield).1 ∧
  ((prints worker n randomYield).2 = None ∨ (prints worker n randomYield).2 = Some Halted).
Proof.
  unfold prints.
  pose proof (λ m, kernel_sound (test_call worker) test_handlers_ok test_functions_ok m _ main_ok) as H.
  revert H. generalize (Config boot (main worker randomYield) ∅ : config (S := K) (F := test_fun)).
  induction n as [|n IH]; intros c H; simpl.
  - split; [exact (H 0%nat)|by left].
  - unfold test_step. destruct (step current_Yield (test_call worker) start c) as [c'|f] eqn:E.
    + apply IH. intros m. specialize (H (Datatypes.S m)). simpl in H. by rewrite E in H.
    + split; [exact (H 0%nat)|]. right. specialize (H 1%nat). simpl in H. rewrite E in H. by rewrite H.
Qed.
End test.
