(* ===== verification/ElevatorSpec.v ===== *)
(** * The elevator finds its next stop

    The reference is the round trip of the elevator, a list of stops, and the
    people who wait and ride; it knows nothing of the indices of the two arrays
    of threads/threadtest.cc. *)
From S2P Require Import Prelude Word ThreadTest Elevator.

(** ** The round trip *)

(** A stop, and where somebody waits or wants to get out: a floor, and the
    direction of the ride. *)
#[local] Abbreviation place := (Z * DIRECTION)%type.

(** Up from the first floor to the last one, and down again. *)
Definition tour (m : Z) : list place :=
  ((λ f, (f, UP)) <$> seqZ 1 m) ++ ((λ f, (f, DOWN)) <$> reverse (seqZ 2 (m - 2))).

(** Where the elevator turns round, both directions are served. *)
Definition meets (m : Z) (s p : place) : bool :=
  (s.1 =? p.1) && ((p.1 =? 1) || (p.1 =? m) || bool_decide (s.2 = p.2)).
Definition somebody (m : Z) (ps : list place) (s : place) : bool := existsb (meets m s) ps.

(** Whether the elevator has to stop, with [room] places left. *)
Definition busy (m room : Z) (waiting riding : list place) (s : place) : bool :=
  negb (room =? 0) && somebody m waiting s || somebody m riding s.

(** How many people are at each index of an array; index 0 stays empty. *)
Definition headcount (m : Z) (ps : list place) : list Z :=
  0 :: ((λ s, Z.of_nat (length (filter (λ p, meets m s p = true) ps))) <$> tour m).

(** The first busy stop from [here] on, round the whole trip. *)
Definition next_stop (m room : Z) (waiting riding : list place) (here : place) (round : list place) : place :=
  default here (snd <$> list_find (λ s, busy m room waiting riding s = true) round).

(** ** The indices *)

(** The index [k] stops after [i], round the [n] indices. *)
Definition index (n i k : Z) : Z := (i + k) mod n.

(** What the code finds at an index. *)
Definition occupied (room : Z) (waiting going : list Z) (j : Z) : bool :=
  match stop_at room waiting going j with Ok b => b | Fault _ => false end.

Section search.
Variables (m room : Z) (waiting going : list Z).
#[local] Abbreviation n := (2 * m - 1).
Hypothesis Hm : 2 ≤ m < 2 ^ 30.
Hypothesis Hwaiting : zlen waiting = n.
Hypothesis Hgoing : zlen going = n.

Lemma stop_at_Ok j : 0 ≤ j < n → stop_at room waiting going j = Ok (occupied room waiting going j).
Proof.
  intros Hj. unfold occupied. destruct (stop_at room waiting going j) eqn:E; [done|].
  unfold stop_at in E. destruct (aread_total waiting j ltac:(lia)) as (x & Hx & _).
  destruct (aread_total going j ltac:(lia)) as (y & Hy & _). rewrite Hx, Hy in E.
  simpl in E. by destruct (room =? 0); [|destruct (negb (x =? 0))].
Qed.

Lemma next_index i k :
  0 ≤ i < n → 0 ≤ k → u32 (index n i k + 1) mod u32 (2 * m - 1) = index n i (k + 1).
Proof.
  intros Hi Hk. unfold index. pose proof (Z.mod_pos_bound (i + k) n).
  unfold u32. rewrite !(Z.mod_small _ (2 ^ 32)) by lia.
  rewrite Zplus_mod_idemp_l. f_equal. lia.
Qed.

(** Searching from the [k]th index on, when those before do not stop. *)
Lemma search_floor_spec fuel i k :
  0 ≤ i < n → 0 ≤ k → k + Z.of_nat fuel = n → (0 < fuel)%nat →
  (∀ k', 0 ≤ k' < k → occupied room waiting going (index n i k') = false) →
  ∃ j, search_floor fuel m room waiting going i (index n i k) = Ok j ∧
    ((∃ k', 0 ≤ k' < n ∧ j = index n i k' ∧ occupied room waiting going j = true
        ∧ ∀ k'', 0 ≤ k'' < k' → occupied room waiting going (index n i k'') = false)
     ∨ (j = i ∧ ∀ k', 0 ≤ k' < n → occupied room waiting going (index n i k') = false)).
Proof.
  revert k. induction fuel as [|fuel IH]; intros k Hi Hk Hf H0 Hb; [lia|].
  cbn [search_floor].
  assert (0 ≤ index n i k < n) as Hj by (apply Z.mod_pos_bound; lia).
  rewrite (stop_at_Ok _ Hj). simpl. destruct (occupied room waiting going (index n i k)) eqn:Es.
  - exists (index n i k). split; [done|]. left. exists k. split; [lia|done].
  - rewrite next_index by lia.
    assert (∀ k', 0 ≤ k' < k + 1 → occupied room waiting going (index n i k') = false) as Hb'.
    { intros k' Hk'. destruct (decide (k' = k)) as [->|]; [done|]. apply Hb. lia. }
    destruct (decide (k + 1 = n)) as [Hend|Hend].
    + assert (index n i (k + 1) = i) as ->.
      { unfold index. rewrite Hend, Z.add_mod, Z_mod_same_full, Z.add_0_r, Z.mod_mod by lia.
        by apply Z.mod_small. }
      rewrite Z.eqb_refl. exists i. split; [done|]. right. split; [done|].
      intros k' Hk'. apply Hb'. lia.
    + destruct (index n i (k + 1) =? i) eqn:Ei.
      * exfalso. apply Z.eqb_eq in Ei. unfold index in Ei.
        apply (f_equal (λ z, (z - i) mod n)) in Ei.
        rewrite Zminus_mod_idemp_l, Z.sub_diag, Z.mod_0_l in Ei by lia.
        replace (i + (k + 1) - i) with (k + 1) in Ei by lia.
        rewrite Z.mod_small in Ei by lia. lia.
      * apply IH; try lia. done.
Qed.
End search.


(** ** Indices and stops *)

Section indices.
Variable m : Z.
Hypothesis Hm : 2 ≤ m < 2 ^ 30.

Lemma length_tour : length (tour m) = Z.to_nat (2 * m - 2).
Proof. unfold tour. rewrite length_app, !length_fmap, length_reverse, !length_seqZ. lia. Qed.

Lemma tour_lookup k :
  0 ≤ k < 2 * m - 2 →
  tour m !! Z.to_nat k = Some (if k <? m then (k + 1, UP) else (2 * m - 1 - k, DOWN)).
Proof.
  intros Hk. unfold tour. destruct (Z.ltb_spec k m).
  - rewrite lookup_app_l by (rewrite length_fmap, length_seqZ; lia).
    rewrite list_lookup_fmap, lookup_seqZ_lt by lia. simpl. do 2 f_equal. lia.
  - rewrite lookup_app_r by (rewrite length_fmap, length_seqZ; lia).
    rewrite list_lookup_fmap, length_fmap, length_seqZ, reverse_lookup by (rewrite length_seqZ; lia).
    rewrite length_seqZ, lookup_seqZ_lt by lia. simpl. do 2 f_equal. lia.
Qed.

(** The index of a place is that of its stop. *)
Lemma meets_index k s f d :
  0 ≤ k < 2 * m - 2 → tour m !! Z.to_nat k = Some s →
  1 ≤ f ≤ m → d = UP ∨ d = DOWN ∨ f = 1 →
  meets m s (f, d) = true ↔ map_floor m d f = k + 1.
Proof.
  intros Hk Hs Hf Hd. rewrite tour_lookup in Hs by done. injection Hs as <-.
  unfold meets, map_floor, u32. rewrite (Z.mod_small (2 * m - f)) by lia.
  rewrite andb_true_iff, !orb_true_iff, !Z.eqb_eq, bool_decide_eq_true. cbn [fst snd].
  assert (UP = DOWN ↔ False) as E1 by (split; [discriminate|done]).
  assert (DOWN = UP ↔ False) as E2 by (split; [discriminate|done]).
  destruct (bool_decide_reflect (d = UP)) as [->|Hu].
  - destruct (Z.ltb_spec k m); cbn [fst snd orb]; rewrite ?E2; [|lia]. split; [lia|]. intros ->. split; [lia|by right].
  - destruct (Z.eqb_spec f 1) as [->|Hf1]; cbn [orb]; [destruct (Z.ltb_spec k m); cbn [fst snd]; lia|].
    assert (d = DOWN) as -> by (by destruct Hd as [|[|]]).
    destruct (Z.ltb_spec k m); cbn [fst snd]; rewrite ?E1; [lia|]. split; [lia|]. intros ?. split; [lia|by right].
Qed.

Lemma headcount_S ps k :
  headcount m ps !! S k
  = (λ s, Z.of_nat (length (filter (λ p, meets m s p = true) ps))) <$> tour m !! k.
Proof. exact (list_lookup_fmap _ _ _). Qed.

(** One more person is one more at the index that the code adds to. *)
Lemma headcount_cons ps f d :
  1 ≤ f ≤ m → d = UP ∨ d = DOWN ∨ f = 1 →
  headcount m ((f, d) :: ps) = alter Z.succ (Z.to_nat (map_floor m d f)) (headcount m ps).
Proof.
  intros Hf Hd. assert (1 ≤ map_floor m d f) as Hpos.
  { unfold map_floor, u32. destruct (_ || _); [lia|]. rewrite Z.mod_small; lia. }
  apply list_eq. intros [|k]; [by rewrite list_lookup_alter_ne by lia|].
  destruct (decide (Z.of_nat k < 2 * m - 2)) as [Hk|Hk].
  - assert (∃ s, tour m !! k = Some s) as [s Hs].
    { rewrite <- (Nat2Z.id k). rewrite tour_lookup by lia. eauto. }
    pose proof (meets_index (Z.of_nat k) s f d ltac:(lia) ltac:(by rewrite Nat2Z.id) Hf Hd) as Hmeet.
    destruct (decide (map_floor m d f = Z.of_nat k + 1)) as [E|E].
    + rewrite E. replace (Z.to_nat (Z.of_nat k + 1)) with (S k) by lia. rewrite list_lookup_alter_eq.
      rewrite !headcount_S, Hs. simpl.
      rewrite list.filter_cons, decide_True by (by apply Hmeet). simpl. f_equal. lia.
    + rewrite list_lookup_alter_ne by lia. rewrite !headcount_S, Hs. simpl. rewrite list.filter_cons, decide_False; [done|]. by rewrite Hmeet.
  - rewrite lookup_ge_None_2 by (unfold headcount; simpl; rewrite length_fmap, length_tour; lia).
    symmetry. apply lookup_ge_None_2. rewrite length_alter. unfold headcount. simpl.
    rewrite length_fmap, length_tour. lia.
Qed.

Lemma zlen_headcount ps : zlen (headcount m ps) = 2 * m - 1.
Proof. unfold zlen, headcount. simpl. rewrite length_fmap, length_tour. lia. Qed.

Lemma headcount_0 ps : aget (headcount m ps) 0 = Some 0.
Proof. done. Qed.

Lemma headcount_stop ps k s :
  0 ≤ k → tour m !! Z.to_nat k = Some s →
  ∃ c, aget (headcount m ps) (k + 1) = Some c ∧ negb (c =? 0) = somebody m ps s.
Proof.
  intros Hk Hs. eexists. split.
  { unfold aget. replace (0 <=? k + 1) with true by lia. replace (Z.to_nat (k + 1)) with (S (Z.to_nat k)) by lia.
    by rewrite headcount_S, Hs. }
  unfold somebody. induction ps as [|p ps IH]; [done|]. rewrite list.filter_cons. cbn [existsb].
  destruct (meets m s p); [by rewrite decide_True|by rewrite decide_False].
Qed.

(** The code stops at an index when the stop is busy, and never at index 0. *)
Lemma occupied_stop room ws gs k s :
  0 ≤ k → tour m !! Z.to_nat k = Some s →
  occupied room (headcount m ws) (headcount m gs) (k + 1) = busy m room ws gs s.
Proof.
  intros Hk Hs. destruct (headcount_stop ws k s Hk Hs) as (w & Hw & Ew).
  destruct (headcount_stop gs k s Hk Hs) as (g & Hg & Eg).
  unfold occupied, stop_at, aread, busy. rewrite Hw, Hg, <- Ew, <- Eg. simpl.
  destruct (room =? 0); simpl; [done|]. by destruct (w =? 0).
Qed.
Lemma occupied_0 room ws gs : occupied room (headcount m ws) (headcount m gs) 0 = false.
Proof. unfold occupied, stop_at. by destruct (room =? 0). Qed.
End indices.

(** ** The choice *)

Section choice.
Variables (m : Z) (pre post : list place) (here : place).
Hypothesis Hm : 2 ≤ m < 2 ^ 30.
Hypothesis Htour : tour m = pre ++ here :: post.
#[local] Abbreviation n := (2 * m - 1).
#[local] Abbreviation kh := (Z.of_nat (length pre)).
#[local] Abbreviation round := (here :: post ++ pre).

Lemma length_parts : Z.of_nat (length pre) + 1 + Z.of_nat (length post) = 2 * m - 2.
Proof. pose proof (length_tour m Hm) as H. rewrite Htour, length_app in H. simpl in H. lia. Qed.

(** The stops of the round trip from [here] on have the indices from its own
    on, but for index 0. *)
Lemma round_lookup q :
  0 ≤ q < 2 * m - 2 →
  ∃ s, round !! Z.to_nat q = Some s
    ∧ tour m !! Z.to_nat (if q <? 2 * m - 2 - kh then kh + q else kh + q - (2 * m - 2)) = Some s.
Proof.
  intros Hq. pose proof length_parts as Hl. change round with ((here :: post) ++ pre).
  rewrite Htour. destruct (Z.ltb_spec q (2 * m - 2 - kh)).
  - destruct (lookup_lt_is_Some_2 (here :: post) (Z.to_nat q)) as [s Hs]; [simpl; lia|]. exists s.
    split; [by apply lookup_app_l_Some|]. rewrite lookup_app_r by lia. rewrite <- Hs. f_equal. lia.
  - destruct (lookup_lt_is_Some_2 pre (Z.to_nat (kh + q - (2 * m - 2)))) as [s Hs]; [lia|]. exists s.
    split; [|by apply lookup_app_l_Some]. rewrite lookup_app_r by (simpl; lia). rewrite <- Hs. f_equal. simpl. lia.
Qed.

Lemma index_round q :
  0 ≤ q < 2 * m - 2 →
  index n (kh + 1) (if q <? 2 * m - 2 - kh then q else q + 1)
  = (if q <? 2 * m - 2 - kh then kh + q else kh + q - (2 * m - 2)) + 1.
Proof.
  intros Hq. pose proof length_parts. unfold index. destruct (Z.ltb_spec q (2 * m - 2 - kh)).
  - rewrite Z.mod_small; lia.
  - replace (kh + 1 + (q + 1)) with (kh + q - (2 * m - 2) + 1 + 1 * n) by lia.
    rewrite Z_mod_plus_full, Z.mod_small; lia.
Qed.

(** An index that is not 0 is that of a stop. *)
Lemma index_position k :
  0 ≤ k < n → index n (kh + 1) k ≠ 0 →
  ∃ q, 0 ≤ q < 2 * m - 2 ∧ k = if q <? 2 * m - 2 - kh then q else q + 1.
Proof.
  intros Hk Hne. pose proof length_parts. destruct (Z.lt_trichotomy k (2 * m - 2 - kh)) as [|[->|]].
  - exists k. split; [lia|]. by replace (k <? 2 * m - 2 - kh) with true by lia.
  - contradict Hne. unfold index. replace (kh + 1 + (2 * m - 2 - kh)) with (1 * n) by lia.
    apply Z_mod_mult.
  - exists (k - 1). split; [lia|]. replace (k - 1 <? 2 * m - 2 - kh) with false by lia. lia.
Qed.

Lemma realNextFloor_stop k s :
  0 ≤ k < 2 * m - 2 → tour m !! Z.to_nat k = Some s → realNextFloor m (k + 1) = s.1.
Proof.
  intros Hk Hs. rewrite tour_lookup in Hs by done. injection Hs as <-. unfold realNextFloor, u32.
  rewrite !Z.mod_small by lia. destruct (Z.ltb_spec k m), (Z.ltb_spec (m - 1) (k + 1)); simpl; lia.
Qed.

Lemma busy_find room ws gs j :
  0 ≤ j →
  (∃ k, 0 ≤ k < n ∧ j = index n (kh + 1) k ∧ occupied room (headcount m ws) (headcount m gs) j = true
     ∧ ∀ k', 0 ≤ k' < k → occupied room (headcount m ws) (headcount m gs) (index n (kh + 1) k') = false)
  ∨ (j = kh + 1 ∧ ∀ k, 0 ≤ k < n → occupied room (headcount m ws) (headcount m gs) (index n (kh + 1) k) = false) →
  1 ≤ j ∧ tour m !! Z.to_nat (j - 1) = Some (next_stop m room ws gs here round).
Proof.
  pose proof length_parts as Hl. intros Hj0 Hj.
  assert (∀ q, 0 ≤ q < 2 * m - 2 → ∃ s, round !! Z.to_nat q = Some s
    ∧ tour m !! Z.to_nat (index n (kh + 1) (if q <? 2 * m - 2 - kh then q else q + 1) - 1) = Some s
    ∧ 1 ≤ index n (kh + 1) (if q <? 2 * m - 2 - kh then q else q + 1)
    ∧ occupied room (headcount m ws) (headcount m gs) (index n (kh + 1) (if q <? 2 * m - 2 - kh then q else q + 1))
      = busy m room ws gs s) as Hq.
  { intros q Hq. destruct (round_lookup q Hq) as (s & H1 & H2). exists s. rewrite index_round by done.
    rewrite Z.add_simpl_r. split; [done|]. split; [done|].
    assert (0 ≤ if q <? 2 * m - 2 - kh then kh + q else kh + q - (2 * m - 2)) by (destruct (Z.ltb_spec q (2 * m - 2 - kh)); lia).
    split; [lia|]. by apply occupied_stop. }
  assert (∀ q s, round !! q = Some s → Z.of_nat q < 2 * m - 2) as Hlt.
  { intros q s Hs%lookup_lt_Some. simpl in Hs. rewrite length_app in Hs. lia. }
  unfold next_stop. destruct Hj as [(k & Hk & -> & Hocc & Hbefore)|[-> Hnone]].
  - destruct (index_position k Hk) as (q & Hqr & ->).
    { intros E. rewrite E, occupied_0 in Hocc. done. }
    destruct (Hq q Hqr) as (s & H1 & H2 & H3 & H4). split; [done|]. rewrite H2. f_equal.
    assert (list_find (λ s, busy m room ws gs s = true) round = Some (Z.to_nat q, s)) as ->; [|done].
    apply list_find_Some. split; [done|]. split; [by rewrite <- H4|].
    intros q' y Hy Hlt'. pose proof (Hlt _ _ Hy).
    destruct (Hq (Z.of_nat q') ltac:(lia)) as (y' & H1' & _ & _ & H4'). rewrite Nat2Z.id in H1'. simplify_eq.
    rewrite <- H4', Hbefore; [done|].
    destruct (Z.ltb_spec (Z.of_nat q') (2 * m - 2 - kh)), (Z.ltb_spec q (2 * m - 2 - kh)); lia.
  - split; [lia|]. rewrite Z.add_simpl_r, Nat2Z.id.
    assert (list_find (λ s, busy m room ws gs s = true) round = None) as ->.
    { apply list_find_None, list.Forall_lookup. intros q y Hy. pose proof (Hlt _ _ Hy).
      destruct (Hq (Z.of_nat q) ltac:(lia)) as (y' & H1' & _ & _ & H4'). rewrite Nat2Z.id in H1'. simplify_eq.
      rewrite <- H4', Hnone; [done|]. destruct (Z.ltb_spec (Z.of_nat q) (2 * m - 2 - kh)); lia. }
    simpl. rewrite Htour. by apply list_lookup_middle.
Qed.
End choice.

Lemma next_stop_free m room ws gs here round :
  busy m room ws gs (next_stop m room ws gs here round) = false →
  next_stop m room ws gs here round = here ∧ ∀ s, s ∈ round → busy m room ws gs s = false.
Proof.
  unfold next_stop. destruct (list_find _ round) as [[q s]|] eqn:E; simpl; intros Hfree.
  - apply list_find_Some in E as (_ & Hs & _). congruence.
  - split; [done|]. apply list_find_None in E. rewrite list.Forall_forall in E. intros s Hs.
    by apply not_true_is_false, E.
Qed.

(** C25.  The elevator's choice of the next stop always ends, and
    it is the first stop of its round trip, up from the first floor to the
    last one and down again, from the one where it is on and round the whole
    trip, at which somebody in the elevator wants to get out or, when there is
    room, somebody waits to go in the direction of the trip (at the first and
    the last floor, in any direction); when there is no such stop it is the
    one where the elevator is, which then has none on the whole trip.
    [realNextFloor] is its floor.  The two arrays hold the number of people at
    every stop, with the entry 0 unused ([headcount_cons]: this is what the
    passengers enter there). *)
Theorem searchNextFloor_correct e d f room waiting riding pre here post
    (Hm : 2 ≤ max_floors e < 2 ^ 30) (Hf : 1 ≤ f ≤ max_floors e) (Hd : d = UP ∨ d = DOWN ∨ f = 1)
    (Htour : tour (max_floors e) = pre ++ here :: post) (Hhere : meets (max_floors e) here (f, d) = true)
    (Hwaiting : waiting_list e = Some (headcount (max_floors e) waiting))
    (Hriding : going_list e = Some (headcount (max_floors e) riding)) :
  let stop := next_stop (max_floors e) room waiting riding here (here :: post ++ pre) in
  ∃ j, searchNextFloor e d f room = Ok j
    ∧ 1 ≤ j ∧ tour (max_floors e) !! Z.to_nat (j - 1) = Some stop
    ∧ realNextFloor (max_floors e) j = stop.1
    ∧ (busy (max_floors e) room waiting riding stop = false →
         stop = here ∧ ∀ s, s ∈ tour (max_floors e) → busy (max_floors e) room waiting riding s = false).
Proof.
  intros stop. set (m := max_floors e) in *. pose proof (length_parts m pre post here Hm Htour) as Hl.
  assert (tour m !! Z.to_nat (Z.of_nat (length pre)) = Some here) as Hk
    by (rewrite Htour, Nat2Z.id; by apply list_lookup_middle).
  assert (map_floor m d f = Z.of_nat (length pre) + 1) as Hi
    by (apply (meets_index m Hm _ here); [lia|done|done|done|done]).
  destruct (search_floor_spec m room (headcount m waiting) (headcount m riding) Hm (zlen_headcount m Hm _)
    (zlen_headcount m Hm _) (length (headcount m riding)) (map_floor m d f) 0) as (j & Hj & Hspec);
    [lia|lia|pose proof (zlen_headcount m Hm riding); unfold zlen in *; lia|simpl; lia|intros; lia|].
  assert (index (2 * m - 1) (map_floor m d f) 0 = map_floor m d f) as E0
    by (unfold index; rewrite Z.add_0_r, Z.mod_small; lia).
  rewrite E0 in Hj. exists j. unfold searchNextFloor. rewrite Hwaiting, Hriding. simpl deref. split; [exact Hj|].
  rewrite Hi in Hspec.
  destruct (busy_find m pre post here Hm Htour room waiting riding j) as [Hj1 Hstop]; [|done|].
  { destruct Hspec as [(k & _ & -> & _)|[-> _]]; [apply Z.mod_pos_bound|]; lia. }
  fold stop in Hstop. split; [done|]. split; [done|]. split.
  - replace j with (j - 1 + 1) by lia. apply realNextFloor_stop; [done| |done].
    apply lookup_lt_Some in Hstop. rewrite length_tour in Hstop by done. lia.
  - intros Hfree. destruct (next_stop_free m room waiting riding here _ Hfree) as [? Hnone]. split; [done|].
    intros s Hs. apply Hnone. rewrite Htour in Hs. set_solver.
Qed.

(** Three floors: somebody waits on the first floor, and the elevator, on its
    way up with nobody in it, is on the second. *)
Definition example_elevator : elevator_vars :=
  MkElevator 3 2 5 UP (Some [0; 1; 0; 0; 0]) (Some [0; 0; 0; 0; 0]) 0 0 ∅.

Lemma searchNextFloor_correct_witness :
  next_stop 3 5 [(1, UP)] [] (2, UP) ((2, UP) :: [(3, UP); (2, DOWN)] ++ [(1, UP)]) = (1, UP) ∧
  let stop := next_stop 3 5 [(1, UP)] [] (2, UP) ((2, UP) :: [(3, UP); (2, DOWN)] ++ [(1, UP)]) in
  ∃ j, searchNextFloor example_elevator UP 2 5 = Ok j
    ∧ 1 ≤ j ∧ tour 3 !! Z.to_nat (j - 1) = Some stop
    ∧ realNextFloor 3 j = stop.1
    ∧ (busy 3 5 [(1, UP)] [] stop = false →
         stop = (2, UP) ∧ ∀ s, s ∈ tour 3 → busy 3 5 [(1, UP)] [] s = false).
Proof.
  split; [reflexivity|].
  apply (searchNextFloor_correct example_elevator UP 2 5 [(1, UP)] [] [(1, UP)] (2, UP) [(3, UP); (2, DOWN)]);
    first [reflexivity | simpl; lia | by left].
Defined.
