(* ===== verification/ThreadTestSpec.v ===== *)
(** * The test programs of threads/threadtest.cc are correct

    With semaphores and with locks, every execution is without races, whatever
    the timer does, and without the timer all threads finish.  The elevator
    delivers the passengers of [main]. *)
From S2P Require Import Prelude Word NList Machine Coro Logic Interrupt Threads Synch Devices ThreadTest Elevator KernelState KernelLogic ThreadTestLogic.

Section programs.
Context {RAND : Rand}.
Hypothesis rand_ok : ∀ n, 0 ≤ rand n < 2 ^ 31.
Variable randomYield : bool.

(** ** Semaphores: the value of [sp] says whether someone is inside *)

Definition semaphore_mutex (i : option tid) (vs : gmap positive Z)
    (ls : gmap positive (bool * option tid)) : Prop :=
  vs !! sp = Some (match i with None => 1 | Some _ => 0 end).

Section semaphores.
#[local] Instance semaphore_client : Client test_fun test_state ghost :=
  test_client randomYield semaphore_mutex.

Lemma sp_exists g s :
  test_inv randomYield semaphore_mutex g s →
  ∃ x, semaphores s !! sp = Some x ∧ value x = match inside g with None => 1 | Some _ => 0 end.
Proof.
  intros (Hm & _). unfold semaphore_mutex in Hm. rewrite lookup_fmap in Hm.
  destruct (semaphores s !! sp) as [x|]; [|done]. exists x. split; [done|]. by injection Hm.
Qed.

(** A change of [sp] and of who is inside. *)
Lemma cstep_sp t gl s i x' :
  test_inv randomYield semaphore_mutex gl.2 s → inside gl.2 = None ∨ inside gl.2 = Some t →
  printed gl.2 = false → value x' = match i with None => 1 | Some _ => 0 end →
  cstep t gl s (MkGhost (entries gl.2) i false (boss gl.2))
    (set_semaphores (<[sp := x']> (semaphores s)) s).
Proof.
  intros (_ & Hmx & (y & Hy & Hb) & (He & Hs & Hc & Ht & _ & Hsee) & Htm) Hi Hp Hv.
  split; [done|]. split.
  - split; [|split; [|split; [|split; [|done]]]]; simpl.
    + unfold semaphore_mutex. by rewrite lookup_fmap, lookup_insert_eq, <- Hv.
    + by rewrite lookup_insert_ne.
    + rewrite lookup_insert_ne by done. eauto.
    + rewrite Hp in Hsee. by split_and!.
  - intros t' Hne. split; [done|]. split; [done|]. split; [|by split].
    intros Hin. destruct Hi as [Hi|Hi]; congruence.
Qed.

Lemma enter_sp t w n gl s (Q : unit → gset tid * ghost → Kernel test_fun test_state → Prop) :
  running t IntOn (W t w n false) gl s →
  (∀ gl' s', running t IntOn (In t w n false) gl' s' → Q tt gl' s') → kwp t (P sp) gl s Q.
Proof.
  intros Hk HQ. eapply (P_ok t sp IntOn (W t w n false) (In t w n false));
    [apply stable_W| | |apply stable_In|exact Hk|exact HQ].
  - intros g s1 (x & Hx & _)%sp_exists. eauto.
  - intros gl1 s1 x [Hi Hw]%running_inv Hx Hv. pose proof (sp_exists _ _ Hi) as (x' & Hx' & Hv').
    simplify_eq. destruct (inside gl1.2) as [t'|] eqn:Ei; [done|].
    assert (printed gl1.2 = false) as Hp.
    { destruct Hi as (_ & _ & _ & (_ & _ & _ & _ & Hp & _) & _).
      destruct (printed gl1.2); [|done]. by destruct (Hp eq_refl). }
    exists (MkGhost (entries gl1.2) (Some t) false (boss gl1.2)). split; [|by split].
    apply cstep_sp; [done|by left|done|]. simpl. by rewrite Hv'.
Qed.

Lemma leave_sp t w n gl s (Q : unit → gset tid * ghost → Kernel test_fun test_state → Prop) :
  running t IntOn (In t w n false) gl s →
  (∀ gl' s', running t IntOn (W t w n false) gl' s' → Q tt gl' s') → kwp t (V sp) gl s Q.
Proof.
  intros Hk HQ. eapply (V_ok t sp IntOn (In t w n false) (W t w n false));
    [apply stable_In| | |apply stable_W|exact Hk|exact HQ].
  - intros g s1 (x & Hx & _)%sp_exists. eauto.
  - intros gl1 s1 x [Hi (Hw & Hin & Hp)]%running_inv Hx.
    pose proof (sp_exists _ _ Hi) as (x' & Hx' & Hv'). rewrite Hin in Hv'. simplify_eq.
    exists (MkGhost (entries gl1.2) None false (boss gl1.2)). split; [|done].
    apply cstep_sp; [done|by right|done|]. simpl. by rewrite Hv'.
Qed.

Lemma Semaphores_prints n :
  output_ok (prints Semaphores.SimpleThread n randomYield).1 ∧
  ((prints Semaphores.SimpleThread n randomYield).2 = None
   ∨ (prints Semaphores.SimpleThread n randomYield).2 = Some Halted).
Proof.
  replace Semaphores.SimpleThread with (worker (P sp) (V sp)) by done.
  apply (worker_prints rand_ok randomYield semaphore_mutex).
  - intros i vs ls p v Hp Hm. unfold semaphore_mutex in *.
    rewrite lookup_insert_ne; [done|]. by destruct Hp as [-> | ->].
  - exact enter_sp.
  - exact leave_sp.
  - done.
Qed.
End semaphores.

(** ** Locks: the lock knows who holds it *)

Definition lock_mutex (i : option tid) (vs : gmap positive Z)
    (ls : gmap positive (bool * option tid)) : Prop :=
  ls !! lk = Some (match i with None => false | Some _ => true end, i).

Section locks.
#[local] Instance lock_client : Client test_fun test_state ghost :=
  test_client randomYield lock_mutex.

Lemma lk_exists g s :
  test_inv randomYield lock_mutex g s →
  ∃ x, locks s !! lk = Some x ∧ isHeld x = (match inside g with None => false | Some _ => true end)
       ∧ lockHolder x = inside g.
Proof.
  intros (Hm & _). unfold lock_mutex in Hm. rewrite lookup_fmap in Hm.
  destruct (locks s !! lk) as [x|]; [|done]. exists x. split; [done|]. by injection Hm.
Qed.

Lemma cstep_lk t gl s i x' :
  test_inv randomYield lock_mutex gl.2 s → inside gl.2 = None ∨ inside gl.2 = Some t →
  printed gl.2 = false → holding x' = (match i with None => false | Some _ => true end, i) →
  cstep t gl s (MkGhost (entries gl.2) i false (boss gl.2))
    (set_locks (<[lk := x']> (locks s)) s).
Proof.
  intros (_ & Hmx & (y & Hy & Hb) & (He & Hs & Hc & Ht & _ & Hsee) & Htm) Hi Hp Hv.
  split; [done|]. split.
  - split; [|split; [done|split; [|split; [|done]]]]; simpl.
    + unfold lock_mutex. by rewrite lookup_fmap, lookup_insert_eq, <- Hv.
    + eauto.
    + rewrite Hp in Hsee. by split_and!.
  - intros t' Hne. split; [done|]. split; [done|]. split; [|by split].
    intros Hin. destruct Hi as [Hi|Hi]; congruence.
Qed.

Lemma enter_lk t w n gl s (Q : unit → gset tid * ghost → Kernel test_fun test_state → Prop) :
  running t IntOn (W t w n false) gl s →
  (∀ gl' s', running t IntOn (In t w n false) gl' s' → Q tt gl' s') → kwp t (Acquire lk) gl s Q.
Proof.
  intros Hk HQ. eapply (Acquire_ok t lk IntOn (W t w n false) (In t w n false));
    [apply stable_W| | |apply stable_In|exact Hk|exact HQ].
  - intros g s1 (x & Hx & _)%lk_exists. eauto.
  - intros gl1 s1 x [Hi Hw]%running_inv Hx Hv. pose proof (lk_exists _ _ Hi) as (x' & Hx' & Hv' & _).
    simplify_eq. destruct (inside gl1.2) as [t'|] eqn:Ei; [congruence|].
    assert (printed gl1.2 = false) as Hp.
    { destruct Hi as (_ & _ & _ & (_ & _ & _ & _ & Hp & _) & _).
      destruct (printed gl1.2); [|done]. by destruct (Hp eq_refl). }
    exists (MkGhost (entries gl1.2) (Some t) false (boss gl1.2)). split; [|by split].
    apply cstep_lk; [done|by left|done|done].
Qed.

Lemma leave_lk t w n gl s (Q : unit → gset tid * ghost → Kernel test_fun test_state → Prop) :
  running t IntOn (In t w n false) gl s →
  (∀ gl' s', running t IntOn (W t w n false) gl' s' → Q tt gl' s') → kwp t (Release lk) gl s Q.
Proof.
  intros Hk HQ. eapply (Release_ok t lk IntOn (In t w n false) (W t w n false));
    [apply stable_In| | |apply stable_W|exact Hk|exact HQ].
  - intros g s1 (x & Hx & _)%lk_exists. eauto.
  - intros gl1 s1 x [Hi (Hw & Hin & Hp)]%running_inv Hx.
    pose proof (lk_exists _ _ Hi) as (x' & Hx' & _ & Hv'). simplify_eq.
    split; [congruence|].
    exists (MkGhost (entries gl1.2) None false (boss gl1.2)). split; [|done].
    apply cstep_lk; [done|by right|done|done].
Qed.

Lemma Locks_prints n :
  output_ok (prints Locks.SimpleThread n randomYield).1 ∧
  ((prints Locks.SimpleThread n randomYield).2 = None
   ∨ (prints Locks.SimpleThread n randomYield).2 = Some Halted).
Proof.
  replace Locks.SimpleThread with (worker (Acquire lk) (Release lk)) by done.
  apply (worker_prints rand_ok randomYield lock_mutex).
  - done.
  - exact enter_lk.
  - exact leave_lk.
  - done.
Qed.
End locks.
End programs.

(** The two correct programs. *)
Definition synchronized `{!Rand}
    (SimpleThread : Z → code (Kernel test_fun test_state) test_fun unit) : Prop :=
  SimpleThread = Semaphores.SimpleThread ∨ SimpleThread = Locks.SimpleThread.

(** C1.  The programs of HW1_SEMAPHORES and HW1_LOCKS are without
    races for every schedule: whatever numbers [rand()] answers, with or
    without the random timer, after any number of steps, the values of the
    shared variable that were seen are 0, 1, 2, ..., each seen once and in
    order; every final value printed is 25; and no assertion and no pointer
    fails: the simulation can only end by [Halt]. *)
Theorem SimpleThread_safe `{!Rand} (rand_ok : ∀ n, 0 ≤ rand n < 2 ^ 31) SimpleThread n randomYield :
  synchronized SimpleThread →
  let '(events, ending) := prints SimpleThread n randomYield in
  (∀ which val, Final which val ∈ events → val = 25) ∧ (∃ k, seen events = seqZ 0 k)
  ∧ (ending = None ∨ ending = Some Halted).
Proof.
  intros Hs. assert (output_ok (prints SimpleThread n randomYield).1 ∧
    ((prints SimpleThread n randomYield).2 = None
     ∨ (prints SimpleThread n randomYield).2 = Some Halted)) as [[Hf Hseen] He].
  { destruct Hs as [-> | ->]; [by apply Semaphores_prints|by apply Locks_prints]. }
  by destruct (prints SimpleThread n randomYield) as [events ending].
Qed.

(** The stream of numbers of the witnesses. *)
Definition rand_stream : Rand := λ n, Z.of_nat ((n * 37) `mod` 1000).

Lemma SimpleThread_safe_witness :
  let P := @prints rand_stream (@Locks.SimpleThread) 3000 true in
  (∀ n, 0 ≤ rand_stream n < 2 ^ 31)
  ∧ (∀ which val, Final which val ∈ P.1 → val = 25) ∧ (∃ k, seen P.1 = seqZ 0 k)
  ∧ (P.2 = None ∨ P.2 = Some Halted).
Proof.
  assert (∀ n, 0 ≤ rand_stream n < 2 ^ 31) as Hr.
  { intros n. unfold rand_stream. assert ((n * 37) `mod` 1000 < 1000)%nat by (by apply Nat.mod_upper_bound). lia. }
  intros P. split; [exact Hr|].
  pose proof (@SimpleThread_safe rand_stream Hr (@Locks.SimpleThread) 3000 true (or_intror eq_refl)) as H.
  unfold P. destruct (prints _ _ _) as [events ending]. exact H.
Defined.

Definition all_final (p : list event * option fault) : bool :=
  bool_decide (p.2 = Some Halted) &&
  forallb (λ which, existsb (λ e, match e with Final w _ => w =? which | _ => false end) p.1) workers.

(** A run of each program.  Without the timer they finish: all five threads
    get past the barrier and print their final value, and then the machine
    halts, for both programs. *)
Theorem SimpleThread_finishes `{!Rand} SimpleThread :
  synchronized SimpleThread →
  ∃ n events, prints SimpleThread n false = (events, Some Halted)
    ∧ ∀ which, 0 ≤ which < 5 → ∃ val, Final which val ∈ events.
Proof.
  intros Hs. assert (all_final (prints SimpleThread 4000 false) = true) as Hall.
  { destruct Hs as [-> | ->]; vm_compute; reflexivity. }
  exists 4000%nat. destruct (prints SimpleThread 4000 false) as [events ending]. exists events.
  apply andb_true_iff in Hall as [He Hall]. apply bool_decide_eq_true in He.
  simpl in He. subst ending.
  split; [done|]. intros which Hw. rewrite forallb_forall in Hall.
  specialize (Hall which). rewrite existsb_exists in Hall. destruct Hall as (e & Hin & Hx).
  - apply list_elem_of_In. assert (which = 0 ∨ which = 1 ∨ which = 2 ∨ which = 3 ∨ which = 4) by lia.
    unfold workers. set_solver.
  - destruct e; try done. apply Z.eqb_eq in Hx as ->. exists val. by apply list_elem_of_In.
Qed.

Lemma SimpleThread_finishes_witness :
  ∃ n events, @prints rand_stream (@Semaphores.SimpleThread) n false = (events, Some Halted)
    ∧ ∀ which, 0 ≤ which < 5 → ∃ val, Final which val ∈ events.
Proof.
  exact (@SimpleThread_finishes rand_stream (@Semaphores.SimpleThread) (or_introl eq_refl)).
Defined.

(** ** The elevator *)

(** *** The passengers of [main] *)

(** The passengers on board, after each event. *)
Fixpoint on_board (k : Z) (events : list event) : list Z :=
  match events with
  | [] => []
  | GetsIn _ _ _ _ :: l => k + 1 :: on_board (k + 1) l
  | GetsOut _ _ _ _ :: l => k - 1 :: on_board (k - 1) l
  | _ :: l => on_board k l
  end.

Definition is_in (i a t : Z) (e : event) : bool :=
  match e with GetsIn i' a' t' f => (i' =? i) && (a' =? a) && (t' =? t) && (f =? a) | _ => false end.
Definition is_out (i a t : Z) (e : event) : bool :=
  match e with GetsOut i' a' t' f => (i' =? i) && (a' =? a) && (t' =? t) && (f =? t) | _ => false end.

(** Who wants to go is taken where it waits, and then brought where it wants. *)
Fixpoint served (events : list event) : bool :=
  match events with
  | [] => true
  | Wants i a t :: l =>
      (fix wait (l : list event) : bool :=
         match l with
         | [] => false
         | e :: l' => if is_in i a t e then existsb (is_out i a t) l' else wait l'
         end) l && served l
  | _ :: l => served l
  end.

Definition all_wants (events : list event) : list Z :=
  omap (λ e, match e with Wants i _ _ => Some i | _ => None end) events.

Definition delivered (p : list event * option fault) : bool :=
  bool_decide (p.2 = Some Halted) && served p.1
  && forallb (λ k, (0 <=? k) && (k <=? capacity)) (on_board 0 p.1)
  && bool_decide (all_wants p.1 ≡ₚ seqZ 1 21).

(** A run of the program.  The elevator serves all 21 passengers of [main], and then
    the machine halts: every passenger gets in on the floor where it waits,
    later gets out on the floor where it wants to go, and there are never
    more than [capacity] on board. *)
Theorem elevator_delivers `{!Rand} : ∃ n, delivered (elevator_prints n false) = true.
Proof. exists 60000%nat. vm_compute. reflexivity. Qed.
