(* ===== verification/UserDemo.v ===== *)
(** * User programs from their executable to the halt of the machine

    Small MIPS programs in NOFF format run on the whole model: the loader,
    demand paging, the simulated processor, system calls, processes and
    threads.  Two of them show errors of the memory management. *)
From S2P Require Import Prelude Word NList Bitmap Machine Mips Coro Interrupt Threads Synch Directory UserState UnixFs MemoryMgr AddrSpace Pcb Exceptions.

(** An executable: the header, the words of the code, the initialised data. *)
Definition noff_file (code data : list Z) (bss : Z) : list Z :=
  let cs := 4 * zlen code in
  concat (bytes_le 4 <$> [NOFFMAGIC; 0; NoffSize; cs; cs; NoffSize + cs; zlen data;
                          cs + zlen data; 0; bss])
  ++ concat (bytes_le 4 <$> code) ++ data.

(** A host with the executable in the file "a". *)
Definition exe_name : list Z := [97].
Definition host (program : list Z) : Unix :=
  MkUnix {[ exe_name := 1 ]} {[ 1 := program ]} ∅ ∅ [].
Definition runs (n : nat) (program : list Z) : list kevent * option fault :=
  user_prints n (host program) exe_name.

(** The process forks, waits for its child, and prints the byte at 96 and the
    exit value of the child.  The child overwrites this byte, prints it with
    the one that follows, and exits with 7. *)
Definition fork_program : list Z := noff_file
  [0x24040034;   (*  0  addiu $4, $0, 52 *)
   0x24020009;   (*  4  addiu $2, $0, SC_Fork *)
   0xc;          (*  8  syscall *)
   0x00402021;   (* 12  addu $4, $2, $0 *)
   0x24020003;   (* 16  addiu $2, $0, SC_Join *)
   0xc;          (* 20  syscall *)
   0x00404821;   (* 24  addu $9, $2, $0 *)
   0x24040064;   (* 28  addiu $4, $0, 100 *)
   0x24050001;   (* 32  addiu $5, $0, 1 *)
   0x24060001;   (* 36  addiu $6, $0, ConsoleOutput *)
   0x24020007;   (* 40  addiu $2, $0, SC_Write *)
   0x0800001a;   (* 44  j 104 *)
   0;            (* 48  nop *)
   0x24080058;   (* 52  addiu $8, $0, 'X' *)
   0xa0080064;   (* 56  sb $8, 100($0) *)
   0x24040064;   (* 60  addiu $4, $0, 100 *)
   0x24050002;   (* 64  addiu $5, $0, 2 *)
   0x24060001;   (* 68  addiu $6, $0, ConsoleOutput *)
   0x24020007;   (* 72  addiu $2, $0, SC_Write *)
   0xc;          (* 76  syscall *)
   0x24040007;   (* 80  addiu $4, $0, 7 *)
   0x24020001;   (* 84  addiu $2, $0, SC_Exit *)
   0xc;          (* 88  syscall *)
   0; 0;         (* 92  nop *)
   0x4350;       (* 100 the bytes P and C *)
   0xc;          (* 104 syscall *)
   0x01202021;   (* 108 addu $4, $9, $0 *)
   0x24020001;   (* 112 addiu $2, $0, SC_Exit *)
   0xc]          (* 116 syscall *)
  [] 0.

(** A run of one program.  Fork, copy on write, Write, Exit and Join together:
    the parent waits until its child has exited; the child, which shares the page
    with its parent, writes into a copy of its own, so that the parent still
    prints what was there; Join answers the exit value of the child; and then
    the machine halts. *)
Theorem fork_program_runs :
  ∃ n, runs n fork_program
    = ([PageLoaded 0 0 0;
        Invoked 0 SC_Fork; ForkStarted 0 52 9; Invoked 0 SC_Join;
        PageDuplicated 1 0; Invoked 1 SC_Write; ConsolePrint [88; 67]; Invoked 1 SC_Exit; Exited 1 7;
        Invoked 0 SC_Write; ConsolePrint [80]; Invoked 0 SC_Exit; Exited 0 7], Some Halted).
Proof. exists (Z.to_nat 20000). vm_compute. reflexivity. Qed.

(** The process writes a word into each of 40 pages, its address, and then
    reads them all; it exits with 1 if it finds what it wrote. *)
Definition paging_program : list Z := noff_file
  [0x24080400;   (*  0  addiu $8, $0, 1024 *)
   0x240a1800;   (*  4  addiu $10, $0, 6144 *)
   0xad080000;   (*  8  sw $8, 0($8) *)
   0x25080080;   (* 12  addiu $8, $8, 128 *)
   0x150afffd;   (* 16  bne $8, $10, 8 *)
   0;            (* 20  nop *)
   0x24080400;   (* 24  addiu $8, $0, 1024 *)
   0x8d0c0000;   (* 28  lw $12, 0($8) *)
   0x24040000;   (* 32  addiu $4, $0, 0 *)
   0x15880005;   (* 36  bne $12, $8, 60 *)
   0;            (* 40  nop *)
   0x25080080;   (* 44  addiu $8, $8, 128 *)
   0x150afffa;   (* 48  bne $8, $10, 28 *)
   0;            (* 52  nop *)
   0x24040001;   (* 56  addiu $4, $0, 1 *)
   0x24020001;   (* 60  addiu $2, $0, SC_Exit *)
   0xc]          (* 64  syscall *)
  [] 0x1800.

Definition is_swap (e : kevent) : bool := match e with PageSwapped _ _ => true | _ => false end.
Definition swapped_out (events : list kevent) : Z := zlen (List.filter is_swap events).
Definition is_exit (pid val : Z) (e : kevent) : bool :=
  match e with Exited p v => (p =? pid) && (v =? val) | _ => false end.

Lemma is_exit_In pid val events : existsb (is_exit pid val) events = true → Exited pid val ∈ events.
Proof.
  intros (e & Hin & He)%existsb_exists. apply list_elem_of_In. destruct e; try done.
  simpl in He. apply andb_true_iff in He as [?%Z.eqb_eq ?%Z.eqb_eq]. by subst.
Qed.

(** A run of one program.  This process, which uses more pages than the
    machine has frames, finds in every page what it wrote there, although the
    pages are written to the swap file and brought back many times.  (Not every
    process does: [PageIn_loses_data].) *)
Theorem paging_program_runs :
  ∃ n events, runs n paging_program = (events, Some Halted)
    ∧ Exited 0 1 ∈ events ∧ NumPhysPages < swapped_out events.
Proof.
  assert (let '(events, r) := runs (Z.to_nat 200000) paging_program in
    bool_decide (r = Some Halted) && existsb (is_exit 0 1) events &&
    (NumPhysPages <? swapped_out events) = true) as H by (vm_compute; reflexivity).
  exists (Z.to_nat 200000). destruct (runs _ _) as [events r]. exists events.
  apply andb_true_iff in H as [H Hs]. apply andb_true_iff in H as [Hr He].
  apply bool_decide_eq_true in Hr as ->.
  split; [done|]. split; [by apply is_exit_In|by apply Z.ltb_lt].
Qed.

(** ** Errors of the memory management *)

(** Page 1 holds the variable 42 at 128 and an uninitialised one at 132.  The
    process writes the second, reads the first, and exits with it. *)
Definition bss_program : list Z := noff_file
  ([0xac000084;   (*  0  sw $0, 132($0) *)
    0x8c040080;   (*  4  lw $4, 128($0) *)
    0;            (*  8  nop *)
    0x24020001;   (* 12  addiu $2, $0, SC_Exit *)
    0xc]          (* 16  syscall *)
   ++ replicate 27 0) [42; 0; 0; 0] 64.

(** The same when the first variable is read before. *)
Definition bss_program' : list Z := noff_file
  ([0x8c050080;   (*  0  lw $5, 128($0) *)
    0xac000084;   (*  4  sw $0, 132($0) *)
    0x8c040080;   (*  8  lw $4, 128($0) *)
    0;            (* 12  nop *)
    0x24020001;   (* 16  addiu $2, $0, SC_Exit *)
    0xc]          (* 20  syscall *)
   ++ replicate 26 0) [42; 0; 0; 0] 64.

(** [AddrSpace::PageIn] loses initialised data: it decides by
    the address that faulted, not by the page, whether a page is filled with
    zeros; when a page holds the end of the initialised data and the first
    access to it is behind this end, the data read 0 instead of 42. *)
Theorem PageIn_loses_data :
  (∃ n, runs n bss_program
        = ([PageLoaded 0 0 0; ZeroFilledPage 0 1; Invoked 0 SC_Exit; Exited 0 0], Some Halted))
  ∧ (∃ n, runs n bss_program'
        = ([PageLoaded 0 0 0; PageLoaded 0 1 1; Invoked 0 SC_Exit; Exited 0 42], Some Halted)).
Proof. split; exists (Z.to_nat 20000); vm_compute; reflexivity. Qed.

(** The process forks a child, which writes into a page of its own and exits;
    then it writes into 40 pages, and would exit with 1. *)
Definition stale_program : list Z := noff_file
  [0x24040044;   (*  0  addiu $4, $0, 68 *)
   0x24020009;   (*  4  addiu $2, $0, SC_Fork *)
   0xc;          (*  8  syscall *)
   0x00402021;   (* 12  addu $4, $2, $0 *)
   0x24020003;   (* 16  addiu $2, $0, SC_Join *)
   0xc;          (* 20  syscall *)
   0x24080400;   (* 24  addiu $8, $0, 1024 *)
   0x240a1800;   (* 28  addiu $10, $0, 6144 *)
   0xad080000;   (* 32  sw $8, 0($8) *)
   0x25080080;   (* 36  addiu $8, $8, 128 *)
   0x150afffd;   (* 40  bne $8, $10, 32 *)
   0;            (* 44  nop *)
   0x24040001;   (* 48  addiu $4, $0, 1 *)
   0x24020001;   (* 52  addiu $2, $0, SC_Exit *)
   0xc; 0; 0;    (* 56  syscall *)
   0xac000400;   (* 68  sw $0, 1024($0) *)
   0x24040007;   (* 72  addiu $4, $0, 7 *)
   0x24020001;   (* 76  addiu $2, $0, SC_Exit *)
   0xc]          (* 80  syscall *)
  [] 0x1800.

(** [MemoryMgr::ClearPage] frees a frame but leaves noted
    that the process used it.  After a child has exited, its parent's page
    faults make the kernel take this frame from the process that is gone:
    it dereferences a null pointer, and the parent does not finish. *)
Theorem stale_frame_crashes :
  ∃ n events, runs n stale_program = (events, Some NullDeref)
    ∧ Exited 1 7 ∈ events ∧ Exited 0 1 ∉ events.
Proof.
  assert (let '(events, r) := runs (Z.to_nat 200000) stale_program in
    bool_decide (r = Some NullDeref) && existsb (is_exit 1 7) events &&
    forallb (λ e, negb (is_exit 0 1 e)) events = true) as H by (vm_compute; reflexivity).
  exists (Z.to_nat 200000). destruct (runs _ _) as [events r]. exists events.
  apply andb_true_iff in H as [H Hs]. apply andb_true_iff in H as [Hr He].
  apply bool_decide_eq_true in Hr as ->.
  split; [done|]. split; [by apply is_exit_In|]. intros Hin%list_elem_of_In.
  rewrite forallb_forall in Hs. by specialize (Hs _ Hin).
Qed.
