(* ===== verification/VmSpec.v ===== *)
(** * Virtual memory keeps the contents of the pages

    [page_content] is what a process finds in one of its pages, in whatever
    frame or part of the swap file the page is.  Paging out and in keep the
    contents of all pages, whatever happens to the memory between; copy on
    write gives a process its own copy.  The frame that is given up is the one
    that was given out first. *)
From S2P Require Import Prelude Word NList Bitmap Machine Coro Interrupt Threads Synch UserState UnixFs MemoryMgr AddrSpace.

(** ** What is assumed of the files

    [file v p] is what the file holds that is open at [p]; [apart v p q] says
    that the files open at [p] and [q] are not the same. *)
Class FileLaws (V : Type) `{!Files V} := {
  file : V → positive → option (list Z);
  apart : V → positive → positive → Prop;
  uninit_length : ∀ n, 0 ≤ n → zlen (uninit n) = n;
  of_ReadAt_law : ∀ v p bs n pos,
    file v p = Some bs → 0 ≤ n → 0 ≤ pos →
    ∃ v', of_ReadAt p n pos v = Ok (slice (Z.to_nat pos) (Z.to_nat n) bs, v')
          ∧ ∀ q, file v' q = file v q;
  of_WriteAt_law : ∀ v p bs data pos,
    file v p = Some bs → 0 ≤ pos → pos + zlen data ≤ zlen bs →
    ∃ v', of_WriteAt p data pos v = Ok (zlen data, v')
          ∧ file v' p = Some (splice (Z.to_nat pos) data bs)
          ∧ ∀ q, apart v p q → file v' q = file v q
}.

(** The files of the host are such files. *)
Definition unix_file (u : Unix) (p : positive) : option (list Z) :=
  '(fd, _) ← open_files u !! p;
  '(inode, _) ← descriptors u !! fd;
  inodes u !! inode.

Lemma unix_file_inv u p bs :
  unix_file u p = Some bs →
  ∃ fd off inode pos, open_files u !! p = Some (fd, off)
    ∧ descriptors u !! fd = Some (inode, pos) ∧ inodes u !! inode = Some bs.
Proof.
  unfold unix_file. destruct (open_files u !! p) as [[fd off]|]; [|done]. simpl.
  destruct (descriptors u !! fd) as [[inode pos]|] eqn:E; [|done]. simpl. intros H.
  by exists fd, off, inode, pos.
Qed.

(** The file that is open at [p], and whether two are different. *)
Definition unix_inode (u : Unix) (p : positive) : option Z :=
  '(fd, _) ← open_files u !! p;
  '(inode, _) ← descriptors u !! fd;
  Some inode.
Definition unix_apart (u : Unix) (p q : positive) : Prop := unix_inode u p ≠ unix_inode u q.

Lemma unix_file_inode u q : unix_file u q = i ← unix_inode u q; inodes u !! i.
Proof.
  unfold unix_file, unix_inode. destruct (open_files u !! q) as [[fd off]|]; [|done]. simpl.
  by destruct (descriptors u !! fd) as [[inode pos]|].
Qed.

(** Moving the offset of a descriptor changes no file. *)
Lemma unix_inode_seek u fd inode pos pos' q :
  descriptors u !! fd = Some (inode, pos) →
  unix_inode (set_descriptors (<[fd := (inode, pos')]> (descriptors u)) u) q = unix_inode u q.
Proof.
  intros Hd. unfold unix_inode. simpl. destruct (open_files u !! q) as [[fd' off]|]; [|done]. simpl.
  destruct (decide (fd' = fd)) as [->|].
  - by rewrite lookup_insert_eq, Hd.
  - by rewrite lookup_insert_ne.
Qed.
Lemma unix_file_seek u fd inode pos pos' q :
  descriptors u !! fd = Some (inode, pos) →
  unix_file (set_descriptors (<[fd := (inode, pos')]> (descriptors u)) u) q = unix_file u q.
Proof. intros Hd. rewrite !unix_file_inode. by erewrite unix_inode_seek. Qed.

(** [open_file], and then [Lseek] to [pos]. *)
Lemma unix_seek {A} u p bs pos (k : Z → M Unix A) :
  unix_file u p = Some bs → 0 ≤ pos →
  ∃ fd off inode, open_files u !! p = Some (fd, off) ∧ unix_inode u p = Some inode ∧
    let u' := set_descriptors (<[fd := (inode, pos)]> (descriptors u)) u in
    file_of fd u' = Ok (Some (inode, pos, bs), u')
    ∧ (∀ q, unix_file u' q = unix_file u q ∧ unix_inode u' q = unix_inode u q) ∧
    ('(fd, _) ← open_file p; Lseek fd pos 0 ;; k fd) u = k fd u'.
Proof.
  intros (fd & off & inode & pos0 & Hp & Hd & Hi)%unix_file_inv Hpos.
  exists fd, off, inode. split; [done|]. split; [by unfold unix_inode; rewrite Hp; simpl; rewrite Hd|].
  split; [|split].
  - unfold file_of, gets. simpl. rewrite lookup_insert_eq. simpl. by rewrite Hi.
  - intros q. split; [by apply (unix_file_seek _ _ _ pos0)|by apply (unix_inode_seek _ _ _ pos0)].
  - assert (file_of fd u = Ok (Some (inode, pos0, bs), u)) as Hf
      by (unfold file_of, gets; rewrite Hd; simpl; by rewrite Hi).
    unfold open_file, get, lift, deref, mbind, M_bind. rewrite Hp.
    unfold Lseek, unix_lseek, mbind, M_bind. rewrite Hf. rewrite Z.add_0_r. simpl.
    destruct (Z.ltb_spec pos 0); [lia|]. cbn. destruct (Z.leb_spec 0 pos); [|lia]. done.
Qed.

#[export] Program Instance unix_file_laws : FileLaws Unix := { file := unix_file; apart := unix_apart }.
Next Obligation. intros n Hn. unfold zlen. simpl. rewrite length_replicate. lia. Qed.
Next Obligation.
  intros u p bs n pos Hf Hn Hpos.
  destruct (unix_seek u p bs pos (λ fd, ReadPartial fd n) Hf Hpos)
    as (fd & off & inode & _ & _ & Hfo & Hsame & Hrun).
  set (u' := set_descriptors (<[fd := (inode, pos)]> (descriptors u)) u) in *.
  set (data := slice (Z.to_nat pos) (Z.to_nat n) bs).
  exists (set_descriptors (<[fd := (inode, pos + zlen data)]> (descriptors u')) u'). split.
  - simpl. unfold stub_ReadAt. unfold mbind at 1, M_bind at 1. rewrite Hrun.
    unfold ReadPartial, unix_read, mbind, M_bind. rewrite Hfo.
    destruct (Z.ltb_spec n 0); [lia|]. done.
  - intros q. rewrite (unix_file_seek u' fd inode pos); [apply Hsame|]. apply lookup_insert_eq.
Qed.
Next Obligation.
  intros u p bs data pos Hf Hpos Hlen.
  destruct (unix_seek u p bs pos (λ fd, WriteFile fd data (zlen data) ;; mret (zlen data)) Hf Hpos)
    as (fd & off & inode & Hp & Hino & Hfo & Hsame & Hrun).
  set (u' := set_descriptors (<[fd := (inode, pos)]> (descriptors u)) u) in *.
  assert (Z.to_nat pos - length bs = 0)%nat as Hgap by (unfold zlen in Hlen; lia).
  set (u'' := set_inodes (<[inode := splice (Z.to_nat pos) data bs]> (inodes u')) u').
  exists (set_descriptors (<[fd := (inode, pos + zlen data)]> (descriptors u'')) u''). split; [|split].
  - simpl. unfold stub_WriteAt. rewrite Hrun. unfold WriteFile.
    assert (0 ≤ zlen data) by (unfold zlen; lia).
    destruct (Z.ltb_spec (zlen data) 0); [lia|]. rewrite Z.ltb_irrefl. simpl.
    unfold unix_write, mbind, M_bind. rewrite Hfo.
    assert (take (Z.to_nat (zlen data)) data = data) as ->
      by (unfold zlen; rewrite Nat2Z.id; apply firstn_all).
    rewrite Hgap. simpl replicate. rewrite app_nil_r. cbn. by rewrite Z.eqb_refl.
  - simpl. unfold unix_file. simpl. rewrite Hp. simpl. rewrite lookup_insert_eq. simpl.
    by rewrite lookup_insert_eq.
  - intros q Hq. rewrite (unix_file_seek u'' fd inode pos) by apply lookup_insert_eq.
    destruct (Hsame q) as [<- Hq']. rewrite !unix_file_inode.
    change (unix_inode u'' q) with (unix_inode u' q). rewrite Hq'.
    unfold unix_apart in Hq. rewrite Hino in Hq. destruct (unix_inode u q) as [i|]; [|done].
    simpl. apply lookup_insert_ne. congruence.
Qed.

Section vm.
Context {V : Type} `{!Files V, !FileLaws V}.
#[local] Abbreviation U := (UserKernel V).
Implicit Types (u : U) (l : list TranslationEntry) (mem swap : list Z).

(** ** Steps of the kernel state *)

Lemma on_machine_Ok {A} (m : M (Machine (option ExceptionType)) A) u a x :
  m (machine u) = Ok (a, x) → on_machine m u = Ok (a, set_machine x u).
Proof. intros H. unfold on_machine, get, lift, modify, mbind, M_bind. by rewrite H. Qed.

Lemma on_files_Ok {A} (m : M V A) u a x :
  m (files u) = Ok (a, x) → on_files m u = Ok (a, set_files x u).
Proof. intros H. unfold on_files, get, lift, modify, mbind, M_bind. by rewrite H. Qed.

Lemma space_at_Ok u p x : spaces u !! p = Some x → space_at p u = Ok (x, u).
Proof. intros H. unfold space_at, get, lift, deref, mbind, M_bind. by rewrite H. Qed.
Lemma pcb_at_Ok u p x : pcbs u !! p = Some x → pcb_at p u = Ok (x, u).
Proof. intros H. unfold pcb_at, get, lift, deref, mbind, M_bind. by rewrite H. Qed.

Lemma get_page_Ok u t l i e :
  tables (machine u) !! t = Some l → aget l i = Some e → get_page t i u = Ok (e, u).
Proof.
  intros Ht Hi. unfold get_page, get, lift, deref, mbind, M_bind. rewrite Ht.
  unfold aread. by rewrite Hi.
Qed.

Definition with_page (t : positive) l (i : Z) (e : TranslationEntry) u : U :=
  set_machine (with_tables (<[t := <[Z.to_nat i := e]> l]> (tables (machine u))) (machine u)) u.

Lemma put_page_Ok u t l i e :
  tables (machine u) !! t = Some l → 0 ≤ i < zlen l → put_page t i e u = Ok (tt, with_page t l i e u).
Proof.
  intros Ht Hi. unfold put_page, get, lift, deref, mbind, M_bind. rewrite Ht.
  by rewrite awrite_total.
Qed.

Lemma read_frame_Ok u ppn :
  zlen (mainMemory (machine u)) = MemorySize → 0 ≤ ppn < NumPhysPages →
  on_machine (mem_read (ppn * PageSize) (Z.to_nat PageSize)) u
  = Ok (slice (Z.to_nat (ppn * PageSize)) (Z.to_nat PageSize) (mainMemory (machine u)),
        set_machine (machine u) u).
Proof.
  intros Hm Hp. apply on_machine_Ok. unfold mem_read, get, lift, mbind, M_bind. rewrite Hm.
  rewrite (proj2 (Z.leb_le _ _)), (proj2 (Z.leb_le _ _)); [done|..];
    unfold MemorySize, NumPhysPages, PageSize, SectorSize in *; lia.
Qed.

Lemma write_frame_Ok u ppn bs :
  zlen (mainMemory (machine u)) = MemorySize → 0 ≤ ppn < NumPhysPages → zlen bs = PageSize →
  on_machine (mem_write (ppn * PageSize) bs) u
  = Ok (tt, set_machine (with_memory (splice (Z.to_nat (ppn * PageSize)) bs) (machine u)) u).
Proof.
  intros Hm Hp Hb. apply on_machine_Ok. unfold mem_write, get, modify, mbind, M_bind.
  rewrite Hm, Hb. unfold MemorySize, NumPhysPages, PageSize, SectorSize in *.
  destruct (Z.leb_spec 0 (ppn * 128)); [|lia].
  destruct (Z.leb_spec (ppn * 128 + 128) (32 * 128)); [done|lia].
Qed.

(** ** The pages of a process *)

(** The bytes of frame (or of page of the swap file) [i]. *)
Definition block (i : Z) (bytes : list Z) : list Z :=
  slice (Z.to_nat (i * PageSize)) (Z.to_nat PageSize) bytes.

Definition page_content mem swap l (vpn : Z) : option (list Z) :=
  e ← aget l vpn;
  Some (if valid e then block (physicalPage e) mem else block vpn swap).

(** Pages that are in are in frames of their own. *)
Definition table_ok l : Prop :=
  (∀ i e, aget l i = Some e →
     if valid e then 0 ≤ physicalPage e < NumPhysPages else physicalPage e = -1)
  ∧ ∀ i j e e', aget l i = Some e → aget l j = Some e' → valid e = true →
     physicalPage e = physicalPage e' → i = j.

(** The space at [sp]: its fields [a], its swap file and its page table. *)
Definition space_ok u (sp : positive) (a : AddrSpace) swap l : Prop :=
  spaces u !! sp = Some a ∧ is_Some (pcbs u !! thisPCB a)
  ∧ (∃ f, swapfile a = Some f ∧ file (files u) f = Some swap)
  ∧ zlen swap = numPages a * PageSize
  ∧ tables (machine u) !! pageTable_ a = Some l ∧ zlen l = numPages a
  ∧ zlen (mainMemory (machine u)) = MemorySize ∧ table_ok l.

(** The process [sp] is as well off in [u'] as in [u]. *)
Definition kept u u' (sp : positive) (a : AddrSpace) swap l : Prop :=
  space_ok u' sp a swap l
  ∧ ∀ i, page_content (mainMemory (machine u')) swap l i
         = page_content (mainMemory (machine u)) swap l i.

(** Between [u] and [u'] the page table [t] may have changed, but no other, no
    frame that [fs] names and no file that [ps] names. *)
Definition changes u u' (t : positive) (fs : Z → Prop) (ps : positive → Prop) : Prop :=
  spaces u' = spaces u ∧ pcbs u' = pcbs u
  ∧ (∀ t', t' ≠ t → tables (machine u') !! t' = tables (machine u) !! t')
  ∧ zlen (mainMemory (machine u')) = MemorySize
  ∧ (∀ k, 0 ≤ k < NumPhysPages → fs k →
       block k (mainMemory (machine u')) = block k (mainMemory (machine u)))
  ∧ ∀ q, ps q → file (files u') q = file (files u) q.

Lemma changes_kept u u' t fs ps sp a swap l :
  changes u u' t fs ps → space_ok u sp a swap l → pageTable_ a ≠ t →
  (∀ j x, aget l j = Some x → fs (physicalPage x)) →
  (∀ f, swapfile a = Some f → ps f) →
  kept u u' sp a swap l.
Proof.
  intros (Esp & Epc & Et & Hm & Hb & Hq) (Ha & Hpcb & (f & Hf & Hfile) & Hswap & Ht & Hl & _ & Hok) Hne Hfs Hps.
  split.
  - split; [by rewrite Esp|]. split; [by rewrite Epc|]. split; [exists f; by rewrite Hq by auto|].
    split; [done|]. split; [by rewrite Et|]. done.
  - intros i. destruct Hok as [H1 _]. unfold page_content.
    destruct (aget l i) as [x|] eqn:Ex; [|done]. simpl. f_equal. destruct (valid x) eqn:Ev; [|done].
    specialize (H1 i x Ex). rewrite Ev in H1. apply Hb; [done|]. by apply (Hfs i).
Qed.

Lemma zlen_splice (n : nat) (bs l : list Z) :
  (n + length bs ≤ length l)%nat → zlen (splice n bs l) = zlen l.
Proof. intros H. unfold zlen. by rewrite length_splice. Qed.

Lemma block_splice_eq i bs mem :
  0 ≤ i → (i + 1) * PageSize ≤ zlen mem → zlen bs = PageSize →
  block i (splice (Z.to_nat (i * PageSize)) bs mem) = bs.
Proof.
  unfold block, zlen, PageSize, SectorSize. intros Hi Hl Hb.
  replace (Z.to_nat 128) with (length bs) by lia. apply slice_splice_eq. lia.
Qed.

Lemma block_splice_ne i j bs mem :
  0 ≤ i → 0 ≤ j → i ≠ j → (i + 1) * PageSize ≤ zlen mem → (j + 1) * PageSize ≤ zlen mem →
  zlen bs = PageSize → block j (splice (Z.to_nat (i * PageSize)) bs mem) = block j mem.
Proof.
  unfold block, zlen, PageSize, SectorSize. intros Hi Hj Hne Hl Hl' Hb. apply slice_splice_ne; lia.
Qed.

Lemma zlen_block i mem : 0 ≤ i → (i + 1) * PageSize ≤ zlen mem → zlen (block i mem) = PageSize.
Proof. unfold block, zlen, PageSize, SectorSize. intros Hi Hl. rewrite length_slice; lia. Qed.

(** The page that is in a frame is found. *)
Lemma find_frame_Ok u t l ppn n i vpn e :
  tables (machine u) !! t = Some l → aget l vpn = Some e → physicalPage e = ppn →
  (∀ j e', aget l j = Some e' → physicalPage e' = ppn → j = vpn) →
  0 ≤ i ≤ vpn → vpn < i + Z.of_nat n → i + Z.of_nat n = zlen l →
  find_frame n t ppn i u = Ok (vpn, u).
Proof.
  intros Ht Hv Hp Hinj. revert i. induction n as [|n IH]; intros i Hi Hlt Hn; [lia|].
  destruct (aread_total l i ltac:(lia)) as (x & _ & Hx). simpl.
  rewrite (M_bind_step _ _ _ _ _ (get_page_Ok _ _ _ _ _ Ht Hx)).
  destruct (Z.eqb_spec (physicalPage x) ppn) as [Ex|Ex].
  - by rewrite (Hinj _ _ Hx Ex).
  - apply IH; [|lia|lia]. destruct (decide (i = vpn)) as [->|]; [|lia]. by simplify_eq.
Qed.

Lemma table_ok_update l vpn e e' :
  table_ok l → aget l vpn = Some e →
  (if valid e' then 0 ≤ physicalPage e' < NumPhysPages
                    ∧ ∀ j x, aget l j = Some x → j ≠ vpn → physicalPage x ≠ physicalPage e'
   else physicalPage e' = -1) →
  table_ok (<[Z.to_nat vpn := e']> l).
Proof.
  intros [H1 H2] Hv He. pose proof (aget_Some_lt _ _ _ Hv) as Hr. split.
  - intros i x. rewrite aget_insert by done. case_decide as Hd; [|apply H1].
    intros [= <-]. destruct (valid e'); [by destruct He|done].
  - intros i j x y. rewrite !aget_insert by done. case_decide as Hi; case_decide as Hj.
    + congruence.
    + intros [= <-] Hy Hx Heq. rewrite Hx in He. destruct He as [_ He].
      by destruct (He j y Hy (not_eq_sym Hj)).
    + intros Hx [= <-] Hval Heq. destruct (valid e') eqn:Ev.
      * destruct He as [_ He]. by destruct (He i x Hx (not_eq_sym Hi)).
      * specialize (H1 i x Hx). rewrite Hval in H1. unfold NumPhysPages in H1. lia.
    + intros Hx Hy. by apply H2.
Qed.

(** ** Paging out *)

Lemma PageOut_spec u sp a swap l vpn e :
  space_ok u sp a swap l → aget l vpn = Some e → valid e = true →
  dirty e = true ∨ block vpn swap = block (physicalPage e) (mainMemory (machine u)) →
  ∃ u' swap' l', PageOut sp (physicalPage e) u = Ok (tt, u') ∧ space_ok u' sp a swap' l'
    ∧ mainMemory (machine u') = mainMemory (machine u)
    ∧ (∃ e', aget l' vpn = Some e' ∧ valid e' = false ∧ zeroFilled e' = zeroFilled e)
    ∧ (∀ i, page_content (mainMemory (machine u)) swap' l' i
            = page_content (mainMemory (machine u)) swap l i)
    ∧ changes u u' (pageTable_ a) (λ _, True) (λ q, ∀ f, swapfile a = Some f → apart (files u) f q).
Proof.
  intros (Ha & [pcb Hpcb] & (f & Hf & Hfile) & Hswap & Ht & Hl & Hmem & Hok) Hv Hval Hd.
  pose proof (aget_Some_lt _ _ _ Hv) as Hr. pose proof Hok as [H1 H2].
  pose proof (H1 _ _ Hv) as Hp. rewrite Hval in Hp.
  set (mem := mainMemory (machine u)) in *. set (ppn := physicalPage e) in *.
  set (e' := TE (virtualPage e) (-1) false false (use e) (dirty e) (zeroFilled e)).
  set (l' := <[Z.to_nat vpn := e']> l).
  assert (find_frame (Z.to_nat (numPages a)) (pageTable_ a) ppn 0 u = Ok (vpn, u)) as Hfind.
  { apply (find_frame_Ok u _ l ppn _ 0 vpn e); try done; [|lia|lia|lia].
    intros j x Hx Heq. symmetry. by apply (H2 vpn j e x). }
  assert (table_ok l') as Hok' by (by apply (table_ok_update l vpn e)).
  assert (zlen l' = numPages a) as Hl' by (unfold l'; by rewrite zlen_insert).
  assert (∀ swap', block vpn swap' = block ppn mem → zlen swap' = zlen swap →
     (∀ j, 0 ≤ j < numPages a → j ≠ vpn → block j swap' = block j swap) →
     ∀ i, page_content mem swap' l' i = page_content mem swap l i) as Hcontent.
  { intros swap' Hvpn Hlen Hoth i. unfold page_content, l'. rewrite aget_insert by done.
    case_decide as Hi.
    - subst i. rewrite Hv. simpl. by rewrite Hval, Hvpn.
    - destruct (aget l i) as [x|] eqn:Ex; [|done]. simpl. f_equal. destruct (valid x); [done|].
      apply aget_Some_lt in Ex. apply Hoth; [lia|done]. }
  unfold PageOut. rewrite (M_bind_step _ _ _ _ _ (space_at_Ok _ _ _ Ha)).
  rewrite (M_bind_step _ _ _ _ _ (pcb_at_Ok _ _ _ Hpcb)).
  rewrite (M_bind_step _ _ _ _ _ Hfind).
  rewrite (M_bind_step _ _ _ _ _ (get_page_Ok _ _ _ _ _ Ht Hv)).
  destruct (dirty e) eqn:Ed.
  - assert (zlen (block ppn mem) = PageSize) as Hbl
      by (apply zlen_block; [lia|]; rewrite Hmem; unfold MemorySize, NumPhysPages, PageSize, SectorSize in *; lia).
    assert (vpn * PageSize + zlen (block ppn mem) ≤ zlen swap) as Hfit
      by (rewrite Hbl, Hswap; unfold PageSize, SectorSize; lia).
    destruct (of_WriteAt_law (files u) f swap (block ppn mem) (vpn * PageSize) Hfile)
      as (v' & Hw & Hfile' & Hother); [unfold PageSize, SectorSize; lia|done|].
    set (swap' := splice (Z.to_nat (vpn * PageSize)) (block ppn mem) swap) in *.
    set (u1 := set_files v' (set_machine (machine u) u)).
    set (u2 := set_printed (PageSwapped (PID pcb) ppn :: kprinted u1) u1).
    exists (with_page (pageTable_ a) l vpn e' u2), swap', l'. split; [|split; [|split; [|split; [|split]]]].
    + erewrite M_bind_step; [apply (put_page_Ok u2 _ l); [exact Ht|exact Hr]|].
      rewrite (M_bind_step _ _ _ _ _ (read_frame_Ok u ppn Hmem Hp)). rewrite Hf.
      rewrite (M_bind_step _ _ _ f _ eq_refl).
      by rewrite (M_bind_step _ _ _ _ _ (on_files_Ok _ (set_machine (machine u) u) _ _ Hw)).
    + assert (zlen swap' = zlen swap) as Hz.
      { unfold swap'. apply zlen_splice. unfold zlen, PageSize, SectorSize in *. lia. }
      split; [done|]. split; [eauto|]. split; [by exists f|]. split; [by rewrite Hz|].
      split; [apply lookup_insert_eq|]. by split.
    + done.
    + exists e'. split; [by apply aget_insert_eq|done].
    + apply Hcontent.
      * apply block_splice_eq; [lia| |done]. rewrite Hswap. unfold PageSize, SectorSize. lia.
      * apply zlen_splice. unfold zlen, PageSize, SectorSize in *. lia.
      * intros j Hj Hne. apply block_splice_ne; try done; try lia; rewrite Hswap; unfold PageSize, SectorSize; lia.
    + split_and!; try done; [intros t Hne; by apply lookup_insert_ne|]. intros q Hq. apply Hother. by apply Hq.
  - destruct Hd as [?|Hclean]; [done|].
    set (u2 := set_printed (PageEvicted (PID pcb) ppn :: kprinted u) u).
    exists (with_page (pageTable_ a) l vpn e' u2), swap, l'. split; [|split; [|split; [|split; [|split]]]].
    + erewrite M_bind_step; [apply (put_page_Ok u2 _ l); [exact Ht|exact Hr]|]. done.
    + split; [done|]. split; [eauto|]. split; [by exists f|]. split; [done|].
      split; [apply lookup_insert_eq|]. by split.
    + done.
    + exists e'. split; [by apply aget_insert_eq|done].
    + by apply Hcontent.
    + split_and!; try done. intros t Hne. by apply lookup_insert_ne.
Qed.

(** ** Paging in *)

(** The first access to a page behind the end of the initialised data. *)
Definition zero_fill (a : AddrSpace) (e : TranslationEntry) (virtAddr : Z) : bool :=
  (u32 (CodeDataSize a + CodeDataVirtAddr a) <=? u32 virtAddr) && negb (zeroFilled e).

(** What [page_content] is after one page and one frame have changed. *)
Lemma page_content_update mem mem' swap l vpn e e' ppn :
  table_ok l → aget l vpn = Some e → zlen mem = MemorySize → 0 ≤ ppn < NumPhysPages →
  (∀ j x, aget l j = Some x → j ≠ vpn → physicalPage x ≠ ppn) →
  (∀ k, 0 ≤ k < NumPhysPages → k ≠ ppn → block k mem' = block k mem) →
  ∀ i, i ≠ vpn →
    page_content mem' swap (<[Z.to_nat vpn := e']> l) i = page_content mem swap l i.
Proof.
  intros [H1 _] Hv Hm Hp Hfree Hoth i Hi. pose proof (aget_Some_lt _ _ _ Hv) as Hr.
  unfold page_content. rewrite aget_insert_ne by lia.
  destruct (aget l i) as [x|] eqn:Ex; [|done]. simpl. f_equal. destruct (valid x) eqn:Ev; [|done].
  specialize (H1 i x Ex). rewrite Ev in H1. apply Hoth; [done|]. by apply (Hfree i).
Qed.

Lemma frame_bounds mem ppn :
  zlen mem = MemorySize → 0 ≤ ppn < NumPhysPages → (ppn + 1) * PageSize ≤ zlen mem.
Proof. intros ->. unfold MemorySize, NumPhysPages, PageSize, SectorSize. lia. Qed.

Lemma frames_splice mem ppn bs :
  zlen mem = MemorySize → 0 ≤ ppn < NumPhysPages → zlen bs = PageSize →
  let mem' := splice (Z.to_nat (ppn * PageSize)) bs mem in
  zlen mem' = MemorySize ∧ block ppn mem' = bs
  ∧ ∀ k, 0 ≤ k < NumPhysPages → k ≠ ppn → block k mem' = block k mem.
Proof.
  intros Hm Hp Hb mem'. pose proof (frame_bounds mem ppn Hm Hp). split; [|split].
  - unfold mem'. rewrite zlen_splice; [done|]. unfold zlen, PageSize, SectorSize in *. lia.
  - apply block_splice_eq; [lia|done|done].
  - intros k Hk Hne. apply block_splice_ne; try done; try lia. by apply frame_bounds.
Qed.

Lemma PageIn_spec u sp a swap l vpn e virtAddr ppn :
  space_ok u sp a swap l → aget l vpn = Some e → valid e = false →
  0 ≤ ppn < NumPhysPages → (∀ j x, aget l j = Some x → physicalPage x ≠ ppn) →
  ∃ u' l', (map_page sp vpn ppn ;; fill_frame sp virtAddr vpn ppn) u = Ok (tt, u')
    ∧ space_ok u' sp a swap l'
    ∧ (∃ e', aget l' vpn = Some e' ∧ valid e' = true ∧ physicalPage e' = ppn
             ∧ zeroFilled e' = zeroFilled e || zero_fill a e virtAddr)
    ∧ page_content (mainMemory (machine u')) swap l' vpn
      = (if zero_fill a e virtAddr then Some (replicate (Z.to_nat PageSize) 0)
         else page_content (mainMemory (machine u)) swap l vpn)
    ∧ (∀ i, i ≠ vpn → page_content (mainMemory (machine u')) swap l' i
                      = page_content (mainMemory (machine u)) swap l i)
    ∧ changes u u' (pageTable_ a) (λ k, k ≠ ppn) (λ _, True).
Proof.
  intros (Ha & [pcb Hpcb] & (f & Hf & Hfile) & Hswap & Ht & Hl & Hmem & Hok) Hv Hval Hp Hfree.
  pose proof (aget_Some_lt _ _ _ Hv) as Hr.
  set (mem := mainMemory (machine u)) in *.
  set (e1 := TE vpn ppn true false (use e) (dirty e) (zeroFilled e)).
  set (l1 := <[Z.to_nat vpn := e1]> l). set (u1 := with_page (pageTable_ a) l vpn e1 u).
  assert (map_page sp vpn ppn u = Ok (tt, u1)) as Hmap.
  { unfold map_page. rewrite (M_bind_step _ _ _ _ _ (space_at_Ok _ _ _ Ha)).
    rewrite (M_bind_step _ _ _ _ _ (get_page_Ok _ _ _ _ _ Ht Hv)). by apply put_page_Ok. }
  assert (tables (machine u1) !! pageTable_ a = Some l1) as Ht1 by apply lookup_insert_eq.
  assert (aget l1 vpn = Some e1) as Hv1 by (by apply aget_insert_eq).
  assert (zlen l1 = numPages a) as Hl1 by (unfold l1; by rewrite zlen_insert).
  assert (0 ≤ vpn < zlen l1) as Hr1 by lia.
  assert (∀ e', physicalPage e' = ppn → valid e' = true → table_ok (<[Z.to_nat vpn := e']> l)) as Hok'.
  { intros e' Ep Ev. apply (table_ok_update l vpn e); [done|done|]. rewrite Ev, Ep.
    split; [done|]. intros j x Hx _. by apply (Hfree j). }
  assert (∀ e' mem', physicalPage e' = ppn → valid e' = true →
      page_content mem' swap (<[Z.to_nat vpn := e']> l) vpn = Some (block ppn mem')) as Hpc.
  { intros e' mem' Ep Ev. unfold page_content. rewrite aget_insert_eq by done. simpl. by rewrite Ev, Ep. }
  rewrite (M_bind_step _ _ _ _ _ Hmap). unfold fill_frame.
  rewrite (M_bind_step _ _ u1 _ _ (space_at_Ok u1 _ _ Ha)).
  rewrite (M_bind_step _ _ u1 _ _ (pcb_at_Ok u1 _ _ Hpcb)).
  rewrite (M_bind_step _ _ _ _ _ (get_page_Ok u1 _ _ _ _ Ht1 Hv1)).
  change (zeroFilled e1) with (zeroFilled e). fold (zero_fill a e virtAddr).
  set (zeros := replicate (Z.to_nat PageSize) 0).
  assert (zlen zeros = PageSize) as Hz by (unfold zeros, zlen; by rewrite length_replicate).
  destruct (frames_splice mem ppn zeros Hmem Hp Hz) as (Hm2 & Hb2 & Ho2).
  destruct (zero_fill a e virtAddr) eqn:Ez.
  - set (u2 := set_machine (with_memory (splice (Z.to_nat (ppn * PageSize)) zeros) (machine u1)) u1).
    set (e3 := TE vpn ppn true false (use e) (dirty e) true).
    set (u3 := with_page (pageTable_ a) l1 vpn e3 u2).
    exists (set_printed (ZeroFilledPage (PID pcb) vpn :: kprinted u3) u3), (<[Z.to_nat vpn := e3]> l).
    split; [|split; [|split; [|split; [|split]]]].
    + rewrite (M_bind_step _ _ _ _ _ (write_frame_Ok u1 ppn zeros Hmem Hp Hz)).
      rewrite (M_bind_step _ _ _ _ _ (put_page_Ok u2 _ l1 vpn e3 Ht1 Hr1)).
      done.
    + split; [done|]. split; [eauto|]. split; [by exists f|]. split; [done|].
      split; [|split; [by rewrite zlen_insert|split; [done|by apply Hok']]].
      unfold u3, with_page, l1. simpl. rewrite lookup_insert_eq. by rewrite list_insert_insert_eq.
    + exists e3. split; [by apply aget_insert_eq|]. split; [done|]. split; [done|]. by rewrite orb_true_r.
    + rewrite Hpc by done. by rewrite <- Hb2.
    + intros i Hi. apply (page_content_update mem _ _ _ _ e _ ppn); try done.
      intros j x Hx _. by apply (Hfree j).
    + split_and!; try done. intros t Hne. simpl. rewrite !lookup_insert_ne by done. done.
  - destruct (of_ReadAt_law (files u) f swap PageSize (vpn * PageSize) Hfile)
      as (v' & Hread & Hsame); [done|unfold PageSize, SectorSize; lia|].
    change (slice _ _ swap) with (block vpn swap) in Hread.
    assert (zlen (block vpn swap) = PageSize) as Hbl.
    { apply zlen_block; [lia|]. rewrite Hswap. unfold PageSize, SectorSize. lia. }
    assert (take (Z.to_nat PageSize) (splice 0 (block vpn swap) (uninit PageSize)) = block vpn swap) as Htake.
    { unfold splice. simpl. apply take_app_length'. unfold zlen in Hbl. lia. }
    assert (read_into PageSize (block vpn swap) (uninit PageSize)
            = Ok (splice 0 (block vpn swap) (uninit PageSize))) as Hinto.
    { unfold read_into. rewrite Hbl, uninit_length by done. by rewrite Z.ltb_irrefl. }
    destruct (frames_splice _ ppn (block vpn swap) Hm2 Hp Hbl) as (Hm3 & Hb3 & Ho3).
    set (u2 := set_files v' u1).
    set (u3 := set_machine (with_memory (splice (Z.to_nat (ppn * PageSize)) zeros) (machine u2)) u2).
    set (u4 := set_machine (with_memory (splice (Z.to_nat (ppn * PageSize)) (block vpn swap))
                              (machine u3)) u3).
    exists (set_printed (PageLoaded (PID pcb) vpn ppn :: kprinted u4) u4), l1.
    split; [|split; [|split; [|split; [|split]]]].
    + rewrite Hf, (M_bind_step _ _ _ f _ eq_refl).
      rewrite (M_bind_step _ _ _ _ _ (on_files_Ok _ u1 _ _ Hread)).
      rewrite Hinto, (M_bind_step _ _ _ (splice 0 (block vpn swap) (uninit PageSize)) _ eq_refl).
      rewrite (M_bind_step _ _ _ _ _ (write_frame_Ok u2 ppn zeros Hmem Hp Hz)), Htake.
      by rewrite (M_bind_step _ _ _ _ _ (write_frame_Ok u3 ppn (block vpn swap) Hm2 Hp Hbl)).
    + split; [done|]. split; [eauto|]. split; [exists f; split; [done|]; simpl; by rewrite Hsame|].
      split; [done|]. split; [done|]. split; [done|]. split; [done|by apply Hok'].
    + exists e1. split; [done|]. split; [done|]. split; [done|]. by rewrite orb_false_r.
    + unfold l1. rewrite Hpc by done. unfold page_content. rewrite Hv. simpl. rewrite Hval.
      f_equal. exact Hb3.
    + intros i Hi. apply (page_content_update mem _ _ _ _ e _ ppn); try done.
      * intros j x Hx _. by apply (Hfree j).
      * intros k Hk Hne. simpl. rewrite Ho3 by done. by apply Ho2.
    + split_and!; try done.
      * intros t Hne. by apply lookup_insert_ne.
      * intros k Hk Hne. simpl. rewrite Ho3 by done. by apply Ho2.
Qed.

(** ** Copy on write *)

Lemma copy_page_spec u sp a swap l vpn e ppn :
  space_ok u sp a swap l → aget l vpn = Some e → valid e = true →
  0 ≤ ppn < NumPhysPages → (∀ j x, aget l j = Some x → physicalPage x ≠ ppn) →
  ∃ u' l', copy_page sp vpn ppn u = Ok (physicalPage e, u') ∧ space_ok u' sp a swap l'
    ∧ (∃ e', aget l' vpn = Some e' ∧ valid e' = true ∧ readOnly e' = false ∧ physicalPage e' = ppn)
    ∧ (∀ i, page_content (mainMemory (machine u')) swap l' i
            = page_content (mainMemory (machine u)) swap l i)
    ∧ changes u u' (pageTable_ a) (λ k, k ≠ ppn) (λ _, True).
Proof.
  intros (Ha & [pcb Hpcb] & (f & Hf & Hfile) & Hswap & Ht & Hl & Hmem & Hok) Hv Hval Hp Hfree.
  pose proof (aget_Some_lt _ _ _ Hv) as Hr. pose proof Hok as [H1 _].
  pose proof (H1 _ _ Hv) as Ho. rewrite Hval in Ho.
  set (mem := mainMemory (machine u)) in *. set (oppn := physicalPage e) in *.
  assert (s32 ppn = ppn) as Hs by (apply s32_id; unfold in_s32, NumPhysPages in *; lia).
  set (e1 := TE (virtualPage e) (s32 ppn) (valid e) false (use e) (dirty e) (zeroFilled e)).
  set (l1 := <[Z.to_nat vpn := e1]> l). set (u1 := with_page (pageTable_ a) l vpn e1 u).
  assert (zlen (block oppn mem) = PageSize) as Hbl by (apply zlen_block; [lia|by apply frame_bounds]).
  destruct (frames_splice mem ppn (block oppn mem) Hmem Hp Hbl) as (Hm2 & Hb2 & Ho2).
  set (u2 := set_machine (machine u1) u1).
  set (u3 := set_machine (with_memory (splice (Z.to_nat (ppn * PageSize)) (block oppn mem))
                            (machine u2)) u2).
  exists u3, l1. split; [|split; [|split; [|split]]].
  - unfold copy_page. rewrite (M_bind_step _ _ _ _ _ (space_at_Ok _ _ _ Ha)).
    rewrite (M_bind_step _ _ _ _ _ (get_page_Ok _ _ _ _ _ Ht Hv)).
    rewrite (M_bind_step _ _ _ _ _ (put_page_Ok u _ l vpn e1 Ht Hr)).
    rewrite (M_bind_step _ _ _ _ _ (read_frame_Ok u1 oppn Hmem Ho)).
    change (slice _ _ _) with (block oppn mem).
    by rewrite (M_bind_step _ _ _ _ _ (write_frame_Ok u2 ppn (block oppn mem) Hmem Hp Hbl)).
  - split; [done|]. split; [eauto|]. split; [by exists f|]. split; [done|].
    split; [apply lookup_insert_eq|]. split; [unfold l1; by rewrite zlen_insert|]. split; [done|].
    apply (table_ok_update l vpn e); [done|done|]. simpl. rewrite Hval, Hs.
    split; [done|]. intros j x Hx _. by apply (Hfree j).
  - exists e1. split; [by apply aget_insert_eq|done].
  - intros i. destruct (decide (i = vpn)) as [->|Hi].
    + unfold page_content, l1. rewrite aget_insert_eq by done. rewrite Hv. simpl.
      rewrite Hval, Hs. f_equal. exact Hb2.
    + apply (page_content_update mem _ _ _ _ e _ ppn); try done. intros j x Hx _. by apply (Hfree j).
  - split_and!; try done. intros t Hne. by apply lookup_insert_ne.
Qed.

(** ** The claims *)

(** C5.  A page that is paged out is not lost.  It is either dirty,
    or still what the swap file has; then paging it out changes the contents
    of no page of the process, and of no page of another process whose swap
    file is another file.  Whatever happens to the memory afterwards, as long
    as its swap file and its page table are left alone, bringing it in again,
    into any frame that is free for the process, gives back the contents that
    it had; it changes the contents of no other page of the process, of no
    other frame, and of no page of another process that does not use the
    frame.  The last condition of paging in, that the page was filled before
    or is not behind the initialised data, says that the handler does not fill
    it with zeros. *)
Theorem page_survives u sp a swap l vpn e :
  space_ok u sp a swap l → aget l vpn = Some e → valid e = true →
  dirty e = true ∨ block vpn swap = block (physicalPage e) (mainMemory (machine u)) →
  ∃ u1 swap1 l1, PageOut sp (physicalPage e) u = Ok (tt, u1) ∧ space_ok u1 sp a swap1 l1
    ∧ (∀ i, page_content (mainMemory (machine u1)) swap1 l1 i
            = page_content (mainMemory (machine u)) swap l i)
    ∧ (∀ sp2 a2 swap2 l2, space_ok u sp2 a2 swap2 l2 → pageTable_ a2 ≠ pageTable_ a →
         (∀ f f2, swapfile a = Some f → swapfile a2 = Some f2 → apart (files u) f f2) →
         kept u u1 sp2 a2 swap2 l2)
    ∧ ∀ (u2 : U) virtAddr ppn,
        space_ok u2 sp a swap1 l1 → 0 ≤ ppn < NumPhysPages →
        (∀ j x, aget l1 j = Some x → physicalPage x ≠ ppn) →
        zeroFilled e = true ∨ u32 virtAddr < u32 (CodeDataSize a + CodeDataVirtAddr a) →
        ∃ u3 l3, (map_page sp vpn ppn ;; fill_frame sp virtAddr vpn ppn) u2 = Ok (tt, u3)
          ∧ space_ok u3 sp a swap1 l3
          ∧ page_content (mainMemory (machine u3)) swap1 l3 vpn
            = page_content (mainMemory (machine u)) swap l vpn
          ∧ (∀ i, i ≠ vpn → page_content (mainMemory (machine u3)) swap1 l3 i
                            = page_content (mainMemory (machine u2)) swap1 l1 i)
          ∧ (∀ k, 0 ≤ k < NumPhysPages → k ≠ ppn →
               block k (mainMemory (machine u3)) = block k (mainMemory (machine u2)))
          ∧ ∀ sp2 a2 swap2 l2, space_ok u2 sp2 a2 swap2 l2 → pageTable_ a2 ≠ pageTable_ a →
              (∀ j x, aget l2 j = Some x → physicalPage x ≠ ppn) →
              kept u2 u3 sp2 a2 swap2 l2.
Proof.
  intros Hs Hv Hval Hd.
  destruct (PageOut_spec u sp a swap l vpn e Hs Hv Hval Hd)
    as (u1 & swap1 & l1 & H1 & Hs1 & Hm1 & (e1 & Hv1 & Hval1 & Hz1) & Hc1 & Hch1).
  exists u1, swap1, l1. rewrite Hm1. split; [done|]. split; [done|]. split; [done|]. split.
  { intros sp2 a2 swap2 l2 Hs2 Hne Hap. apply (changes_kept _ _ _ _ _ _ _ _ _ Hch1); try done.
    intros f2 Hf2 f Hf. by apply Hap. }
  intros u2 virtAddr ppn Hs2 Hp Hfree Hz.
  destruct (PageIn_spec u2 sp a swap1 l1 vpn e1 virtAddr ppn Hs2 Hv1 Hval1 Hp Hfree)
    as (u3 & l3 & H3 & Hs3 & _ & Hc3 & Hoth & Hch3).
  exists u3, l3. split; [done|]. split; [done|]. rewrite Hc3. split; [|split; [done|split]].
  - assert (zero_fill a e1 virtAddr = false) as ->.
    { unfold zero_fill. rewrite Hz1. destruct Hz as [-> | Hlt]; [apply andb_false_r|].
      by rewrite (proj2 (Z.leb_gt _ _) Hlt). }
    rewrite <- (Hc1 vpn). unfold page_content. rewrite Hv1. simpl. by rewrite Hval1.
  - by destruct Hch3 as (_ & _ & _ & _ & Hb & _).
  - intros sp2 a2 swap2 l2 Hs2' Hne Hf2. by apply (changes_kept _ _ _ _ _ _ _ _ _ Hch3).
Qed.

(** C6.  Copy on write: the process that wrote to a shared page gets
    the frame [ppn] for itself, with the bytes of the page, and may write to it;
    its own pages keep their contents, and another process, which shares any
    of its other frames, keeps the contents of all its pages. *)
Theorem copy_page_isolates u sp a swap l vpn e ppn sp2 a2 swap2 l2 :
  space_ok u sp a swap l → aget l vpn = Some e → valid e = true →
  space_ok u sp2 a2 swap2 l2 → pageTable_ a2 ≠ pageTable_ a →
  0 ≤ ppn < NumPhysPages →
  (∀ j x, aget l j = Some x → physicalPage x ≠ ppn) →
  (∀ j x, aget l2 j = Some x → physicalPage x ≠ ppn) →
  ∃ u' l', copy_page sp vpn ppn u = Ok (physicalPage e, u')
    ∧ space_ok u' sp a swap l' ∧ space_ok u' sp2 a2 swap2 l2
    ∧ (∃ e', aget l' vpn = Some e' ∧ valid e' = true ∧ readOnly e' = false ∧ physicalPage e' = ppn)
    ∧ (∀ i, page_content (mainMemory (machine u')) swap l' i
            = page_content (mainMemory (machine u)) swap l i)
    ∧ ∀ i, page_content (mainMemory (machine u')) swap2 l2 i
           = page_content (mainMemory (machine u)) swap2 l2 i.
Proof.
  intros Hs Hv Hval Hs2 Hne Hp Hfree Hfree2.
  destruct (copy_page_spec u sp a swap l vpn e ppn Hs Hv Hval Hp Hfree)
    as (u' & l' & H & Hs' & He' & Hc & Hch). exists u', l'. split; [done|]. split; [done|].
  destruct (changes_kept _ _ _ _ _ _ _ _ _ Hch Hs2 Hne Hfree2) as [Hs2' Hc2]; done.
Qed.
End vm.

(** *** Which frame is given up *)

Lemma victim_loop_spec times shared n i tmin out :
  i + Z.of_nat n = zlen times → 0 ≤ i → aget times out = Some tmin → out ≠ shared →
  (∀ j t, 0 ≤ j < i → j ≠ shared → aget times j = Some t → tmin ≤ t) →
  ∃ p t, victim_loop n times shared i tmin out = Ok p ∧ p ≠ shared ∧ aget times p = Some t
    ∧ ∀ j t', j ≠ shared → aget times j = Some t' → t ≤ t'.
Proof.
  revert i tmin out. induction n as [|n IH]; intros i tmin out Hn Hi Hout Hne Hmin; simpl.
  - exists out, tmin. split; [done|]. split; [done|]. split; [done|]. intros j t' Hj Ht'.
    pose proof (aget_Some_lt _ _ _ Ht'). apply (Hmin j); [lia|done|done].
  - destruct (aread_total times i ltac:(lia)) as (t & Hr & Ht). rewrite Hr. simpl.
    destruct (Z.ltb_spec t tmin) as [Hlt|Hge]; simpl; [destruct (Z.eqb_spec i shared) as [->|His]|]; simpl.
    + apply IH; [lia|lia|done|done|]. intros j t' Hj Hjs Ht'.
      apply (Hmin j); [|done|done]. lia.
    + apply IH; [lia|lia|done|done|]. intros j t' Hj Hjs Ht'.
      destruct (decide (j = i)) as [->|]; [simplify_eq; lia|].
      specialize (Hmin j t' ltac:(lia) Hjs Ht'). lia.
    + apply IH; [lia|lia|done|done|]. intros j t' Hj Hjs Ht'.
      destruct (decide (j = i)) as [->|]; [simplify_eq; lia|].
      by apply (Hmin j); [lia|done|].
Qed.

(** When no frame is clear, the memory manager gives up the
    frame that was given out first, among all but the frame that the process
    is just copying from. *)
Theorem victim_is_oldest times shared :
  zlen times = NumPhysPages →
  ∃ p t, victim times shared = Ok p ∧ p ≠ shared ∧ aget times p = Some t
    ∧ ∀ j t', j ≠ shared → aget times j = Some t' → t ≤ t'.
Proof.
  intros Hl. unfold victim. set (out := if shared =? 0 then 1 else 0).
  assert (0 ≤ out < zlen times ∧ out ≠ shared) as [Hout Hne].
  { rewrite Hl. unfold out, NumPhysPages. destruct (Z.eqb_spec shared 0); lia. }
  destruct (aread_total times out Hout) as (t & Hr & Ht). rewrite Hr. unfold mbind, res_bind.
  apply victim_loop_spec; [|lia|done|done|lia].
  rewrite Hl. unfold NumPhysPages. lia.
Qed.

Lemma victim_is_oldest_witness :
  let times := 7 :: 3 :: 2 :: replicate 29 9 in
  zlen times = NumPhysPages ∧ victim times 2 = Ok 1 ∧
  ∃ p t, victim times 2 = Ok p ∧ p ≠ 2 ∧ aget times p = Some t
    ∧ ∀ j t', j ≠ 2 → aget times j = Some t' → t ≤ t'.
Proof.
  intros times. split; [reflexivity|]. split; [reflexivity|]. by apply (victim_is_oldest times 2).
Defined.
