(* ===== verification/VmDemo.v ===== *)
(** * The theorems of file VmSpec at concrete states *)
From S2P Require Import Prelude Word NList Bitmap Machine Coro Interrupt Threads Synch UserState UnixFs MemoryMgr AddrSpace Exceptions VmSpec.

(** Two processes of two pages; both have their page 0 in frame 3, the first
    one its page 1 in frame 5.  All frames hold fives. *)
Definition demo_table : list TranslationEntry :=
  [TE 0 3 true true true true true; TE 1 5 true false true true true].
Definition demo_table2 : list TranslationEntry :=
  [TE 0 3 true true true true true; TE 1 (-1) false false false false false].
Definition demo_space (pcb swap table : positive) : AddrSpace :=
  MkAddrSpace pcb [] 0 0 0 (Some swap) 256 [] table 2.
Definition demo_pcb (pid : Z) : PCB := MkPCB pid None None Spec.empty 0 None empty_bits [].
Definition demo_swap : list Z := replicate 256 0.
Definition demo_host : Unix :=
  MkUnix ∅ {[ 1 := demo_swap; 2 := demo_swap ]} {[ 3 := (1, 0); 4 := (2, 0) ]}
    {[ 1%positive := (3, 0); 2%positive := (4, 0) ]} [].
Definition demo_machine : Machine (option ExceptionType) :=
  MkMachine (replicate (Z.to_nat MemorySize) 5) [] None None 0
    {[ 1%positive := demo_table; 2%positive := demo_table2 ]} SystemMode None.
Definition demo_user : UserKernel Unix :=
  MkUser demo_machine {[ 1%positive := demo_space 1 1 1; 2%positive := demo_space 2 2 2 ]}
    {[ 1%positive := demo_pcb 0; 2%positive := demo_pcb 1 ]} ∅ ∅
    (MkProcessMgr 0 empty_bits [] 1%positive) (MkMemoryMgr empty_bits 1%positive [] [] 0)
    (MkSOFMgr empty_bits []) 1%positive demo_host [].

Lemma demo_entry i x :
  aget demo_table i = Some x →
  (i = 0 ∧ x = TE 0 3 true true true true true) ∨ (i = 1 ∧ x = TE 1 5 true false true true true).
Proof.
  intros Hx. pose proof (aget_Some_lt _ _ _ Hx) as Hi. unfold zlen in Hi. simpl in Hi.
  assert (i = 0 ∨ i = 1) as [-> | ->] by lia; injection Hx as <-; auto.
Qed.

Lemma demo_entry2 i x :
  aget demo_table2 i = Some x →
  (i = 0 ∧ x = TE 0 3 true true true true true)
  ∨ (i = 1 ∧ x = TE 1 (-1) false false false false false).
Proof.
  intros Hx. pose proof (aget_Some_lt _ _ _ Hx) as Hi. unfold zlen in Hi. simpl in Hi.
  assert (i = 0 ∨ i = 1) as [-> | ->] by lia; injection Hx as <-; auto.
Qed.

Lemma demo_space_ok : space_ok demo_user 1 (demo_space 1 1 1) demo_swap demo_table.
Proof.
  split; [done|]. split; [by eexists|]. split; [by exists 1%positive|]. split; [done|].
  split; [done|]. split; [done|]. split; [done|]. split.
  - intros i x [[-> ->]|[-> ->]]%demo_entry; simpl; unfold NumPhysPages; lia.
  - intros i j x y [[-> ->]|[-> ->]]%demo_entry [[-> ->]|[-> ->]]%demo_entry; done.
Qed.

Lemma demo_space_ok2 : space_ok demo_user 2 (demo_space 2 2 2) demo_swap demo_table2.
Proof.
  split; [done|]. split; [by eexists|]. split; [by exists 2%positive|]. split; [done|].
  split; [done|]. split; [done|]. split; [done|]. split.
  - intros i x [[-> ->]|[-> ->]]%demo_entry2; simpl; unfold NumPhysPages; lia.
  - intros i j x y [[-> ->]|[-> ->]]%demo_entry2 [[-> ->]|[-> ->]]%demo_entry2; done.
Qed.

Lemma page_survives_witness :
  ∃ u1 swap1 l1, PageOut 1 5 demo_user = Ok (tt, u1)
    ∧ space_ok u1 1 (demo_space 1 1 1) swap1 l1
    ∧ (∀ i, page_content (mainMemory (machine u1)) swap1 l1 i
            = page_content (mainMemory (machine demo_user)) demo_swap demo_table i)
    ∧ (∀ sp2 a2 swap2 l2, space_ok demo_user sp2 a2 swap2 l2 → pageTable_ a2 ≠ 1%positive →
         (∀ f f2, Some 1%positive = Some f → swapfile a2 = Some f2 → apart demo_host f f2) →
         kept demo_user u1 sp2 a2 swap2 l2)
    ∧ ∀ (u2 : UserKernel Unix) virtAddr ppn,
        space_ok u2 1 (demo_space 1 1 1) swap1 l1 → 0 ≤ ppn < NumPhysPages →
        (∀ j x, aget l1 j = Some x → physicalPage x ≠ ppn) →
        true = true ∨ u32 virtAddr < u32 0 →
        ∃ u3 l3, (map_page 1 1 ppn ;; fill_frame 1 virtAddr 1 ppn) u2 = Ok (tt, u3)
          ∧ space_ok u3 1 (demo_space 1 1 1) swap1 l3
          ∧ page_content (mainMemory (machine u3)) swap1 l3 1
            = page_content (mainMemory (machine demo_user)) demo_swap demo_table 1
          ∧ (∀ i, i ≠ 1 → page_content (mainMemory (machine u3)) swap1 l3 i
                          = page_content (mainMemory (machine u2)) swap1 l1 i)
          ∧ (∀ k, 0 ≤ k < NumPhysPages → k ≠ ppn →
               block k (mainMemory (machine u3)) = block k (mainMemory (machine u2)))
          ∧ ∀ sp2 a2 swap2 l2, space_ok u2 sp2 a2 swap2 l2 → pageTable_ a2 ≠ 1%positive →
              (∀ j x, aget l2 j = Some x → physicalPage x ≠ ppn) →
              kept u2 u3 sp2 a2 swap2 l2.
Proof.
  exact (page_survives demo_user 1 (demo_space 1 1 1) demo_swap demo_table 1
           (TE 1 5 true false true true true) demo_space_ok eq_refl eq_refl (or_introl eq_refl)).
Defined.

Lemma copy_page_isolates_witness :
  ∃ u' l', copy_page 1 0 9 demo_user = Ok (3, u')
    ∧ space_ok u' 1 (demo_space 1 1 1) demo_swap l'
    ∧ space_ok u' 2 (demo_space 2 2 2) demo_swap demo_table2
    ∧ (∃ e', aget l' 0 = Some e' ∧ valid e' = true ∧ readOnly e' = false ∧ physicalPage e' = 9)
    ∧ (∀ i, page_content (mainMemory (machine u')) demo_swap l' i
            = page_content (mainMemory (machine demo_user)) demo_swap demo_table i)
    ∧ ∀ i, page_content (mainMemory (machine u')) demo_swap demo_table2 i
           = page_content (mainMemory (machine demo_user)) demo_swap demo_table2 i.
Proof.
  apply (copy_page_isolates demo_user 1 (demo_space 1 1 1) demo_swap demo_table 0
           (TE 0 3 true true true true true) 9 2 (demo_space 2 2 2) demo_swap demo_table2).
  - exact demo_space_ok.
  - reflexivity.
  - reflexivity.
  - exact demo_space_ok2.
  - discriminate.
  - unfold NumPhysPages. lia.
  - intros j x [[-> ->]|[-> ->]]%demo_entry; discriminate.
  - intros j x [[-> ->]|[-> ->]]%demo_entry2; discriminate.
Defined.
