(* ===== verification/UserCopySpec.v ===== *)
(** * AddrSpace::userReadWrite

    When the pages are in, the copy between a buffer of the kernel and the
    memory of a process is the copy of one flat array, however it is cut at
    the page boundaries; when the address is wrong it never returns. *)
From S2P Require Import Prelude Word NList Bitmap Machine Coro Interrupt Threads Synch UserState UnixFs MemoryMgr AddrSpace Exceptions VmSpec VmDemo.

(** ** The flat memory of a process *)

Definition vaddr (l : list TranslationEntry) (va : Z) : option Z :=
  e ← aget l (va / PageSize);
  if valid e then Some (physicalPage e * PageSize + va mod PageSize) else None.
Definition vbyte (mem : list Z) (l : list TranslationEntry) (va : Z) : option Z :=
  a ← vaddr l va; aget mem a.

(** The page tables that differ in the [use] bits only. *)
Definition same_but_use (e e' : TranslationEntry) : Prop :=
  physicalPage e = physicalPage e' ∧ valid e = valid e' ∧ readOnly e = readOnly e'
  ∧ dirty e = dirty e' ∧ zeroFilled e = zeroFilled e'.
Definition used (l l' : list TranslationEntry) : Prop := Forall2 same_but_use l l'.

#[export] Instance used_preorder : PreOrder used.
Proof.
  split.
  - intros l. induction l; constructor; [by split_and!|done].
  - intros l1 l2 l3 H. revert l3. induction H as [|x y l l' Hx Hl IH]; intros l3 H'.
    + inversion H'. constructor.
    + inversion H' as [|y' z l1' l3' Hy Hl']; subst. constructor; [|by apply IH].
      unfold same_but_use in *. naive_solver congruence.
Qed.

Lemma used_aget l l' i e :
  used l l' → aget l i = Some e → ∃ e', aget l' i = Some e' ∧ same_but_use e e'.
Proof.
  unfold aget. intros H. destruct (0 <=? i); [|done]. intros Hi.
  by destruct (Forall2_lookup_l _ _ _ _ _ H Hi) as (e' & He' & ?); eauto.
Qed.

Lemma used_zlen l l' : used l l' → zlen l = zlen l'.
Proof. intros H. unfold zlen. by rewrite (list.Forall2_length _ _ _ H). Qed.

Lemma used_vaddr l l' va : used l l' → vaddr l va = vaddr l' va.
Proof.
  intros H. unfold vaddr. destruct (aget l (va / PageSize)) as [e|] eqn:E.
  - destruct (used_aget _ _ _ _ H E) as (e' & -> & Hp & Hv & _). simpl. by rewrite Hp, Hv.
  - destruct (aget l' (va / PageSize)) as [e'|] eqn:E'; [|done].
    apply aget_Some_lt in E'. apply aget_None in E. by rewrite (used_zlen _ _ H) in E.
Qed.

Lemma used_insert l i e e' :
  aget l i = Some e → same_but_use e e' → used l (<[Z.to_nat i := e']> l).
Proof.
  unfold aget. destruct (0 <=? i); [|done]. intros Hi He.
  rewrite <- (list_insert_id l (Z.to_nat i) e Hi) at 1. by apply Forall2_insert; [reflexivity|].
Qed.

Section copy.
Context {V : Type} `{!Files V}.
#[local] Abbreviation U := (UserKernel V).
#[local] Abbreviation K := (Kernel user_fun (UserKernel V)).
#[local] Abbreviation kcode := (code (Kernel user_fun (UserKernel V)) user_fun).
Variables (yield : kcode unit) (call : user_fun → kcode unit).
Variables (start : tid → M K (option (kcode unit))) (me : tid).
#[local] Abbreviation cwp := (Coro.cwp yield call start me).

(** The process at [sp] has the page table [l], and the memory is [mem]. *)
Definition mapped (k : K) (sp : positive) (a : AddrSpace) l (mem : list Z) : Prop :=
  spaces (user k) !! sp = Some a ∧ tables (machine (user k)) !! pageTable_ a = Some l
  ∧ zlen l = numPages a ∧ mainMemory (machine (user k)) = mem ∧ zlen mem = MemorySize
  ∧ ∀ i e, aget l i = Some e → valid e = true → 0 ≤ physicalPage e < NumPhysPages.

Lemma cwp_user {A} (m : M U A) (k : K) a u (Q : A → K → Prop) :
  m (user k) = Ok (a, u) → Q a (set_user u k) → cwp (run_user m) k Q.
Proof.
  intros Hm HQ. apply cwp_run. unfold wp, on_user, get, lift, modify, mbind, M_bind. by rewrite Hm.
Qed.

(** A page that is in is reached. *)
Lemma Translate_Ok k sp a l mem va size e (Q : option Z → K → Prop) :
  mapped k sp a l mem → 0 ≤ va → 0 ≤ size → va mod PageSize + size ≤ PageSize →
  aget l (va / PageSize) = Some e → valid e = true →
  (∀ k' l', mapped k' sp a l' mem → used l l' →
     Q (Some (physicalPage e * PageSize + va mod PageSize)) k') →
  cwp (Translate sp va size) k Q.
Proof.
  intros (Ha & Ht & Hl & Hm & Hmem & Hok) Hva Hsz Hfit He Hv HQ.
  unfold Translate. destruct (Z.ltb_spec va 0); [lia|].
  pose proof (aget_Some_lt _ _ _ He) as Hr. pose proof (Hok _ _ He Hv) as Hp.
  apply cwp_bind, (cwp_user _ _ a (user k)); [by apply space_at_Ok|].
  set (k1 := set_user (user k) k). destruct (Z.leb_spec (numPages a) (va / PageSize)); [lia|].
  apply cwp_bind, (cwp_user _ _ e (user k)); [by eapply get_page_Ok|].
  rewrite Hv. apply cwp_bind, cwp_ret.
  set (e' := TE (virtualPage e) (physicalPage e) (valid e) (readOnly e) true (dirty e) (zeroFilled e)).
  assert (same_but_use e e') as Hs by (by split_and!).
  assert (u32 (physicalPage e) = physicalPage e) as Hu
    by (unfold u32; apply Z.mod_small; unfold NumPhysPages in Hp; lia).
  pose proof (Z.mod_pos_bound va PageSize ltac:(done)) as Hmod.
  apply (cwp_user _ _ (Some (physicalPage e * PageSize + va mod PageSize))
           (with_page (pageTable_ a) l (va / PageSize) e' (user k))).
  - unfold frame_address. rewrite (M_bind_step _ _ _ _ _ (space_at_Ok _ _ _ Ha)).
    rewrite (M_bind_step _ _ _ _ _ (get_page_Ok _ _ _ _ _ Ht He)). rewrite Hu.
    destruct (Z.leb_spec NumPhysPages (physicalPage e)); [lia|].
    rewrite (M_bind_step _ _ _ _ _ (put_page_Ok _ _ _ _ e' Ht Hr)).
    unfold lift, ASSERT, mbind, M_bind.
    rewrite (proj2 (Z.leb_le _ _)), (proj2 (Z.leb_le _ _)); [done|..];
      unfold MemorySize, NumPhysPages, PageSize, SectorSize in *; lia.
  - apply (HQ _ (<[Z.to_nat (va / PageSize) := e']> l)).
    + split; [done|]. split; [apply lookup_insert_eq|]. split; [by rewrite zlen_insert|].
      split; [done|]. split; [done|]. intros i x. rewrite aget_insert by done.
      case_decide; [|apply Hok]. by intros [= <-].
    + by eapply used_insert.
Qed.

(** ** Copying out of the memory *)

Lemma vaddr_page l va : is_Some (vaddr l va) →
  ∃ e, aget l (va / PageSize) = Some e ∧ valid e = true
       ∧ vaddr l va = Some (physicalPage e * PageSize + va mod PageSize).
Proof.
  unfold vaddr. intros [x Hx]. destruct (aget l (va / PageSize)) as [e|]; [|done]. simpl in *.
  destruct (valid e) eqn:Ev; [|done]. exists e. split; [done|]. split; [done|]. done.
Qed.

(** The addresses of one page. *)
Lemma vaddr_offset l va e j :
  aget l (va / PageSize) = Some e → valid e = true →
  0 ≤ j → va mod PageSize + j < PageSize →
  vaddr l (va + j) = Some (physicalPage e * PageSize + va mod PageSize + j).
Proof.
  intros He Hv Hj Hlt. unfold vaddr, PageSize, SectorSize in *.
  pose proof (Z.div_mod va 128 ltac:(done)) as Hd. pose proof (Z.mod_pos_bound va 128 ltac:(done)).
  assert ((va + j) / 128 = va / 128) as ->.
  { symmetry. apply (Z.div_unique _ _ _ (va mod 128 + j)); lia. }
  assert ((va + j) mod 128 = va mod 128 + j) as ->.
  { symmetry. apply (Z.mod_unique _ _ (va / 128)); lia. }
  rewrite He. simpl. rewrite Hv. f_equal. lia.
Qed.

(** How far the copy has come. *)
Definition copied (mem : list Z) l (buffer : list Z) (va size c : Z) (v : rw_vars) : Prop :=
  curVirtAddr v = va + c ∧ curBuffer v = c ∧ leftSize v = size - c ∧ 0 ≤ c ≤ size
  ∧ zlen (rw_buffer v) = zlen buffer
  ∧ ∀ i, 0 ≤ i < zlen buffer →
      aget (rw_buffer v) i = if i <? c then vbyte mem l (va + i) else aget buffer i.

Lemma aget_splice (b bs : list Z) c i :
  0 ≤ c → c + zlen bs ≤ zlen b → 0 ≤ i →
  aget (splice (Z.to_nat c) bs b) i
  = if (c <=? i) && (i <? c + zlen bs) then aget bs (i - c) else aget b i.
Proof.
  intros Hc Hb Hi. unfold aget, zlen in *. destruct (Z.leb_spec 0 i); [|lia].
  rewrite lookup_splice by lia.
  destruct (Z.leb_spec c i), (Z.ltb_spec i (c + Z.of_nat (length bs))); simpl;
    (case_decide; [|try done; lia]); try lia.
  destruct (Z.leb_spec 0 (i - c)); [|lia]. f_equal. lia.
Qed.

Lemma copy_part_Ok k sp a l l0 mem buffer va size c n v (Q : rw_vars → K → Prop) :
  mapped k sp a l mem → used l0 l → copied mem l0 buffer va size c v →
  (∀ i, 0 ≤ i < size → is_Some (vaddr l0 (va + i))) →
  0 ≤ va → va + size < 2 ^ 31 → size ≤ zlen buffer → 0 < size →
  0 < n → c + n ≤ size → (va + c) mod PageSize + n ≤ PageSize →
  (∀ k' l' v', mapped k' sp a l' mem → used l0 l' → copied mem l0 buffer va size (c + n) v' → Q v' k') →
  cwp (copy_part sp FromMemory n v) k Q.
Proof.
  intros Hk Hu (Ecv & Ecb & Els & Hc & Hlen & Hb) Hres Hva Hmax Hbuf Hs0 Hn Hcn Hfit HQ.
  unfold copy_part. rewrite Ecv.
  assert (is_Some (vaddr l (va + c))) as Hr by (rewrite <- (used_vaddr _ _ _ Hu); apply Hres; lia).
  destruct (vaddr_page _ _ Hr) as (e & He & Hv & _).
  pose proof Hk as (_ & _ & _ & _ & Hmem & Hok). pose proof (Hok _ _ He Hv) as Hp.
  set (pa := physicalPage e * PageSize + (va + c) mod PageSize).
  assert (0 ≤ pa ∧ pa + n ≤ MemorySize) as [Hpa0 Hpa].
  { unfold pa. pose proof (Z.mod_pos_bound (va + c) PageSize ltac:(done)).
    unfold MemorySize, NumPhysPages, PageSize, SectorSize in *. lia. }
  apply cwp_bind. eapply Translate_Ok; [exact Hk|lia|lia|exact Hfit|exact He|exact Hv|].
  intros k1 l1 Hk1 Hu1. fold pa.
  set (bs := slice (Z.to_nat pa) (Z.to_nat n) mem).
  assert (zlen bs = n) as Hbs by (unfold bs, zlen in *; rewrite length_slice; lia).
  set (b' := splice (Z.to_nat c) bs (rw_buffer v)).
  apply cwp_bind, (cwp_user _ _ b' (set_machine (machine (user k1)) (user k1))).
  - unfold copy_bytes. rewrite Ecb.
    destruct (Z.ltb_spec c 0); [lia|]. destruct (Z.ltb_spec (zlen (rw_buffer v)) (c + n)); [lia|].
    destruct (Z.ltb_spec n 0); [lia|]. simpl.
    destruct Hk1 as (_ & _ & _ & Hm1 & _).
    erewrite M_bind_step; [reflexivity|]. apply on_machine_Ok.
    unfold mem_read, get, lift, mbind, M_bind. rewrite Hm1, Hmem.
    rewrite (proj2 (Z.leb_le _ _)), (proj2 (Z.leb_le _ _)); [done|lia|lia].
  - apply cwp_ret. apply (HQ _ l1); [by destruct k1 as [? ? ? ? ? ? ? ? []]|by etrans|].
    assert (add32 (va + c) n = va + (c + n)) as E1
      by (unfold add32; rewrite s32_id; [lia|unfold in_s32; lia]).
    assert (add32 c n = c + n) as E2 by (unfold add32; rewrite s32_id; [lia|unfold in_s32; lia]).
    assert (sub32 (leftSize v) n = size - (c + n)) as E3
      by (unfold sub32; rewrite Els, s32_id; [lia|unfold in_s32; lia]).
    unfold copied. simpl. rewrite Ecb, E1, E2, E3.
    assert (zlen b' = zlen buffer) as Hb'
      by (unfold b'; rewrite zlen_splice; [done|unfold zlen in *; lia]).
    split_and!; try done; try lia. intros i Hi. unfold b'. rewrite aget_splice by lia.
    rewrite Hbs. destruct (Z.leb_spec c i); simpl.
    + destruct (Z.ltb_spec i (c + n)).
      * unfold vbyte. rewrite (used_vaddr _ _ _ Hu).
        replace (va + i) with (va + c + (i - c)) by lia.
        rewrite (vaddr_offset l (va + c) e (i - c)) by (done || lia). simpl.
        unfold bs, aget. destruct (Z.leb_spec 0 (i - c)); [|lia]. fold pa.
        destruct (Z.leb_spec 0 (pa + (i - c))); [|lia].
        rewrite lookup_slice by lia. f_equal. lia.
      * rewrite Hb by done. by destruct (Z.ltb_spec i c); [lia|].
    + rewrite Hb by done. destruct (Z.ltb_spec i c); [|lia]. by destruct (Z.ltb_spec i (c + n)); [|lia].
Qed.

(** The loop over the whole pages. *)
Lemma copy_pages_Ok n k sp a l l0 mem buffer va size c v (Q : rw_vars → K → Prop) :
  mapped k sp a l mem → used l0 l → copied mem l0 buffer va size c v →
  (∀ i, 0 ≤ i < size → is_Some (vaddr l0 (va + i))) →
  0 ≤ va → va + size < 2 ^ 31 → size ≤ zlen buffer → 0 < size →
  (va + c) mod PageSize = 0 ∨ c = size → size - c < PageSize * Z.of_nat (S n) →
  (∀ k' l' v' c', mapped k' sp a l' mem → used l0 l' → copied mem l0 buffer va size c' v' →
     (va + c') mod PageSize = 0 ∨ c' = size → size - c' < PageSize → Q v' k') →
  cwp (iterate (copy_pages sp FromMemory) v) k Q.
Proof.
  intros Hk Hu Hv Hres Hva Hmax Hbuf Hs0 Hal Hn HQ. revert k l c v Hk Hu Hv Hal Hn.
  induction n as [|n IH]; intros k l c v Hk Hu Hv Hal Hn; apply cwp_iterate; unfold copy_pages;
    pose proof Hv as (_ & _ & Els & Hc & _); rewrite Els.
  - destruct (Z.leb_spec PageSize (size - c)); [lia|]. apply cwp_ret. eapply HQ; eauto.
  - destruct (Z.leb_spec PageSize (size - c)); [|apply cwp_ret; eapply HQ; eauto].
    unfold PageSize, SectorSize in *. destruct Hal as [Hal| ->]; [|lia].
    apply cwp_bind. eapply copy_part_Ok; try eassumption; [lia|lia|unfold PageSize, SectorSize; lia|].
    intros k1 l1 v1 Hk1 Hu1 Hv1. apply cwp_ret.
    apply (IH k1 l1 (c + 128) v1); try done; [|lia]. left.
    replace (va + (c + 128)) with (va + c + 1 * 128) by lia. by rewrite Z.mod_add.
Qed.

(** C15.  What [userReadWrite] copies out of the memory of a
    process whose pages are in is the range of its flat memory that starts at
    the address, wherever the page boundaries are and wherever its pages are;
    the rest of the buffer and the memory are as before, and it returns. *)
Theorem userReadWrite_reads k sp a l mem buffer va size :
  mapped k sp a l mem → (∀ i, 0 ≤ i < size → is_Some (vaddr l (va + i))) →
  0 ≤ va → va + size < 2 ^ 31 → 0 < size ≤ zlen buffer →
  cwp (userReadWrite sp buffer va size FromMemory) k (λ b k',
    (∃ l', mapped k' sp a l' mem ∧ used l l') ∧ zlen b = zlen buffer
    ∧ ∀ i, 0 ≤ i < zlen buffer →
        aget b i = if i <? size then vbyte mem l (va + i) else aget buffer i).
Proof.
  intros Hk Hres Hva Hmax [Hs0 Hbuf]. unfold userReadWrite.
  assert (copied mem l buffer va size 0 (RW buffer va 0 size)) as Hv0.
  { unfold copied. simpl. split_and!; try done; try lia. intros i Hi.
    by destruct (Z.ltb_spec i 0); [lia|]. }
  assert (Z.rem va PageSize = va mod PageSize) as -> by (apply Z.rem_mod_nonneg; [lia|done]).
  pose proof (Z.mod_pos_bound va PageSize ltac:(done)) as Hmod.
  (* up to the next page boundary *)
  apply cwp_bind.
  apply (cwp_mono _ _ _ _ _ _ (λ v k', ∃ l' c, mapped k' sp a l' mem ∧ used l l'
    ∧ copied mem l buffer va size c v ∧ ((va + c) mod PageSize = 0 ∨ c = size))).
  { destruct (Z.eqb_spec (va mod PageSize) 0) as [E|E]; simpl.
    - apply cwp_ret. exists l, 0. rewrite Z.add_0_r. split; [done|]. split; [reflexivity|]. auto.
    - eapply copy_part_Ok; try eassumption; [reflexivity|lia|lia|rewrite Z.add_0_r; lia|].
      intros k1 l1 v1 Hk1 Hu1 Hv1. eexists l1, _. split; [done|]. split; [done|]. split; [exact Hv1|].
      unfold PageSize, SectorSize in *. destruct (Z.min_spec size (128 - va mod 128)) as [[? ->]|[? ->]].
      + right. lia.
      + left. rewrite Z.add_0_l. pose proof (Z.div_mod va 128 ltac:(done)).
        replace (va + (128 - va mod 128)) with ((va / 128 + 1) * 128) by lia. by apply Z.mod_mul. }
  intros v1 k1 (l1 & c1 & Hk1 & Hu1 & Hv1 & Hal1).
  (* the whole pages *)
  apply cwp_bind. eapply (copy_pages_Ok (Z.to_nat size)); try eassumption.
  { destruct Hv1 as (_ & _ & _ & Hc & _). unfold PageSize, SectorSize. lia. }
  intros k2 l2 v2 c2 Hk2 Hu2 Hv2 Hal2 Hleft.
  (* the rest *)
  apply cwp_bind.
  apply (cwp_mono _ _ _ _ _ _ (λ v k', ∃ l', mapped k' sp a l' mem ∧ used l l'
    ∧ copied mem l buffer va size size v)).
  { pose proof Hv2 as (_ & _ & Els & Hc & _). rewrite Els.
    destruct (Z.eqb_spec (size - c2) 0) as [E|E]; simpl.
    - apply cwp_ret. exists l2. assert (c2 = size) as -> by lia. done.
    - destruct Hal2 as [Hal2| ->]; [|lia].
      eapply copy_part_Ok; try eassumption; [lia|lia|lia|].
      intros k3 l3 v3 Hk3 Hu3 Hv3. exists l3. split; [done|]. split; [done|].
      by replace (c2 + (size - c2)) with size in Hv3 by lia. }
  intros v3 k3 (l3 & Hk3 & Hu3 & (_ & Ecb & _ & _ & Hlen & Hb)).
  apply cwp_bind, cwp_run. rewrite Ecb, Z.eqb_refl. apply wp_elim.
  eexists _, _. split; [done|]. apply cwp_ret. split; [eauto|]. split; [done|exact Hb].
Qed.

(** ** An address that is wrong *)

Lemma copy_part_wrong sp opt n v :
  curVirtAddr v < 0 → copy_part sp opt n v = (mret v : kcode rw_vars).
Proof.
  intros Hv. unfold copy_part, Translate. by destruct (Z.ltb_spec (curVirtAddr v) 0); [|lia].
Qed.

(** [userReadWrite] never returns when it is given a negative
    address and at least a page of bytes: [Translate] fails, and the loop that
    copies whole pages goes on without having copied anything.  A user program
    stops the kernel with [Write] from such an address. *)
Theorem userReadWrite_hangs n k sp buffer va size opt :
  va < 0 → PageSize ≤ size →
  eval yield call start me n (userReadWrite sp buffer va size opt) k = NoFuel.
Proof.
  intros Hva Hsize. set (v := RW buffer va 0 size).
  assert (∀ (f : rw_vars → kcode (list Z)),
    eval yield call start me n (Loop (copy_pages sp opt) v f) k = NoFuel) as Hloop.
  { assert (copy_pages sp opt v = (mret (inl v) : kcode (rw_vars + rw_vars))) as Hstep.
    { unfold copy_pages. rewrite copy_part_wrong by done.
      destruct (Z.leb_spec PageSize (leftSize v)); [done|simpl in *; lia]. }
    intros f. clear Hsize. revert k. induction n as [|n' IH]; intros k; [done|].
    cbn [eval]. unfold unroll. rewrite Hstep. apply IH. }
  unfold userReadWrite. fold v. rewrite !copy_part_wrong by done.
  destruct (negb (Z.rem va PageSize =? 0)); apply Hloop.
Qed.
End copy.

(** ** Two concrete calls *)

Definition demo_kernel : Kernel user_fun (UserKernel Unix) := set_user demo_user (user_boot demo_host demo_machine).
Definition no_code : code (Kernel user_fun (UserKernel Unix)) user_fun unit := mret tt.
Definition no_thread : tid → M (Kernel user_fun (UserKernel Unix)) (option (code (Kernel user_fun (UserKernel Unix)) user_fun unit)) :=
  λ _, mret None.

Lemma demo_vaddr i : 0 ≤ i < 156 → is_Some (vaddr demo_table (100 + i)).
Proof.
  intros Hi. unfold vaddr, PageSize, SectorSize.
  assert ((100 + i) / 128 = 0 ∨ (100 + i) / 128 = 1) as [-> | ->]; [|by eexists..].
  assert (0 ≤ (100 + i) / 128 < 2); [|lia].
  split; [apply Z.div_pos; lia|apply Z.div_lt_upper_bound; lia].
Qed.

(** Sixty bytes that begin in page 0, in frame 3, and end in page 1, in frame 5. *)
Lemma userReadWrite_reads_witness :
  cwp no_code (λ _, no_code) no_thread 1%positive
    (userReadWrite 1 (replicate 64 0) 100 60 FromMemory) demo_kernel (λ b k',
      (∃ l', mapped k' 1 (demo_space 1 1 1) l' (mainMemory demo_machine) ∧ used demo_table l')
      ∧ zlen b = 64
      ∧ ∀ i, 0 ≤ i < 64 →
          aget b i = if i <? 60 then vbyte (mainMemory demo_machine) demo_table (100 + i)
                     else aget (replicate 64 0) i).
Proof.
  apply (userReadWrite_reads no_code (λ _, no_code) no_thread 1%positive demo_kernel 1
           (demo_space 1 1 1) demo_table (mainMemory demo_machine) (replicate 64 0) 100 60).
  - split; [reflexivity|]. split; [reflexivity|]. split; [reflexivity|].
    split; [reflexivity|]. split; [reflexivity|].
    intros i x [[-> ->]|[-> ->]]%demo_entry _; simpl; unfold NumPhysPages; lia.
  - intros i Hi. apply demo_vaddr. lia.
  - lia.
  - lia.
  - vm_compute. split; [reflexivity|discriminate].
Defined.

Lemma userReadWrite_hangs_witness :
  eval no_code (λ _, no_code) no_thread 1%positive 1000
    (userReadWrite 1 (replicate 200 0) (-1) 200 FromMemory) demo_kernel = NoFuel.
Proof. apply userReadWrite_hangs; [reflexivity|discriminate]. Defined.
